(** * YandereOS kernel core: a shallow embedding of [kernel.h] and the kernel
    implementation, with the properties of the task table, scheduler,
    watchdog, heap, mailboxes, semaphores and system-call dispatcher.

    Conventions of the embedding.
    - [int] values are [Z]; every [int] operation of the kernel is guarded
      by a range test in the source, so no signed overflow is written out.
    - [uint32_t] and [size_t] values are [Z] with the wrap-around at 2^32
      written out ([u32]); the kernel targets 32-bit boards.
    - C arrays are lists, read with [!!] and written with [<[ i := x ]>].
    - Every [millis()] call site is an explicit argument of the operation.
    - The outside world (serial lines, peripheral calls, entry points
      invoked) is the [trace] field of the kernel state, newest last. *)

From Stdlib Require Import ZArith Lia Bool.
From Stdlib Require Import Strings.String Strings.Byte.
From stdpp Require Import base list.

Local Open Scope Z_scope.

(** ** Configuration ([kernel.h]) *)

Definition MAX_TASKS : Z := 8.
Definition MAX_FILE_HANDLES : Z := 16.
Definition MAX_DIR_HANDLES : Z := 4.
Definition MAX_MESSAGE_QUEUE_SIZE : Z := 16.
Definition MAX_SEMAPHORES : Z := 8.
Definition MAX_STACK_TRACE_DEPTH : Z := 8.
Definition WATCHDOG_TIMEOUT_MS : Z := 5000.
Definition MESSAGE_DATA_SIZE : Z := 64.

(** The constants that depend on the board the kernel is built for:
    [KERNEL_HEAP_SIZE] (2 KB to 512 KB by the conditional definitions of
    [kernel.h]), [sizeof(MemoryBlock)] (fixed by the compiler's layout of
    the struct) and the address at which the linker puts [kernelHeap]. *)
Class Target : Type := mkTarget {
  KERNEL_HEAP_SIZE : Z;
  sizeof_MemoryBlock : Z;
  kernelHeap_address : Z
}.

(** [enum SyscallResult] *)
Definition SYS_OK : Z := 0.
Definition SYS_ERR_INVALID_CALL : Z := -1.
Definition SYS_ERR_PERMISSION : Z := -2.
Definition SYS_ERR_NO_MEMORY : Z := -3.
Definition SYS_ERR_NOT_FOUND : Z := -4.
Definition SYS_ERR_IO_ERROR : Z := -5.
Definition SYS_ERR_INVALID_PARAM : Z := -6.
Definition SYS_ERR_TIMEOUT : Z := -7.
Definition SYS_ERR_WOULD_BLOCK : Z := -8.

(** Unsigned 32-bit wrap-around ([uint32_t], [size_t]). *)
Definition u32 (z : Z) : Z := z mod 2 ^ 32.

(** Conversion to [int] of a value that does not fit (two's complement). *)
Definition s32 (z : Z) : Z := (z + 2 ^ 31) mod 2 ^ 32 - 2 ^ 31.

(** Conversion to [uint8_t]. *)
Definition u8 (z : Z) : Z := z mod 2 ^ 8.

(** ** Data model ([kernel.h]) *)

Inductive TaskState : Type :=
| TASK_EMPTY | TASK_READY | TASK_RUNNING | TASK_SLEEPING | TASK_BLOCKED
| TASK_ZOMBIE.

Definition TaskState_eqb (a b : TaskState) : bool :=
  match a, b with
  | TASK_EMPTY, TASK_EMPTY | TASK_READY, TASK_READY
  | TASK_RUNNING, TASK_RUNNING | TASK_SLEEPING, TASK_SLEEPING
  | TASK_BLOCKED, TASK_BLOCKED | TASK_ZOMBIE, TASK_ZOMBIE => true
  | _, _ => false
  end.

(** A task entry point (a pointer to a function without arguments) is the
    address of its code; [None] is the null pointer. *)
Definition EntryPoint : Type := option nat.

Record StackFrame : Type := mkStackFrame {
  returnAddress : option nat;
  functionName : option string
}.

Record Task : Type := mkTask {
  task_id : Z;
  task_name : option string;
  task_state : TaskState;
  task_entryPoint : EntryPoint;
  task_sleepUntil : Z;
  task_lastRun : Z;
  task_lastYield : Z;
  task_priority : Z;
  task_fileHandles : list bool;
  task_dirHandles : list bool;
  task_memoryUsed : Z;
  task_stackTrace : list StackFrame;
  task_stackTraceDepth : Z;
  canAccessSD : bool;
  canAccessDisplay : bool;
  canCreateTasks : bool;
  canAccessGPIO : bool;
  canAccessI2C : bool;
  canAccessSPI : bool
}.

Record MemoryBlock : Type := mkMemoryBlock {
  blk_size : Z;
  blk_ownerTaskId : Z;
  blk_inUse : bool;
  blk_handleId : Z
}.

Record Message : Type := mkMessage {
  msg_fromTaskId : Z;
  msg_toTaskId : Z;
  msg_data : list byte;
  msg_length : Z;
  msg_timestamp : Z;
  msg_valid : bool
}.

Record MessageQueue : Type := mkMessageQueue {
  mq_messages : list Message;
  mq_head : Z;
  mq_tail : Z;
  mq_count : Z
}.

Record Semaphore : Type := mkSemaphore {
  sem_value : Z;
  sem_maxValue : Z;
  sem_inUse : bool;
  sem_ownerTaskId : Z;
  sem_name : option string
}.

(** An Arduino [File] object is opaque here: [None] is a closed or failed
    file (the object tests false), [Some n] an open one. *)
Definition File : Type := option nat.

Record FileHandle : Type := mkFileHandle {
  fh_file : File;
  fh_ownerTaskId : Z;
  fh_inUse : bool;
  fh_canWrite : bool
}.

Record DirHandle : Type := mkDirHandle {
  dh_dir : File;
  dh_ownerTaskId : Z;
  dh_inUse : bool
}.

Record DirEntry : Type := mkDirEntry {
  de_name : string;
  de_isDirectory : bool;
  de_size : Z
}.

(** What the kernel does to the outside world. *)
Inductive Event : Type :=
| LogTaskCreated (name : option string) (id : Z)
| LogTaskKilled (name : option string)
| LogWatchdogEnabled (enable : bool)
| LogWatchdogForced (name : option string) (timeSinceYield : Z)
| LogOutOfSpace
| LogOutOfMemory
| LogInvalidFree
| LogCompacting
| LogCompacted (freedSpace : Z) (movedBlocks : Z)
| LogPointersInvalid
| LogPrint (task : option string) (message : option string)
| LogDebug (message : option string)
| LogBoot (sdMounted : bool)
| LogPanic (message : string)
| Invoke (entry : nat)
| CopyOut (data : list byte)
| StoreFrom (taskId : Z)
| StoreDirEntry (e : DirEntry)
| FileClosed (f : File)
| SdOpen (path : option string) (write : bool)
| SdRemove (path : option string)
| SdMkdir (path : option string)
| SdRmdir (path : option string)
| FileRead (f : File) (size : Z)
| FileWrite (f : File) (size : Z)
| HwPinMode (pin mode : Z)
| HwDigitalWrite (pin value : Z)
| HwAnalogWrite (pin value : Z)
| HwWireBegin (address : Z)
| HwWireWrite (address : Z) (data : list byte)
| HwWireProbe (address : Z)
| HwWireRequest (address : Z) (quantity : Z)
| HwSpiBegin
| HwSpiTransfer (tx : list byte)
| HwSpiEnd
| HwRewindDirectory (f : File).

(** The [Kernel] class: its static members, and the outside world. *)
Record kernel : Type := mkKernel {
  tasks : list Task;
  currentTaskId : Z;
  nextTaskId : Z;
  kernelHeap : list MemoryBlock;
  heapUsed : Z;
  fileHandles : list FileHandle;
  dirHandles : list DirHandle;
  sdInitialized : bool;
  messageQueues : list MessageQueue;
  semaphores : list Semaphore;
  watchdogEnabled : bool;
  watchdogLastCheck : Z;
  initialized : bool;
  bootTime : Z;
  trace : list Event
}.

(** How a kernel operation ends: it returns a value, or the kernel halts in
    [panic] (which never returns), or a busy-wait loop is still spinning
    when the fuel given to the embedding runs out, or the source reads
    memory that the embedding does not describe. *)
Inductive outcome (A : Type) : Type :=
| Returns (a : A) (k : kernel)
| Halts (k : kernel)
| Spins (k : kernel)
| Undefined.
Arguments Returns {A} a k.
Arguments Halts {A} k.
Arguments Spins {A} k.
Arguments Undefined {A}.

(** *** Field updates *)

Definition set_task_state (s : TaskState) (t : Task) : Task :=
  mkTask (task_id t) (task_name t) s (task_entryPoint t) (task_sleepUntil t)
    (task_lastRun t) (task_lastYield t) (task_priority t)
    (task_fileHandles t) (task_dirHandles t) (task_memoryUsed t)
    (task_stackTrace t) (task_stackTraceDepth t) (canAccessSD t)
    (canAccessDisplay t) (canCreateTasks t) (canAccessGPIO t)
    (canAccessI2C t) (canAccessSPI t).

Definition set_task_id (i : Z) (t : Task) : Task :=
  mkTask i (task_name t) (task_state t) (task_entryPoint t)
    (task_sleepUntil t) (task_lastRun t) (task_lastYield t)
    (task_priority t) (task_fileHandles t) (task_dirHandles t)
    (task_memoryUsed t) (task_stackTrace t) (task_stackTraceDepth t)
    (canAccessSD t) (canAccessDisplay t) (canCreateTasks t)
    (canAccessGPIO t) (canAccessI2C t) (canAccessSPI t).

Definition set_task_sleepUntil (v : Z) (t : Task) : Task :=
  mkTask (task_id t) (task_name t) (task_state t) (task_entryPoint t) v
    (task_lastRun t) (task_lastYield t) (task_priority t)
    (task_fileHandles t) (task_dirHandles t) (task_memoryUsed t)
    (task_stackTrace t) (task_stackTraceDepth t) (canAccessSD t)
    (canAccessDisplay t) (canCreateTasks t) (canAccessGPIO t)
    (canAccessI2C t) (canAccessSPI t).

Definition set_task_lastRun (v : Z) (t : Task) : Task :=
  mkTask (task_id t) (task_name t) (task_state t) (task_entryPoint t)
    (task_sleepUntil t) v (task_lastYield t) (task_priority t)
    (task_fileHandles t) (task_dirHandles t) (task_memoryUsed t)
    (task_stackTrace t) (task_stackTraceDepth t) (canAccessSD t)
    (canAccessDisplay t) (canCreateTasks t) (canAccessGPIO t)
    (canAccessI2C t) (canAccessSPI t).

Definition set_task_lastYield (v : Z) (t : Task) : Task :=
  mkTask (task_id t) (task_name t) (task_state t) (task_entryPoint t)
    (task_sleepUntil t) (task_lastRun t) v (task_priority t)
    (task_fileHandles t) (task_dirHandles t) (task_memoryUsed t)
    (task_stackTrace t) (task_stackTraceDepth t) (canAccessSD t)
    (canAccessDisplay t) (canCreateTasks t) (canAccessGPIO t)
    (canAccessI2C t) (canAccessSPI t).

Definition set_task_fileHandles (v : list bool) (t : Task) : Task :=
  mkTask (task_id t) (task_name t) (task_state t) (task_entryPoint t)
    (task_sleepUntil t) (task_lastRun t) (task_lastYield t)
    (task_priority t) v (task_dirHandles t) (task_memoryUsed t)
    (task_stackTrace t) (task_stackTraceDepth t) (canAccessSD t)
    (canAccessDisplay t) (canCreateTasks t) (canAccessGPIO t)
    (canAccessI2C t) (canAccessSPI t).

Definition set_task_dirHandles (v : list bool) (t : Task) : Task :=
  mkTask (task_id t) (task_name t) (task_state t) (task_entryPoint t)
    (task_sleepUntil t) (task_lastRun t) (task_lastYield t)
    (task_priority t) (task_fileHandles t) v (task_memoryUsed t)
    (task_stackTrace t) (task_stackTraceDepth t) (canAccessSD t)
    (canAccessDisplay t) (canCreateTasks t) (canAccessGPIO t)
    (canAccessI2C t) (canAccessSPI t).

Definition set_task_memoryUsed (v : Z) (t : Task) : Task :=
  mkTask (task_id t) (task_name t) (task_state t) (task_entryPoint t)
    (task_sleepUntil t) (task_lastRun t) (task_lastYield t)
    (task_priority t) (task_fileHandles t) (task_dirHandles t) v
    (task_stackTrace t) (task_stackTraceDepth t) (canAccessSD t)
    (canAccessDisplay t) (canCreateTasks t) (canAccessGPIO t)
    (canAccessI2C t) (canAccessSPI t).

Definition set_tasks (v : list Task) (k : kernel) : kernel :=
  mkKernel v (currentTaskId k) (nextTaskId k) (kernelHeap k) (heapUsed k)
    (fileHandles k) (dirHandles k) (sdInitialized k) (messageQueues k)
    (semaphores k) (watchdogEnabled k) (watchdogLastCheck k)
    (initialized k) (bootTime k) (trace k).

Definition set_currentTaskId (v : Z) (k : kernel) : kernel :=
  mkKernel (tasks k) v (nextTaskId k) (kernelHeap k) (heapUsed k)
    (fileHandles k) (dirHandles k) (sdInitialized k) (messageQueues k)
    (semaphores k) (watchdogEnabled k) (watchdogLastCheck k)
    (initialized k) (bootTime k) (trace k).

Definition set_kernelHeap (v : list MemoryBlock) (k : kernel) : kernel :=
  mkKernel (tasks k) (currentTaskId k) (nextTaskId k) v (heapUsed k)
    (fileHandles k) (dirHandles k) (sdInitialized k) (messageQueues k)
    (semaphores k) (watchdogEnabled k) (watchdogLastCheck k)
    (initialized k) (bootTime k) (trace k).

Definition set_heapUsed (v : Z) (k : kernel) : kernel :=
  mkKernel (tasks k) (currentTaskId k) (nextTaskId k) (kernelHeap k) v
    (fileHandles k) (dirHandles k) (sdInitialized k) (messageQueues k)
    (semaphores k) (watchdogEnabled k) (watchdogLastCheck k)
    (initialized k) (bootTime k) (trace k).

Definition set_fileHandles (v : list FileHandle) (k : kernel) : kernel :=
  mkKernel (tasks k) (currentTaskId k) (nextTaskId k) (kernelHeap k)
    (heapUsed k) v (dirHandles k) (sdInitialized k) (messageQueues k)
    (semaphores k) (watchdogEnabled k) (watchdogLastCheck k)
    (initialized k) (bootTime k) (trace k).

Definition set_dirHandles (v : list DirHandle) (k : kernel) : kernel :=
  mkKernel (tasks k) (currentTaskId k) (nextTaskId k) (kernelHeap k)
    (heapUsed k) (fileHandles k) v (sdInitialized k) (messageQueues k)
    (semaphores k) (watchdogEnabled k) (watchdogLastCheck k)
    (initialized k) (bootTime k) (trace k).

Definition set_messageQueues (v : list MessageQueue) (k : kernel) : kernel :=
  mkKernel (tasks k) (currentTaskId k) (nextTaskId k) (kernelHeap k)
    (heapUsed k) (fileHandles k) (dirHandles k) (sdInitialized k) v
    (semaphores k) (watchdogEnabled k) (watchdogLastCheck k)
    (initialized k) (bootTime k) (trace k).

Definition set_semaphores (v : list Semaphore) (k : kernel) : kernel :=
  mkKernel (tasks k) (currentTaskId k) (nextTaskId k) (kernelHeap k)
    (heapUsed k) (fileHandles k) (dirHandles k) (sdInitialized k)
    (messageQueues k) v (watchdogEnabled k) (watchdogLastCheck k)
    (initialized k) (bootTime k) (trace k).

Definition set_watchdogEnabled (v : bool) (k : kernel) : kernel :=
  mkKernel (tasks k) (currentTaskId k) (nextTaskId k) (kernelHeap k)
    (heapUsed k) (fileHandles k) (dirHandles k) (sdInitialized k)
    (messageQueues k) (semaphores k) v (watchdogLastCheck k)
    (initialized k) (bootTime k) (trace k).

Definition set_watchdogLastCheck (v : Z) (k : kernel) : kernel :=
  mkKernel (tasks k) (currentTaskId k) (nextTaskId k) (kernelHeap k)
    (heapUsed k) (fileHandles k) (dirHandles k) (sdInitialized k)
    (messageQueues k) (semaphores k) (watchdogEnabled k) v
    (initialized k) (bootTime k) (trace k).

(** [Serial.print...], a peripheral call or an entry-point call. *)
Definition emit (e : Event) (k : kernel) : kernel :=
  mkKernel (tasks k) (currentTaskId k) (nextTaskId k) (kernelHeap k)
    (heapUsed k) (fileHandles k) (dirHandles k) (sdInitialized k)
    (messageQueues k) (semaphores k) (watchdogEnabled k)
    (watchdogLastCheck k) (initialized k) (bootTime k) (trace k ++ [e]).

(** *** Array access.  An index outside the array is undefined behaviour in
    the source; the embedding reads a zeroed element there and drops the
    write (the guarded call sites never reach it). *)

Definition zero_task : Task :=
  mkTask 0 None TASK_EMPTY None 0 0 0 0
    (replicate (Z.to_nat MAX_FILE_HANDLES) false)
    (replicate (Z.to_nat MAX_DIR_HANDLES) false) 0
    (replicate (Z.to_nat MAX_STACK_TRACE_DEPTH) (mkStackFrame None None)) 0
    false false false false false false.

Definition task_at (k : kernel) (i : Z) : Task :=
  default zero_task (tasks k !! Z.to_nat i).

Definition update_task (i : Z) (f : Task -> Task) (k : kernel) : kernel :=
  set_tasks (<[Z.to_nat i := f (task_at k i)]> (tasks k)) k.

(** [for (int i = from; i < from + n; i++) body] *)
Definition for_range {S : Type} (from : Z) (n : nat) (body : Z -> S -> S)
    (s : S) : S :=
  foldl (fun acc i => body (from + Z.of_nat i) acc) s (seq 0 n).

(** [for (int i = from; i < from + n; i++) if (p i) return i;  return -1;] *)
Fixpoint first_index (n : nat) (from : Z) (p : Z -> bool) : Z :=
  match n with
  | O => -1
  | S n' => if p from then from else first_index n' (from + 1) p
  end.

(** ** Initialization *)

Definition zero_message : Message :=
  mkMessage 0 0 (replicate (Z.to_nat MESSAGE_DATA_SIZE) "000"%byte) 0 0 false.

Definition zero_queue : MessageQueue :=
  mkMessageQueue (replicate (Z.to_nat MAX_MESSAGE_QUEUE_SIZE) zero_message)
    0 0 0.

Definition zero_semaphore : Semaphore := mkSemaphore 0 0 false 0 None.
Definition zero_fileHandle : FileHandle := mkFileHandle None 0 false false.
Definition zero_dirHandle : DirHandle := mkDirHandle None 0 false.

(** The static members as the C++ runtime initializes them before [init]. *)
Definition static_init : kernel :=
  mkKernel (replicate (Z.to_nat MAX_TASKS) zero_task) 0 1 [] 0
    (replicate (Z.to_nat MAX_FILE_HANDLES) zero_fileHandle)
    (replicate (Z.to_nat MAX_DIR_HANDLES) zero_dirHandle) false
    (replicate (Z.to_nat MAX_TASKS) zero_queue)
    (replicate (Z.to_nat MAX_SEMAPHORES) zero_semaphore) true 0 false 0 [].

Definition init_task (t : Task) : Task :=
  mkTask (-1) (task_name t) TASK_EMPTY (task_entryPoint t)
    (task_sleepUntil t) (task_lastRun t) (task_lastYield t)
    (task_priority t) (task_fileHandles t) (task_dirHandles t)
    (task_memoryUsed t) (task_stackTrace t) 0 (canAccessSD t)
    (canAccessDisplay t) (canCreateTasks t) (canAccessGPIO t)
    (canAccessI2C t) (canAccessSPI t).

Definition init_idle (lastYield : Z) (t : Task) : Task :=
  mkTask 0 (Some "idle"%string) TASK_READY (task_entryPoint t)
    (task_sleepUntil t) (task_lastRun t) lastYield 0 (task_fileHandles t)
    (task_dirHandles t) 0 (task_stackTrace t) (task_stackTraceDepth t)
    false false false false false false.

Definition init_fileHandle (h : FileHandle) : FileHandle :=
  mkFileHandle (fh_file h) (fh_ownerTaskId h) false (fh_canWrite h).

Definition init_dirHandle (h : DirHandle) : DirHandle :=
  mkDirHandle (dh_dir h) (dh_ownerTaskId h) false.

Definition init_message (m : Message) : Message :=
  mkMessage (msg_fromTaskId m) (msg_toTaskId m) (msg_data m) (msg_length m)
    (msg_timestamp m) false.

Definition init_queue (q : MessageQueue) : MessageQueue :=
  mkMessageQueue (init_message <$> mq_messages q) 0 0 0.

Definition init_semaphore (s : Semaphore) : Semaphore :=
  mkSemaphore (sem_value s) (sem_maxValue s) false (sem_ownerTaskId s)
    (sem_name s).

(** [Kernel::init].  [sdBegin] is the result of [SD.begin]; the three times
    are the [millis()] readings for the idle task, [bootTime] and the
    watchdog.  Setting [heapUsed = 0] leaves no block below the watermark. *)
Definition init (sdBegin : bool) (tIdle tBoot tWatchdog : Z) (k : kernel)
    : bool * kernel :=
  if initialized k then (true, k)
  else
    let ts := init_task <$> tasks k in
    let ts := <[0%nat := init_idle tIdle (default zero_task (ts !! 0%nat))]> ts in
    (true,
     mkKernel ts 0 (nextTaskId k) [] 0
       (init_fileHandle <$> fileHandles k) (init_dirHandle <$> dirHandles k)
       (if sdBegin then true else sdInitialized k)
       (init_queue <$> messageQueues k) (init_semaphore <$> semaphores k)
       (watchdogEnabled k) tWatchdog true tBoot
       (trace k ++ [LogBoot sdBegin])).

(** ** Task management *)

Definition allocateTaskId (k : kernel) : Z :=
  first_index (Z.to_nat (MAX_TASKS - 1)) 1
    (fun i => TaskState_eqb (task_state (task_at k i)) TASK_EMPTY).

Definition getCurrentTask (k : kernel) : Task := task_at k (currentTaskId k).

(** [Kernel::getTask]: [None] is the null pointer. *)
Definition getTask (k : kernel) (taskId : Z) : option Task :=
  if (taskId <? 0) || (taskId >=? MAX_TASKS) then None
  else if TaskState_eqb (task_state (task_at k taskId)) TASK_EMPTY then None
  else Some (task_at k taskId).

(** [Kernel::captureStackTrace] on a non-null task. *)
Definition captureStackTrace (t : Task) : Task :=
  mkTask (task_id t) (task_name t) (task_state t) (task_entryPoint t)
    (task_sleepUntil t) (task_lastRun t) (task_lastYield t)
    (task_priority t) (task_fileHandles t) (task_dirHandles t)
    (task_memoryUsed t)
    (<[0%nat := mkStackFrame (task_entryPoint t) (task_name t)]>
       (task_stackTrace t))
    1 (canAccessSD t) (canAccessDisplay t) (canCreateTasks t)
    (canAccessGPIO t) (canAccessI2C t) (canAccessSPI t).

(** The record [Kernel::createTask] writes into the slot it claims. *)
Definition fresh_task (taskId : Z) (name : option string)
    (entryPoint : EntryPoint) (now : Z) (old : Task) : Task :=
  captureStackTrace
    (mkTask taskId name TASK_READY entryPoint 0 0 now 10
       (replicate (Z.to_nat MAX_FILE_HANDLES) false)
       (replicate (Z.to_nat MAX_DIR_HANDLES) false) 0 (task_stackTrace old) 0
       true true false true false false).

Definition createTask (name : option string) (entryPoint : EntryPoint)
    (now : Z) (k : kernel) : Z * kernel :=
  let taskId := allocateTaskId k in
  if taskId <? 0 then (SYS_ERR_NO_MEMORY, k)
  else
    let k := update_task taskId (fresh_task taskId name entryPoint now) k in
    (taskId, emit (LogTaskCreated name taskId) k).

Definition fileHandle_at (k : kernel) (i : Z) : FileHandle :=
  default zero_fileHandle (fileHandles k !! Z.to_nat i).

Definition dirHandle_at (k : kernel) (i : Z) : DirHandle :=
  default zero_dirHandle (dirHandles k !! Z.to_nat i).

Definition freeFileHandle (handle : Z) (k : kernel) : kernel :=
  if (handle <? 0) || (handle >=? MAX_FILE_HANDLES) then k
  else
    let h := fileHandle_at k handle in
    if fh_inUse h then
      set_fileHandles
        (<[Z.to_nat handle :=
             mkFileHandle None (fh_ownerTaskId h) false (fh_canWrite h)]>
           (fileHandles k))
        (emit (FileClosed (fh_file h)) k)
    else k.

Definition freeDirHandle (handle : Z) (k : kernel) : kernel :=
  if (handle <? 0) || (handle >=? MAX_DIR_HANDLES) then k
  else
    let h := dirHandle_at k handle in
    if dh_inUse h then
      set_dirHandles
        (<[Z.to_nat handle := mkDirHandle None (dh_ownerTaskId h) false]>
           (dirHandles k))
        (emit (FileClosed (dh_dir h)) k)
    else k.

Definition killTask (taskId : Z) (k : kernel) : kernel :=
  match getTask k taskId with
  | None => k
  | Some task =>
      if taskId =? 0 then k
      else
        let k :=
          for_range 0 (Z.to_nat MAX_FILE_HANDLES)
            (fun i k =>
               if default false (task_fileHandles task !! Z.to_nat i)
               then freeFileHandle i k else k) k in
        let k :=
          for_range 0 (Z.to_nat MAX_DIR_HANDLES)
            (fun i k =>
               if default false (task_dirHandles task !! Z.to_nat i)
               then freeDirHandle i k else k) k in
        let k :=
          update_task taskId
            (fun t => set_task_id (-1) (set_task_state TASK_EMPTY t)) k in
        emit (LogTaskKilled (task_name task)) k
  end.

(** ** Watchdog *)

Definition enableWatchdog (enable : bool) (k : kernel) : kernel :=
  emit (LogWatchdogEnabled enable) (set_watchdogEnabled enable k).

Definition feedWatchdog (now : Z) (k : kernel) : kernel :=
  update_task (currentTaskId k) (set_task_lastYield now) k.

(** The body of the loop of [Kernel::checkWatchdog] for slot [i]. *)
Definition watchdog_body (now : Z) (i : Z) (k : kernel) : kernel :=
  let task := task_at k i in
  if TaskState_eqb (task_state task) TASK_EMPTY then k
  else if TaskState_eqb (task_state task) TASK_SLEEPING then k
  else
    let timeSinceYield := u32 (now - task_lastYield task) in
    if timeSinceYield >? WATCHDOG_TIMEOUT_MS then
      let k := emit (LogWatchdogForced (task_name task) timeSinceYield) k in
      let k :=
        if TaskState_eqb (task_state task) TASK_RUNNING
        then update_task i (set_task_state TASK_READY) k else k in
      update_task i (set_task_lastYield now) k
    else k.

Definition checkWatchdog (now : Z) (k : kernel) : kernel :=
  if negb (watchdogEnabled k) then k
  else if u32 (now - watchdogLastCheck k) <? 1000 then k
  else
    let k := set_watchdogLastCheck now k in
    for_range 0 (Z.to_nat MAX_TASKS) (watchdog_body now) k.

(** ** Scheduler *)

(** The body of the selection loop of [Kernel::schedule] for slot [i]; the
    accumulator carries the kernel, [bestTask] and [bestPriority]. *)
Definition schedule_body (now : Z) (i : Z) (acc : kernel * Z * Z)
    : kernel * Z * Z :=
  let '(k, bestTask, bestPriority) := acc in
  if TaskState_eqb (task_state (task_at k i)) TASK_EMPTY then acc
  else
    let woken :=
      if TaskState_eqb (task_state (task_at k i)) TASK_SLEEPING then
        if now >=? task_sleepUntil (task_at k i)
        then Some (update_task i (set_task_state TASK_READY) k)
        else None
      else Some k in
    match woken with
    | None => acc
    | Some k =>
        if TaskState_eqb (task_state (task_at k i)) TASK_READY
           && (task_priority (task_at k i) >? bestPriority)
        then (k, i, task_priority (task_at k i))
        else (k, bestTask, bestPriority)
    end.

(** "Switch to best task". *)
Definition switch_to (now : Z) (bestTask : Z) (k : kernel) : kernel :=
  if bestTask =? currentTaskId k then k
  else
    let k :=
      if TaskState_eqb (task_state (task_at k (currentTaskId k))) TASK_RUNNING
      then update_task (currentTaskId k) (set_task_state TASK_READY) k
      else k in
    let k := set_currentTaskId bestTask k in
    let k := update_task (currentTaskId k) (set_task_state TASK_RUNNING) k in
    update_task (currentTaskId k) (set_task_lastRun now) k.

(** "Execute current task": the call of the entry point is the [Invoke]
    event; whatever the task body does follows it in the run. *)
Definition execute_current (k : kernel) : kernel :=
  match task_entryPoint (getCurrentTask k) with
  | Some e =>
      if TaskState_eqb (task_state (getCurrentTask k)) TASK_RUNNING
      then emit (Invoke e) k else k
  | None => k
  end.

(** "Find highest priority ready task": the loop of [Kernel::schedule],
    started with [bestTask = 0] and [bestPriority = -1]. *)
Definition select_task (now : Z) (k : kernel) : kernel * Z * Z :=
  for_range 0 (Z.to_nat MAX_TASKS) (schedule_body now) (k, 0, -1).

(** [Kernel::schedule]; [wnow] is the clock read by the watchdog check and
    [now] the one read by the scheduler itself. *)
Definition schedule (wnow now : Z) (k : kernel) : kernel :=
  let k := checkWatchdog wnow k in
  let '(k, bestTask, _) := select_task now k in
  execute_current (switch_to now bestTask k).

(** The value of [bestTask] when the loop of [schedule] ends. *)
Definition bestTask_of (now : Z) (k : kernel) : Z := (select_task now k).1.2.

Definition yield (now : Z) (k : kernel) : kernel :=
  update_task (currentTaskId k)
    (fun t => set_task_lastYield now (set_task_state TASK_READY t)) k.

Definition sleep (ms : Z) (now1 now2 : Z) (k : kernel) : kernel :=
  update_task (currentTaskId k)
    (fun t =>
       set_task_lastYield now2
         (set_task_sleepUntil (u32 (now1 + ms))
            (set_task_state TASK_SLEEPING t))) k.

Section WithTarget.
Context {target : Target}.

(** ** Heap.

    [kernelHeap] lists the block headers that a walk from offset 0 meets
    below the watermark [heapUsed], in address order: the block at offset
    [o] is followed by the one at [o + sizeof(MemoryBlock) + size].  Payload
    bytes are not represented.  A pointer is an offset into [kernelHeap]
    ([None] is the null pointer). *)

Definition pointer : Type := option Z.

(** [Kernel::panic]: prints the diagnostics and never returns. *)
Definition panic {A : Type} (message : string) (k : kernel) : outcome A :=
  Halts (emit (LogPanic message) k).

(** [size = (size + 3) & ~3] on [size_t]. *)
Definition align4 (size : Z) : Z :=
  Z.land (u32 (size + 3)) (u32 (Z.lnot 3)).

(** [sizeof(MemoryBlock) + block->size] on [size_t]. *)
Definition blockTotalSize (b : MemoryBlock) : Z :=
  u32 (sizeof_MemoryBlock + blk_size b).

(** The sweep of [Kernel::compactMemory]: [blocks] are the headers from
    [readPos] on, [kept] the blocks already moved down to below [writePos].
    The result is [inl] of [writePos], [movedBlocks] and the surviving
    blocks; [inr true] when the safety check fails; [inr false] when the
    walk needs a header that the list does not hold. *)
Fixpoint compact_sweep (used : Z) (blocks : list MemoryBlock)
    (readPos writePos movedBlocks : Z) (kept : list MemoryBlock)
    : (Z * Z * list MemoryBlock) + bool :=
  match blocks with
  | [] =>
      if readPos <? used then inr false
      else inl (writePos, movedBlocks, kept)
  | block :: rest =>
      if readPos <? used then
        let movedBlocks :=
          if blk_inUse block && negb (writePos =? readPos)
          then movedBlocks + 1 else movedBlocks in
        let kept := if blk_inUse block then kept ++ [block] else kept in
        let writePos :=
          if blk_inUse block then u32 (writePos + blockTotalSize block)
          else writePos in
        let readPos := u32 (readPos + blockTotalSize block) in
        if (readPos >? KERNEL_HEAP_SIZE) || (writePos >? KERNEL_HEAP_SIZE)
        then inr true
        else compact_sweep used rest readPos writePos movedBlocks kept
      else inl (writePos, movedBlocks, kept)
  end.

Definition compactMemory (k : kernel) : outcome unit :=
  let k := emit LogCompacting k in
  match compact_sweep (heapUsed k) (kernelHeap k) 0 0 0 [] with
  | inr true => panic "Heap corruption detected during compaction" k
  | inr false => Undefined
  | inl (writePos, movedBlocks, kept) =>
      let freedSpace := u32 (heapUsed k - writePos) in
      let k := set_heapUsed writePos (set_kernelHeap kept k) in
      let k := emit (LogCompacted freedSpace movedBlocks) k in
      Returns tt (if movedBlocks >? 0 then emit LogPointersInvalid k else k)
  end.

(** The headers that a walk from offset [pos] meets below the watermark
    [used], [blocks] being the headers in memory from [pos] on. *)
Fixpoint headers_below (used : Z) (blocks : list MemoryBlock) (pos : Z)
    : list MemoryBlock :=
  match blocks with
  | [] => []
  | block :: rest =>
      if pos <? used
      then block :: headers_below used rest (u32 (pos + blockTotalSize block))
      else []
  end.

(** The tail of [Kernel::allocateMemoryInternal], once there is room: the
    header is written at offset [heapUsed] and the watermark advances by
    [totalNeeded].  When [totalNeeded] has wrapped around, the watermark
    does not pass the new header, which the walk then does not meet and
    which the next allocation overwrites: the list keeps the headers below
    the new watermark. *)
Definition place_block (size totalNeeded taskId : Z) (k : kernel)
    : pointer * kernel :=
  let userPtr := heapUsed k + sizeof_MemoryBlock in
  let written := kernelHeap k ++ [mkMemoryBlock size taskId true (-1)] in
  let used := u32 (heapUsed k + totalNeeded) in
  let k := set_kernelHeap (headers_below used written 0) k in
  let k := set_heapUsed used k in
  let k :=
    if (taskId >=? 0) && (taskId <? MAX_TASKS)
    then update_task taskId
           (fun t => set_task_memoryUsed (u32 (task_memoryUsed t + size)) t) k
    else k in
  (Some userPtr, k).

Definition allocateMemoryInternal (size : Z) (taskId : Z) (k : kernel)
    : outcome pointer :=
  if size =? 0 then Returns None k
  else
    let size := align4 size in
    let totalNeeded := u32 (sizeof_MemoryBlock + size) in
    if u32 (heapUsed k + totalNeeded) >? KERNEL_HEAP_SIZE then
      match compactMemory (emit LogOutOfSpace k) with
      | Returns _ k =>
          if u32 (heapUsed k + totalNeeded) >? KERNEL_HEAP_SIZE
          then Returns None (emit LogOutOfMemory k)
          else
            let '(p, k) := place_block size totalNeeded taskId k in
            Returns p k
      | Halts k => Halts k
      | Spins k => Spins k
      | Undefined => Undefined
      end
    else
      let '(p, k) := place_block size totalNeeded taskId k in
      Returns p k.

(** The index in [blocks] of the header at offset [target], walking from
    [pos]; [Kernel::getBlockHeader] steps back from the payload address. *)
Fixpoint header_index (blocks : list MemoryBlock) (pos target : Z)
    : option nat :=
  match blocks with
  | [] => None
  | block :: rest =>
      if pos =? target then Some O
      else S <$> header_index rest (u32 (pos + blockTotalSize block)) target
  end.

Definition set_blk_inUse (v : bool) (b : MemoryBlock) : MemoryBlock :=
  mkMemoryBlock (blk_size b) (blk_ownerTaskId b) v (blk_handleId b).

(** [Kernel::freeMemoryInternal].  The source steps back from [ptr] by the
    size of a header and reads a header there, whatever the address.  The
    list holds the headers of the blocks below the watermark and nothing
    else, so the embedding answers for the payload address of one of them
    and for the null pointer.  For any other address (one inside a
    payload, or one that a compaction has made stale) the source reads
    bytes that the list does not hold, payload bytes or the remains of a
    header that was moved, and may well return after changing
    [memoryUsed]: that is [Undefined] here, and the theorems on [memFree]
    state which addresses they are about. *)
Definition freeMemoryInternal (ptr : pointer) (k : kernel) : outcome unit :=
  match ptr with
  | None => Returns tt k
  | Some p =>
      match header_index (kernelHeap k) 0 (p - sizeof_MemoryBlock) with
      | None => Undefined
      | Some i =>
          match kernelHeap k !! i with
          | None => Undefined
          | Some block =>
              if negb (blk_inUse block) then Returns tt (emit LogInvalidFree k)
              else
                let owner := blk_ownerTaskId block in
                let k :=
                  if (owner >=? 0) && (owner <? MAX_TASKS)
                  then update_task owner
                         (fun t =>
                            set_task_memoryUsed
                              (u32 (task_memoryUsed t - blk_size block)) t) k
                  else k in
                Returns tt
                  (set_kernelHeap
                     (<[i := set_blk_inUse false block]> (kernelHeap k)) k)
          end
      end
  end.

Definition memAlloc (size : Z) (k : kernel) : outcome pointer :=
  allocateMemoryInternal size (currentTaskId k) k.

Definition memFree (ptr : pointer) (k : kernel) : outcome unit :=
  freeMemoryInternal ptr k.

Definition memAvailable (k : kernel) : Z :=
  u32 (KERNEL_HEAP_SIZE - heapUsed k).

Definition memCompact (k : kernel) : outcome unit := compactMemory k.

(** ** IPC: message queues *)

Definition queue_at (k : kernel) (i : Z) : MessageQueue :=
  default zero_queue (messageQueues k !! Z.to_nat i).

Definition message_at (q : MessageQueue) (i : Z) : Message :=
  default zero_message (mq_messages q !! Z.to_nat i).

(** [memcpy(dst, src, n)]: the first [n] bytes of [dst] are replaced by the
    first [n] bytes of [src] (which holds at least [n] bytes). *)
Definition memcpy (dst src : list byte) (n : Z) : list byte :=
  take (Z.to_nat n) src ++ drop (Z.to_nat n) dst.

(** [Kernel::ipcSend]; [data] is [None] for a null pointer. *)
Definition ipcSend (toTaskId : Z) (data : option (list byte)) (length : Z)
    (now : Z) (k : kernel) : Z * kernel :=
  if (toTaskId <? 0) || (toTaskId >=? MAX_TASKS)
  then (SYS_ERR_INVALID_PARAM, k)
  else if TaskState_eqb (task_state (task_at k toTaskId)) TASK_EMPTY
  then (SYS_ERR_NOT_FOUND, k)
  else if length >? MESSAGE_DATA_SIZE then (SYS_ERR_INVALID_PARAM, k)
  else if negb (bool_decide (is_Some data)) && (length >? 0)
  then (SYS_ERR_INVALID_PARAM, k)
  else
    let queue := queue_at k toTaskId in
    if mq_count queue >=? MAX_MESSAGE_QUEUE_SIZE then (SYS_ERR_NO_MEMORY, k)
    else
      let old := message_at queue (mq_tail queue) in
      let msg :=
        mkMessage (currentTaskId k) toTaskId
          (if length >? 0 then memcpy (msg_data old) (default [] data) length
           else msg_data old)
          length now true in
      let queue :=
        mkMessageQueue
          (<[Z.to_nat (mq_tail queue) := msg]> (mq_messages queue))
          (mq_head queue)
          (Z.rem (mq_tail queue + 1) MAX_MESSAGE_QUEUE_SIZE)
          (mq_count queue + 1) in
      (SYS_OK,
       set_messageQueues (<[Z.to_nat toTaskId := queue]> (messageQueues k)) k).

Definition set_msg_valid (v : bool) (m : Message) : Message :=
  mkMessage (msg_fromTaskId m) (msg_toTaskId m) (msg_data m) (msg_length m)
    (msg_timestamp m) v.

(** [Kernel::ipcReceive]; [buffer] and [fromTaskId] tell whether the two
    pointers are non-null.  What is copied to the caller is recorded as
    [CopyOut] and [StoreFrom]. *)
Definition ipcReceive (buffer : bool) (maxLength : Z) (fromTaskId : bool)
    (k : kernel) : Z * kernel :=
  let queue := queue_at k (currentTaskId k) in
  if mq_count queue =? 0 then (SYS_ERR_WOULD_BLOCK, k)
  else
    let msg := message_at queue (mq_head queue) in
    if negb (msg_valid msg) then (SYS_ERR_IO_ERROR, k)
    else if msg_length msg >? maxLength then (SYS_ERR_INVALID_PARAM, k)
    else
      let k' :=
        if buffer && (msg_length msg >? 0)
        then emit (CopyOut (take (Z.to_nat (msg_length msg)) (msg_data msg))) k
        else k in
      let k' :=
        if fromTaskId then emit (StoreFrom (msg_fromTaskId msg)) k' else k' in
      let length := s32 (msg_length msg) in
      let queue :=
        mkMessageQueue
          (<[Z.to_nat (mq_head queue) := set_msg_valid false msg]>
             (mq_messages queue))
          (Z.rem (mq_head queue + 1) MAX_MESSAGE_QUEUE_SIZE)
          (mq_tail queue)
          (mq_count queue - 1) in
      (length,
       set_messageQueues
         (<[Z.to_nat (currentTaskId k) := queue]> (messageQueues k)) k').

Definition ipcPoll (k : kernel) : Z := mq_count (queue_at k (currentTaskId k)).

(** ** IPC: semaphores *)

Definition semaphore_at (k : kernel) (i : Z) : Semaphore :=
  default zero_semaphore (semaphores k !! Z.to_nat i).

Definition allocateSemaphore (k : kernel) : Z :=
  first_index (Z.to_nat MAX_SEMAPHORES) 0
    (fun i => negb (sem_inUse (semaphore_at k i))).

Definition semCreate (initialValue maxValue : Z) (name : option string)
    (k : kernel) : Z * kernel :=
  if (initialValue <? 0) || (maxValue <? 1) || (initialValue >? maxValue)
  then (SYS_ERR_INVALID_PARAM, k)
  else
    let semId := allocateSemaphore k in
    if semId <? 0 then (SYS_ERR_NO_MEMORY, k)
    else
      (semId,
       set_semaphores
         (<[Z.to_nat semId :=
              mkSemaphore initialValue maxValue true (currentTaskId k) name]>
            (semaphores k)) k).

Definition set_sem_value (v : Z) (s : Semaphore) : Semaphore :=
  mkSemaphore v (sem_maxValue s) (sem_inUse s) (sem_ownerTaskId s)
    (sem_name s).

Definition set_sem_inUse (v : bool) (s : Semaphore) : Semaphore :=
  mkSemaphore (sem_value s) (sem_maxValue s) v (sem_ownerTaskId s)
    (sem_name s).

(** The busy-wait loop of [Kernel::semWait].  [clock n] is the [n]-th
    reading of [millis()] made by the call; [fuel] bounds the number of
    iterations that the embedding follows. *)
Fixpoint semWait_loop (fuel : nat) (clock : nat -> Z) (n : nat)
    (semId : Z) (timeoutMs startTime : Z) (k : kernel) : outcome Z :=
  if sem_value (semaphore_at k semId) <=? 0 then
    match fuel with
    | O => Spins k
    | S fuel' =>
        if timeoutMs >? 0 then
          if u32 (clock n - startTime) >=? timeoutMs
          then Returns SYS_ERR_TIMEOUT k
          else semWait_loop fuel' clock (n + 2) semId timeoutMs startTime
                 (yield (clock (n + 1)%nat) k)
        else semWait_loop fuel' clock (n + 1) semId timeoutMs startTime
               (yield (clock n) k)
    end
  else
    let sem := semaphore_at k semId in
    Returns SYS_OK
      (set_semaphores
         (<[Z.to_nat semId := set_sem_value (sem_value sem - 1) sem]>
            (semaphores k)) k).

Definition semWait (fuel : nat) (clock : nat -> Z) (semId : Z)
    (timeoutMs : Z) (k : kernel) : outcome Z :=
  if (semId <? 0) || (semId >=? MAX_SEMAPHORES)
  then Returns SYS_ERR_INVALID_PARAM k
  else if negb (sem_inUse (semaphore_at k semId))
  then Returns SYS_ERR_NOT_FOUND k
  else semWait_loop fuel clock 1 semId timeoutMs (clock O) k.

Definition semPost (semId : Z) (k : kernel) : Z * kernel :=
  if (semId <? 0) || (semId >=? MAX_SEMAPHORES)
  then (SYS_ERR_INVALID_PARAM, k)
  else if negb (sem_inUse (semaphore_at k semId))
  then (SYS_ERR_NOT_FOUND, k)
  else
    let sem := semaphore_at k semId in
    if sem_value sem >=? sem_maxValue sem then (SYS_ERR_INVALID_PARAM, k)
    else
      (SYS_OK,
       set_semaphores
         (<[Z.to_nat semId := set_sem_value (sem_value sem + 1) sem]>
            (semaphores k)) k).

Definition semDestroy (semId : Z) (k : kernel) : Z * kernel :=
  if (semId <? 0) || (semId >=? MAX_SEMAPHORES)
  then (SYS_ERR_INVALID_PARAM, k)
  else if negb (sem_inUse (semaphore_at k semId))
  then (SYS_ERR_NOT_FOUND, k)
  else if negb (sem_ownerTaskId (semaphore_at k semId) =? currentTaskId k)
          && negb (currentTaskId k =? 0)
  then (SYS_ERR_PERMISSION, k)
  else
    (SYS_OK,
     set_semaphores
       (<[Z.to_nat semId := set_sem_inUse false (semaphore_at k semId)]>
          (semaphores k)) k).

(** ** Device driver interface.

    What the peripherals and the SD library answer is not the kernel's:
    it is read from a [Hardware] record, one per call. *)

Record Hardware : Type := mkHardware {
  digitalRead : Z -> Z;
  analogRead : Z -> Z;
  Wire_write : Z -> list byte -> Z -> Z;
  Wire_endTransmission : Z -> Z;
  Wire_requestFrom : Z -> Z -> Z;
  Wire_received : list byte;
  SPI_transfer : list byte -> list byte;
  SD_open : option string -> bool -> File;
  SD_remove : option string -> bool;
  SD_exists : option string -> bool;
  SD_mkdir : option string -> bool;
  SD_rmdir : option string -> bool;
  File_read : File -> Z -> Z * list byte;
  File_write : File -> Z -> Z;
  File_size : File -> Z;
  File_isDirectory : File -> bool;
  File_openNextFile : File -> File;
  File_name : File -> string
}.

Definition gpioSetMode (pin mode : Z) (k : kernel) : Z * kernel :=
  if negb (canAccessGPIO (getCurrentTask k)) then (SYS_ERR_PERMISSION, k)
  else (SYS_OK, emit (HwPinMode pin mode) k).

Definition gpioWrite (pin value : Z) (k : kernel) : Z * kernel :=
  if negb (canAccessGPIO (getCurrentTask k)) then (SYS_ERR_PERMISSION, k)
  else (SYS_OK, emit (HwDigitalWrite pin value) k).

Definition gpioRead (hw : Hardware) (pin : Z) (k : kernel) : Z * kernel :=
  if negb (canAccessGPIO (getCurrentTask k)) then (SYS_ERR_PERMISSION, k)
  else (digitalRead hw pin, k).

Definition gpioAnalogRead (hw : Hardware) (pin : Z) (k : kernel)
    : Z * kernel :=
  if negb (canAccessGPIO (getCurrentTask k)) then (SYS_ERR_PERMISSION, k)
  else (analogRead hw pin, k).

Definition gpioAnalogWrite (pin value : Z) (k : kernel) : Z * kernel :=
  if negb (canAccessGPIO (getCurrentTask k)) then (SYS_ERR_PERMISSION, k)
  else (SYS_OK, emit (HwAnalogWrite pin value) k).

Definition i2cBegin (address : Z) (k : kernel) : Z * kernel :=
  if negb (canAccessI2C (getCurrentTask k)) then (SYS_ERR_PERMISSION, k)
  else (SYS_OK, emit (HwWireBegin address) k).

Definition i2cWrite (hw : Hardware) (address : Z) (data : option (list byte))
    (length : Z) (k : kernel) : Z * kernel :=
  if negb (canAccessI2C (getCurrentTask k)) then (SYS_ERR_PERMISSION, k)
  else
    match data with
    | None => (SYS_ERR_INVALID_PARAM, k)
    | Some bytes =>
        if length =? 0 then (SYS_ERR_INVALID_PARAM, k)
        else
          let k := emit (HwWireWrite address (take (Z.to_nat length) bytes)) k in
          let written := Wire_write hw address bytes length in
          if negb (Wire_endTransmission hw address =? 0)
          then (SYS_ERR_IO_ERROR, k)
          else (s32 written, k)
    end.

Definition i2cRead (hw : Hardware) (address : Z) (buffer : bool) (length : Z)
    (k : kernel) : Z * kernel :=
  if negb (canAccessI2C (getCurrentTask k)) then (SYS_ERR_PERMISSION, k)
  else if negb buffer || (length =? 0) then (SYS_ERR_INVALID_PARAM, k)
  else
    let k := emit (HwWireProbe address) k in
    if negb (Wire_endTransmission hw address =? 0) then (SYS_ERR_IO_ERROR, k)
    else
      let k := emit (HwWireRequest address (u8 length)) k in
      let bytes := take (Z.to_nat (s32 length)) (Wire_received hw) in
      (Z.of_nat (List.length bytes), emit (CopyOut bytes) k).

Definition i2cRequest (hw : Hardware) (address : Z) (quantity : Z)
    (k : kernel) : Z * kernel :=
  if negb (canAccessI2C (getCurrentTask k)) then (SYS_ERR_PERMISSION, k)
  else (Wire_requestFrom hw address (u8 quantity),
        emit (HwWireRequest address (u8 quantity)) k).

Definition spiBegin (k : kernel) : Z * kernel :=
  if negb (canAccessSPI (getCurrentTask k)) then (SYS_ERR_PERMISSION, k)
  else (SYS_OK, emit HwSpiBegin k).

Definition spiTransfer (hw : Hardware) (txData : option (list byte))
    (rxData : bool) (length : Z) (k : kernel) : Z * kernel :=
  if negb (canAccessSPI (getCurrentTask k)) then (SYS_ERR_PERMISSION, k)
  else if length =? 0 then (SYS_ERR_INVALID_PARAM, k)
  else
    let k :=
      match txData, rxData with
      | Some tx, true =>
          let tx := take (Z.to_nat length) tx in
          emit (CopyOut (SPI_transfer hw tx)) (emit (HwSpiTransfer tx) k)
      | Some tx, false => emit (HwSpiTransfer (take (Z.to_nat length) tx)) k
      | None, true =>
          let tx := replicate (Z.to_nat length) "000"%byte in
          emit (CopyOut (SPI_transfer hw tx)) (emit (HwSpiTransfer tx) k)
      | None, false => k
      end in
    (s32 length, k).

Definition spiEnd (k : kernel) : Z * kernel :=
  if negb (canAccessSPI (getCurrentTask k)) then (SYS_ERR_PERMISSION, k)
  else (SYS_OK, emit HwSpiEnd k).

(** ** File system *)

Definition allocateFileHandle (k : kernel) : Z :=
  first_index (Z.to_nat MAX_FILE_HANDLES) 0
    (fun i => negb (fh_inUse (fileHandle_at k i))).

Definition allocateDirHandle (k : kernel) : Z :=
  first_index (Z.to_nat MAX_DIR_HANDLES) 0
    (fun i => negb (dh_inUse (dirHandle_at k i))).

Definition fileOpen (hw : Hardware) (path : option string) (write : bool)
    (k : kernel) : Z * kernel :=
  if negb (sdInitialized k) then (SYS_ERR_IO_ERROR, k)
  else if negb (canAccessSD (getCurrentTask k)) then (SYS_ERR_PERMISSION, k)
  else
    let handle := allocateFileHandle k in
    if handle <? 0 then (SYS_ERR_NO_MEMORY, k)
    else
      let fh := fileHandle_at k handle in
      let file := SD_open hw path write in
      let k := emit (SdOpen path write) k in
      match file with
      | None =>
          (SYS_ERR_NOT_FOUND,
           set_fileHandles
             (<[Z.to_nat handle :=
                  mkFileHandle file (fh_ownerTaskId fh) (fh_inUse fh)
                    (fh_canWrite fh)]> (fileHandles k)) k)
      | Some _ =>
          let k :=
            set_fileHandles
              (<[Z.to_nat handle :=
                   mkFileHandle file (currentTaskId k) true write]>
                 (fileHandles k)) k in
          (handle,
           update_task (currentTaskId k)
             (fun t =>
                set_task_fileHandles
                  (<[Z.to_nat handle := true]> (task_fileHandles t)) t) k)
      end.

Definition fileClose (handle : Z) (k : kernel) : Z * kernel :=
  if (handle <? 0) || (handle >=? MAX_FILE_HANDLES)
  then (SYS_ERR_INVALID_PARAM, k)
  else if negb (fh_inUse (fileHandle_at k handle))
  then (SYS_ERR_INVALID_PARAM, k)
  else if negb (fh_ownerTaskId (fileHandle_at k handle) =? currentTaskId k)
  then (SYS_ERR_PERMISSION, k)
  else
    let k := freeFileHandle handle k in
    (SYS_OK,
     update_task (currentTaskId k)
       (fun t =>
          set_task_fileHandles
            (<[Z.to_nat handle := false]> (task_fileHandles t)) t) k).

Definition fileRead (hw : Hardware) (handle : Z) (size : Z) (k : kernel)
    : Z * kernel :=
  if (handle <? 0) || (handle >=? MAX_FILE_HANDLES)
  then (SYS_ERR_INVALID_PARAM, k)
  else if negb (fh_inUse (fileHandle_at k handle))
  then (SYS_ERR_INVALID_PARAM, k)
  else if negb (fh_ownerTaskId (fileHandle_at k handle) =? currentTaskId k)
  then (SYS_ERR_PERMISSION, k)
  else
    let f := fh_file (fileHandle_at k handle) in
    let '(n, bytes) := File_read hw f size in
    (n, emit (CopyOut bytes) (emit (FileRead f size) k)).

Definition fileWrite (hw : Hardware) (handle : Z) (size : Z) (k : kernel)
    : Z * kernel :=
  if (handle <? 0) || (handle >=? MAX_FILE_HANDLES)
  then (SYS_ERR_INVALID_PARAM, k)
  else if negb (fh_inUse (fileHandle_at k handle))
  then (SYS_ERR_INVALID_PARAM, k)
  else if negb (fh_ownerTaskId (fileHandle_at k handle) =? currentTaskId k)
  then (SYS_ERR_PERMISSION, k)
  else if negb (fh_canWrite (fileHandle_at k handle))
  then (SYS_ERR_PERMISSION, k)
  else
    let f := fh_file (fileHandle_at k handle) in
    (s32 (File_write hw f size), emit (FileWrite f size) k).

Definition fileDelete (hw : Hardware) (path : option string) (k : kernel)
    : bool * kernel :=
  if negb (sdInitialized k) then (false, k)
  else if negb (canAccessSD (getCurrentTask k)) then (false, k)
  else (SD_remove hw path, emit (SdRemove path) k).

Definition fileExists (hw : Hardware) (path : option string) (k : kernel)
    : bool * kernel :=
  if negb (sdInitialized k) then (false, k)
  else if negb (canAccessSD (getCurrentTask k)) then (false, k)
  else (SD_exists hw path, k).

Definition fileSize (hw : Hardware) (handle : Z) (k : kernel) : Z :=
  if (handle <? 0) || (handle >=? MAX_FILE_HANDLES) then 0
  else if negb (fh_inUse (fileHandle_at k handle)) then 0
  else if negb (fh_ownerTaskId (fileHandle_at k handle) =? currentTaskId k)
  then 0
  else File_size hw (fh_file (fileHandle_at k handle)).

(** ** Directory operations *)

Definition dirOpen (hw : Hardware) (path : option string) (k : kernel)
    : Z * kernel :=
  if negb (sdInitialized k) then (SYS_ERR_IO_ERROR, k)
  else if negb (canAccessSD (getCurrentTask k)) then (SYS_ERR_PERMISSION, k)
  else
    let handle := allocateDirHandle k in
    if handle <? 0 then (SYS_ERR_NO_MEMORY, k)
    else
      let dh := dirHandle_at k handle in
      let dir := SD_open hw path false in
      let k := emit (SdOpen path false) k in
      let store (d : File) (owner : Z) (used : bool) (k : kernel) :=
        set_dirHandles
          (<[Z.to_nat handle := mkDirHandle d owner used]> (dirHandles k)) k in
      match dir with
      | None =>
          (SYS_ERR_NOT_FOUND, store dir (dh_ownerTaskId dh) (dh_inUse dh) k)
      | Some _ =>
          if negb (File_isDirectory hw dir) then
            (SYS_ERR_INVALID_PARAM,
             store None (dh_ownerTaskId dh) (dh_inUse dh)
               (emit (FileClosed dir) k))
          else
            let k := store dir (currentTaskId k) true k in
            (handle,
             update_task (currentTaskId k)
               (fun t =>
                  set_task_dirHandles
                    (<[Z.to_nat handle := true]> (task_dirHandles t)) t) k)
      end.

Definition dirClose (handle : Z) (k : kernel) : Z * kernel :=
  if (handle <? 0) || (handle >=? MAX_DIR_HANDLES)
  then (SYS_ERR_INVALID_PARAM, k)
  else if negb (dh_inUse (dirHandle_at k handle))
  then (SYS_ERR_INVALID_PARAM, k)
  else if negb (dh_ownerTaskId (dirHandle_at k handle) =? currentTaskId k)
  then (SYS_ERR_PERMISSION, k)
  else
    let k := freeDirHandle handle k in
    (SYS_OK,
     update_task (currentTaskId k)
       (fun t =>
          set_task_dirHandles
            (<[Z.to_nat handle := false]> (task_dirHandles t)) t) k).

(** [strncpy(entry->name, name, 63)] followed by the terminating zero. *)
Definition truncate_name (name : string) : string := substring 0 63 name.

Definition dirRead (hw : Hardware) (handle : Z) (entry : bool) (k : kernel)
    : bool * kernel :=
  if (handle <? 0) || (handle >=? MAX_DIR_HANDLES) then (false, k)
  else if negb (dh_inUse (dirHandle_at k handle)) then (false, k)
  else if negb (dh_ownerTaskId (dirHandle_at k handle) =? currentTaskId k)
  then (false, k)
  else if negb entry then (false, k)
  else
    let nextEntry := File_openNextFile hw (dh_dir (dirHandle_at k handle)) in
    match nextEntry with
    | None => (false, k)
    | Some _ =>
        let e :=
          mkDirEntry (truncate_name (File_name hw nextEntry))
            (File_isDirectory hw nextEntry) (File_size hw nextEntry) in
        (true, emit (FileClosed nextEntry) (emit (StoreDirEntry e) k))
    end.

Definition dirCreate (hw : Hardware) (path : option string) (k : kernel)
    : bool * kernel :=
  if negb (sdInitialized k) then (false, k)
  else if negb (canAccessSD (getCurrentTask k)) then (false, k)
  else (SD_mkdir hw path, emit (SdMkdir path) k).

Definition dirRemove (hw : Hardware) (path : option string) (k : kernel)
    : bool * kernel :=
  if negb (sdInitialized k) then (false, k)
  else if negb (canAccessSD (getCurrentTask k)) then (false, k)
  else (SD_rmdir hw path, emit (SdRmdir path) k).

Definition dirRewind (handle : Z) (k : kernel) : kernel :=
  if (handle <? 0) || (handle >=? MAX_DIR_HANDLES) then k
  else if negb (dh_inUse (dirHandle_at k handle)) then k
  else if negb (dh_ownerTaskId (dirHandle_at k handle) =? currentTaskId k)
  then k
  else emit (HwRewindDirectory (dh_dir (dirHandle_at k handle))) k.

(** ** Utility functions *)

Definition print (message : option string) (k : kernel) : kernel :=
  emit (LogPrint (task_name (getCurrentTask k)) message) k.

Definition debug (message : option string) (k : kernel) : kernel :=
  emit (LogDebug message) k.

Definition uptime (now : Z) (k : kernel) : Z := u32 (now - bootTime k).

Definition getCurrentTaskId (k : kernel) : Z := currentTaskId k.

(** ** System calls *)

(** [enum SyscallType], in declaration order: the first enumerator is 0 and
    each following one is the previous plus one. *)
Inductive SyscallType : Type :=
| SYS_FILE_OPEN | SYS_FILE_CLOSE | SYS_FILE_READ | SYS_FILE_WRITE
| SYS_FILE_DELETE | SYS_FILE_EXISTS | SYS_FILE_SIZE
| SYS_DIR_OPEN | SYS_DIR_READ | SYS_DIR_CLOSE | SYS_DIR_CREATE
| SYS_DIR_REMOVE | SYS_DIR_REWIND
| SYS_MEM_ALLOC | SYS_MEM_FREE | SYS_MEM_INFO | SYS_MEM_COMPACT
| SYS_DISPLAY_CLEAR | SYS_DISPLAY_PIXEL | SYS_DISPLAY_TEXT | SYS_DISPLAY_RECT
| SYS_DISPLAY_UPDATE
| SYS_TASK_CREATE | SYS_TASK_KILL | SYS_TASK_YIELD | SYS_TASK_SLEEP
| SYS_TASK_LIST
| SYS_IPC_SEND | SYS_IPC_RECEIVE | SYS_IPC_POLL
| SYS_SEM_CREATE | SYS_SEM_WAIT | SYS_SEM_POST | SYS_SEM_DESTROY
| SYS_GPIO_PINMODE | SYS_GPIO_WRITE | SYS_GPIO_READ | SYS_GPIO_ANALOG_READ
| SYS_GPIO_ANALOG_WRITE
| SYS_I2C_BEGIN | SYS_I2C_WRITE | SYS_I2C_READ | SYS_I2C_REQUEST
| SYS_SPI_BEGIN | SYS_SPI_TRANSFER | SYS_SPI_END
| SYS_GET_TIME | SYS_PRINT | SYS_DBG_PRINT.

Definition all_SyscallType : list SyscallType :=
  [ SYS_FILE_OPEN; SYS_FILE_CLOSE; SYS_FILE_READ; SYS_FILE_WRITE;
    SYS_FILE_DELETE; SYS_FILE_EXISTS; SYS_FILE_SIZE;
    SYS_DIR_OPEN; SYS_DIR_READ; SYS_DIR_CLOSE; SYS_DIR_CREATE;
    SYS_DIR_REMOVE; SYS_DIR_REWIND;
    SYS_MEM_ALLOC; SYS_MEM_FREE; SYS_MEM_INFO; SYS_MEM_COMPACT;
    SYS_DISPLAY_CLEAR; SYS_DISPLAY_PIXEL; SYS_DISPLAY_TEXT; SYS_DISPLAY_RECT;
    SYS_DISPLAY_UPDATE;
    SYS_TASK_CREATE; SYS_TASK_KILL; SYS_TASK_YIELD; SYS_TASK_SLEEP;
    SYS_TASK_LIST;
    SYS_IPC_SEND; SYS_IPC_RECEIVE; SYS_IPC_POLL;
    SYS_SEM_CREATE; SYS_SEM_WAIT; SYS_SEM_POST; SYS_SEM_DESTROY;
    SYS_GPIO_PINMODE; SYS_GPIO_WRITE; SYS_GPIO_READ; SYS_GPIO_ANALOG_READ;
    SYS_GPIO_ANALOG_WRITE;
    SYS_I2C_BEGIN; SYS_I2C_WRITE; SYS_I2C_READ; SYS_I2C_REQUEST;
    SYS_SPI_BEGIN; SYS_SPI_TRANSFER; SYS_SPI_END;
    SYS_GET_TIME; SYS_PRINT; SYS_DBG_PRINT ].

(** The enumerator with numeric value [code], if there is one. *)
Definition SyscallType_of_Z (code : Z) : option SyscallType :=
  if code <? 0 then None else all_SyscallType !! Z.to_nat code.

(** A [void*] argument of [syscall], by what the caller put into it. *)
Inductive Arg : Type :=
| ArgNull
| ArgWord (z : Z)
| ArgString (s : string)
| ArgBytes (b : list byte)
| ArgBuffer.

(** [(int)(intptr_t)arg]: the word of a 32-bit board read as a signed
    [int].  The address held by a pointer argument is not represented (it
    is read as 0). *)
Definition arg_int (a : Arg) : Z :=
  match a with ArgWord z => s32 z | _ => 0 end.

(** [(size_t)(intptr_t)arg] and [(uint32_t)(intptr_t)arg]: the same word
    read as unsigned. *)
Definition arg_size (a : Arg) : Z :=
  match a with ArgWord z => u32 z | _ => 0 end.

(** [(bool)(intptr_t)arg] *)
Definition arg_bool (a : Arg) : bool :=
  match a with
  | ArgNull => false
  | ArgWord z => negb (u32 z =? 0)
  | _ => true
  end.

(** [(const char* )arg] *)
Definition arg_string (a : Arg) : option string :=
  match a with ArgString s => Some s | _ => None end.

(** A pointer to bytes to read. *)
Definition arg_bytes (a : Arg) : option (list byte) :=
  match a with
  | ArgNull => None
  | ArgBytes b => Some b
  | _ => Some []
  end.

(** Is the pointer non-null? *)
Definition arg_nonnull (a : Arg) : bool :=
  match a with
  | ArgNull => false
  | ArgWord z => negb (u32 z =? 0)
  | _ => true
  end.

(** A pointer into [kernelHeap]: an address becomes an offset; memory of
    the caller lies outside the heap, no header precedes it. *)
Definition arg_pointer (a : Arg) : pointer :=
  match a with
  | ArgNull => None
  | ArgWord z =>
      if u32 z =? 0 then None else Some (u32 z - kernelHeap_address)
  | _ => Some (-1)
  end.

(** [(int)(intptr_t)ptr] *)
Definition pointer_int (p : pointer) : Z :=
  match p with None => 0 | Some off => s32 (kernelHeap_address + off) end.

Definition ret {A : Type} (r : A * kernel) : outcome A :=
  let '(a, k) := r in Returns a k.

Definition map_outcome {A B : Type} (f : A -> B) (o : outcome A)
    : outcome B :=
  match o with
  | Returns a k => Returns (f a) k
  | Halts k => Halts k
  | Spins k => Spins k
  | Undefined => Undefined
  end.

(** [Kernel::syscall].  [clock n] is the [n]-th reading of [millis()] that
    the call makes and [fuel] bounds the busy-wait loop of [semWait]. *)
Definition syscall (hw : Hardware) (fuel : nat) (clock : nat -> Z)
    (type : Z) (arg1 arg2 arg3 arg4 : Arg) (k : kernel) : outcome Z :=
  match SyscallType_of_Z type with
  (* File operations *)
  | Some SYS_FILE_OPEN => ret (fileOpen hw (arg_string arg1) (arg_bool arg2) k)
  | Some SYS_FILE_CLOSE => ret (fileClose (arg_int arg1) k)
  | Some SYS_FILE_READ => ret (fileRead hw (arg_int arg1) (arg_size arg3) k)
  | Some SYS_FILE_WRITE => ret (fileWrite hw (arg_int arg1) (arg_size arg3) k)
  | Some SYS_FILE_DELETE =>
      let '(ok, k) := fileDelete hw (arg_string arg1) k in
      Returns (if ok then SYS_OK else SYS_ERR_IO_ERROR) k
  | Some SYS_FILE_EXISTS =>
      let '(ok, k) := fileExists hw (arg_string arg1) k in
      Returns (if ok then 1 else 0) k
  | Some SYS_FILE_SIZE => Returns (s32 (fileSize hw (arg_int arg1) k)) k
  (* Directory operations *)
  | Some SYS_DIR_OPEN => ret (dirOpen hw (arg_string arg1) k)
  | Some SYS_DIR_CLOSE => ret (dirClose (arg_int arg1) k)
  | Some SYS_DIR_READ =>
      let '(ok, k) := dirRead hw (arg_int arg1) (arg_nonnull arg2) k in
      Returns (if ok then 1 else 0) k
  | Some SYS_DIR_CREATE =>
      let '(ok, k) := dirCreate hw (arg_string arg1) k in
      Returns (if ok then SYS_OK else SYS_ERR_IO_ERROR) k
  | Some SYS_DIR_REMOVE =>
      let '(ok, k) := dirRemove hw (arg_string arg1) k in
      Returns (if ok then SYS_OK else SYS_ERR_IO_ERROR) k
  | Some SYS_DIR_REWIND => Returns SYS_OK (dirRewind (arg_int arg1) k)
  (* Memory operations *)
  | Some SYS_MEM_ALLOC => map_outcome pointer_int (memAlloc (arg_size arg1) k)
  | Some SYS_MEM_FREE =>
      map_outcome (fun _ => SYS_OK) (memFree (arg_pointer arg1) k)
  | Some SYS_MEM_COMPACT => map_outcome (fun _ => SYS_OK) (memCompact k)
  (* Task operations *)
  | Some SYS_TASK_YIELD => Returns SYS_OK (yield (clock O) k)
  | Some SYS_TASK_SLEEP =>
      Returns SYS_OK (sleep (arg_size arg1) (clock O) (clock 1%nat) k)
  (* IPC operations *)
  | Some SYS_IPC_SEND =>
      ret (ipcSend (arg_int arg1) (arg_bytes arg2) (arg_size arg3) (clock O) k)
  | Some SYS_IPC_RECEIVE =>
      ret (ipcReceive (arg_nonnull arg1) (arg_size arg2) (arg_nonnull arg3) k)
  | Some SYS_IPC_POLL => Returns (ipcPoll k) k
  (* Semaphore operations *)
  | Some SYS_SEM_CREATE =>
      ret (semCreate (arg_int arg1) (arg_int arg2) (arg_string arg3) k)
  | Some SYS_SEM_WAIT =>
      semWait fuel clock (arg_int arg1) (arg_size arg2) k
  | Some SYS_SEM_POST => ret (semPost (arg_int arg1) k)
  | Some SYS_SEM_DESTROY => ret (semDestroy (arg_int arg1) k)
  (* GPIO operations *)
  | Some SYS_GPIO_PINMODE => ret (gpioSetMode (arg_int arg1) (arg_int arg2) k)
  | Some SYS_GPIO_WRITE => ret (gpioWrite (arg_int arg1) (arg_int arg2) k)
  | Some SYS_GPIO_READ => ret (gpioRead hw (arg_int arg1) k)
  | Some SYS_GPIO_ANALOG_READ => ret (gpioAnalogRead hw (arg_int arg1) k)
  | Some SYS_GPIO_ANALOG_WRITE =>
      ret (gpioAnalogWrite (arg_int arg1) (arg_int arg2) k)
  (* I2C operations *)
  | Some SYS_I2C_BEGIN => ret (i2cBegin (u8 (arg_int arg1)) k)
  | Some SYS_I2C_WRITE =>
      ret (i2cWrite hw (u8 (arg_int arg1)) (arg_bytes arg2) (arg_size arg3) k)
  | Some SYS_I2C_READ =>
      ret (i2cRead hw (u8 (arg_int arg1)) (arg_nonnull arg2) (arg_size arg3) k)
  | Some SYS_I2C_REQUEST =>
      ret (i2cRequest hw (u8 (arg_int arg1)) (arg_size arg2) k)
  (* SPI operations *)
  | Some SYS_SPI_BEGIN => ret (spiBegin k)
  | Some SYS_SPI_TRANSFER =>
      ret (spiTransfer hw (arg_bytes arg1) (arg_nonnull arg2) (arg_size arg3) k)
  | Some SYS_SPI_END => ret (spiEnd k)
  (* System operations *)
  | Some SYS_GET_TIME => Returns (s32 (clock O)) k
  | _ => Returns SYS_ERR_INVALID_CALL k
  end.

(** ** Reports on the serial line.

    [printTaskList] and [printMemoryInfo] change nothing in the kernel;
    the embedding gives what they print: the rows of the task table and
    the figures of the memory report. *)

Record TaskRow : Type := mkTaskRow {
  row_slot : Z;
  row_name : string;
  row_padding : Z;
  row_state : string;
  row_memoryUsed : Z;
  row_timeSinceYield : Z
}.

(** The [switch] of [printTaskList] over the state of a listed task. *)
Definition state_label (s : TaskState) : string :=
  match s with
  | TASK_READY => "READY     "
  | TASK_RUNNING => "RUNNING   "
  | TASK_SLEEPING => "SLEEPING  "
  | TASK_BLOCKED => "BLOCKED   "
  | _ => "UNKNOWN   "
  end.

(** [for (int j = strlen(name); j < 16; j++) Serial.print(' ')]: the number
    of blanks printed after the name. *)
Definition name_padding (name : string) : Z :=
  Z.max 0 (16 - Z.of_nat (String.length name)).

(** The body of the loop of [Kernel::printTaskList] for slot [i].  The
    accumulator holds the rows printed so far; each row reads [millis()]
    once, so row [n] reads [clock n].  [strlen] of a null name is undefined
    behaviour in the source: the report is then [None]. *)
Definition printTaskList_body (clock : nat -> Z) (k : kernel) (i : Z)
    (acc : option (list TaskRow)) : option (list TaskRow) :=
  match acc with
  | None => None
  | Some rows =>
      let t := task_at k i in
      if TaskState_eqb (task_state t) TASK_EMPTY then Some rows
      else
        match task_name t with
        | None => None
        | Some name =>
            Some (rows
                  ++ [mkTaskRow i name (name_padding name)
                        (state_label (task_state t)) (task_memoryUsed t)
                        (u32 (clock (length rows) - task_lastYield t))])
        end
  end.

Definition printTaskList (clock : nat -> Z) (k : kernel)
    : option (list TaskRow) :=
  for_range 0 (Z.to_nat MAX_TASKS) (printTaskList_body clock k) (Some []).

Record MemoryInfo : Type := mkMemoryInfo {
  info_total : Z;
  info_used : Z;
  info_available : Z;
  info_usedBlocks : Z;
  info_freeBlocks : Z;
  info_fragmentation : bool
}.

(** The walk of [Kernel::printMemoryInfo] over the headers from [readPos]
    on; [None] when it needs a header that the list does not hold. *)
Fixpoint count_blocks (used : Z) (blocks : list MemoryBlock)
    (readPos usedBlocks freeBlocks : Z) : option (Z * Z) :=
  match blocks with
  | [] =>
      if readPos <? used then None else Some (usedBlocks, freeBlocks)
  | block :: rest =>
      if readPos <? used then
        count_blocks used rest (u32 (readPos + blockTotalSize block))
          (if blk_inUse block then usedBlocks + 1 else usedBlocks)
          (if blk_inUse block then freeBlocks else freeBlocks + 1)
      else Some (usedBlocks, freeBlocks)
  end.

(** [Kernel::printMemoryInfo]; the last field tells whether the line
    "Fragmentation detected - consider compacting" is printed. *)
Definition printMemoryInfo (k : kernel) : option MemoryInfo :=
  match count_blocks (heapUsed k) (kernelHeap k) 0 0 0 with
  | None => None
  | Some (usedBlocks, freeBlocks) =>
      Some (mkMemoryInfo KERNEL_HEAP_SIZE (heapUsed k) (memAvailable k)
              usedBlocks freeBlocks (freeBlocks >? 0))
  end.

(** ** The shell: path resolution ([shell.ino]).

    A C string is the list of its bytes before the terminating zero. *)

(** [s[0]]: the terminating zero when the string is empty. *)
Definition first_char (s : list byte) : byte := default "000"%byte (head s).

(** [s[strlen(s) - 1]] of a string that is not empty. *)
Definition last_char (s : list byte) : byte := default "000"%byte (last s).

(** [strcmp(a, b) == 0] *)
Fixpoint strcmp_eq (a b : list byte) : bool :=
  match a, b with
  | [], [] => true
  | x :: a', y :: b' => Byte.eqb x y && strcmp_eq a' b'
  | _, _ => false
  end.

(** [strncpy(dst, src, n - 1); dst[n - 1] = '\0'] into a buffer of [n]
    bytes: the string left in [dst]. *)
Definition strncpy_terminated (src : list byte) (n : Z) : list byte :=
  take (Z.to_nat (n - 1)) src.

(** [strncat(dst, src, n)]: the string left in [dst]. *)
Definition strncat (dst src : list byte) (n : Z) : list byte :=
  dst ++ take (Z.to_nat n) src.

(** [strrchr(s, c)]: the index of the last [c] in [s], [None] for a null
    result. *)
Fixpoint strrchr (s : list byte) (c : byte) : option nat :=
  match s with
  | [] => None
  | x :: rest =>
      match strrchr rest c with
      | Some i => Some (S i)
      | None => if Byte.eqb x c then Some O else None
      end
  end.

(** [resolvePath(path, currentDir, output, outputSize)]: the string left
    in [output].  The result is [None] where the source writes outside
    the buffer: [outputSize - 1] wraps around for a size of 0, and
    [strcpy(output, "/")] needs two bytes. *)
Definition resolvePath (path currentDir : list byte) (outputSize : Z)
    : option (list byte) :=
  if outputSize <? 1 then None
  else if Byte.eqb (first_char path) "/" then
    (* Absolute path *)
    Some (strncpy_terminated path outputSize)
  else if strcmp_eq path ["."%byte; "."%byte] then
    (* Go up one directory *)
    let output := strncpy_terminated currentDir outputSize in
    let len := Z.of_nat (length output) in
    (* Remove trailing slash *)
    let output :=
      if (len >? 1) && Byte.eqb (last_char output) "/"
      then take (Z.to_nat (len - 1)) output else output in
    (* Find last slash *)
    match strrchr output "/" with
    | Some (S i) => Some (take (S (S i)) output)
    | _ => if outputSize <? 2 then None else Some ["/"%byte]
    end
  else
    (* Relative path *)
    let output := strncpy_terminated currentDir outputSize in
    let len := Z.of_nat (length output) in
    let output :=
      if (len >? 0) && negb (Byte.eqb (last_char output) "/")
      then strncat output ["/"%byte] (outputSize - len - 1) else output in
    Some (strncat output path (outputSize - Z.of_nat (length output) - 1)).

(** ** Definitions used to state the properties *)

(** What one round of the watchdog loop does to the task of one slot. *)
Definition watchdog_task (now : Z) (t : Task) : Task :=
  if TaskState_eqb (task_state t) TASK_EMPTY then t
  else if TaskState_eqb (task_state t) TASK_SLEEPING then t
  else if u32 (now - task_lastYield t) >? WATCHDOG_TIMEOUT_MS then
    set_task_lastYield now
      (if TaskState_eqb (task_state t) TASK_RUNNING
       then set_task_state TASK_READY t else t)
  else t.

(** What the selection loop of the scheduler does to the task of one slot:
    a sleeping task whose deadline has passed becomes Ready. *)
Definition wake (now : Z) (t : Task) : Task :=
  if TaskState_eqb (task_state t) TASK_SLEEPING && (now >=? task_sleepUntil t)
  then set_task_state TASK_READY t else t.

(** Slot [j] of the task table [W] holds a task that the scheduler may
    select: it is Ready and its priority beats the initial [bestPriority]
    of -1. *)
Definition ready_at (W : list Task) (j : nat) (t : Task) : Prop :=
  W !! j = Some t /\ task_state t = TASK_READY /\ task_priority t > -1.

(** Slot [b] is the one the specification selects among the first [n]
    slots of [W]: a selectable task of highest priority, the lowest slot
    among equals, and slot 0 when no slot is selectable. *)
Definition selected_among (W : list Task) (n : nat) (b : Z) : Prop :=
  (b = 0 /\ forall j t, (j < n)%nat -> ~ ready_at W j t)
  \/ (exists t, ready_at W (Z.to_nat b) t /\ 0 <= b < Z.of_nat n
        /\ forall j t', (j < n)%nat -> ready_at W j t' ->
             task_priority t' <= task_priority t
             /\ (task_priority t' = task_priority t -> b <= Z.of_nat j)).

Definition is_selected (W : list Task) (b : Z) : Prop :=
  selected_among W (Z.to_nat MAX_TASKS) b.

(** The task that was current when another one is switched to. *)
Definition demote (t : Task) : Task :=
  if TaskState_eqb (task_state t) TASK_RUNNING
  then set_task_state TASK_READY t else t.

(** The contract of [schedule()] as the specification words it: after the
    watchdog check and the wake-ups, the selected task is Running, has
    [lastRun = now] and its entry point has been called exactly once. *)
Definition schedule_contract (wnow now : Z) (k : kernel) : Prop :=
  let k1 := checkWatchdog wnow k in
  let k2 := schedule wnow now k in
  exists (b : Z) (t : Task) (e : nat),
    is_selected (wake now <$> tasks k1) b
    /\ tasks k2 !! Z.to_nat b = Some t
    /\ task_state t = TASK_RUNNING
    /\ task_lastRun t = now
    /\ task_entryPoint t = Some e
    /\ trace k2 = trace k1 ++ [Invoke e].

(** A kernel whose task table has its [MAX_TASKS] slots and whose current
    task is one of them. *)
Definition tasks_wf (k : kernel) : Prop :=
  length (tasks k) = Z.to_nat MAX_TASKS
  /\ 0 <= currentTaskId k < MAX_TASKS.

(** The selection loop of the scheduler after [n] rounds: [b] and [p] are
    [bestTask] and [bestPriority]. *)
Definition best_so_far (W : list Task) (n : nat) (b p : Z) : Prop :=
  (p = -1 /\ b = 0 /\ forall j t, (j < n)%nat -> ~ ready_at W j t)
  \/ (exists t, ready_at W (Z.to_nat b) t /\ 0 <= b < Z.of_nat n
        /\ p = task_priority t
        /\ forall j t', (j < n)%nat -> ready_at W j t' ->
             task_priority t' <= p
             /\ (task_priority t' = p -> b <= Z.of_nat j)).

Definition loop_inv (now : Z) (k : kernel) (n : nat) (acc : kernel * Z * Z)
    : Prop :=
  let '(k', b, p) := acc in
  k' = set_tasks (tasks k') k
  /\ (forall j, tasks k' !! j
                = if decide (j < n)%nat then wake now <$> tasks k !! j
                  else tasks k !! j)
  /\ best_so_far (wake now <$> tasks k) n b p.

(** The build is sound: a header takes room and the heap can be addressed
    with [size_t]. *)
Definition target_ok : Prop :=
  0 < sizeof_MemoryBlock /\ 0 <= KERNEL_HEAP_SIZE
  /\ sizeof_MemoryBlock + KERNEL_HEAP_SIZE < 2 ^ 32.

(** Bytes taken by a run of blocks, headers included. *)
Definition heap_total (blocks : list MemoryBlock) : Z :=
  foldr (fun b acc => sizeof_MemoryBlock + blk_size b + acc) 0 blocks.

(** Heap linearity: walking the headers from offset 0 reaches exactly the
    watermark, which lies within the heap. *)
Definition heap_wf (k : kernel) : Prop :=
  heapUsed k = heap_total (kernelHeap k)
  /\ heapUsed k <= KERNEL_HEAP_SIZE
  /\ Forall (fun b => 0 <= blk_size b) (kernelHeap k).

(** The blocks with [inUse = true], in address order. *)
Definition live (blocks : list MemoryBlock) : list MemoryBlock :=
  filter (fun b => blk_inUse b = true) blocks.

(** The sum of [block.size] over the blocks with [inUse = true]. *)
Definition live_bytes (blocks : list MemoryBlock) : Z :=
  foldr (fun b acc => if blk_inUse b then blk_size b + acc else acc) 0 blocks.

(** The same sum over the live blocks owned by task [o]. *)
Definition owned_bytes (o : Z) (blocks : list MemoryBlock) : Z :=
  foldr (fun b acc =>
           if blk_inUse b && (blk_ownerTaskId b =? o)
           then blk_size b + acc else acc) 0 blocks.

(** The sum over all task slots of [task.memoryUsed]. *)
Definition sum_memoryUsed (ts : list Task) : Z :=
  foldr (fun t acc => task_memoryUsed t + acc) 0 ts.

(** Ownership accounting, slot by slot: each slot is charged the live
    bytes it owns, and every live block is owned by a slot. *)
Definition owner_acct (k : kernel) : Prop :=
  Forall (fun b => blk_inUse b = true -> 0 <= blk_ownerTaskId b < MAX_TASKS)
    (kernelHeap k)
  /\ forall o, 0 <= o < MAX_TASKS ->
       task_memoryUsed (task_at k o) = owned_bytes o (kernelHeap k).

(** [p] is the payload address of block [i], whose header is [b]. *)
Definition payload_of (k : kernel) (p : Z) (i : nat) (b : MemoryBlock)
    : Prop :=
  header_index (kernelHeap k) 0 (p - sizeof_MemoryBlock) = Some i
  /\ kernelHeap k !! i = Some b.

(** A request that the [size_t] arithmetic of the allocator can hold. *)
Definition alloc_size_ok (size : Z) : Prop :=
  0 <= size <= 2 ^ 32 - 4 - sizeof_MemoryBlock - KERNEL_HEAP_SIZE.

(** The least multiple of 4 that is at least [size]. *)
Definition round_up4 (size : Z) : Z := 4 * ((size + 3) / 4).

(** The calls that the accounting invariant is about. *)
Inductive heap_op : Type :=
| OpCreateTask (name : option string) (entryPoint : EntryPoint) (now : Z)
| OpKillTask (taskId : Z)
| OpMemAlloc (size : Z)
| OpMemFree (ptr : pointer)
| OpMemCompact.

Definition apply_op (op : heap_op) (k : kernel) : outcome unit :=
  match op with
  | OpCreateTask name entryPoint now =>
      Returns tt (createTask name entryPoint now k).2
  | OpKillTask taskId => Returns tt (killTask taskId k)
  | OpMemAlloc size => map_outcome (fun _ => tt) (memAlloc size k)
  | OpMemFree ptr => memFree ptr k
  | OpMemCompact => memCompact k
  end.

Fixpoint run (ops : list heap_op) (k : kernel) : outcome unit :=
  match ops with
  | [] => Returns tt k
  | op :: rest =>
      match apply_op op k with
      | Returns _ k' => run rest k'
      | o => o
      end
  end.

(** The accounting invariant as the specification words it. *)
Definition accounting (k : kernel) : Prop :=
  sum_memoryUsed (tasks k) = live_bytes (kernelHeap k).

(** [p] is the payload address of a block that the heap holds now. *)
Definition is_payload (k : kernel) (p : Z) : Prop :=
  exists (i : nat) (b : MemoryBlock), payload_of k p i b.

(** A call that keeps the accounting: an allocation whose size the
    [size_t] arithmetic can hold, a [createTask] that does not claim a
    slot still charged for the blocks of a killed task, and a [memFree] of
    the null pointer or of the payload address of a block that the heap
    holds at the time of the call (an address handed out before a
    compaction that moved its block is none). *)
Definition op_ok (op : heap_op) (k : kernel) : Prop :=
  match op with
  | OpCreateTask _ _ _ =>
      allocateTaskId k < 0
      \/ task_memoryUsed (task_at k (allocateTaskId k)) = 0
  | OpMemAlloc size => alloc_size_ok size
  | OpMemFree (Some p) => is_payload k p
  | _ => True
  end.

Fixpoint ops_ok (ops : list heap_op) (k : kernel) : Prop :=
  match ops with
  | [] => True
  | op :: rest =>
      op_ok op k
      /\ forall k', apply_op op k = Returns tt k' -> ops_ok rest k'
  end.

(** [f 0 + f 1 + ... + f (MAX_TASKS - 1)] *)
Definition sum_slots (f : Z -> Z) : Z :=
  foldr (fun o acc => f o + acc) 0
    (Z.of_nat <$> seq 0 (Z.to_nat MAX_TASKS)).

(** What the heap calls maintain. *)
Definition accounting_inv (k : kernel) : Prop :=
  heap_wf k /\ tasks_wf k /\ owner_acct k.

(** The accounting claim as the specification words it, for the calls
    [ops] made from state [k]. *)
Definition accounting_claim (k : kernel) (ops : list heap_op) : Prop :=
  forall k', run ops k = Returns tt k' -> accounting k'.

(** The messages waiting in a mailbox, oldest first: the [count] entries
    from [head] on, around the ring. *)
Definition pending (q : MessageQueue) : list Message :=
  (fun j : nat =>
     message_at q ((mq_head q + Z.of_nat j) mod MAX_MESSAGE_QUEUE_SIZE))
    <$> seq 0 (Z.to_nat (mq_count q)).

(** The mailbox invariant of the data model: a ring of
    [MAX_MESSAGE_QUEUE_SIZE] entries, [tail] is [count] entries after
    [head], and the waiting entries are valid and at most 64 bytes long. *)
Definition queue_wf (q : MessageQueue) : Prop :=
  length (mq_messages q) = Z.to_nat MAX_MESSAGE_QUEUE_SIZE
  /\ 0 <= mq_head q < MAX_MESSAGE_QUEUE_SIZE
  /\ 0 <= mq_count q <= MAX_MESSAGE_QUEUE_SIZE
  /\ mq_tail q = (mq_head q + mq_count q) mod MAX_MESSAGE_QUEUE_SIZE
  /\ Forall (fun m => msg_valid m = true
                      /\ 0 <= msg_length m <= MESSAGE_DATA_SIZE) (pending q).

Definition mailboxes_wf (k : kernel) : Prop :=
  length (messageQueues k) = Z.to_nat MAX_TASKS
  /\ forall t, 0 <= t < MAX_TASKS -> queue_wf (queue_at k t).

(** Semaphore bounds: every semaphore slot in use has
    [0 <= value <= maxValue]. *)
Definition sem_ok (s : Semaphore) : Prop :=
  sem_inUse s = true -> 0 <= sem_value s <= sem_maxValue s.

Definition semaphores_ok (k : kernel) : Prop :=
  length (semaphores k) = Z.to_nat MAX_SEMAPHORES
  /\ Forall sem_ok (semaphores k).

(** The capability set that [createTask] gives to a task. *)
Definition default_capabilities (t : Task) : Prop :=
  canAccessSD t = true /\ canAccessDisplay t = true
  /\ canAccessGPIO t = true /\ canCreateTasks t = false
  /\ canAccessI2C t = false /\ canAccessSPI t = false.

(** Handle [h] is an open file of the current task. *)
Definition owns_file (k : kernel) (h : Z) : Prop :=
  0 <= h < MAX_FILE_HANDLES
  /\ fh_inUse (fileHandle_at k h) = true
  /\ fh_ownerTaskId (fileHandle_at k h) = currentTaskId k.

(** Handle [h] is an open directory of the current task. *)
Definition owns_dir (k : kernel) (h : Z) : Prop :=
  0 <= h < MAX_DIR_HANDLES
  /\ dh_inUse (dirHandle_at k h) = true
  /\ dh_ownerTaskId (dirHandle_at k h) = currentTaskId k.

(** [is_payload], [op_ok] and [ops_ok] as tests that can be run. *)
Definition is_payloadb (k : kernel) (p : Z) : bool :=
  match header_index (kernelHeap k) 0 (p - sizeof_MemoryBlock) with
  | Some i => bool_decide (is_Some (kernelHeap k !! i))
  | None => false
  end.

Definition op_okb (op : heap_op) (k : kernel) : bool :=
  match op with
  | OpCreateTask _ _ _ =>
      (allocateTaskId k <? 0)
      || (task_memoryUsed (task_at k (allocateTaskId k)) =? 0)
  | OpMemAlloc size =>
      (0 <=? size)
      && (size <=? 2 ^ 32 - 4 - sizeof_MemoryBlock - KERNEL_HEAP_SIZE)
  | OpMemFree (Some p) => is_payloadb k p
  | _ => true
  end.

Fixpoint ops_okb (ops : list heap_op) (k : kernel) : bool :=
  match ops with
  | [] => true
  | op :: rest =>
      op_okb op k
      && match apply_op op k with
         | Returns _ k' => ops_okb rest k'
         | _ => true
         end
  end.

(** ** Definitions used to state further properties *)

(** The calls that act on the task table. *)
Inductive task_op : Type :=
| OpSchedule (wnow now : Z)
| OpYield (now : Z)
| OpSleep (ms now1 now2 : Z)
| OpFeedWatchdog (now : Z)
| OpEnableWatchdog (enable : bool)
| OpCreate (name : option string) (entryPoint : EntryPoint) (now : Z)
| OpKill (taskId : Z).

Definition apply_task_op (op : task_op) (k : kernel) : kernel :=
  match op with
  | OpSchedule wnow now => schedule wnow now k
  | OpYield now => yield now k
  | OpSleep ms now1 now2 => sleep ms now1 now2 k
  | OpFeedWatchdog now => feedWatchdog now k
  | OpEnableWatchdog enable => enableWatchdog enable k
  | OpCreate name entryPoint now => (createTask name entryPoint now k).2
  | OpKill taskId => killTask taskId k
  end.

Definition run_tasks (ops : list task_op) (k : kernel) : kernel :=
  foldl (fun k op => apply_task_op op k) k ops.

(** What the task operations maintain: the table is whole, the idle slot is
    never empty, only the current task can be Running, and no task is ever
    Blocked or a Zombie. *)
Definition task_inv (k : kernel) : Prop :=
  tasks_wf k
  /\ task_state (task_at k 0) <> TASK_EMPTY
  /\ forall (j : nat) (t : Task),
       tasks k !! j = Some t ->
       (task_state t = TASK_RUNNING -> Z.of_nat j = currentTaskId k)
       /\ task_state t <> TASK_BLOCKED /\ task_state t <> TASK_ZOMBIE.

(** The entry points called so far, oldest first. *)
Definition calls (tr : list Event) : list nat :=
  omap (fun e => match e with Invoke n => Some n | _ => None end) tr.

(** [schedule()] called once for each pair of clock readings. *)
Definition schedule_times (clocks : list (Z * Z)) (k : kernel) : kernel :=
  foldl (fun k c => schedule c.1 c.2 k) k clocks.

(** The current task is Ready and no other task can be preferred to it:
    every other slot is neither Sleeping nor Running and, if Ready, has a
    lower priority or the same priority and a higher slot number. *)
Definition starved (k : kernel) : Prop :=
  tasks_wf k
  /\ task_state (getCurrentTask k) = TASK_READY
  /\ -1 < task_priority (getCurrentTask k)
  /\ forall (j : nat) (t : Task),
       tasks k !! j = Some t -> Z.of_nat j <> currentTaskId k ->
       task_state t <> TASK_SLEEPING /\ task_state t <> TASK_RUNNING
       /\ (task_state t = TASK_READY ->
           task_priority t < task_priority (getCurrentTask k)
           \/ (task_priority t = task_priority (getCurrentTask k)
               /\ currentTaskId k < Z.of_nat j)).

(** What [freeFileHandle] and [freeDirHandle] leave alone. *)
Definition same_but_handles (k k' : kernel) : Prop :=
  tasks k' = tasks k /\ currentTaskId k' = currentTaskId k
  /\ nextTaskId k' = nextTaskId k
  /\ kernelHeap k' = kernelHeap k /\ heapUsed k' = heapUsed k
  /\ sdInitialized k' = sdInitialized k
  /\ messageQueues k' = messageQueues k /\ semaphores k' = semaphores k
  /\ watchdogEnabled k' = watchdogEnabled k
  /\ watchdogLastCheck k' = watchdogLastCheck k
  /\ initialized k' = initialized k /\ bootTime k' = bootTime k.

(** What [schedule()] leaves alone: everything but the task table, the
    current task id, the time of the last watchdog check and the log. *)
Definition sched_frame (k k' : kernel) : Prop :=
  nextTaskId k' = nextTaskId k
  /\ kernelHeap k' = kernelHeap k /\ heapUsed k' = heapUsed k
  /\ fileHandles k' = fileHandles k /\ dirHandles k' = dirHandles k
  /\ sdInitialized k' = sdInitialized k
  /\ messageQueues k' = messageQueues k /\ semaphores k' = semaphores k
  /\ watchdogEnabled k' = watchdogEnabled k
  /\ initialized k' = initialized k /\ bootTime k' = bootTime k.

(** The payloads waiting in the mailbox of task [t], oldest first. *)
Definition payloads (k : kernel) (t : Z) : list (list byte) :=
  (fun m => take (Z.to_nat (msg_length m)) (msg_data m))
    <$> pending (queue_at k t).

(** [ipcSend] called once for each payload of a list, in order. *)
Fixpoint send_all (t : Z) (msgs : list (list byte)) (now : Z) (k : kernel)
    : kernel :=
  match msgs with
  | [] => k
  | m :: rest =>
      send_all t rest now (ipcSend t (Some m) (Z.of_nat (length m)) now k).2
  end.

(** A directory as the shell keeps it: it ends with a slash. *)
Definition ends_with_slash (s : list byte) : Prop := last s = Some "/"%byte.

(** One component of a path: not empty, no slash in it. *)
Definition path_component (s : list byte) : Prop :=
  s <> [] /\ Forall (fun c => c <> "/"%byte) s.

(** The slots below [n] that [printTaskList] lists: those that are not
    empty, in increasing order. *)
Definition listed (k : kernel) (n : nat) : list Z :=
  filter (fun i => TaskState_eqb (task_state (task_at k i)) TASK_EMPTY = false)
    (Z.of_nat <$> seq 0 n).

(** The row that [printTaskList] prints for slot [i] when it reads [now]
    from the clock. *)
Definition row_of (k : kernel) (now i : Z) (name : string) : TaskRow :=
  mkTaskRow i name (name_padding name) (state_label (task_state (task_at k i)))
    (task_memoryUsed (task_at k i)) (u32 (now - task_lastYield (task_at k i))).

(** A heap call that the list of headers answers for: an allocation whose
    size the [size_t] arithmetic can hold, and a [memFree] of the null
    pointer or of the payload address of a block that the heap holds at
    the time of the call. *)
Definition op_safe (op : heap_op) (k : kernel) : Prop :=
  match op with
  | OpMemAlloc size => alloc_size_ok size
  | OpMemFree (Some p) => is_payload k p
  | _ => True
  end.

Fixpoint ops_safe (ops : list heap_op) (k : kernel) : Prop :=
  match ops with
  | [] => True
  | op :: rest =>
      op_safe op k
      /\ forall k', apply_op op k = Returns tt k' -> ops_safe rest k'
  end.

Definition op_safeb (op : heap_op) (k : kernel) : bool :=
  match op with
  | OpMemAlloc size =>
      (0 <=? size)
      && (size <=? 2 ^ 32 - 4 - sizeof_MemoryBlock - KERNEL_HEAP_SIZE)
  | OpMemFree (Some p) => is_payloadb k p
  | _ => true
  end.

Fixpoint ops_safeb (ops : list heap_op) (k : kernel) : bool :=
  match ops with
  | [] => true
  | op :: rest =>
      op_safeb op k
      && match apply_op op k with
         | Returns _ k' => ops_safeb rest k'
         | _ => false
         end
  end.

End WithTarget.

(** ** Concrete runs *)

(** The Giga R1 WiFi build: 512 KB of heap; a 32-bit ARM compiler lays
    [MemoryBlock] out in 16 bytes (4 + 4 + 1 + 3 of padding + 4). *)
Definition giga_r1 : Target := mkTarget (512 * 1024) 16 603979776.

(** The kernel after [init], booted at time 0 with the SD card mounted. *)
Definition booted : kernel := (init true 0 0 0 static_init).2.

(** One task, created at time 0. *)
Definition one_task : kernel :=
  (createTask (Some "A"%string) (Some 1%nat) 0 booted).2.

(** The first [schedule()] switches to the task and calls its entry
    point; the task body calls [yield()] at time 1 and returns. *)
Definition one_task_yielded : kernel := yield 1 (schedule 0 0 one_task).

(** The kernel in which an operation ends. *)
Definition after {A : Type} (o : outcome A) : kernel :=
  match o with
  | Returns _ k | Halts k | Spins k => k
  | Undefined => static_init
  end.

(** Two tasks A and B.  [schedule()] runs A, which allocates 100 bytes and
    returns without yielding; the next [schedule()] runs B. *)
Definition two_tasks : kernel :=
  (createTask (Some "B"%string) (Some 2%nat) 0 one_task).2.

Definition two_tasks_one_block : kernel :=
  schedule 1 1
    (after (memAlloc (target := giga_r1) 100 (schedule 0 0 two_tasks))).

(** B kills A and creates a task C, which gets the slot of A. *)
Definition kill_and_create : list heap_op :=
  [OpKillTask 1; OpCreateTask (Some "C"%string) (Some 3%nat) 2].

(** The idle task allocates three blocks of 100 bytes after boot. *)
Definition three_blocks : kernel :=
  after (memAlloc (target := giga_r1) 100
           (after (memAlloc (target := giga_r1) 100
                     (after (memAlloc (target := giga_r1) 100 booted))))).

(** Peripherals that answer nothing: pins read 0, the bus and the card
    report failure. *)
Definition quiet_hardware : Hardware :=
  mkHardware (fun _ => 0) (fun _ => 0) (fun _ _ _ => 0) (fun _ => 1)
    (fun _ _ => 0) [] (fun tx => tx) (fun _ _ => None) (fun _ => false)
    (fun _ => false) (fun _ => false) (fun _ => false) (fun _ _ => (0, []))
    (fun _ _ => 0) (fun _ => 0) (fun _ => false) (fun _ => None)
    (fun _ => EmptyString).

(** Task A (slot 1) is running and sends the two bytes "01" to task B
    (slot 2) at time 5. *)
Definition payload_01 : list byte := ["0"%byte; "1"%byte].

Definition sender_running : kernel := schedule 0 0 two_tasks.

Definition message_sent : kernel :=
  (ipcSend 2 (Some payload_01) 2 5 sender_running).2.

(** Then B is the current task. *)
Definition receiver_running : kernel := set_currentTaskId 2 message_sent.

(** A mailbox that breaks the invariant: [count] is 1 but the entry at
    [head] is not valid. *)
Definition broken_mailbox : kernel :=
  set_messageQueues
    (<[0%nat := mkMessageQueue (mq_messages zero_queue) 0 1 1]>
       (messageQueues booted)) booted.

(** A binary semaphore created full by the idle task. *)
Definition full_semaphore : kernel := (semCreate 1 1 None booted).2.

(** ** Further concrete runs *)

(** Task A, running, sleeps 100 ms at time 1. *)
Definition one_task_asleep : kernel := sleep 100 1 1 (schedule 0 0 one_task).

(** Ten milliseconds before [millis()] wraps around. *)
Definition near_wrap : Z := 2 ^ 32 - 10.

(** Three blocks of 100 bytes with the middle one freed. *)
Definition middle_freed : kernel :=
  after (memFree (target := giga_r1) (Some 132) three_blocks).

(** B kills A, whose block of 100 bytes stays in use; task C gets the
    slot of A; B frees the block of A twice, compacts the heap, and asks
    for 40 bytes and for more than the heap has. *)
Definition orphan_calls : list heap_op :=
  [OpKillTask 1; OpCreateTask (Some "C"%string) (Some 3%nat) 2;
   OpMemFree (Some 16); OpMemFree (Some 16); OpMemFree None; OpMemCompact;
   OpMemAlloc 40; OpMemAlloc (512 * 1024)].

(** What happens to the task table in a short session. *)
Definition task_calls : list task_op :=
  [OpCreate (Some "A"%string) (Some 1%nat) 0; OpSchedule 0 0; OpYield 1;
   OpCreate (Some "B"%string) (Some 2%nat) 1; OpSchedule 2 2;
   OpSleep 100 3 3; OpSchedule 4 4; OpFeedWatchdog 5;
   OpEnableWatchdog false; OpSchedule 7000 7000; OpKill 1;
   OpEnableWatchdog true; OpSchedule 9000 9000].

(** Sixteen messages for one mailbox. *)
Definition sixteen_messages : list (list byte) := replicate 16 payload_01.

(** A semaphore created empty by the idle task. *)
Definition empty_semaphore : kernel := (semCreate 0 1 None booted).2.

(** A clock that advances by one millisecond at each reading. *)
Definition ticking (n : nat) : Z := Z.of_nat n.

(** The full semaphore of the idle task, seen by task A. *)
Definition semaphore_of_idle : kernel :=
  schedule 0 0 (createTask (Some "A"%string) (Some 1%nat) 0 full_semaphore).2.

(** A card on which every file opens. *)
Definition card_hardware : Hardware :=
  mkHardware (fun _ => 0) (fun _ => 0) (fun _ _ _ => 0) (fun _ => 1)
    (fun _ _ => 0) [] (fun tx => tx) (fun _ _ => Some 7%nat) (fun _ => false)
    (fun _ => true) (fun _ => false) (fun _ => false) (fun _ _ => (0, []))
    (fun _ _ => 0) (fun _ => 0) (fun _ => false) (fun _ => None)
    (fun _ => EmptyString).

(** Task A opens a file for reading; then task B is the current task. *)
Definition file_of_A : kernel :=
  (fileOpen card_hardware (Some "log.txt"%string) false sender_running).2.

Definition file_of_A_seen_by_B : kernel := set_currentTaskId 2 file_of_A.

(** The root directory and a directory name, as the shell holds them. *)
Definition root_dir : list byte := ["/"%byte].

Definition logs : list byte := ["l"%byte; "o"%byte; "g"%byte; "s"%byte].

Section Properties.
Context {target : Target}.

(** * Properties *)

(** Boolean tests of the code, turned into propositions for [lia]. *)
Ltac tests :=
  repeat match goal with
  | H : (_ >? _) = _ |- _ => rewrite Z.gtb_ltb in H
  | H : (_ >=? _) = _ |- _ => rewrite Z.geb_leb in H
  | H : (_ <? _) = true |- _ => apply Z.ltb_lt in H
  | H : (_ <? _) = false |- _ => apply Z.ltb_ge in H
  | H : (_ <=? _) = true |- _ => apply Z.leb_le in H
  | H : (_ <=? _) = false |- _ => apply Z.leb_gt in H
  | H : (_ =? _) = true |- _ => apply Z.eqb_eq in H
  | H : (_ =? _) = false |- _ => apply Z.eqb_neq in H
  | H : (_ || _) = true |- _ => apply orb_true_iff in H
  | H : (_ || _) = false |- _ => apply orb_false_iff in H; destruct H
  | H : (_ && _) = true |- _ => apply andb_true_iff in H; destruct H
  | H : (_ && _) = false |- _ => apply andb_false_iff in H
  | H : negb _ = true |- _ => apply negb_true_iff in H
  | H : negb _ = false |- _ => apply negb_false_iff in H
  end.

(** ** Arrays and loops *)

Lemma TaskState_eqb_eq (a b : TaskState) :
  TaskState_eqb a b = true <-> a = b.
Proof. destruct a, b; simpl; split; intros H; try done. Qed.

Lemma TaskState_eqb_refl (a : TaskState) : TaskState_eqb a a = true.
Proof. by destruct a. Qed.

Lemma for_range_S {S : Type} (from : Z) (n : nat) (body : Z -> S -> S)
    (s : S) :
  for_range from (Datatypes.S n) body s
  = body (from + Z.of_nat n) (for_range from n body s).
Proof. unfold for_range. by rewrite seq_S, foldl_app. Qed.

Lemma for_range_preserves {S : Type} (P : S -> Prop) (from : Z) (n : nat)
    (body : Z -> S -> S) (s : S) :
  P s ->
  (forall (j : nat) (s : S), P s -> P (body (from + Z.of_nat j) s)) ->
  P (for_range from n body s).
Proof.
  intros H0 Hstep. induction n as [|n IH]; [done|].
  rewrite for_range_S. by apply Hstep.
Qed.

Lemma insert_alter_at {A : Type} (l : list A) (i : nat) (d : A)
    (f : A -> A) :
  <[i := f (default d (l !! i))]> l = alter f i l.
Proof.
  apply list_eq. intros j. destruct (decide (i = j)) as [<-|Hne].
  - rewrite list_lookup_alter_eq. destruct (l !! i) eqn:E; simpl.
    + rewrite list_lookup_insert_eq; [done|]. by eapply lookup_lt_Some.
    + rewrite list_insert_ge; [done|]. by apply lookup_ge_None.
  - by rewrite list_lookup_insert_ne, list_lookup_alter_ne.
Qed.

Lemma tasks_update_task (i : Z) (f : Task -> Task) (k : kernel) :
  tasks (update_task i f k) = alter f (Z.to_nat i) (tasks k).
Proof. unfold update_task, task_at. simpl. apply insert_alter_at. Qed.

Lemma task_at_lookup (k : kernel) (i : Z) (t : Task) :
  tasks k !! Z.to_nat i = Some t -> task_at k i = t.
Proof. unfold task_at. by intros ->. Qed.

Lemma task_at_None (k : kernel) (i : Z) :
  tasks k !! Z.to_nat i = None -> task_at k i = zero_task.
Proof. unfold task_at. by intros ->. Qed.

(** A loop whose round [i] rewrites slot [i] alone rewrites the slots below
    its bound, each by its own round. *)
Lemma tasks_for_range (f : Task -> Task) (body : Z -> kernel -> kernel) :
  (forall (j : nat) (k : kernel),
      tasks (body (Z.of_nat j) k) = alter f j (tasks k)) ->
  forall (n : nat) (k : kernel) (j : nat),
    tasks (for_range 0 n body k) !! j
    = if decide (j < n)%nat then f <$> tasks k !! j else tasks k !! j.
Proof.
  intros Hbody n. induction n as [|n IH]; intros k j.
  - by case_decide; [lia|].
  - rewrite for_range_S, Z.add_0_l, Hbody.
    destruct (decide (n = j)) as [<-|Hne].
    + rewrite list_lookup_alter_eq, IH.
      repeat case_decide; try lia; done.
    + rewrite list_lookup_alter_ne by done. rewrite IH.
      repeat case_decide; try lia; done.
Qed.

(** ** Watchdog *)

Lemma tasks_watchdog_body (now : Z) (j : nat) (k : kernel) :
  tasks (watchdog_body now (Z.of_nat j) k)
  = alter (watchdog_task now) j (tasks k).
Proof.
  unfold watchdog_body.
  destruct (tasks k !! j) as [t|] eqn:E.
  - rewrite (task_at_lookup k (Z.of_nat j) t) by (by rewrite Nat2Z.id).
    assert (Hid : tasks k = alter (fun t => t) j (tasks k))
      by (symmetry; by apply list_alter_id).
    assert (Hext : forall g, g t = watchdog_task now t ->
              alter g j (tasks k) = alter (watchdog_task now) j (tasks k)).
    { intros g Hg. apply list_alter_ext; [|done].
      intros x Hx. rewrite E in Hx. by injection Hx as <-. }
    unfold watchdog_task in *.
    destruct (TaskState_eqb (task_state t) TASK_EMPTY) eqn:E1.
    { rewrite Hid at 1. by apply Hext. }
    destruct (TaskState_eqb (task_state t) TASK_SLEEPING) eqn:E2.
    { rewrite Hid at 1. by apply Hext. }
    destruct (u32 (now - task_lastYield t) >? WATCHDOG_TIMEOUT_MS) eqn:E3.
    2:{ rewrite Hid at 1. by apply Hext. }
    destruct (TaskState_eqb (task_state t) TASK_RUNNING) eqn:E4.
    + rewrite !tasks_update_task, Nat2Z.id. simpl.
      rewrite list_alter_alter_eq. by apply Hext.
    + rewrite !tasks_update_task, Nat2Z.id. simpl. by apply Hext.
  - rewrite (task_at_None k (Z.of_nat j)) by (by rewrite Nat2Z.id).
    simpl. apply list_eq. intros i.
    destruct (decide (j = i)) as [<-|Hne].
    + by rewrite list_lookup_alter_eq, E.
    + by rewrite list_lookup_alter_ne.
Qed.

Lemma tasks_checkWatchdog_run (now : Z) (k : kernel) (j : nat) :
  watchdogEnabled k = true ->
  1000 <= u32 (now - watchdogLastCheck k) ->
  tasks (checkWatchdog now k) !! j
  = if decide (j < Z.to_nat MAX_TASKS)%nat
    then watchdog_task now <$> tasks k !! j else tasks k !! j.
Proof.
  intros Hen Hel. unfold checkWatchdog. rewrite Hen. simpl.
  destruct (u32 (now - watchdogLastCheck k) <? 1000) eqn:E; [tests; lia|].
  rewrite (tasks_for_range (watchdog_task now)); [done|].
  intros. apply tasks_watchdog_body.
Qed.

Lemma checkWatchdog_idle (now : Z) (k : kernel) :
  watchdogEnabled k = false \/ u32 (now - watchdogLastCheck k) < 1000 ->
  checkWatchdog now k = k.
Proof.
  intros [H|H]; unfold checkWatchdog.
  - by rewrite H.
  - destruct (negb (watchdogEnabled k)); [done|].
    by apply Z.ltb_lt in H as ->.
Qed.

Lemma watchdog_task_not_empty (now : Z) (t : Task) :
  task_state (watchdog_task now t) = TASK_EMPTY -> task_state t = TASK_EMPTY.
Proof.
  unfold watchdog_task.
  destruct (task_state t) eqn:E; simpl; rewrite ?E; try done;
    destruct (_ >? _); simpl; rewrite ?E; done.
Qed.

Lemma watchdog_body_clock (now i : Z) (k : kernel) :
  watchdogLastCheck (watchdog_body now i k) = watchdogLastCheck k
  /\ watchdogEnabled (watchdog_body now i k) = watchdogEnabled k.
Proof.
  unfold watchdog_body.
  repeat match goal with
         | |- context [if ?c then _ else _] => destruct c
         end; done.
Qed.

(** A check that runs records the time of its run. *)
Lemma checkWatchdog_clock (now : Z) (k : kernel) :
  watchdogEnabled k = true ->
  1000 <= u32 (now - watchdogLastCheck k) ->
  watchdogLastCheck (checkWatchdog now k) = now
  /\ watchdogEnabled (checkWatchdog now k) = true.
Proof.
  intros Hen Hel. unfold checkWatchdog. rewrite Hen. simpl.
  destruct (u32 (now - watchdogLastCheck k) <? 1000) eqn:E; [tests; lia|].
  apply (for_range_preserves
           (fun s => watchdogLastCheck s = now /\ watchdogEnabled s = true));
    [done|].
  intros j s [H1 H2].
  destruct (watchdog_body_clock now (0 + Z.of_nat j) s) as [-> ->]. done.
Qed.

(** C8. The watchdog check does nothing unless at least 1000 ms have passed
    since [watchdogLastCheck], which is the time of its last run: a check
    that runs stores [now] there, so a check less than 1000 ms after a run
    changes nothing.  When it runs (it is enabled and that time has
    passed), every slot whose task is neither empty nor sleeping and has
    [now - lastYield > 5000] (on [uint32_t]) has its state changed from
    Running to Ready, any other state kept, and [lastYield] set to [now];
    every other slot is left as it is.  In no case does a slot that was not
    Empty become Empty. *)
Theorem checkWatchdog_spec (now : Z) (k : kernel) :
  (u32 (now - watchdogLastCheck k) < 1000 -> checkWatchdog now k = k)
  /\ (watchdogEnabled k = true ->
      1000 <= u32 (now - watchdogLastCheck k) ->
      forall (i : nat) (t : Task),
        (i < Z.to_nat MAX_TASKS)%nat ->
        tasks k !! i = Some t ->
        (task_state t <> TASK_EMPTY ->
         task_state t <> TASK_SLEEPING ->
         u32 (now - task_lastYield t) > WATCHDOG_TIMEOUT_MS ->
         tasks (checkWatchdog now k) !! i
         = Some (set_task_lastYield now
                   (if TaskState_eqb (task_state t) TASK_RUNNING
                    then set_task_state TASK_READY t else t)))
        /\ (task_state t = TASK_EMPTY \/ task_state t = TASK_SLEEPING
            \/ u32 (now - task_lastYield t) <= WATCHDOG_TIMEOUT_MS ->
            tasks (checkWatchdog now k) !! i = Some t))
  /\ (forall (i : nat) (t t' : Task),
        tasks k !! i = Some t ->
        tasks (checkWatchdog now k) !! i = Some t' ->
        task_state t' = TASK_EMPTY -> task_state t = TASK_EMPTY)
  /\ (watchdogEnabled k = true ->
      1000 <= u32 (now - watchdogLastCheck k) ->
      watchdogLastCheck (checkWatchdog now k) = now
      /\ forall now',
          u32 (now' - now) < 1000 ->
          checkWatchdog now' (checkWatchdog now k) = checkWatchdog now k)
  /\ (watchdogEnabled k = false \/ u32 (now - watchdogLastCheck k) < 1000 ->
      watchdogLastCheck (checkWatchdog now k) = watchdogLastCheck k).
Proof.
  split; [|split; [|split; [|split]]].
  4:{ intros Hen Hel.
      destruct (checkWatchdog_clock now k Hen Hel) as [Hc _].
      split; [done|]. intros now' Hsoon. apply checkWatchdog_idle.
      right. by rewrite Hc. }
  4:{ intros H. by rewrite checkWatchdog_idle. }
  - intros H. apply checkWatchdog_idle. by right.
  - intros Hen Hel i t Hi Ht.
    rewrite tasks_checkWatchdog_run by done.
    rewrite decide_True by done. rewrite Ht. simpl. unfold watchdog_task.
    split.
    + intros H1 H2 H3.
      destruct (TaskState_eqb (task_state t) TASK_EMPTY) eqn:E1;
        [by apply TaskState_eqb_eq in E1|].
      destruct (TaskState_eqb (task_state t) TASK_SLEEPING) eqn:E2;
        [by apply TaskState_eqb_eq in E2|].
      destruct (_ >? _) eqn:E3; [done|]. tests. lia.
    + intros [H|[H|H]].
      * by rewrite H.
      * rewrite H. simpl. done.
      * destruct (TaskState_eqb _ TASK_EMPTY); [done|].
        destruct (TaskState_eqb _ TASK_SLEEPING); [done|].
        destruct (_ >? _) eqn:E3; [|done]. tests. lia.
  - intros i t t' Ht Ht' Hst.
    destruct (watchdogEnabled k) eqn:Hen.
    2:{ rewrite checkWatchdog_idle in Ht' by (by left). congruence. }
    destruct (Z_lt_le_dec (u32 (now - watchdogLastCheck k)) 1000) as [Hlt|Hge].
    { rewrite checkWatchdog_idle in Ht' by (by right). congruence. }
    rewrite tasks_checkWatchdog_run in Ht' by done.
    case_decide.
    + rewrite Ht in Ht'. simpl in Ht'. injection Ht' as <-.
      by eapply watchdog_task_not_empty.
    + congruence.
Qed.

(** ** Scheduler *)

Lemma wake_priority (now : Z) (t : Task) :
  task_priority (wake now t) = task_priority t.
Proof. unfold wake. by destruct (_ && _). Qed.

Lemma set_tasks_set_tasks (a b : list Task) (k : kernel) :
  set_tasks a (set_tasks b k) = set_tasks a k.
Proof. done. Qed.

Lemma best_so_far_skip (W : list Task) (n : nat) (b p : Z) :
  best_so_far W n b p ->
  (forall t, W !! n = Some t ->
             ~ (task_state t = TASK_READY /\ task_priority t > p)) ->
  best_so_far W (S n) b p.
Proof.
  intros [(-> & -> & Hnone)|(t & Hr & Hb & -> & Hmax)] Hskip.
  - left. repeat split; try done. intros j t Hj Hr.
    destruct (decide (j = n)) as [->|]; [|eapply Hnone; [|done]; lia].
    destruct Hr as (Hl & Hs & Hp). by eapply Hskip.
  - right. exists t. split; [done|]. split; [lia|]. split; [done|].
    intros j t' Hj Hr'.
    destruct (decide (j = n)) as [->|]; [|apply Hmax; [lia|done]].
    destruct Hr' as (Hl & Hs & Hp). specialize (Hskip _ Hl).
    assert (task_priority t' <= task_priority t); [|lia].
    destruct (Z_le_gt_dec (task_priority t') (task_priority t)); [done|].
    by destruct Hskip.
Qed.

Lemma best_so_far_take (W : list Task) (n : nat) (b p : Z) (t : Task) :
  best_so_far W n b p ->
  W !! n = Some t -> task_state t = TASK_READY -> task_priority t > p ->
  best_so_far W (S n) (Z.of_nat n) (task_priority t).
Proof.
  intros Hinv Hl Hs Hp. right. exists t.
  assert (p >= -1 /\ forall j t', (j < n)%nat -> ready_at W j t' ->
                                  task_priority t' <= p) as [Hp1 Hle].
  { destruct Hinv as [(-> & -> & Hnone)|(t0 & Hr & Hb & -> & Hmax)].
    - split; [lia|]. intros j t' Hj Hr. by destruct (Hnone j t').
    - destruct Hr as (_ & _ & ?). split; [lia|].
      intros j t' Hj Hr. by apply (Hmax j t'). }
  rewrite Nat2Z.id. split; [repeat split; try done; lia|].
  split; [lia|]. split; [done|]. intros j t' Hj Hr'.
  destruct (decide (j = n)) as [->|].
  - destruct Hr' as (Hl' & _). rewrite Hl in Hl'. injection Hl' as <-. lia.
  - assert (task_priority t' <= p) by (apply (Hle j); [lia|done]). lia.
Qed.

Lemma loop_inv_0 (now : Z) (k : kernel) : loop_inv now k 0 (k, 0, -1).
Proof.
  unfold loop_inv. split; [by destruct k|]. split; [done|].
  left. repeat split. intros; lia.
Qed.

Lemma loop_inv_step (now : Z) (k : kernel) (n : nat) (acc : kernel * Z * Z) :
  loop_inv now k n acc ->
  loop_inv now k (S n) (schedule_body now (Z.of_nat n) acc).
Proof.
  destruct acc as [[k' b] p]. intros (Hk & Ht & Hsel).
  assert (Hn : tasks k' !! n = tasks k !! n).
  { rewrite Ht. by rewrite decide_False by lia. }
  (* the table when round [n] leaves the slot alone *)
  assert (Hkeep : forall t0, tasks k !! n = t0 -> wake now <$> t0 = t0 ->
            forall j, tasks k' !! j
                      = if decide (j < S n)%nat then wake now <$> tasks k !! j
                        else tasks k !! j).
  { intros t0 Ht0 Hw j. rewrite Ht.
    destruct (decide (j = n)) as [->|].
    - rewrite decide_False, decide_True by lia. by rewrite Ht0, Hw.
    - repeat case_decide; try lia; done. }
  (* the table when round [n] wakes the slot *)
  assert (Hwoken : forall t, tasks k !! n = Some t ->
            wake now t = set_task_state TASK_READY t ->
            forall j, tasks (update_task (Z.of_nat n)
                               (set_task_state TASK_READY) k') !! j
                      = if decide (j < S n)%nat then wake now <$> tasks k !! j
                        else tasks k !! j).
  { intros t Ht0 Hw j. rewrite tasks_update_task, Nat2Z.id.
    destruct (decide (n = j)) as [<-|].
    - rewrite list_lookup_alter_eq, Hn, Ht0, decide_True by lia.
      simpl. by rewrite Hw.
    - rewrite list_lookup_alter_ne, Ht by done.
      repeat case_decide; try lia; done. }
  unfold schedule_body.
  destruct (tasks k !! n) as [t|] eqn:E.
  - assert (HW : (wake now <$> tasks k) !! n = Some (wake now t))
      by (by rewrite list_lookup_fmap, E).
    rewrite (task_at_lookup k' (Z.of_nat n) t) by (by rewrite Nat2Z.id, Hn).
    destruct (TaskState_eqb (task_state t) TASK_EMPTY) eqn:E1.
    { apply TaskState_eqb_eq in E1.
      assert (Hw : wake now t = t) by (unfold wake; by rewrite E1).
      split; [done|]. split; [apply (Hkeep (Some t)); simpl; congruence|].
      apply best_so_far_skip; [done|]. intros t0 Ht0 [Hs _].
      rewrite HW, Hw in Ht0. congruence. }
    destruct (TaskState_eqb (task_state t) TASK_SLEEPING) eqn:E2.
    + destruct (now >=? task_sleepUntil t) eqn:E3.
      * assert (Hw : wake now t = set_task_state TASK_READY t)
          by (unfold wake; by rewrite E2, E3).
        rewrite (task_at_lookup _ (Z.of_nat n) (set_task_state TASK_READY t)).
        2:{ rewrite tasks_update_task, Nat2Z.id, list_lookup_alter_eq, Hn.
            done. }
        simpl.
        destruct (task_priority t >? p) eqn:E4; tests.
        -- split; [by rewrite Hk at 1|]. split; [by apply (Hwoken t)|].
           change (task_priority t)
             with (task_priority (set_task_state TASK_READY t)).
           rewrite <- Hw. eapply best_so_far_take; try done.
           ++ by rewrite Hw.
           ++ rewrite wake_priority. lia.
        -- split; [by rewrite Hk at 1|]. split; [by apply (Hwoken t)|].
           apply best_so_far_skip; [done|]. intros t0 Ht0 [_ Hp].
           rewrite HW in Ht0. injection Ht0 as <-.
           rewrite wake_priority in Hp. lia.
      * assert (Hw : wake now t = t) by (unfold wake; by rewrite E2, E3).
        split; [done|]. split; [apply (Hkeep (Some t)); simpl; congruence|].
        apply best_so_far_skip; [done|]. intros t0 Ht0 [Hs _].
        rewrite HW, Hw in Ht0. injection Ht0 as <-.
        apply TaskState_eqb_eq in E2. congruence.
    + assert (Hw : wake now t = t) by (unfold wake; by rewrite E2).
      rewrite (task_at_lookup k' (Z.of_nat n) t) by (by rewrite Nat2Z.id, Hn).
      destruct (TaskState_eqb (task_state t) TASK_READY) eqn:E3; simpl.
      * apply TaskState_eqb_eq in E3.
        destruct (task_priority t >? p) eqn:E4; tests.
        -- split; [done|].
           split; [apply (Hkeep (Some t)); simpl; congruence|].
           eapply best_so_far_take; try done; [by rewrite HW, Hw|lia].
        -- split; [done|].
           split; [apply (Hkeep (Some t)); simpl; congruence|].
           apply best_so_far_skip; [done|]. intros t0 Ht0 [_ Hp].
           rewrite HW, Hw in Ht0. injection Ht0 as <-. lia.
      * split; [done|]. split; [apply (Hkeep (Some t)); simpl; congruence|].
        apply best_so_far_skip; [done|]. intros t0 Ht0 [Hs _].
        rewrite HW, Hw in Ht0. injection Ht0 as <-.
        rewrite Hs in E3. done.
  - rewrite (task_at_None k' (Z.of_nat n)) by (by rewrite Nat2Z.id, Hn).
    simpl. split; [done|]. split; [by apply (Hkeep None)|].
    apply best_so_far_skip; [done|]. intros t0 Ht0.
    by rewrite list_lookup_fmap, E in Ht0.
Qed.

Lemma loop_inv_n (now : Z) (k : kernel) (n : nat) :
  loop_inv now k n (for_range 0 n (schedule_body now) (k, 0, -1)).
Proof.
  induction n as [|n IH]; [apply loop_inv_0|].
  rewrite for_range_S, Z.add_0_l. by apply loop_inv_step.
Qed.

Lemma watchdog_body_frame (now : Z) (i : Z) (k : kernel) :
  currentTaskId (watchdog_body now i k) = currentTaskId k
  /\ length (tasks (watchdog_body now i k)) = length (tasks k).
Proof.
  unfold watchdog_body.
  repeat match goal with
         | |- context [if ?c then _ else _] => destruct c
         end;
    rewrite ?tasks_update_task, ?length_alter; simpl;
    rewrite ?tasks_update_task, ?length_alter; done.
Qed.

Lemma checkWatchdog_tasks_wf (now : Z) (k : kernel) :
  tasks_wf k -> tasks_wf (checkWatchdog now k).
Proof.
  intros Hwf. unfold checkWatchdog.
  destruct (negb (watchdogEnabled k)); [done|].
  destruct (_ <? _); [done|].
  apply for_range_preserves; [done|].
  intros j s [H1 H2]. destruct (watchdog_body_frame now (0 + Z.of_nat j) s).
  unfold tasks_wf. by rewrite H, H0.
Qed.

(** The table after the selection loop, and the slot it found. *)
Lemma schedule_loop_spec (now : Z) (k : kernel) :
  length (tasks k) = Z.to_nat MAX_TASKS ->
  exists b p,
    select_task now k = (set_tasks (wake now <$> tasks k) k, b, p)
    /\ is_selected (wake now <$> tasks k) b.
Proof.
  intros Hlen. pose proof (loop_inv_n now k (Z.to_nat MAX_TASKS)) as Hinv.
  unfold select_task.
  destruct (for_range _ _ _ _) as [[k' b] p].
  destruct Hinv as (Hk & Ht & Hsel). exists b, p. split.
  - f_equal. f_equal. rewrite Hk. f_equal. apply list_eq. intros j.
    rewrite Ht, list_lookup_fmap. case_decide; [done|].
    rewrite (lookup_ge_None_2 (tasks k)) by lia. done.
  - unfold is_selected, selected_among.
    destruct Hsel as [(-> & -> & Hnone)|(t & Hr & Hb & -> & Hmax)].
    + by left.
    + right. by exists t.
Qed.

Lemma tasks_demote (k : kernel) :
  tasks (if TaskState_eqb (task_state (task_at k (currentTaskId k)))
              TASK_RUNNING
         then update_task (currentTaskId k) (set_task_state TASK_READY) k
         else k)
  = alter demote (Z.to_nat (currentTaskId k)) (tasks k).
Proof.
  unfold task_at.
  destruct (tasks k !! Z.to_nat (currentTaskId k)) as [t|] eqn:E; simpl.
  - destruct (TaskState_eqb (task_state t) TASK_RUNNING) eqn:E1.
    + rewrite tasks_update_task. apply list_alter_ext; [|done].
      intros x Hx. rewrite E in Hx. injection Hx as <-.
      unfold demote. by rewrite E1.
    + symmetry.
      transitivity (alter (fun x => x) (Z.to_nat (currentTaskId k)) (tasks k));
        [|by apply list_alter_id].
      apply list_alter_ext; [|done].
      intros x Hx. rewrite E in Hx. injection Hx as <-.
      unfold demote. by rewrite E1.
  - apply list_eq. intros j.
    destruct (decide (Z.to_nat (currentTaskId k) = j)) as [<-|].
    + by rewrite list_lookup_alter_eq, E.
    + by rewrite list_lookup_alter_ne.
Qed.

Lemma trace_update_task (i : Z) (f : Task -> Task) (k : kernel) :
  trace (update_task i f k) = trace k.
Proof. done. Qed.

Lemma currentTaskId_update_task (i : Z) (f : Task -> Task) (k : kernel) :
  currentTaskId (update_task i f k) = currentTaskId k.
Proof. done. Qed.

(** The switch to a slot other than the current one, and the call. *)
Lemma switch_execute_spec (now : Z) (b : Z) (k : kernel) (t : Task) :
  0 <= b -> 0 <= currentTaskId k -> b <> currentTaskId k ->
  tasks k !! Z.to_nat b = Some t ->
  let k2 := execute_current (switch_to now b k) in
  currentTaskId k2 = b
  /\ tasks k2
     = <[Z.to_nat b := set_task_lastRun now (set_task_state TASK_RUNNING t)]>
         (alter demote (Z.to_nat (currentTaskId k)) (tasks k))
  /\ trace k2
     = trace k ++ match task_entryPoint t with
                  | Some e => [Invoke e]
                  | None => []
                  end.
Proof.
  intros Hb Hc Hne Ht.
  assert (Hidx : Z.to_nat (currentTaskId k) <> Z.to_nat b) by lia.
  unfold switch_to. destruct (b =? currentTaskId k) eqn:E; tests; [done|].
  set (ka := if TaskState_eqb _ _ then _ else k).
  assert (Hka : tasks ka = alter demote (Z.to_nat (currentTaskId k)) (tasks k))
    by apply tasks_demote.
  assert (Htr : trace ka = trace k) by (unfold ka; by destruct (TaskState_eqb _ _)).
  set (kd := update_task _ _ (update_task _ _ (set_currentTaskId b ka))).
  assert (Hkd : tasks kd
                = <[Z.to_nat b :=
                      set_task_lastRun now (set_task_state TASK_RUNNING t)]>
                    (tasks ka)).
  { unfold kd. rewrite !tasks_update_task. simpl.
    rewrite list_alter_alter_eq, list_insert_alter.
    apply list_alter_ext; [|done]. intros x Hx.
    rewrite Hka, list_lookup_alter_ne, Ht in Hx by done.
    by injection Hx as <-. }
  assert (Hcur : getCurrentTask kd
                 = set_task_lastRun now (set_task_state TASK_RUNNING t)).
  { unfold getCurrentTask. apply task_at_lookup. rewrite Hkd.
    change (currentTaskId kd) with b.
    apply list_lookup_insert_eq. rewrite Hka, length_alter.
    by eapply lookup_lt_Some. }
  assert (Hid : currentTaskId kd = b) by done.
  assert (Htd : trace kd = trace k) by (by rewrite <- Htr).
  clearbody kd. unfold execute_current. rewrite Hcur.
  change (task_entryPoint (set_task_lastRun now
            (set_task_state TASK_RUNNING t))) with (task_entryPoint t).
  change (TaskState_eqb (task_state (set_task_lastRun now
            (set_task_state TASK_RUNNING t))) TASK_RUNNING) with true.
  destruct (task_entryPoint t) as [e|]; cbv iota.
  - change (currentTaskId (emit (Invoke e) kd)) with (currentTaskId kd).
    change (tasks (emit (Invoke e) kd)) with (tasks kd).
    change (trace (emit (Invoke e) kd)) with (trace kd ++ [Invoke e]).
    by rewrite Hkd, Hka, Htd.
  - by rewrite Hkd, Hka, Htd, app_nil_r.
Qed.

Lemma wake_due (now : Z) (t : Task) :
  task_state t = TASK_SLEEPING -> task_sleepUntil t <= now ->
  task_state (wake now t) = TASK_READY.
Proof.
  intros Hs Hd. unfold wake. rewrite Hs. simpl.
  destruct (now >=? task_sleepUntil t) eqn:E; tests; [done|lia].
Qed.

(** One call to [schedule()] runs the watchdog check, wakes every
    sleeping task whose [sleepUntil <= now], and selects the Ready task of
    highest non-negative priority, the lowest slot among equals and slot 0
    when there is none.  On the switch path, when the selected slot is not
    the current task, the task that was current goes from Running to
    Ready, the selected slot becomes current, is marked Running with
    [lastRun = now], and its entry point is called exactly once if it has
    one. *)
Lemma schedule_switch_spec (wnow now : Z) (k : kernel) :
  tasks_wf k ->
  let k1 := checkWatchdog wnow k in
  let W := wake now <$> tasks k1 in
  let b := bestTask_of now k1 in
  let k2 := schedule wnow now k in
  is_selected W b
  /\ (forall (j : nat) (t : Task),
        tasks k1 !! j = Some t ->
        task_state t = TASK_SLEEPING -> task_sleepUntil t <= now ->
        exists t', tasks k2 !! j = Some t'
                   /\ (task_state t' = TASK_READY
                       \/ task_state t' = TASK_RUNNING))
  /\ (b <> currentTaskId k1 ->
      currentTaskId k2 = b
      /\ exists t,
          W !! Z.to_nat b = Some t
          /\ tasks k2
             = <[Z.to_nat b :=
                   set_task_lastRun now (set_task_state TASK_RUNNING t)]>
                 (alter demote (Z.to_nat (currentTaskId k1)) W)
          /\ trace k2
             = trace k1 ++ match task_entryPoint t with
                           | Some e => [Invoke e]
                           | None => []
                           end).
Proof.
  intros Hwf k1 W b k2.
  assert (Hwf1 : tasks_wf k1) by by apply checkWatchdog_tasks_wf.
  destruct Hwf1 as [Hlen Hcur].
  destruct (schedule_loop_spec now k1 Hlen) as (b' & p & Hloop & Hsel).
  assert (Hb : b = b') by (unfold b, bestTask_of; by rewrite Hloop).
  subst b'. fold W in Hloop, Hsel.
  assert (Hk2 : k2 = execute_current (switch_to now b (set_tasks W k1))).
  { unfold k2, schedule. fold k1. by rewrite Hloop. }
  assert (Hb0 : 0 <= b).
  { destruct Hsel as [[-> _]|(t & _ & ? & _)]; lia. }
  assert (HWb : exists t, W !! Z.to_nat b = Some t).
  { destruct Hsel as [[-> _]|(t & (? & _) & _)]; [|by exists t].
    apply lookup_lt_is_Some. unfold W. rewrite length_fmap, Hlen. simpl.
    lia. }
  destruct HWb as [tb HWb].
  destruct (decide (b = currentTaskId k1)) as [Heq|Hne].
  - split; [done|]. split; [|done].
    intros j t Hj Hs Hd. exists (wake now t).
    split; [|left; by apply wake_due].
    rewrite Hk2. unfold switch_to. simpl. rewrite Heq, Z.eqb_refl.
    unfold execute_current.
    destruct (task_entryPoint _); [destruct (TaskState_eqb _ _)|]; simpl;
      unfold W; by rewrite list_lookup_fmap, Hj.
  - destruct (switch_execute_spec now b (set_tasks W k1) tb Hb0
                (proj1 Hcur) Hne HWb) as (H1 & H2 & H3).
    rewrite <- Hk2 in H1, H2, H3. simpl in H2, H3.
    split; [done|]. split.
    + intros j t Hj Hs Hd. rewrite H2.
      assert (HWj : W !! j = Some (wake now t))
        by (unfold W; by rewrite list_lookup_fmap, Hj).
      pose proof (wake_due now t Hs Hd) as Hr.
      destruct (decide (Z.to_nat b = j)) as [<-|Hbj].
      * exists (set_task_lastRun now (set_task_state TASK_RUNNING tb)).
        split; [|by right].
        apply list_lookup_insert_eq. rewrite length_alter.
        by eapply lookup_lt_Some.
      * rewrite list_lookup_insert_ne by done.
        destruct (decide (Z.to_nat (currentTaskId k1) = j)) as [<-|Hcj].
        -- rewrite list_lookup_alter_eq, HWj. simpl.
           exists (demote (wake now t)). split; [done|].
           left. unfold demote. by rewrite Hr.
        -- rewrite list_lookup_alter_ne, HWj by done.
           exists (wake now t). by split; [|left].
    + intros _. split; [done|]. by exists tb.
Qed.

(** ** Heap *)

Lemma u32_small (z : Z) : 0 <= z < 2 ^ 32 -> u32 z = z.
Proof. intros. unfold u32. by apply Z.mod_small. Qed.

Lemma u32_range (z : Z) : 0 <= u32 z < 2 ^ 32.
Proof. unfold u32. apply Z.mod_pos_bound. lia. Qed.

Lemma align4_round_up (size : Z) :
  0 <= size < 2 ^ 32 - 3 -> align4 size = round_up4 size.
Proof.
  intros H. unfold align4, round_up4. rewrite (u32_small (size + 3)) by lia.
  unfold u32. rewrite <- (Z.land_ones (Z.lnot 3) 32) by lia.
  rewrite Z.land_assoc, <- Z.ldiff_land. change 3 with (Z.ones 2) at 2.
  rewrite Z.ldiff_ones_r, Z.shiftr_div_pow2, Z.shiftl_mul_pow2 by lia.
  change (2 ^ 2) with 4. rewrite Z.land_ones by lia.
  pose proof (Z.div_mod (size + 3) 4). pose proof (Z.mod_pos_bound (size + 3) 4).
  rewrite Z.mod_small; lia.
Qed.

Lemma round_up4_bounds (size : Z) :
  size <= round_up4 size < size + 4 /\ round_up4 size mod 4 = 0.
Proof.
  unfold round_up4. split.
  - pose proof (Z.div_mod (size + 3) 4). pose proof (Z.mod_pos_bound (size + 3) 4).
    lia.
  - rewrite Z.mul_comm. apply Z.mod_mul. lia.
Qed.

Lemma heap_total_nonneg (blocks : list MemoryBlock) :
  target_ok -> Forall (fun b => 0 <= blk_size b) blocks ->
  0 <= heap_total blocks.
Proof.
  intros (Hh & _) H. induction H as [|b l Hb Hl IH]; simpl; lia.
Qed.

Lemma heap_total_app (l1 l2 : list MemoryBlock) :
  heap_total (l1 ++ l2) = heap_total l1 + heap_total l2.
Proof. induction l1 as [|b l IH]; simpl; lia. Qed.

Lemma heap_total_cons (b : MemoryBlock) (l : list MemoryBlock) :
  heap_total (b :: l) = sizeof_MemoryBlock + blk_size b + heap_total l.
Proof. done. Qed.

Lemma live_cons (b : MemoryBlock) (l : list MemoryBlock) :
  live (b :: l) = if blk_inUse b then b :: live l else live l.
Proof.
  unfold live. destruct (blk_inUse b) eqn:E.
  - by rewrite filter_cons_True.
  - by rewrite filter_cons_False by (by rewrite E).
Qed.

Lemma Forall_live (P : MemoryBlock -> Prop) (blocks : list MemoryBlock) :
  Forall P blocks -> Forall P (live blocks).
Proof.
  intros H. induction H as [|b l Hb Hl IH]; [done|].
  rewrite live_cons. destruct (blk_inUse b); [by constructor|done].
Qed.

Lemma heap_total_live_le (blocks : list MemoryBlock) :
  target_ok -> Forall (fun b => 0 <= blk_size b) blocks ->
  0 <= heap_total (live blocks) <= heap_total blocks.
Proof.
  intros Hok H. pose proof Hok as (Hh & _).
  induction H as [|b l Hb Hl IH]; [done|].
  rewrite live_cons, heap_total_cons.
  destruct (blk_inUse b); rewrite ?heap_total_cons; lia.
Qed.

(** On a linear heap the sweep ends at the watermark without tripping the
    safety check, and keeps exactly the blocks in use, in order. *)
Lemma compact_sweep_linear (used : Z) (blocks : list MemoryBlock) :
  target_ok -> used <= KERNEL_HEAP_SIZE ->
  forall (readPos writePos moved : Z) (kept : list MemoryBlock),
    Forall (fun b => 0 <= blk_size b) blocks ->
    readPos + heap_total blocks = used ->
    0 <= writePos <= readPos ->
    exists m,
      compact_sweep used blocks readPos writePos moved kept
      = inl (writePos + heap_total (live blocks), m, kept ++ live blocks).
Proof.
  intros Hok Hused. pose proof Hok as (Hh & Hk & Hfit).
  induction blocks as [|b rest IH]; intros readPos writePos moved kept Hf Hr Hw.
  - change (heap_total []) with 0 in Hr. exists moved. simpl.
    destruct (readPos <? used) eqn:E; tests; [lia|].
    change (live []) with (@nil MemoryBlock).
    change (heap_total []) with 0. by rewrite Z.add_0_r, app_nil_r.
  - apply Forall_cons in Hf as [Hb Hrest].
    pose proof (heap_total_nonneg rest Hok Hrest) as Hnn.
    rewrite heap_total_cons in Hr. cbn [compact_sweep].
    destruct (readPos <? used) eqn:E; tests; [|lia].
    assert (Htot : blockTotalSize b = sizeof_MemoryBlock + blk_size b)
      by (unfold blockTotalSize; apply u32_small; lia).
    rewrite Htot.
    rewrite (u32_small (readPos + _)) by lia.
    rewrite live_cons.
    destruct (blk_inUse b) eqn:Eb; cbn [andb].
    + rewrite (u32_small (writePos + _)) by lia.
      destruct (_ || _) eqn:Ec; tests; [lia|].
      destruct (IH (readPos + (sizeof_MemoryBlock + blk_size b))
                  (writePos + (sizeof_MemoryBlock + blk_size b))
                  (if negb (writePos =? readPos) then moved + 1 else moved)
                  (kept ++ [b]) Hrest) as [m Hm]; [lia|lia|].
      exists m. rewrite Hm, heap_total_cons, <- app_assoc. simpl.
      do 2 f_equal. f_equal. lia.
    + destruct (_ || _) eqn:Ec; tests; [lia|].
      destruct (IH (readPos + (sizeof_MemoryBlock + blk_size b)) writePos
                  moved kept Hrest) as [m Hm]; [lia|lia|].
      by exists m.
Qed.

Lemma compactMemory_linear (k : kernel) :
  target_ok -> heap_wf k ->
  exists k',
    compactMemory k = Returns tt k'
    /\ kernelHeap k' = live (kernelHeap k)
    /\ heapUsed k' = heap_total (live (kernelHeap k))
    /\ tasks k' = tasks k
    /\ currentTaskId k' = currentTaskId k.
Proof.
  intros Hok (Hu & Hle & Hf). unfold compactMemory.
  destruct (compact_sweep_linear (heapUsed k) (kernelHeap k) Hok Hle 0 0 0 []
              Hf) as [m Hm]; [lia|lia|].
  simpl. rewrite Hm. simpl.
  eexists. split; [done|]. by destruct (m >? 0).
Qed.

Lemma compactMemory_wf (k : kernel) :
  target_ok -> heap_wf k ->
  exists k1,
    compactMemory k = Returns tt k1
    /\ kernelHeap k1 = live (kernelHeap k)
    /\ heapUsed k1 = heap_total (live (kernelHeap k))
    /\ tasks k1 = tasks k
    /\ heap_wf k1.
Proof.
  intros Hok Hwf.
  destruct (compactMemory_linear k Hok Hwf) as (k1 & H1 & Hh & Hu & Ht & _).
  pose proof Hwf as (Hu0 & Hle & Hf).
  pose proof (heap_total_live_le _ Hok Hf).
  exists k1. do 4 (split; [done|]).
  repeat split; [by rewrite Hh, Hu|lia|]. rewrite Hh. by apply Forall_live.
Qed.

(** *** Allocation *)

Lemma headers_below_linear (used : Z) (blocks : list MemoryBlock) (pos : Z) :
  target_ok -> used <= KERNEL_HEAP_SIZE ->
  Forall (fun b => 0 <= blk_size b) blocks ->
  0 <= pos -> pos + heap_total blocks = used ->
  headers_below used blocks pos = blocks.
Proof.
  intros Hok Hused. pose proof Hok as (Hh & Hk & Hfit). revert pos.
  induction blocks as [|b rest IH]; intros pos Hf Hp Hr; [done|].
  apply Forall_cons in Hf as [Hb Hrest].
  pose proof (heap_total_nonneg rest Hok Hrest) as Hnn.
  rewrite heap_total_cons in Hr. cbn [headers_below].
  destruct (pos <? used) eqn:E; tests; [|lia].
  assert (Htot : blockTotalSize b = sizeof_MemoryBlock + blk_size b)
    by (unfold blockTotalSize; apply u32_small; lia).
  rewrite Htot, (u32_small (pos + _)) by lia.
  rewrite IH by (done || lia). done.
Qed.


Lemma tasks_wf_update_task (i : Z) (f : Task -> Task) (k : kernel) :
  tasks_wf k -> tasks_wf (update_task i f k).
Proof.
  intros [H1 H2]. split; [|done].
  by rewrite tasks_update_task, length_alter.
Qed.

Lemma place_block_spec (size taskId : Z) (k : kernel) :
  target_ok -> heap_wf k -> 0 <= size ->
  heapUsed k + (sizeof_MemoryBlock + size) <= KERNEL_HEAP_SIZE ->
  0 <= taskId < MAX_TASKS ->
  exists k',
    place_block size (sizeof_MemoryBlock + size) taskId k
    = (Some (heapUsed k + sizeof_MemoryBlock), k')
    /\ kernelHeap k' = kernelHeap k ++ [mkMemoryBlock size taskId true (-1)]
    /\ heapUsed k' = heapUsed k + sizeof_MemoryBlock + size
    /\ tasks k'
       = alter (fun t => set_task_memoryUsed (u32 (task_memoryUsed t + size)) t)
           (Z.to_nat taskId) (tasks k)
    /\ currentTaskId k' = currentTaskId k
    /\ heap_wf k'.
Proof.
  intros Hok (Hu & Hle & Hf) Hs Hroom Hid. pose proof Hok as (Hh & Hk & Hfit).
  pose proof (heap_total_nonneg _ Hok Hf) as Hnn.
  unfold place_block.
  rewrite (u32_small (heapUsed k + (sizeof_MemoryBlock + size))) by lia.
  rewrite (headers_below_linear _ (kernelHeap k ++ _) 0 Hok Hroom);
    [|apply Forall_app; split; [done|by apply Forall_singleton]|lia
     |rewrite heap_total_app; simpl; lia].
  simpl.
  destruct ((taskId >=? 0) && (taskId <? MAX_TASKS)) eqn:E; tests;
    [|unfold MAX_TASKS in *; lia].
  eexists. split; [done|].
  rewrite tasks_update_task. simpl.
  repeat split; try done; try lia.
  - simpl. rewrite heap_total_app. simpl. lia.
  - simpl. apply Forall_app. split; [done|]. by apply Forall_singleton.
Qed.

(** What [memAlloc] does with a request that the [size_t] arithmetic can
    hold: null for 0; otherwise the size is rounded up to a multiple of 4,
    the heap is compacted when the block does not fit, null is returned
    when it still does not fit, and else the block is placed at the
    watermark and charged to the current task. *)
Lemma memAlloc_spec (size : Z) (k : kernel) :
  target_ok -> heap_wf k -> tasks_wf k -> alloc_size_ok size ->
  let r := round_up4 size in
  let need := sizeof_MemoryBlock + r in
  (size = 0 -> memAlloc size k = Returns None k)
  /\ (0 < size -> heapUsed k + need <= KERNEL_HEAP_SIZE ->
      exists k',
        memAlloc size k = Returns (Some (heapUsed k + sizeof_MemoryBlock)) k'
        /\ kernelHeap k'
           = kernelHeap k ++ [mkMemoryBlock r (currentTaskId k) true (-1)]
        /\ heapUsed k' = heapUsed k + need
        /\ tasks k'
           = alter (fun t => set_task_memoryUsed (u32 (task_memoryUsed t + r)) t)
               (Z.to_nat (currentTaskId k)) (tasks k)
        /\ currentTaskId k' = currentTaskId k)
  /\ (0 < size -> heapUsed k + need > KERNEL_HEAP_SIZE ->
      exists kc,
        compactMemory (emit LogOutOfSpace k) = Returns tt kc
        /\ kernelHeap kc = live (kernelHeap k)
        /\ heapUsed kc = heap_total (live (kernelHeap k))
        /\ tasks kc = tasks k
        /\ currentTaskId kc = currentTaskId k
        /\ (heapUsed kc + need > KERNEL_HEAP_SIZE ->
            memAlloc size k = Returns None (emit LogOutOfMemory kc))
        /\ (heapUsed kc + need <= KERNEL_HEAP_SIZE ->
            exists k',
              memAlloc size k
              = Returns (Some (heapUsed kc + sizeof_MemoryBlock)) k'
              /\ kernelHeap k'
                 = kernelHeap kc
                   ++ [mkMemoryBlock r (currentTaskId k) true (-1)]
              /\ heapUsed k' = heapUsed kc + need
              /\ tasks k'
                 = alter (fun t =>
                            set_task_memoryUsed (u32 (task_memoryUsed t + r)) t)
                     (Z.to_nat (currentTaskId k)) (tasks k)
              /\ currentTaskId k' = currentTaskId k)).
Proof.
  intros Hok Hwf Htw Hsz r need. pose proof Hok as (Hh & Hk & Hfit).
  pose proof Hwf as (Hu & Hle & Hf). destruct Htw as [Hlen Hcur].
  pose proof (heap_total_nonneg _ Hok Hf) as Hnn.
  unfold alloc_size_ok in Hsz.
  pose proof (round_up4_bounds size) as [Hr _]. fold r in Hr.
  unfold memAlloc, allocateMemoryInternal.
  split; [by intros ->|].
  assert (Ha : align4 size = r) by (apply align4_round_up; lia).
  split.
  - intros Hpos Hroom. destruct (size =? 0) eqn:E0; tests; [lia|].
    rewrite Ha. fold need. rewrite (u32_small need) by (unfold need; lia).
    rewrite (u32_small (heapUsed k + need)) by (unfold need in *; lia).
    destruct (_ >? _) eqn:E1; tests; [lia|].
    destruct (place_block_spec r (currentTaskId k) k)
      as (k' & Hp & H1 & H2 & H3 & H4 & _); try done; try lia.
    unfold need. rewrite Hp. exists k'. repeat split; try done. lia.
  - intros Hpos Hfull. destruct (size =? 0) eqn:E0; tests; [lia|].
    rewrite Ha. fold need. rewrite (u32_small need) by (unfold need; lia).
    rewrite (u32_small (heapUsed k + need)) by (unfold need in *; lia).
    destruct (_ >? _) eqn:E1; tests; [|lia].
    destruct (compactMemory_linear (emit LogOutOfSpace k) Hok)
      as (kc & Hc & Hc1 & Hc2 & Hc3 & Hc4); [done|].
    exists kc. do 5 (split; [done|]). rewrite Hc.
    assert (Hwfc : heap_wf kc).
    { pose proof (heap_total_live_le _ Hok Hf). simpl in Hc1, Hc2.
      repeat split; [by rewrite Hc1, Hc2|lia|].
      rewrite Hc1. by apply Forall_live. }
    pose proof Hwfc as (Huc & Hlec & Hfc).
    pose proof (heap_total_nonneg _ Hok Hfc) as Hnnc.
    rewrite (u32_small (heapUsed kc + need)) by (unfold need in *; lia).
    split.
    + intros Hstill. by destruct (_ >? _) eqn:E2; tests; [|lia].
    + intros Hroom. destruct (_ >? _) eqn:E2; tests; [lia|].
      destruct (place_block_spec r (currentTaskId k) kc)
        as (k' & Hp & H1 & H2 & H3 & H4 & _); try done; try lia.
      unfold need. rewrite Hp. exists k'. simpl in Hc3, Hc4.
      repeat split; try done; [lia|by rewrite H3, Hc3|by rewrite H4].
Qed.

(** *** Free and compaction *)

Lemma heap_total_insert (l : list MemoryBlock) (i : nat) (b b' : MemoryBlock) :
  l !! i = Some b -> blk_size b' = blk_size b ->
  heap_total (<[i := b']> l) = heap_total l.
Proof.
  unfold heap_total.
  revert i. induction l as [|x l IH]; intros [|i] Hl Hs; try done; simpl in *.
  - injection Hl as ->. lia.
  - by rewrite (IH i).
Qed.

Lemma heap_total_live_free (l : list MemoryBlock) (i : nat) (b : MemoryBlock) :
  l !! i = Some b -> blk_inUse b = true ->
  heap_total (live (<[i := set_blk_inUse false b]> l))
  = heap_total (live l) - (sizeof_MemoryBlock + blk_size b).
Proof.
  revert i. induction l as [|x l IH]; intros [|i] Hl Hb; try done.
  - injection Hl as ->.
    change (<[0%nat := set_blk_inUse false b]> (b :: l))
      with (set_blk_inUse false b :: l).
    rewrite !live_cons, Hb. cbn [blk_inUse set_blk_inUse].
    rewrite heap_total_cons. lia.
  - change (<[S i := set_blk_inUse false b]> (x :: l))
      with (x :: <[i := set_blk_inUse false b]> l).
    rewrite !live_cons. destruct (blk_inUse x).
    + rewrite !heap_total_cons, (IH i); [lia|done..].
    + by apply IH.
Qed.

Lemma live_all (l : list MemoryBlock) :
  Forall (fun b => blk_inUse b = true) l -> live l = l.
Proof.
  intros H. induction H as [|b l Hb Hl IH]; [done|].
  by rewrite live_cons, Hb, IH.
Qed.

Lemma memFree_in_use (p : Z) (i : nat) (b : MemoryBlock) (k : kernel) :
  payload_of k p i b -> blk_inUse b = true ->
  memFree (Some p) k
  = Returns tt
      (set_kernelHeap (<[i := set_blk_inUse false b]> (kernelHeap k))
         (if (blk_ownerTaskId b >=? 0) && (blk_ownerTaskId b <? MAX_TASKS)
          then update_task (blk_ownerTaskId b)
                 (fun t =>
                    set_task_memoryUsed
                      (u32 (task_memoryUsed t - blk_size b)) t) k
          else k)).
Proof.
  intros [Hi Hb] Hu. unfold memFree, freeMemoryInternal.
  rewrite Hi, Hb, Hu. simpl. by destruct (_ && _).
Qed.

Lemma memAvailable_linear (k : kernel) :
  target_ok -> heap_wf k -> memAvailable k = KERNEL_HEAP_SIZE - heapUsed k.
Proof.
  intros Hok (Hu & Hle & Hf). pose proof Hok as (Hh & Hk & Hfit).
  pose proof (heap_total_nonneg _ Hok Hf).
  unfold memAvailable. apply u32_small. lia.
Qed.

(** C9. [memFree] on the payload address of a block in use leaves the
    watermark, hence [memAvailable], as it is: it clears the block's
    [inUse] flag and changes the [memoryUsed] of the owning slot, and
    nothing else in the kernel.  The bytes come back with the next
    compaction: after it [memAvailable] is larger by the block's size plus
    the header size than it would be had the block not been freed, which
    is [memAvailable] before the compaction plus that amount when every
    other block is in use. *)
Theorem memFree_then_compact (p : Z) (i : nat) (b : MemoryBlock) (k : kernel) :
  target_ok -> heap_wf k -> payload_of k p i b -> blk_inUse b = true ->
  exists k1 k2 kc,
    memFree (Some p) k = Returns tt k1
    /\ heapUsed k1 = heapUsed k
    /\ memAvailable k1 = memAvailable k
    /\ kernelHeap k1 = <[i := set_blk_inUse false b]> (kernelHeap k)
    /\ (forall (j : nat) (t : Task),
          tasks k !! j = Some t ->
          exists t', tasks k1 !! j = Some t'
                     /\ t' = set_task_memoryUsed (task_memoryUsed t') t
                     /\ (Z.of_nat j <> blk_ownerTaskId b -> t' = t))
    /\ set_tasks (tasks k) (set_kernelHeap (kernelHeap k) k1) = k
    /\ memCompact k1 = Returns tt k2
    /\ memCompact k = Returns tt kc
    /\ memAvailable k2 = memAvailable kc + (blk_size b + sizeof_MemoryBlock)
    /\ (Forall (fun b => blk_inUse b = true) (kernelHeap k) ->
        memAvailable k2
        = memAvailable k1 + (blk_size b + sizeof_MemoryBlock)).
Proof.
  intros Hok Hwf Hp Hb. pose proof Hwf as (Hu & Hle & Hf).
  pose proof Hp as [_ Hi].
  rewrite (memFree_in_use p i b k Hp Hb).
  set (k0 := if _ && _ then _ else k).
  set (k1 := set_kernelHeap _ k0).
  assert (H0 : heapUsed k0 = heapUsed k /\ kernelHeap k0 = kernelHeap k
               /\ set_tasks (tasks k) k0 = k).
  { unfold k0. destruct (_ && _); by destruct k. }
  destruct H0 as (H01 & H02 & H03).
  assert (Hwf1 : heap_wf k1).
  { unfold k1. repeat split; simpl.
    - rewrite H01, Hu. symmetry. by eapply heap_total_insert.
    - by rewrite H01.
    - apply Forall_insert; [done|]. simpl.
      by eapply (proj1 (Forall_lookup _ _)) in Hf. }
  destruct (compactMemory_linear k1 Hok Hwf1) as (k2 & Hc2 & Hh2 & Hu2 & _).
  destruct (compactMemory_linear k Hok Hwf) as (kc & Hcc & Hhc & Huc & _).
  assert (Hwf2 : heap_wf k2).
  { destruct Hwf1 as (Hu1 & Hle1 & Hf1).
    pose proof (heap_total_live_le _ Hok Hf1).
    repeat split; [by rewrite Hh2, Hu2|lia|].
    rewrite Hh2. by apply Forall_live. }
  assert (Hwfc : heap_wf kc).
  { pose proof (heap_total_live_le _ Hok Hf).
    repeat split; [by rewrite Hhc, Huc|lia|].
    rewrite Hhc. by apply Forall_live. }
  assert (Hdelta : heapUsed k2
                   = heapUsed kc - (sizeof_MemoryBlock + blk_size b)).
  { rewrite Hu2, Huc. unfold k1. simpl. by apply heap_total_live_free. }
  exists k1, k2, kc. split; [done|]. split; [done|].
  split; [unfold memAvailable; by rewrite <- H01|].
  split; [done|]. split.
  { intros j t Hj. unfold k1, k0. simpl.
    destruct (_ && _) eqn:E; tests.
    - rewrite tasks_update_task.
      destruct (decide (Z.to_nat (blk_ownerTaskId b) = j)) as [<-|Hne].
      + rewrite list_lookup_alter_eq, Hj. simpl. eexists. split; [done|].
        split; [by destruct t|]. lia.
      + rewrite list_lookup_alter_ne, Hj by done. exists t.
        split; [done|]. split; [by destruct t|done].
    - exists t. split; [done|]. split; [by destruct t|done]. }
  split; [unfold k1, k0; destruct (_ && _); by destruct k|].
  split; [done|]. split; [done|].
  rewrite !memAvailable_linear by done. split; [lia|].
  intros Hall. rewrite (live_all _ Hall) in Huc.
  change (heapUsed k1) with (heapUsed k0). rewrite H01. lia.
Qed.

(** ** Ownership accounting *)

Lemma owned_bytes_cons (o : Z) (b : MemoryBlock) (l : list MemoryBlock) :
  owned_bytes o (b :: l)
  = (if blk_inUse b && (blk_ownerTaskId b =? o) then blk_size b else 0)
    + owned_bytes o l.
Proof. unfold owned_bytes. simpl. destruct (_ && _); lia. Qed.

Lemma live_bytes_cons (b : MemoryBlock) (l : list MemoryBlock) :
  live_bytes (b :: l)
  = (if blk_inUse b then blk_size b else 0) + live_bytes l.
Proof. unfold live_bytes. simpl. destruct (blk_inUse b); lia. Qed.

Lemma owned_bytes_app (o : Z) (l1 l2 : list MemoryBlock) :
  owned_bytes o (l1 ++ l2) = owned_bytes o l1 + owned_bytes o l2.
Proof.
  induction l1 as [|b l IH]; [done|].
  change ((b :: l) ++ l2) with (b :: (l ++ l2)).
  rewrite !owned_bytes_cons, IH. lia.
Qed.

Lemma owned_bytes_live (o : Z) (l : list MemoryBlock) :
  owned_bytes o (live l) = owned_bytes o l.
Proof.
  induction l as [|b l IH]; [done|].
  rewrite live_cons, owned_bytes_cons.
  destruct (blk_inUse b) eqn:E; [|done].
  by rewrite owned_bytes_cons, E, IH.
Qed.

Lemma owned_bytes_free (o : Z) (l : list MemoryBlock) (i : nat)
    (b : MemoryBlock) :
  l !! i = Some b -> blk_inUse b = true ->
  owned_bytes o (<[i := set_blk_inUse false b]> l)
  = owned_bytes o l - (if blk_ownerTaskId b =? o then blk_size b else 0).
Proof.
  revert i. induction l as [|x l IH]; intros [|i] Hl Hb; try done.
  - injection Hl as ->.
    change (<[0%nat := set_blk_inUse false b]> (b :: l))
      with (set_blk_inUse false b :: l).
    rewrite !owned_bytes_cons, Hb. cbn [blk_inUse set_blk_inUse andb]. lia.
  - change (<[S i := set_blk_inUse false b]> (x :: l))
      with (x :: <[i := set_blk_inUse false b]> l).
    rewrite !owned_bytes_cons, (IH i); [lia|done..].
Qed.

Lemma owned_bytes_bounds (o : Z) (l : list MemoryBlock) :
  target_ok -> Forall (fun b => 0 <= blk_size b) l ->
  0 <= owned_bytes o l <= heap_total l.
Proof.
  intros (Hh & _) H. induction H as [|b l Hb Hl IH]; [done|].
  rewrite owned_bytes_cons, heap_total_cons. destruct (_ && _); lia.
Qed.

Lemma owned_bytes_lookup (o : Z) (l : list MemoryBlock) (i : nat)
    (b : MemoryBlock) :
  Forall (fun b => 0 <= blk_size b) l ->
  l !! i = Some b -> blk_inUse b = true -> blk_ownerTaskId b = o ->
  blk_size b <= owned_bytes o l.
Proof.
  intros Hf. revert i. induction Hf as [|x l Hx Hl IH]; intros [|i] Hi Hb Ho;
    try done; rewrite owned_bytes_cons.
  - injection Hi as ->. rewrite Hb, Ho, Z.eqb_refl. simpl.
    assert (0 <= owned_bytes o l); [|lia].
    clear -Hl. induction Hl as [|y l Hy Hl IH]; [done|].
    rewrite owned_bytes_cons. destruct (_ && _); lia.
  - specialize (IH i Hi Hb Ho). destruct (_ && _); lia.
Qed.

Lemma sum_slots_unfold (f : Z -> Z) :
  sum_slots f = f 0 + (f 1 + (f 2 + (f 3 + (f 4 + (f 5 + (f 6 + (f 7 + 0))))))).
Proof. done. Qed.

Lemma sum_slots_live (l : list MemoryBlock) :
  Forall (fun b => blk_inUse b = true -> 0 <= blk_ownerTaskId b < MAX_TASKS) l ->
  sum_slots (fun o => owned_bytes o l) = live_bytes l.
Proof.
  intros H. induction H as [|b l Hb Hl IH]; [done|].
  rewrite live_bytes_cons, <- IH, !sum_slots_unfold, !owned_bytes_cons.
  destruct (blk_inUse b); simpl; [|lia].
  specialize (Hb eq_refl). unfold MAX_TASKS in Hb.
  assert (Hcase : blk_ownerTaskId b = 0 \/ blk_ownerTaskId b = 1
                  \/ blk_ownerTaskId b = 2 \/ blk_ownerTaskId b = 3
                  \/ blk_ownerTaskId b = 4 \/ blk_ownerTaskId b = 5
                  \/ blk_ownerTaskId b = 6 \/ blk_ownerTaskId b = 7) by lia.
  destruct Hcase as [->|[->|[->|[->|[->|[->|[->| ->]]]]]]]; simpl; lia.
Qed.

Lemma sum_slots_memoryUsed (k : kernel) :
  length (tasks k) = Z.to_nat MAX_TASKS ->
  sum_slots (fun o => task_memoryUsed (task_at k o)) = sum_memoryUsed (tasks k).
Proof.
  unfold task_at. destruct (tasks k) as [|t0 [|t1 [|t2 [|t3 [|t4 [|t5 [|t6
    [|t7 [|t8 l]]]]]]]]]; try done.
Qed.

Lemma sum_slots_ext (f g : Z -> Z) :
  (forall o, 0 <= o < MAX_TASKS -> f o = g o) -> sum_slots f = sum_slots g.
Proof.
  intros H. rewrite !sum_slots_unfold.
  rewrite !H by (unfold MAX_TASKS; lia). done.
Qed.

(** Slot-by-slot accounting gives the accounting of the specification. *)
Lemma accounting_inv_accounting (k : kernel) :
  accounting_inv k -> accounting k.
Proof.
  intros (_ & [Hlen _] & Hown & Hmu). unfold accounting.
  rewrite <- sum_slots_memoryUsed, <- sum_slots_live by done.
  by apply sum_slots_ext.
Qed.

Lemma task_at_eq (k k' : kernel) (o : Z) :
  tasks k' = tasks k -> task_at k' o = task_at k o.
Proof. unfold task_at. by intros ->. Qed.

(** The invariant looks at the task table, the current task, the block
    list and the watermark only. *)
Lemma accounting_inv_fields (k k' : kernel) :
  tasks k' = tasks k -> currentTaskId k' = currentTaskId k ->
  kernelHeap k' = kernelHeap k -> heapUsed k' = heapUsed k ->
  accounting_inv k -> accounting_inv k'.
Proof.
  intros Ht Hc Hh Hu ((H1 & H2 & H3) & (H4 & H5) & (H6 & H7)).
  unfold accounting_inv, heap_wf, tasks_wf, owner_acct.
  rewrite Ht, Hc, Hh, Hu. repeat split; try done; try lia.
  intros o Ho. rewrite (task_at_eq k k') by done. by apply H7.
Qed.

Lemma task_at_alter (k k' : kernel) (f : Task -> Task) (i : nat) (o : Z) :
  tasks k' = alter f i (tasks k) ->
  (Z.to_nat o < length (tasks k))%nat ->
  task_at k' o = if decide (i = Z.to_nat o) then f (task_at k o)
                 else task_at k o.
Proof.
  intros Ht Ho. unfold task_at. rewrite Ht.
  destruct (lookup_lt_is_Some_2 _ _ Ho) as [t Hlk].
  case_decide as E.
  - subst i. by rewrite list_lookup_alter_eq, Hlk.
  - by rewrite list_lookup_alter_ne.
Qed.

Lemma memoryUsed_alter (k k' : kernel) (f : Task -> Task) (i : nat) (o : Z) :
  (forall t, task_memoryUsed (f t) = task_memoryUsed t) ->
  tasks k' = alter f i (tasks k) ->
  task_memoryUsed (task_at k' o) = task_memoryUsed (task_at k o).
Proof.
  intros Hf Ht. unfold task_at. rewrite Ht.
  destruct (decide (i = Z.to_nat o)) as [->|Hne].
  - rewrite list_lookup_alter_eq. by destruct (tasks k !! Z.to_nat o); simpl.
  - by rewrite list_lookup_alter_ne.
Qed.

Lemma first_index_range (n : nat) (from : Z) (p : Z -> bool) :
  first_index n from p = -1
  \/ (from <= first_index n from p < from + Z.of_nat n
      /\ p (first_index n from p) = true).
Proof.
  revert from. induction n as [|n IH]; intros from; simpl; [by left|].
  destruct (p from) eqn:E; [right; split; [lia|done]|].
  destruct (IH (from + 1)) as [H|[H1 H2]]; [by left|right]. split; [lia|done].
Qed.

Lemma allocateTaskId_range (k : kernel) :
  allocateTaskId k = -1 \/ 1 <= allocateTaskId k < MAX_TASKS.
Proof.
  unfold allocateTaskId.
  destruct (first_index_range (Z.to_nat (MAX_TASKS - 1)) 1
              (fun i => TaskState_eqb (task_state (task_at k i)) TASK_EMPTY))
    as [H|[H _]]; [by left|right]. unfold MAX_TASKS in *. lia.
Qed.

(** *** Each call keeps the invariant *)

Lemma createTask_inv (name : option string) (e : EntryPoint) (now : Z)
    (k : kernel) :
  accounting_inv k ->
  op_ok (OpCreateTask name e now) k ->
  accounting_inv (createTask name e now k).2.
Proof.
  intros Hinv Hok. unfold createTask.
  destruct (allocateTaskId k <? 0) eqn:E; tests; [done|].
  destruct (allocateTaskId_range k) as [Hr|Hr]; [lia|].
  destruct Hok as [Hok|Hok]; [lia|].
  destruct Hinv as (Hwf & [Hlen Hcur] & Hown & Hmu).
  set (id := allocateTaskId k) in *.
  set (k' := update_task id (fresh_task id name e now) k).
  apply (accounting_inv_fields k'); try done.
  assert (Ht : tasks k' = alter (fresh_task id name e now) (Z.to_nat id)
                            (tasks k)) by apply tasks_update_task.
  split; [done|]. split.
  - split; [|done]. by rewrite Ht, length_alter.
  - split; [done|]. intros o Ho.
    rewrite (task_at_alter k k' _ _ o Ht) by (rewrite Hlen; unfold MAX_TASKS in *; lia).
    case_decide as Eo; [|by apply Hmu].
    assert (o = id) as -> by lia. simpl. rewrite <- Hmu by done. done.
Qed.

Lemma freeFileHandle_frame (h : Z) (k : kernel) :
  tasks (freeFileHandle h k) = tasks k
  /\ currentTaskId (freeFileHandle h k) = currentTaskId k
  /\ kernelHeap (freeFileHandle h k) = kernelHeap k
  /\ heapUsed (freeFileHandle h k) = heapUsed k.
Proof.
  unfold freeFileHandle. destruct (_ || _); [done|]. by destruct (fh_inUse _).
Qed.

Lemma freeDirHandle_frame (h : Z) (k : kernel) :
  tasks (freeDirHandle h k) = tasks k
  /\ currentTaskId (freeDirHandle h k) = currentTaskId k
  /\ kernelHeap (freeDirHandle h k) = kernelHeap k
  /\ heapUsed (freeDirHandle h k) = heapUsed k.
Proof.
  unfold freeDirHandle. destruct (_ || _); [done|]. by destruct (dh_inUse _).
Qed.

Lemma killTask_inv (taskId : Z) (k : kernel) :
  accounting_inv k -> accounting_inv (killTask taskId k).
Proof.
  intros Hinv. unfold killTask.
  destruct (getTask k taskId) as [task|]; [|done].
  destruct (taskId =? 0); [done|].
  set (k1 := for_range 0 (Z.to_nat MAX_FILE_HANDLES) _ k).
  set (k2 := for_range 0 (Z.to_nat MAX_DIR_HANDLES) _ k1).
  assert (H1 : tasks k1 = tasks k /\ currentTaskId k1 = currentTaskId k
               /\ kernelHeap k1 = kernelHeap k /\ heapUsed k1 = heapUsed k).
  { apply for_range_preserves; [done|]. intros j s Hs.
    destruct (default false _); [|done].
    destruct (freeFileHandle_frame (0 + Z.of_nat j) s) as (-> & -> & -> & ->).
    done. }
  assert (H2 : tasks k2 = tasks k /\ currentTaskId k2 = currentTaskId k
               /\ kernelHeap k2 = kernelHeap k /\ heapUsed k2 = heapUsed k).
  { apply for_range_preserves; [done|]. intros j s Hs.
    destruct (default false _); [|done].
    destruct (freeDirHandle_frame (0 + Z.of_nat j) s) as (-> & -> & -> & ->).
    done. }
  destruct H2 as (Ht & Hc & Hh & Hu).
  assert (Hinv2 : accounting_inv k2) by by apply (accounting_inv_fields k).
  clearbody k2. clear k1 H1.
  set (f := fun t => set_task_id (-1) (set_task_state TASK_EMPTY t)).
  set (k3 := update_task taskId f k2).
  apply (accounting_inv_fields k3); try done.
  assert (Ht3 : tasks k3 = alter f (Z.to_nat taskId) (tasks k2))
    by apply tasks_update_task.
  destruct Hinv2 as (Hwf & [Hlen Hcur] & Hown & Hmu).
  split; [done|]. split.
  - split; [|done]. by rewrite Ht3, length_alter.
  - split; [done|]. intros o Ho.
    rewrite (memoryUsed_alter k2 k3 f _ o) by done. by apply Hmu.
Qed.

Lemma compact_inv (k kc : kernel) :
  target_ok -> accounting_inv k ->
  kernelHeap kc = live (kernelHeap k) ->
  heapUsed kc = heap_total (live (kernelHeap k)) ->
  tasks kc = tasks k -> currentTaskId kc = currentTaskId k ->
  accounting_inv kc.
Proof.
  intros Hok ((Hu & Hle & Hf) & [Hlen Hcur] & Hown & Hmu) Hh Hu' Ht Hc.
  pose proof (heap_total_live_le _ Hok Hf).
  split; [|split].
  - repeat split; [by rewrite Hh, Hu'|lia|]. rewrite Hh. by apply Forall_live.
  - split; by rewrite ?Ht, ?Hc.
  - split; [rewrite Hh; by apply Forall_live|]. intros o Ho.
    rewrite (task_at_eq k kc), Hh, owned_bytes_live by done. by apply Hmu.
Qed.

Lemma place_inv (r : Z) (kc k' : kernel) :
  target_ok -> accounting_inv kc -> 0 <= r ->
  r + sizeof_MemoryBlock + KERNEL_HEAP_SIZE < 2 ^ 32 ->
  heapUsed kc + (sizeof_MemoryBlock + r) <= KERNEL_HEAP_SIZE ->
  kernelHeap k'
  = kernelHeap kc ++ [mkMemoryBlock r (currentTaskId kc) true (-1)] ->
  heapUsed k' = heapUsed kc + (sizeof_MemoryBlock + r) ->
  tasks k'
  = alter (fun t => set_task_memoryUsed (u32 (task_memoryUsed t + r)) t)
      (Z.to_nat (currentTaskId kc)) (tasks kc) ->
  currentTaskId k' = currentTaskId kc ->
  accounting_inv k'.
Proof.
  intros Hok ((Hu & Hle & Hf) & [Hlen Hcur] & Hown & Hmu) Hr Hfit Hroom
    Hh Hu' Ht Hc.
  pose proof Hok as (Hhd & Hk & _).
  split; [|split].
  - repeat split.
    + rewrite Hh, Hu', heap_total_app, Hu. unfold heap_total. simpl. lia.
    + lia.
    + rewrite Hh. apply Forall_app. split; [done|]. by apply Forall_singleton.
  - split; [by rewrite Ht, length_alter|by rewrite Hc].
  - split.
    + rewrite Hh. apply Forall_app. split; [done|]. by apply Forall_singleton.
    + intros o Ho.
      rewrite (task_at_alter kc k' _ _ o Ht)
        by (rewrite Hlen; unfold MAX_TASKS in *; lia).
      rewrite Hh, owned_bytes_app, owned_bytes_cons. simpl.
      pose proof (owned_bytes_bounds o (kernelHeap kc) Hok Hf).
      case_decide as Eo.
      * assert (currentTaskId kc = o) as Heq by lia.
        rewrite Heq, Z.eqb_refl. simpl. rewrite Hmu by done.
        rewrite u32_small by lia. lia.
      * destruct (currentTaskId kc =? o) eqn:E; tests; [lia|].
        rewrite Hmu by done. simpl. lia.
Qed.

Lemma memAlloc_inv (size : Z) (k k' : kernel) (p : pointer) :
  target_ok -> accounting_inv k -> alloc_size_ok size ->
  memAlloc size k = Returns p k' -> accounting_inv k'.
Proof.
  intros Hok Hinv Hsz Hrun. pose proof Hinv as (Hwf & Htw & Hacct).
  pose proof Hok as (Hhd & Hk & Hfit).
  destruct (memAlloc_spec size k Hok Hwf Htw Hsz) as (H0 & Hroom & Hfull).
  pose proof (round_up4_bounds size) as [Hr _].
  unfold alloc_size_ok in Hsz.
  destruct (decide (size = 0)) as [Hz|Hnz].
  { rewrite (H0 Hz) in Hrun. by injection Hrun as _ <-. }
  destruct (Z_le_gt_dec (heapUsed k + (sizeof_MemoryBlock + round_up4 size))
              KERNEL_HEAP_SIZE) as [Hle|Hgt].
  - destruct (Hroom ltac:(lia) Hle) as (k1 & Hk1 & Hh & Hu & Ht & Hc).
    rewrite Hk1 in Hrun. injection Hrun as _ <-.
    apply (place_inv (round_up4 size) k k1); try done; lia.
  - destruct (Hfull ltac:(lia) Hgt)
      as (kc & Hkc & Hh & Hu & Ht & Hc & Hoom & Hplace).
    assert (Hinvc : accounting_inv kc) by by apply (compact_inv k kc).
    destruct (Z_le_gt_dec (heapUsed kc + (sizeof_MemoryBlock + round_up4 size))
                KERNEL_HEAP_SIZE) as [Hle|Hgt'].
    + destruct (Hplace Hle) as (k1 & Hk1 & Hh1 & Hu1 & Ht1 & Hc1).
      rewrite Hk1 in Hrun. injection Hrun as _ <-.
      apply (place_inv (round_up4 size) kc k1); try done; try lia.
      * by rewrite Hc.
      * by rewrite Hc, Ht.
    + rewrite (Hoom Hgt') in Hrun. injection Hrun as _ <-.
      by apply (accounting_inv_fields kc).
Qed.

Lemma memFree_inv (ptr : pointer) (k k' : kernel) :
  target_ok -> accounting_inv k ->
  memFree ptr k = Returns tt k' -> accounting_inv k'.
Proof.
  intros Hok Hinv Hrun. pose proof Hok as (Hhd & Hk & Hfit).
  unfold memFree, freeMemoryInternal in Hrun.
  destruct ptr as [p|]; [|by injection Hrun as <-].
  destruct (header_index _ _ _) as [i|] eqn:Ei; [|done].
  destruct (kernelHeap k !! i) as [b|] eqn:Eb; [|done].
  destruct (blk_inUse b) eqn:Eu; simpl in Hrun.
  2:{ injection Hrun as <-. by apply (accounting_inv_fields k). }
  injection Hrun as <-.
  destruct Hinv as ((Hu & Hle & Hf) & [Hlen Hcur] & Hown & Hmu).
  pose proof (proj1 (Forall_lookup _ _) Hown i b Eb Eu) as Hrange.
  pose proof (proj1 (Forall_lookup _ _) Hf i b Eb) as Hsize. simpl in Hsize.
  destruct (_ && _) eqn:E; tests; [|lia].
  set (f := fun t => set_task_memoryUsed (u32 (task_memoryUsed t - blk_size b)) t).
  set (k0 := update_task (blk_ownerTaskId b) f k).
  assert (Ht : tasks k0 = alter f (Z.to_nat (blk_ownerTaskId b)) (tasks k))
    by apply tasks_update_task.
  assert (Hh0 : kernelHeap k0 = kernelHeap k) by done.
  assert (Hu0 : heapUsed k0 = heapUsed k) by done.
  assert (Hc0 : currentTaskId k0 = currentTaskId k) by done.
  clearbody k0.
  split; [|split].
  - repeat split; simpl; rewrite ?Hh0, ?Hu0.
    + rewrite Hu. symmetry. by eapply heap_total_insert.
    + done.
    + by apply Forall_insert.
  - split; simpl; [by rewrite Ht, length_alter|by rewrite Hc0].
  - split; simpl; rewrite ?Hh0.
    + apply Forall_insert; [done|]. simpl. done.
    + intros o Ho. rewrite (owned_bytes_free o _ i b) by done.
      change (task_at (set_kernelHeap _ k0) o) with (task_at k0 o).
      rewrite (task_at_alter k k0 f _ o Ht)
        by (rewrite Hlen; unfold MAX_TASKS in *; lia).
      pose proof (owned_bytes_bounds o (kernelHeap k) Hok Hf).
      case_decide as Eo.
      * assert (blk_ownerTaskId b = o) as Heq by lia.
        rewrite Heq, Z.eqb_refl. unfold f. simpl. rewrite Hmu by done.
        pose proof (owned_bytes_lookup o _ i b Hf Eb Eu Heq).
        rewrite u32_small by lia. done.
      * destruct (blk_ownerTaskId b =? o) eqn:E'; tests; [lia|].
        rewrite Hmu by done. lia.
Qed.

Lemma memCompact_inv (k k' : kernel) :
  target_ok -> accounting_inv k ->
  memCompact k = Returns tt k' -> accounting_inv k'.
Proof.
  intros Hok Hinv Hrun. pose proof Hinv as (Hwf & _).
  destruct (compactMemory_linear k Hok Hwf) as (kc & Hkc & Hh & Hu & Ht & Hc).
  unfold memCompact in Hrun. rewrite Hkc in Hrun. injection Hrun as <-.
  by apply (compact_inv k kc).
Qed.

Lemma apply_op_inv (op : heap_op) (k k' : kernel) :
  target_ok -> accounting_inv k -> op_ok op k ->
  apply_op op k = Returns tt k' -> accounting_inv k'.
Proof.
  intros Hok Hinv Hop Hrun. destruct op; simpl in Hrun.
  - injection Hrun as <-. by apply createTask_inv.
  - injection Hrun as <-. by apply killTask_inv.
  - destruct (memAlloc size k) as [p k1| | |] eqn:E; try done.
    simpl in Hrun. injection Hrun as <-. by eapply memAlloc_inv.
  - by eapply memFree_inv.
  - by eapply memCompact_inv.
Qed.

Lemma header_index_lt (l : list MemoryBlock) (pos tgt : Z) (i : nat) :
  header_index l pos tgt = Some i -> (i < length l)%nat.
Proof.
  revert pos i. induction l as [|x l IH]; intros pos i H; [done|].
  cbn [header_index] in H. destruct (pos =? tgt).
  - injection H as <-. simpl. lia.
  - destruct (header_index l _ tgt) as [j|] eqn:E; [|done].
    injection H as <-. apply IH in E. simpl. lia.
Qed.

(** *** Each call returns *)

Lemma op_ok_safe (op : heap_op) (k : kernel) : op_ok op k -> op_safe op k.
Proof. by destruct op as [| | |[p|]|]. Qed.

Lemma createTask_heap (name : option string) (e : EntryPoint) (now : Z)
    (k : kernel) :
  heap_wf k -> tasks_wf k ->
  heap_wf (createTask name e now k).2 /\ tasks_wf (createTask name e now k).2.
Proof.
  intros Hwf [Hlen Hcur]. unfold createTask.
  destruct (allocateTaskId k <? 0); [done|]. simpl.
  split; [done|]. split; [|done].
  change (tasks (emit ?e ?s)) with (tasks s).
  by rewrite tasks_update_task, length_alter.
Qed.

Lemma killTask_heap (taskId : Z) (k : kernel) :
  heap_wf k -> tasks_wf k ->
  heap_wf (killTask taskId k) /\ tasks_wf (killTask taskId k).
Proof.
  intros Hwf Htw. unfold killTask.
  destruct (getTask k taskId) as [task|]; [|done].
  destruct (taskId =? 0); [done|].
  set (k1 := for_range 0 (Z.to_nat MAX_FILE_HANDLES) _ k).
  set (k2 := for_range 0 (Z.to_nat MAX_DIR_HANDLES) _ k1).
  assert (H1 : tasks k1 = tasks k /\ currentTaskId k1 = currentTaskId k
               /\ kernelHeap k1 = kernelHeap k /\ heapUsed k1 = heapUsed k).
  { apply for_range_preserves; [done|]. intros j s Hs.
    destruct (default false _); [|done].
    destruct (freeFileHandle_frame (0 + Z.of_nat j) s) as (-> & -> & -> & ->).
    done. }
  assert (H2 : tasks k2 = tasks k /\ currentTaskId k2 = currentTaskId k
               /\ kernelHeap k2 = kernelHeap k /\ heapUsed k2 = heapUsed k).
  { apply for_range_preserves; [done|]. intros j s Hs.
    destruct (default false _); [|done].
    destruct (freeDirHandle_frame (0 + Z.of_nat j) s) as (-> & -> & -> & ->).
    done. }
  destruct H2 as (Ht & Hc & Hh & Hu). clearbody k2. clear k1 H1.
  destruct Hwf as (H1 & H2 & H3). destruct Htw as [Hlen Hcur].
  unfold heap_wf, tasks_wf. simpl.
  rewrite length_insert, Ht, Hc, Hh, Hu. done.
Qed.

Lemma memAlloc_heap (size : Z) (k : kernel) :
  target_ok -> heap_wf k -> tasks_wf k -> alloc_size_ok size ->
  exists p k',
    memAlloc size k = Returns p k' /\ heap_wf k' /\ tasks_wf k'.
Proof.
  intros Hok Hwf Htw Hsz. pose proof Hok as (Hh & Hk & Hfit).
  destruct (memAlloc_spec size k Hok Hwf Htw Hsz) as (H0 & Hfits & Hfull).
  pose proof (round_up4_bounds size) as [Hr _].
  pose proof Hwf as (Hu & Hle & Hf). pose proof Htw as [Hlen Hcur].
  unfold alloc_size_ok in Hsz.
  assert (Hplaced : forall kc k',
            heap_wf kc -> tasks kc = tasks k ->
            heapUsed kc + (sizeof_MemoryBlock + round_up4 size)
            <= KERNEL_HEAP_SIZE ->
            kernelHeap k'
            = kernelHeap kc
              ++ [mkMemoryBlock (round_up4 size) (currentTaskId k) true (-1)] ->
            heapUsed k' = heapUsed kc + (sizeof_MemoryBlock + round_up4 size) ->
            tasks k'
            = alter (fun t =>
                       set_task_memoryUsed
                         (u32 (task_memoryUsed t + round_up4 size)) t)
                (Z.to_nat (currentTaskId k)) (tasks k) ->
            currentTaskId k' = currentTaskId k ->
            heap_wf k' /\ tasks_wf k').
  { intros kc k' (Huc & Hlec & Hfc) Htc Hroom Hh' Hu' Ht' Hc'. split.
    - unfold heap_wf. rewrite Hh', Hu', heap_total_app. simpl.
      split; [lia|]. split; [lia|].
      apply Forall_app. split; [done|]. apply Forall_singleton. simpl. lia.
    - unfold tasks_wf. by rewrite Ht', length_alter, Hc'. }
  destruct (decide (size = 0)) as [E|E].
  { exists None, k. by rewrite (H0 E). }
  assert (Hpos : 0 < size) by lia.
  destruct (Z_le_gt_dec (heapUsed k + (sizeof_MemoryBlock + round_up4 size))
              KERNEL_HEAP_SIZE) as [Hroom|Hbig].
  - destruct (Hfits Hpos Hroom) as (k1 & Ha & Hh1 & Hu1 & Ht1 & Hc1).
    eexists _, k1. split; [done|]. by apply (Hplaced k k1).
  - destruct (Hfull Hpos Hbig)
      as (kc & _ & Hhc & Huc & Htc & Hcc & Hno & Hyes).
    assert (Hwfc : heap_wf kc).
    { pose proof (heap_total_live_le _ Hok Hf).
      repeat split; [by rewrite Hhc, Huc|lia|].
      rewrite Hhc. by apply Forall_live. }
    destruct (Z_le_gt_dec
                (heapUsed kc + (sizeof_MemoryBlock + round_up4 size))
                KERNEL_HEAP_SIZE) as [Hroom'|Hbig'].
    + destruct (Hyes Hroom') as (k1 & Ha & Hh1 & Hu1 & Ht1 & Hc1).
      eexists _, k1. split; [done|]. by apply (Hplaced kc k1).
    + eexists _, _. split; [by apply Hno|]. split; [done|].
      unfold tasks_wf. simpl. by rewrite Htc, Hcc.
Qed.

Lemma memFree_heap (ptr : pointer) (k : kernel) :
  heap_wf k -> tasks_wf k -> op_safe (OpMemFree ptr) k ->
  exists k', memFree ptr k = Returns tt k' /\ heap_wf k' /\ tasks_wf k'.
Proof.
  intros Hwf Htw Hp. unfold memFree, freeMemoryInternal.
  destruct ptr as [p|]; [|by exists k].
  destruct Hp as (i & b & Hi & Hb). rewrite Hi, Hb.
  destruct (blk_inUse b) eqn:Eu; simpl; [|by eexists].
  eexists. split; [done|].
  destruct Hwf as (Hu & Hle & Hf). destruct Htw as [Hlen Hcur].
  pose proof (proj1 (Forall_lookup _ _) Hf i b Hb) as Hsize.
  set (k0 := if _ && _ then _ else k).
  assert (H0 : kernelHeap k0 = kernelHeap k /\ heapUsed k0 = heapUsed k
               /\ length (tasks k0) = length (tasks k)
               /\ currentTaskId k0 = currentTaskId k).
  { unfold k0. destruct (_ && _); [|done]. simpl.
    by rewrite length_insert. }
  destruct H0 as (Hh0 & Hu0 & Hl0 & Hc0). clearbody k0.
  split.
  - unfold heap_wf. simpl. rewrite Hh0, Hu0.
    split; [rewrite Hu; symmetry; by eapply heap_total_insert|].
    split; [done|]. by apply Forall_insert.
  - unfold tasks_wf. simpl. by rewrite Hl0, Hc0.
Qed.

Lemma apply_op_safe (op : heap_op) (k : kernel) :
  target_ok -> heap_wf k -> tasks_wf k -> op_safe op k ->
  exists k', apply_op op k = Returns tt k' /\ heap_wf k' /\ tasks_wf k'.
Proof.
  intros Hok Hwf Htw Hop.
  destruct op as [name e now|taskId|size|ptr|]; simpl.
  - eexists. split; [done|]. by apply createTask_heap.
  - eexists. split; [done|]. by apply killTask_heap.
  - destruct (memAlloc_heap size k Hok Hwf Htw Hop) as (p & k' & -> & H).
    by exists k'.
  - by apply memFree_heap.
  - destruct (compactMemory_wf k Hok Hwf) as (k' & H & _ & _ & Ht & Hwf').
    exists k'. split; [done|]. split; [done|].
    destruct (compactMemory_linear k Hok Hwf) as (k2 & H2 & _ & _ & _ & Hc).
    unfold memCompact in *. rewrite H in H2. injection H2 as <-.
    destruct Htw. unfold tasks_wf. by rewrite Ht, Hc.
Qed.

(** C2 (amended). Start from a state with a linear heap in which every slot is
    charged the live bytes it owns, as [init] leaves it.  Every sequence
    of [createTask], [killTask], [memAlloc], [memFree] and [memCompact]
    calls in which no [createTask] claims a slot that is still charged for
    the live blocks of a killed task, every [memFree] is given the null
    pointer or the payload address of a block that the heap holds at the
    time of the call, and the sizes asked of [memAlloc] fit the [size_t]
    arithmetic, returns, and afterwards the sum over all task slots of
    [memoryUsed] equals the sum of [size] over the blocks in use. *)
Theorem accounting_preserved (ops : list heap_op) (k : kernel) :
  target_ok -> accounting_inv k -> ops_ok ops k ->
  exists k',
    run ops k = Returns tt k'
    /\ sum_memoryUsed (tasks k') = live_bytes (kernelHeap k')
    /\ accounting_inv k'.
Proof.
  intros Hok. revert k.
  induction ops as [|op ops IH]; intros k Hinv Hops.
  - exists k. split; [done|]. split; [|done].
    by apply accounting_inv_accounting.
  - destruct Hops as [Hop Hrest]. pose proof Hinv as (Hwf & Htw & _).
    destruct (apply_op_safe op k Hok Hwf Htw (op_ok_safe op k Hop))
      as (k1 & Hk1 & _).
    cbn [run]. rewrite Hk1.
    apply IH; [by eapply apply_op_inv|by apply Hrest].
Qed.

Lemma is_payloadb_sound (k : kernel) (p : Z) :
  is_payloadb k p = true -> is_payload k p.
Proof.
  unfold is_payloadb, is_payload, payload_of.
  destruct (header_index _ _ _) as [i|]; [|done].
  intros H. apply bool_decide_eq_true in H as [b Hb]. by exists i, b.
Qed.

Lemma op_okb_sound (op : heap_op) (k : kernel) :
  op_okb op k = true -> op_ok op k.
Proof.
  destruct op as [| | |[p|]|]; simpl; try done.
  - intros H. tests. destruct H as [H|H]; tests; [by left|by right].
  - intros H. tests. unfold alloc_size_ok. lia.
  - apply is_payloadb_sound.
Qed.

Lemma ops_okb_sound (ops : list heap_op) (k : kernel) :
  ops_okb ops k = true -> ops_ok ops k.
Proof.
  revert k. induction ops as [|op ops IH]; intros k H; [done|].
  simpl in H. apply andb_true_iff in H as [H1 H2].
  split; [by apply op_okb_sound|].
  intros k' Hk'. rewrite Hk' in H2. by apply IH.
Qed.

Lemma op_safeb_sound (op : heap_op) (k : kernel) :
  op_safeb op k = true -> op_safe op k.
Proof.
  destruct op as [| | |[p|]|]; simpl; try done.
  - intros H. tests. unfold alloc_size_ok. lia.
  - apply is_payloadb_sound.
Qed.

Lemma ops_safeb_sound (ops : list heap_op) (k : kernel) :
  ops_safeb ops k = true -> ops_safe ops k.
Proof.
  revert k. induction ops as [|op ops IH]; intros k H; [done|].
  simpl in H. apply andb_true_iff in H as [H1 H2].
  split; [by apply op_safeb_sound|].
  intros k' Hk'. rewrite Hk' in H2. by apply IH.
Qed.

(** ** Mailboxes *)

(** Arithmetic with [mod] and [rem]. *)
Ltac euclid := Z.to_euclidean_division_equations; lia.

(** C5. [ipcReceive] on the mailbox of the current task returns
    [WOULD_BLOCK] when [count] is zero; otherwise [IO_ERROR] when the entry
    at [head] is not valid; otherwise [INVALID_PARAM] when the stored
    length exceeds [maxLength].  In each case the kernel, hence the mailbox
    with its [head], [tail], [count] and entries, is left as it was, and
    nothing is copied to the caller. *)
Theorem ipcReceive_errors (buffer : bool) (maxLength : Z) (fromTaskId : bool)
    (k : kernel) :
  let q := queue_at k (currentTaskId k) in
  (mq_count q = 0 ->
   ipcReceive buffer maxLength fromTaskId k = (SYS_ERR_WOULD_BLOCK, k))
  /\ (forall m,
        mq_count q <> 0 -> 0 <= mq_head q ->
        mq_messages q !! Z.to_nat (mq_head q) = Some m ->
        msg_valid m = false ->
        ipcReceive buffer maxLength fromTaskId k = (SYS_ERR_IO_ERROR, k))
  /\ (forall m,
        mq_count q <> 0 -> 0 <= mq_head q ->
        mq_messages q !! Z.to_nat (mq_head q) = Some m ->
        msg_valid m = true -> msg_length m > maxLength ->
        ipcReceive buffer maxLength fromTaskId k = (SYS_ERR_INVALID_PARAM, k)).
Proof.
  intros q. unfold ipcReceive. fold q. split; [|split].
  - intros ->. done.
  - intros m Hc _ Hm Hv. destruct (mq_count q =? 0) eqn:E; tests; [done|].
    unfold message_at. rewrite Hm. simpl. by rewrite Hv.
  - intros m Hc _ Hm Hv Hl. destruct (mq_count q =? 0) eqn:E; tests; [done|].
    unfold message_at. rewrite Hm. simpl. rewrite Hv. simpl.
    by destruct (msg_length m >? maxLength) eqn:E'; tests; [|lia].
Qed.

Lemma message_at_insert_eq (q : MessageQueue) (i : Z) (m : Message)
    (h tl c : Z) :
  (Z.to_nat i < length (mq_messages q))%nat ->
  message_at (mkMessageQueue (<[Z.to_nat i := m]> (mq_messages q)) h tl c) i
  = m.
Proof.
  intros H. unfold message_at. simpl. by rewrite list_lookup_insert_eq.
Qed.

Lemma message_at_insert_ne (q : MessageQueue) (i j : Z) (m : Message)
    (h tl c : Z) :
  0 <= i -> 0 <= j -> i <> j ->
  message_at (mkMessageQueue (<[Z.to_nat i := m]> (mq_messages q)) h tl c) j
  = message_at q j.
Proof.
  intros Hi Hj Hne. unfold message_at. simpl.
  by rewrite list_lookup_insert_ne by lia.
Qed.

(** Enqueueing at [tail] appends to the waiting messages. *)
Lemma pending_send (q : MessageQueue) (msg : Message) :
  queue_wf q -> mq_count q < MAX_MESSAGE_QUEUE_SIZE ->
  pending (mkMessageQueue (<[Z.to_nat (mq_tail q) := msg]> (mq_messages q))
             (mq_head q) (Z.rem (mq_tail q + 1) MAX_MESSAGE_QUEUE_SIZE)
             (mq_count q + 1))
  = pending q ++ [msg].
Proof.
  intros (Hlen & Hh & Hc & Ht & Hv) Hroom.
  unfold pending, MAX_MESSAGE_QUEUE_SIZE in *. simpl.
  replace (Z.to_nat (mq_count q + 1)) with (S (Z.to_nat (mq_count q))) by lia.
  rewrite seq_S, fmap_app. simpl. f_equal.
  - apply list_fmap_ext. intros i j Hj. apply lookup_seq in Hj as [-> Hj].
    apply message_at_insert_ne; rewrite ?Ht; euclid.
  - f_equal. rewrite Z2Nat.id by lia. rewrite <- Ht.
    apply message_at_insert_eq. rewrite Hlen, Ht. euclid.
Qed.

Lemma queue_wf_send (q : MessageQueue) (msg : Message) :
  queue_wf q -> mq_count q < MAX_MESSAGE_QUEUE_SIZE ->
  msg_valid msg = true -> 0 <= msg_length msg <= MESSAGE_DATA_SIZE ->
  queue_wf (mkMessageQueue (<[Z.to_nat (mq_tail q) := msg]> (mq_messages q))
              (mq_head q) (Z.rem (mq_tail q + 1) MAX_MESSAGE_QUEUE_SIZE)
              (mq_count q + 1)).
Proof.
  intros Hwf Hroom Hval Hlen'. pose proof (pending_send q msg Hwf Hroom) as Hp.
  destruct Hwf as (Hlen & Hh & Hc & Ht & Hv).
  unfold queue_wf. rewrite Hp. simpl. unfold MAX_MESSAGE_QUEUE_SIZE in *.
  rewrite length_insert. repeat split; try done; try lia.
  - rewrite Ht. euclid.
  - apply Forall_app. split; [done|]. by apply Forall_singleton.
Qed.

(** Dequeueing at [head] removes the oldest waiting message. *)
Lemma pending_receive (q : MessageQueue) (m : Message) (rest : list Message) :
  queue_wf q -> pending q = m :: rest ->
  m = message_at q (mq_head q)
  /\ mq_count q <> 0
  /\ msg_valid m = true /\ 0 <= msg_length m <= MESSAGE_DATA_SIZE
  /\ let q' :=
       mkMessageQueue
         (<[Z.to_nat (mq_head q) := set_msg_valid false m]> (mq_messages q))
         (Z.rem (mq_head q + 1) MAX_MESSAGE_QUEUE_SIZE) (mq_tail q)
         (mq_count q - 1) in
     pending q' = rest /\ queue_wf q'.
Proof.
  intros (Hlen & Hh & Hc & Ht & Hv) Hp. unfold MAX_MESSAGE_QUEUE_SIZE in *.
  assert (Hpos : 0 < mq_count q).
  { destruct (Z.to_nat (mq_count q)) eqn:E; [|lia].
    unfold pending in Hp. by rewrite E in Hp. }
  rewrite Hp in Hv. apply Forall_cons in Hv as [[Hval Hml] Hrest].
  unfold pending, MAX_MESSAGE_QUEUE_SIZE in Hp.
  replace (Z.to_nat (mq_count q)) with (S (Z.to_nat (mq_count q - 1))) in Hp
    by lia.
  simpl in Hp. injection Hp as Hm Hr.
  rewrite Z.add_0_r, Z.mod_small in Hm by lia.
  split; [done|]. split; [lia|]. split; [done|]. split; [done|].
  assert (Hpend : pending
            (mkMessageQueue
               (<[Z.to_nat (mq_head q) := set_msg_valid false m]>
                  (mq_messages q))
               (Z.rem (mq_head q + 1) 16) (mq_tail q) (mq_count q - 1))
          = rest).
  { rewrite <- Hr, <- fmap_S_seq, <- list_fmap_compose.
    unfold pending, MAX_MESSAGE_QUEUE_SIZE. simpl. apply list_fmap_ext.
    intros i j Hj. apply lookup_seq in Hj as [-> Hj]. simpl.
    rewrite message_at_insert_ne by euclid.
    f_equal. euclid. }
  simpl. split; [done|]. unfold queue_wf. rewrite Hpend. simpl.
  unfold MAX_MESSAGE_QUEUE_SIZE.
  rewrite length_insert. repeat split; try done; try lia.
  all: rewrite ?Ht; euclid.
Qed.

Lemma queue_at_insert_eq (k k' : kernel) (t : Z) (q : MessageQueue) :
  messageQueues k' = <[Z.to_nat t := q]> (messageQueues k) ->
  (Z.to_nat t < length (messageQueues k))%nat ->
  queue_at k' t = q.
Proof.
  intros Hq Hlt. unfold queue_at. by rewrite Hq, list_lookup_insert_eq.
Qed.

Lemma queue_at_insert_ne (k k' : kernel) (t t' : Z) (q : MessageQueue) :
  messageQueues k' = <[Z.to_nat t := q]> (messageQueues k) ->
  0 <= t -> 0 <= t' -> t <> t' ->
  queue_at k' t' = queue_at k t'.
Proof.
  intros Hq Ht Ht' Hne. unfold queue_at.
  by rewrite Hq, list_lookup_insert_ne by lia.
Qed.

(** The message that [ipcSend] writes at [tail]. *)
Lemma take_memcpy (old bytes : list byte) (n : Z) :
  Z.of_nat (length bytes) = n ->
  take (Z.to_nat n)
    (if n >? 0 then memcpy old bytes n else old) = bytes.
Proof.
  intros Hn. destruct (n >? 0) eqn:E; tests.
  - unfold memcpy. rewrite take_app_le by (rewrite length_take; lia).
    rewrite take_take, Nat.min_id. apply take_ge. lia.
  - destruct bytes; [|simpl in Hn; lia].
    replace n with 0 by (simpl in Hn; lia). done.
Qed.

Lemma ipcSend_success (t : Z) (data : option (list byte)) (n now : Z)
    (k k1 : kernel) :
  ipcSend t data n now k = (SYS_OK, k1) ->
  0 <= t < MAX_TASKS
  /\ task_state (task_at k t) <> TASK_EMPTY
  /\ n <= MESSAGE_DATA_SIZE
  /\ mq_count (queue_at k t) < MAX_MESSAGE_QUEUE_SIZE
  /\ exists old,
      k1 = set_messageQueues
             (<[Z.to_nat t :=
                  mkMessageQueue
                    (<[Z.to_nat (mq_tail (queue_at k t)) :=
                         mkMessage (currentTaskId k) t
                           (if n >? 0 then memcpy old (default [] data) n
                            else old) n now true]>
                       (mq_messages (queue_at k t)))
                    (mq_head (queue_at k t))
                    (Z.rem (mq_tail (queue_at k t) + 1) MAX_MESSAGE_QUEUE_SIZE)
                    (mq_count (queue_at k t) + 1)]> (messageQueues k)) k.
Proof.
  unfold ipcSend. intros H.
  destruct (_ || _) eqn:E1; [done|]. tests.
  destruct (TaskState_eqb _ _) eqn:E2; [done|].
  destruct (n >? MESSAGE_DATA_SIZE) eqn:E3; [done|].
  destruct (_ && _) eqn:E4; [done|].
  destruct (_ >=? _) eqn:E5; [done|]. tests.
  injection H as <-.
  split; [lia|]. split.
  { intros Hs. by rewrite Hs in E2. }
  split; [lia|]. split; [lia|]. by eexists.
Qed.

Lemma ipcSend_appends (k : kernel) (t : Z) (data : option (list byte))
    (n now : Z) (k1 : kernel) :
  mailboxes_wf k -> Z.of_nat (length (default [] data)) = n ->
  ipcSend t data n now k = (SYS_OK, k1) ->
  exists m,
    pending (queue_at k1 t) = pending (queue_at k t) ++ [m]
    /\ msg_fromTaskId m = currentTaskId k
    /\ msg_length m = n
    /\ take (Z.to_nat n) (msg_data m) = default [] data
    /\ mailboxes_wf k1
    /\ currentTaskId k1 = currentTaskId k
    /\ trace k1 = trace k
    /\ 0 <= t < MAX_TASKS.
Proof.
  intros [Hlen Hwf] Hn Hsend.
  destruct (ipcSend_success _ _ _ _ _ _ Hsend)
    as (Ht & Hlive & Hmax & Hroom & old & ->).
  set (q := queue_at k t) in *.
  set (m := mkMessage (currentTaskId k) t _ n now true).
  set (q' := mkMessageQueue _ _ _ _).
  set (k1 := set_messageQueues _ k).
  assert (Hq1 : queue_at k1 t = q').
  { apply (queue_at_insert_eq k); [done|]. rewrite Hlen. lia. }
  exists m. rewrite Hq1.
  split; [by apply pending_send; [apply Hwf|]|].
  split; [done|]. split; [done|].
  split; [by apply take_memcpy|].
  split; [|done]. split; [simpl; by rewrite length_insert|].
  intros t' Ht'. destruct (decide (t = t')) as [<-|Hne].
  - rewrite Hq1. apply queue_wf_send; [by apply Hwf|done|done|]. simpl. lia.
  - rewrite (queue_at_insert_ne k k1 t t' q') by (done || lia). by apply Hwf.
Qed.

Lemma s32_small (z : Z) : - 2 ^ 31 <= z < 2 ^ 31 -> s32 z = z.
Proof. intros H. unfold s32. rewrite Z.mod_small; lia. Qed.

Lemma ipcReceive_pops (k : kernel) (buffer : bool) (maxLength : Z)
    (fromTaskId : bool) (m : Message) (rest : list Message) :
  mailboxes_wf k -> 0 <= currentTaskId k < MAX_TASKS ->
  pending (queue_at k (currentTaskId k)) = m :: rest ->
  msg_length m <= maxLength ->
  exists k',
    ipcReceive buffer maxLength fromTaskId k = (msg_length m, k')
    /\ trace k'
       = trace k
         ++ (if buffer && (msg_length m >? 0)
             then [CopyOut (take (Z.to_nat (msg_length m)) (msg_data m))]
             else [])
         ++ (if fromTaskId then [StoreFrom (msg_fromTaskId m)] else [])
    /\ pending (queue_at k' (currentTaskId k)) = rest
    /\ mailboxes_wf k'
    /\ currentTaskId k' = currentTaskId k.
Proof.
  intros [Hlen Hwf] Hcur Hp Hmax.
  destruct (pending_receive _ m rest (Hwf _ Hcur) Hp)
    as (Hm & Hc & Hval & Hml & Hrest & Hwf').
  unfold ipcReceive. set (q := queue_at k (currentTaskId k)) in *.
  destruct (mq_count q =? 0) eqn:E; tests; [done|].
  rewrite <- Hm, Hval. simpl.
  destruct (msg_length m >? maxLength) eqn:E1; tests; [lia|].
  unfold MESSAGE_DATA_SIZE in Hml. rewrite s32_small by lia.
  set (q' := mkMessageQueue _ _ _ _) in *.
  set (ka := if buffer && _ then _ else k).
  set (kb := if fromTaskId then _ else ka).
  set (k' := set_messageQueues _ kb).
  assert (Hfr : messageQueues kb = messageQueues k
                /\ currentTaskId kb = currentTaskId k).
  { unfold kb, ka. by destruct fromTaskId, (buffer && _). }
  destruct Hfr as [Hmq Hck].
  assert (Hq : messageQueues k'
               = <[Z.to_nat (currentTaskId k) := q']> (messageQueues k)) by done.
  assert (Hq1 : queue_at k' (currentTaskId k) = q').
  { apply (queue_at_insert_eq k); [done|]. rewrite Hlen. lia. }
  exists k'. split; [done|]. split.
  { unfold k', kb, ka. destruct fromTaskId, (buffer && _); simpl;
      rewrite <- ?app_assoc, ?app_nil_r; done. }
  rewrite Hq1. split; [done|]. split; [|done]. split.
  - rewrite Hq, length_insert. done.
  - intros t' Ht'. destruct (decide (currentTaskId k = t')) as [<-|Hne].
    + by rewrite Hq1.
    + rewrite (queue_at_insert_ne k k' _ t' q' Hq) by (done || lia).
      by apply Hwf.
Qed.

Lemma ipcSend_accepts (k : kernel) (t : Z) (data : option (list byte))
    (n now : Z) :
  0 <= t < MAX_TASKS -> task_state (task_at k t) <> TASK_EMPTY ->
  Z.of_nat (length (default [] data)) = n -> n <= MESSAGE_DATA_SIZE ->
  mq_count (queue_at k t) < MAX_MESSAGE_QUEUE_SIZE ->
  exists k1, ipcSend t data n now k = (SYS_OK, k1).
Proof.
  intros Ht Hlive Hn Hmax Hroom. unfold ipcSend.
  destruct (_ || _) eqn:E1; tests; [lia|].
  destruct (TaskState_eqb _ _) eqn:E2; [by apply TaskState_eqb_eq in E2|].
  destruct (n >? MESSAGE_DATA_SIZE) eqn:E3; tests; [lia|].
  destruct (_ && _) eqn:E4.
  { destruct data as [l|]; [done|]. simpl in Hn. by subst n. }
  destruct (_ >=? _) eqn:E5; tests; [lia|]. by eexists.
Qed.

(** C4. A payload of [n <= 64] bytes sent to a live task [t] whose mailbox
    has room is accepted.  An accepted message is appended to the messages
    waiting for [t], stamped with the sender's id.  [ipcReceive] returns
    the oldest waiting message of the current task: its length as result,
    its bytes in the receive buffer, its sender in [fromTaskId] when that
    pointer is non-null; so messages to one recipient are received in the
    order they were sent.  In particular a send to an empty mailbox
    followed by a receive with [t] current (and room for [n] bytes)
    returns [n], the bytes sent and the sender. *)
Theorem ipc_send_receive :
  (forall (k : kernel) (t : Z) (data : option (list byte)) (n now : Z),
      0 <= t < MAX_TASKS -> task_state (task_at k t) <> TASK_EMPTY ->
      Z.of_nat (length (default [] data)) = n -> n <= MESSAGE_DATA_SIZE ->
      mq_count (queue_at k t) < MAX_MESSAGE_QUEUE_SIZE ->
      exists k1, ipcSend t data n now k = (SYS_OK, k1))
  /\ (forall (k : kernel) (t : Z) (data : option (list byte)) (n now : Z)
             (k1 : kernel),
         mailboxes_wf k -> Z.of_nat (length (default [] data)) = n ->
         ipcSend t data n now k = (SYS_OK, k1) ->
         exists m,
           pending (queue_at k1 t) = pending (queue_at k t) ++ [m]
           /\ msg_fromTaskId m = currentTaskId k
           /\ msg_length m = n
           /\ take (Z.to_nat n) (msg_data m) = default [] data
           /\ mailboxes_wf k1)
  /\ (forall (k : kernel) (buffer : bool) (maxLength : Z) (fromTaskId : bool)
             (m : Message) (rest : list Message),
         mailboxes_wf k -> 0 <= currentTaskId k < MAX_TASKS ->
         pending (queue_at k (currentTaskId k)) = m :: rest ->
         msg_length m <= maxLength ->
         exists k',
           ipcReceive buffer maxLength fromTaskId k = (msg_length m, k')
           /\ trace k'
              = trace k
                ++ (if buffer && (msg_length m >? 0)
                    then [CopyOut (take (Z.to_nat (msg_length m))
                                     (msg_data m))]
                    else [])
                ++ (if fromTaskId then [StoreFrom (msg_fromTaskId m)] else [])
           /\ pending (queue_at k' (currentTaskId k)) = rest
           /\ mailboxes_wf k')
  /\ (forall (k : kernel) (t : Z) (data : option (list byte)) (n now : Z)
             (k1 k2 : kernel) (maxLength : Z) (fromTaskId : bool),
         mailboxes_wf k -> Z.of_nat (length (default [] data)) = n ->
         pending (queue_at k t) = [] ->
         ipcSend t data n now k = (SYS_OK, k1) ->
         messageQueues k2 = messageQueues k1 -> currentTaskId k2 = t ->
         n <= maxLength ->
         exists k3,
           ipcReceive true maxLength fromTaskId k2 = (n, k3)
           /\ trace k3
              = trace k2
                ++ (if n >? 0 then [CopyOut (default [] data)] else [])
                ++ (if fromTaskId then [StoreFrom (currentTaskId k)] else [])).
Proof.
  split; [exact ipcSend_accepts|]. split; [|split].
  - intros k t data n now k1 Hwf Hn Hsend.
    destruct (ipcSend_appends k t data n now k1 Hwf Hn Hsend)
      as (m & H1 & H2 & H3 & H4 & H5 & _). by exists m.
  - intros k buffer maxLength fromTaskId m rest Hwf Hcur Hp Hmax.
    destruct (ipcReceive_pops k buffer maxLength fromTaskId m rest Hwf Hcur
                Hp Hmax) as (k' & H1 & H2 & H3 & H4 & _). by exists k'.
  - intros k t data n now k1 k2 maxLength fromTaskId Hwf Hn Hempty Hsend
      Hmq Hcur Hmax.
    destruct (ipcSend_appends k t data n now k1 Hwf Hn Hsend)
      as (m & H1 & H2 & H3 & H4 & H5 & _ & _ & Ht).
    rewrite Hempty in H1. simpl in H1.
    assert (Hq : forall t', queue_at k2 t' = queue_at k1 t')
      by (intros; unfold queue_at; by rewrite Hmq).
    assert (Hwf2 : mailboxes_wf k2).
    { destruct H5 as [Hl Hw]. split; [by rewrite Hmq|].
      intros t' Ht'. rewrite Hq. by apply Hw. }
    destruct (ipcReceive_pops k2 true maxLength fromTaskId m [] Hwf2)
      as (k3 & Hr & Htr & _); [by rewrite Hcur|by rewrite Hcur, Hq|lia|].
    exists k3. rewrite H3 in Hr, Htr. split; [done|].
    rewrite Htr, H2, H4. done.
Qed.

(** ** Semaphores *)

Lemma semaphores_yield (now : Z) (k : kernel) :
  semaphores (yield now k) = semaphores k.
Proof. done. Qed.

Lemma semaphores_ok_insert (k : kernel) (i : Z) (f : Semaphore -> Semaphore) :
  semaphores_ok k ->
  (forall s, semaphores k !! Z.to_nat i = Some s -> sem_ok s -> sem_ok (f s)) ->
  semaphores_ok
    (set_semaphores (<[Z.to_nat i := f (semaphore_at k i)]> (semaphores k)) k).
Proof.
  intros [Hlen Hall] Hf. unfold semaphore_at. split; simpl.
  - by rewrite length_insert.
  - rewrite insert_alter_at. by apply Forall_alter.
Qed.

Lemma semCreate_ok (initialValue maxValue : Z) (name : option string)
    (k : kernel) :
  semaphores_ok k -> semaphores_ok (semCreate initialValue maxValue name k).2.
Proof.
  intros Hok. unfold semCreate.
  destruct (_ || _) eqn:E; [done|]. tests.
  destruct (allocateSemaphore k <? 0); [done|]. simpl.
  destruct Hok as [Hlen Hall]. split; simpl; [by rewrite length_insert|].
  apply Forall_insert; [done|]. intros _. simpl. lia.
Qed.

Lemma semWait_loop_ok (fuel : nat) (clock : nat -> Z) (n : nat)
    (semId timeoutMs startTime : Z) (k : kernel) (r : Z) (k' : kernel) :
  semaphores_ok k ->
  semWait_loop fuel clock n semId timeoutMs startTime k = Returns r k' ->
  semaphores_ok k'.
Proof.
  revert n k. induction fuel as [|fuel IH]; intros n k Hok Hrun;
    simpl in Hrun;
    destruct (sem_value (semaphore_at k semId) <=? 0) eqn:E; tests; try done.
  - injection Hrun as _ <-.
    apply (semaphores_ok_insert k semId (fun s => set_sem_value (sem_value s - 1) s));
      [done|].
    intros s Hs Hsok Hu. unfold semaphore_at in E. rewrite Hs in E.
    simpl in *. specialize (Hsok Hu). lia.
  - destruct (timeoutMs >? 0).
    + destruct (_ >=? _); [by injection Hrun as _ <-|].
      exact (IH _ (yield (clock (n + 1)%nat) k) Hok Hrun).
    + exact (IH _ (yield (clock n) k) Hok Hrun).
  - injection Hrun as _ <-.
    apply (semaphores_ok_insert k semId (fun s => set_sem_value (sem_value s - 1) s));
      [done|].
    intros s Hs Hsok Hu. unfold semaphore_at in E. rewrite Hs in E.
    simpl in *. specialize (Hsok Hu). lia.
Qed.

Lemma semWait_ok (fuel : nat) (clock : nat -> Z) (semId timeoutMs : Z)
    (k : kernel) (r : Z) (k' : kernel) :
  semaphores_ok k ->
  semWait fuel clock semId timeoutMs k = Returns r k' -> semaphores_ok k'.
Proof.
  intros Hok. unfold semWait.
  destruct (_ || _); [by intros [= _ <-]|].
  destruct (negb _); [by intros [= _ <-]|]. by apply semWait_loop_ok.
Qed.

Lemma semPost_ok (semId : Z) (k : kernel) :
  semaphores_ok k -> semaphores_ok (semPost semId k).2.
Proof.
  intros Hok. unfold semPost.
  destruct (_ || _); [done|]. destruct (negb _); [done|].
  destruct (_ >=? _) eqn:E; tests; [done|]. simpl.
  apply (semaphores_ok_insert k semId (fun s => set_sem_value (sem_value s + 1) s));
    [done|].
  intros s Hs Hsok Hu. unfold semaphore_at in E. rewrite Hs in E.
  simpl in *. specialize (Hsok Hu). lia.
Qed.

Lemma semDestroy_ok (semId : Z) (k : kernel) :
  semaphores_ok k -> semaphores_ok (semDestroy semId k).2.
Proof.
  intros Hok. unfold semDestroy.
  destruct (_ || _); [done|]. destruct (negb _); [done|].
  destruct (_ && _); [done|]. simpl.
  by apply (semaphores_ok_insert k semId (set_sem_inUse false)).
Qed.

Lemma init_semaphores_ok (sdBegin : bool) (t1 t2 t3 : Z) :
  semaphores_ok (init sdBegin t1 t2 t3 static_init).2.
Proof. split; [done|]. simpl. repeat constructor; done. Qed.

(** A semaphore with a positive value is taken at once. *)
Lemma semWait_positive (fuel : nat) (clock : nat -> Z) (semId timeoutMs : Z)
    (k : kernel) :
  0 <= semId < MAX_SEMAPHORES ->
  sem_inUse (semaphore_at k semId) = true ->
  0 < sem_value (semaphore_at k semId) ->
  semWait fuel clock semId timeoutMs k
  = Returns SYS_OK
      (set_semaphores
         (<[Z.to_nat semId :=
              set_sem_value (sem_value (semaphore_at k semId) - 1)
                (semaphore_at k semId)]> (semaphores k)) k).
Proof.
  intros Hid Hu Hv. unfold semWait.
  destruct (_ || _) eqn:E; tests; [lia|]. rewrite Hu. simpl.
  destruct fuel; simpl;
    by destruct (sem_value (semaphore_at k semId) <=? 0) eqn:E'; tests; [lia|].
Qed.

(** C7. The semaphore table starts with no slot in use, and [semCreate],
    [semWait], [semPost] and [semDestroy] keep [0 <= value <= maxValue] in
    every slot in use.  On a slot in use, [semPost] returns [INVALID_PARAM]
    and leaves the kernel as it is when [value = maxValue], and otherwise
    returns [OK] with [value] one higher and every other semaphore
    unchanged. *)
Theorem semaphore_bounds :
  (forall sdBegin t1 t2 t3,
      semaphores_ok (init sdBegin t1 t2 t3 static_init).2)
  /\ (forall k initialValue maxValue name,
        semaphores_ok k ->
        semaphores_ok (semCreate initialValue maxValue name k).2)
  /\ (forall k fuel clock semId timeoutMs r k',
        semaphores_ok k ->
        semWait fuel clock semId timeoutMs k = Returns r k' ->
        semaphores_ok k')
  /\ (forall k semId, semaphores_ok k -> semaphores_ok (semPost semId k).2)
  /\ (forall k semId, semaphores_ok k -> semaphores_ok (semDestroy semId k).2)
  /\ (forall k semId,
        semaphores_ok k -> 0 <= semId < MAX_SEMAPHORES ->
        sem_inUse (semaphore_at k semId) = true ->
        (sem_value (semaphore_at k semId) = sem_maxValue (semaphore_at k semId)
         -> semPost semId k = (SYS_ERR_INVALID_PARAM, k))
        /\ (sem_value (semaphore_at k semId)
            <> sem_maxValue (semaphore_at k semId) ->
            exists k',
              semPost semId k = (SYS_OK, k')
              /\ semaphore_at k' semId
                 = set_sem_value (sem_value (semaphore_at k semId) + 1)
                     (semaphore_at k semId)
              /\ forall j, 0 <= j -> j <> semId ->
                           semaphore_at k' j = semaphore_at k j)).
Proof.
  split; [exact init_semaphores_ok|].
  split; [intros; by apply semCreate_ok|].
  split; [intros; by eapply semWait_ok|].
  split; [intros; by apply semPost_ok|].
  split; [intros; by apply semDestroy_ok|].
  intros k semId [Hlen Hall] Hid Hu. unfold semPost.
  destruct (_ || _) eqn:E; tests; [lia|]. rewrite Hu. simpl. split.
  - intros Heq. by destruct (_ >=? _) eqn:E'; tests; [|lia].
  - intros Hne.
    assert (Hs : semaphores k !! Z.to_nat semId = Some (semaphore_at k semId)).
    { unfold semaphore_at.
      destruct (lookup_lt_is_Some_2 (semaphores k) (Z.to_nat semId)) as [s ->];
        [|done]. rewrite Hlen. unfold MAX_SEMAPHORES in *. lia. }
    pose proof (Forall_lookup_1 _ _ _ _ Hall Hs Hu) as Hb.
    destruct (_ >=? _) eqn:E'; tests; [lia|].
    eexists. split; [done|]. split.
    + unfold semaphore_at at 1. simpl. rewrite list_lookup_insert_eq; [done|].
      by eapply lookup_lt_Some.
    + intros j Hj Hjne. unfold semaphore_at at 1. simpl.
      by rewrite list_lookup_insert_ne by lia.
Qed.

(** ** Capabilities *)

Lemma createTask_capabilities (name : option string) (e : EntryPoint)
    (now : Z) (k : kernel) :
  length (tasks k) = Z.to_nat MAX_TASKS ->
  0 <= (createTask name e now k).1 ->
  default_capabilities
    (task_at (createTask name e now k).2 (createTask name e now k).1).
Proof.
  intros Hlen. unfold createTask.
  destruct (allocateTaskId k <? 0) eqn:E; tests; [done|]. simpl. intros _.
  destruct (allocateTaskId_range k) as [Hr|Hr]; [lia|].
  set (id := allocateTaskId k) in *.
  rewrite (task_at_lookup _ id (fresh_task id name e now (task_at k id))).
  - by repeat split.
  - simpl. apply list_lookup_insert_eq. rewrite Hlen.
    unfold MAX_TASKS in *. lia.
Qed.

Lemma fileOpen_not_permission (hw : Hardware) (path : option string)
    (write : bool) (k : kernel) :
  canAccessSD (getCurrentTask k) = true ->
  (fileOpen hw path write k).1 <> SYS_ERR_PERMISSION
  /\ (sdInitialized k = true -> 0 <= allocateFileHandle k ->
      exists tail,
        trace (fileOpen hw path write k).2
        = trace k ++ SdOpen path write :: tail).
Proof.
  intros Hc. unfold fileOpen. rewrite Hc. simpl. split.
  - destruct (negb (sdInitialized k)); [done|].
    destruct (allocateFileHandle k <? 0) eqn:E; tests; [done|].
    destruct (SD_open hw path write); simpl; [|done].
    unfold SYS_ERR_PERMISSION. lia.
  - intros -> Hh. simpl.
    destruct (allocateFileHandle k <? 0) eqn:E; tests; [lia|].
    destruct (SD_open hw path write); simpl; by exists [].
Qed.

Lemma dirOpen_not_permission (hw : Hardware) (path : option string)
    (k : kernel) :
  canAccessSD (getCurrentTask k) = true ->
  (dirOpen hw path k).1 <> SYS_ERR_PERMISSION
  /\ (sdInitialized k = true -> 0 <= allocateDirHandle k ->
      exists tail,
        trace (dirOpen hw path k).2 = trace k ++ SdOpen path false :: tail).
Proof.
  intros Hc. unfold dirOpen. rewrite Hc. simpl. split.
  - destruct (negb (sdInitialized k)); [done|].
    destruct (allocateDirHandle k <? 0) eqn:E; tests; [done|].
    destruct (SD_open hw path false); simpl; [|done].
    destruct (negb (File_isDirectory _ _)); simpl; [done|].
    unfold SYS_ERR_PERMISSION. lia.
  - intros -> Hh. simpl.
    destruct (allocateDirHandle k <? 0) eqn:E; tests; [lia|].
    destruct (SD_open hw path false); simpl; [|by exists []].
    destruct (negb (File_isDirectory _ _)); simpl.
    + eexists. by rewrite <- app_assoc.
    + by exists [].
Qed.

(** C10. A task made by [createTask] has SD, display and GPIO access and
    neither task creation nor I2C nor SPI access.  While a task with these
    capabilities is the current one, every I2C and SPI operation returns
    [PERMISSION] and leaves the kernel untouched; every GPIO operation
    reaches the pin; [fileOpen] and [dirOpen] never return [PERMISSION]
    and reach the SD library when the card is mounted and a handle is
    free; [fileDelete], [fileExists], [dirCreate] and [dirRemove] reach the
    SD library when the card is mounted; and the operations on a handle
    the task owns are not refused. *)
Theorem default_capabilities_spec :
  (forall (name : option string) (e : EntryPoint) (now : Z) (k : kernel),
      length (tasks k) = Z.to_nat MAX_TASKS ->
      0 <= (createTask name e now k).1 ->
      default_capabilities
        (task_at (createTask name e now k).2 (createTask name e now k).1))
  /\ forall (hw : Hardware) (k : kernel),
      default_capabilities (getCurrentTask k) ->
      (* I2C *)
      (forall a, i2cBegin a k = (SYS_ERR_PERMISSION, k))
      /\ (forall a d n, i2cWrite hw a d n k = (SYS_ERR_PERMISSION, k))
      /\ (forall a b n, i2cRead hw a b n k = (SYS_ERR_PERMISSION, k))
      /\ (forall a n, i2cRequest hw a n k = (SYS_ERR_PERMISSION, k))
      (* SPI *)
      /\ spiBegin k = (SYS_ERR_PERMISSION, k)
      /\ (forall tx rx n, spiTransfer hw tx rx n k = (SYS_ERR_PERMISSION, k))
      /\ spiEnd k = (SYS_ERR_PERMISSION, k)
      (* GPIO *)
      /\ (forall pin mode,
             gpioSetMode pin mode k = (SYS_OK, emit (HwPinMode pin mode) k))
      /\ (forall pin v,
             gpioWrite pin v k = (SYS_OK, emit (HwDigitalWrite pin v) k))
      /\ (forall pin, gpioRead hw pin k = (digitalRead hw pin, k))
      /\ (forall pin, gpioAnalogRead hw pin k = (analogRead hw pin, k))
      /\ (forall pin v,
             gpioAnalogWrite pin v k = (SYS_OK, emit (HwAnalogWrite pin v) k))
      (* files *)
      /\ (forall path w,
             (fileOpen hw path w k).1 <> SYS_ERR_PERMISSION
             /\ (sdInitialized k = true -> 0 <= allocateFileHandle k ->
                 exists tail,
                   trace (fileOpen hw path w k).2
                   = trace k ++ SdOpen path w :: tail))
      /\ (forall path,
             sdInitialized k = true ->
             fileDelete hw path k = (SD_remove hw path, emit (SdRemove path) k)
             /\ fileExists hw path k = (SD_exists hw path, k))
      /\ (forall h,
             owns_file k h ->
             (fileClose h k).1 = SYS_OK
             /\ (forall n, (fileRead hw h n k).1
                           = (File_read hw (fh_file (fileHandle_at k h)) n).1)
             /\ (forall n, fh_canWrite (fileHandle_at k h) = true ->
                           (fileWrite hw h n k).1
                           = s32 (File_write hw (fh_file (fileHandle_at k h)) n))
             /\ fileSize hw h k = File_size hw (fh_file (fileHandle_at k h)))
      (* directories *)
      /\ (forall path,
             (dirOpen hw path k).1 <> SYS_ERR_PERMISSION
             /\ (sdInitialized k = true -> 0 <= allocateDirHandle k ->
                 exists tail,
                   trace (dirOpen hw path k).2
                   = trace k ++ SdOpen path false :: tail))
      /\ (forall path,
             sdInitialized k = true ->
             dirCreate hw path k = (SD_mkdir hw path, emit (SdMkdir path) k)
             /\ dirRemove hw path k = (SD_rmdir hw path, emit (SdRmdir path) k))
      /\ (forall h,
             owns_dir k h ->
             (dirClose h k).1 = SYS_OK
             /\ dirRewind h k
                = emit (HwRewindDirectory (dh_dir (dirHandle_at k h))) k).
Proof.
  split; [exact createTask_capabilities|].
  intros hw k (Hsd & Hdisp & Hgpio & Hcreate & Hi2c & Hspi).
  unfold i2cBegin, i2cWrite, i2cRead, i2cRequest, spiBegin, spiTransfer,
    spiEnd, gpioSetMode, gpioWrite, gpioRead, gpioAnalogRead, gpioAnalogWrite.
  rewrite Hi2c, Hspi, Hgpio. simpl.
  do 12 (split; [done|]).
  split; [intros; by apply fileOpen_not_permission|].
  split.
  { intros path Hm. unfold fileDelete, fileExists. by rewrite Hm, Hsd. }
  split.
  { intros h (Hr & Hu & Ho). unfold fileClose, fileRead, fileWrite, fileSize.
    destruct (_ || _) eqn:E; tests; [lia|]. rewrite Hu, Ho, Z.eqb_refl. simpl.
    split; [done|]. split.
    - intros n. by destruct (File_read _ _ _).
    - split; [|done]. intros n ->. done. }
  split; [intros; by apply dirOpen_not_permission|].
  split.
  { intros path Hm. unfold dirCreate, dirRemove. by rewrite Hm, Hsd. }
  intros h (Hr & Hu & Ho). unfold dirClose, dirRewind.
  destruct (_ || _) eqn:E; tests; [lia|]. by rewrite Hu, Ho, Z.eqb_refl.
Qed.

(** ** System calls *)

(** C3: the dispatcher has no case for six kinds of the enumeration,
    which fall to [default] like the numbers outside the enumeration and
    the display kinds. *)
Theorem syscall_undispatched (hw : Hardware) (fuel : nat) (clock : nat -> Z)
    (arg1 arg2 arg3 arg4 : Arg) (k : kernel) :
  Forall
    (fun type : SyscallType =>
       exists code,
         SyscallType_of_Z code = Some type
         /\ syscall hw fuel clock code arg1 arg2 arg3 arg4 k
            = Returns SYS_ERR_INVALID_CALL k)
    [SYS_MEM_INFO; SYS_TASK_CREATE; SYS_TASK_KILL; SYS_TASK_LIST; SYS_PRINT;
     SYS_DBG_PRINT]
  /\ forall code,
      SyscallType_of_Z code = None ->
      syscall hw fuel clock code arg1 arg2 arg3 arg4 k
      = Returns SYS_ERR_INVALID_CALL k.
Proof.
  split.
  - repeat constructor;
      [by exists 15|by exists 22|by exists 23|by exists 26|by exists 47
      |by exists 48].
  - intros code H. unfold syscall. by rewrite H.
Qed.

(** * Boot and the task table *)

Lemma first_index_least (n : nat) (from : Z) (p : Z -> bool) :
  0 <= from ->
  (first_index n from p = -1
   /\ forall i, from <= i < from + Z.of_nat n -> p i = false)
  \/ (from <= first_index n from p < from + Z.of_nat n
      /\ p (first_index n from p) = true
      /\ forall i, from <= i < first_index n from p -> p i = false).
Proof.
  revert from. induction n as [|n IH]; intros from Hfrom; simpl.
  - left. split; [done|]. intros i Hi. lia.
  - destruct (p from) eqn:E.
    + right. split; [lia|]. split; [done|]. intros i Hi. lia.
    + assert (Hf : 0 <= from + 1) by lia.
      destruct (IH (from + 1) Hf) as [[H1 H2]|(H1 & H2 & H3)].
      * left. split; [done|]. intros i Hi.
        destruct (decide (i = from)) as [->|]; [done|]. apply H2. lia.
      * right. split; [lia|]. split; [done|]. intros i Hi.
        destruct (decide (i = from)) as [->|]; [done|]. apply H3. lia.
Qed.

Lemma task_at_update_task (i j : Z) (f : Task -> Task) (k : kernel) :
  0 <= i -> 0 <= j -> (Z.to_nat i < length (tasks k))%nat ->
  task_at (update_task i f k) j
  = if decide (i = j) then f (task_at k i) else task_at k j.
Proof.
  intros Hi Hj Hlen. unfold task_at at 1. unfold update_task. simpl.
  case_decide as E.
  - subst j. by rewrite list_lookup_insert_eq.
  - rewrite list_lookup_insert_ne by lia. done.
Qed.

Lemma lookup_fmap_replicate {A B : Type} (f : A -> B) (n : nat) (x : A)
    (d : B) (i : nat) :
  default d ((f <$> replicate n x) !! i)
  = if decide (i < n)%nat then f x else d.
Proof.
  rewrite list_lookup_fmap. case_decide as E.
  - by rewrite lookup_replicate_2.
  - rewrite lookup_ge_None_2; [done|]. rewrite length_replicate. lia.
Qed.

(** X1. [init] on the statics as the C++ runtime leaves them: the call
    returns true and a second call changes nothing; afterwards the idle
    task is the only task (slot 0, Ready, priority 0, a null entry point
    and none of the six capabilities), slots 1 to 7 are Empty with id -1,
    the heap is empty, every mailbox is empty, no file handle, directory
    handle or semaphore is in use, and the SD flag is what [SD.begin]
    answered. *)
Theorem init_boot_state (sdBegin : bool) (tIdle tBoot tWatchdog : Z) :
  let k := (init sdBegin tIdle tBoot tWatchdog static_init).2 in
  (init sdBegin tIdle tBoot tWatchdog static_init).1 = true
  /\ (forall sd a b c, init sd a b c k = (true, k))
  /\ tasks_wf k /\ currentTaskId k = 0
  /\ (task_id (task_at k 0) = 0
      /\ task_name (task_at k 0) = Some "idle"%string
      /\ task_state (task_at k 0) = TASK_READY
      /\ task_priority (task_at k 0) = 0
      /\ task_lastYield (task_at k 0) = tIdle
      /\ task_memoryUsed (task_at k 0) = 0
      /\ task_entryPoint (task_at k 0) = None
      /\ canAccessSD (task_at k 0) = false
      /\ canAccessDisplay (task_at k 0) = false
      /\ canCreateTasks (task_at k 0) = false
      /\ canAccessGPIO (task_at k 0) = false
      /\ canAccessI2C (task_at k 0) = false
      /\ canAccessSPI (task_at k 0) = false)
  /\ (forall i, 1 <= i < MAX_TASKS ->
        task_state (task_at k i) = TASK_EMPTY /\ task_id (task_at k i) = -1)
  /\ kernelHeap k = [] /\ heapUsed k = 0
  /\ (forall i, pending (queue_at k i) = [])
  /\ (forall i, fh_inUse (fileHandle_at k i) = false)
  /\ (forall i, dh_inUse (dirHandle_at k i) = false)
  /\ (forall i, sem_inUse (semaphore_at k i) = false)
  /\ sdInitialized k = sdBegin
  /\ bootTime k = tBoot /\ watchdogLastCheck k = tWatchdog
  /\ watchdogEnabled k = true.
Proof.
  intros k. split; [done|]. split; [done|]. split; [by split|].
  split; [done|]. split; [by repeat split|]. split.
  { intros i Hi. unfold MAX_TASKS in Hi.
    assert (i = 1 \/ i = 2 \/ i = 3 \/ i = 4 \/ i = 5 \/ i = 6 \/ i = 7)
      as Hcase by lia.
    destruct Hcase as [->|[->|[->|[->|[->|[->| ->]]]]]]; by split. }
  split; [done|]. split; [done|]. split.
  { intros i. unfold pending, queue_at.
    change (messageQueues k)
      with (init_queue <$> replicate (Z.to_nat MAX_TASKS) zero_queue).
    rewrite lookup_fmap_replicate. by case_decide. }
  split.
  { intros i. unfold fileHandle_at.
    change (fileHandles k)
      with (init_fileHandle
              <$> replicate (Z.to_nat MAX_FILE_HANDLES) zero_fileHandle).
    rewrite lookup_fmap_replicate. by case_decide. }
  split.
  { intros i. unfold dirHandle_at.
    change (dirHandles k)
      with (init_dirHandle
              <$> replicate (Z.to_nat MAX_DIR_HANDLES) zero_dirHandle).
    rewrite lookup_fmap_replicate. by case_decide. }
  split.
  { intros i. unfold semaphore_at.
    change (semaphores k)
      with (init_semaphore
              <$> replicate (Z.to_nat MAX_SEMAPHORES) zero_semaphore).
    rewrite lookup_fmap_replicate. by case_decide. }
  split; [by destruct sdBegin|]. done.
Qed.

(** X2. [createTask] claims the lowest Empty slot among 1 to 7, never slot
    0.  When there is none it returns [SYS_ERR_NO_MEMORY] and the kernel is
    unchanged.  Otherwise the slot holds a Ready task of priority 10 with
    [lastYield = now], no memory charged, no handle flagged and a stack
    trace of depth 1; every other slot, the current task id, the heap, the
    mailboxes and the semaphores are as before, and one line is logged. *)
Theorem createTask_lowest_slot (name : option string) (e : EntryPoint)
    (now : Z) (k : kernel) :
  length (tasks k) = Z.to_nat MAX_TASKS ->
  let id := (createTask name e now k).1 in
  let k' := (createTask name e now k).2 in
  (id = SYS_ERR_NO_MEMORY /\ k' = k
   /\ forall i, 1 <= i < MAX_TASKS -> task_state (task_at k i) <> TASK_EMPTY)
  \/ (1 <= id < MAX_TASKS
      /\ task_state (task_at k id) = TASK_EMPTY
      /\ (forall i, 1 <= i < id -> task_state (task_at k i) <> TASK_EMPTY)
      /\ (task_id (task_at k' id) = id
          /\ task_name (task_at k' id) = name
          /\ task_state (task_at k' id) = TASK_READY
          /\ task_entryPoint (task_at k' id) = e
          /\ task_priority (task_at k' id) = 10
          /\ task_lastYield (task_at k' id) = now
          /\ task_lastRun (task_at k' id) = 0
          /\ task_sleepUntil (task_at k' id) = 0
          /\ task_memoryUsed (task_at k' id) = 0
          /\ task_stackTraceDepth (task_at k' id) = 1
          /\ task_fileHandles (task_at k' id)
             = replicate (Z.to_nat MAX_FILE_HANDLES) false
          /\ task_dirHandles (task_at k' id)
             = replicate (Z.to_nat MAX_DIR_HANDLES) false)
      /\ (forall i, 0 <= i -> i <> id -> task_at k' i = task_at k i)
      /\ currentTaskId k' = currentTaskId k
      /\ kernelHeap k' = kernelHeap k /\ heapUsed k' = heapUsed k
      /\ messageQueues k' = messageQueues k
      /\ semaphores k' = semaphores k
      /\ trace k' = trace k ++ [LogTaskCreated name id]).
Proof.
  intros Hlen id k'. unfold id, k', createTask, allocateTaskId.
  set (p := fun i => TaskState_eqb (task_state (task_at k i)) TASK_EMPTY).
  assert (H1 : 0 <= 1) by lia.
  destruct (first_index_least (Z.to_nat (MAX_TASKS - 1)) 1 p H1)
    as [[Hr Hnone]|(Hr & Hp & Hleast)].
  - left. rewrite Hr. simpl. split; [done|]. split; [done|].
    intros i Hi Hs. unfold MAX_TASKS in *.
    assert (Hi' : 1 <= i < 1 + Z.of_nat (Z.to_nat (8 - 1))) by lia.
    specialize (Hnone i Hi'). unfold p in Hnone. rewrite Hs in Hnone. done.
  - right. set (r := first_index _ _ _) in *.
    assert (Hr8 : 1 <= r < MAX_TASKS) by (unfold MAX_TASKS in *; lia).
    destruct (r <? 0) eqn:E; tests; [lia|]. simpl.
    assert (Hin : (Z.to_nat r < length (tasks k))%nat)
      by (rewrite Hlen; unfold MAX_TASKS in *; lia).
    split; [done|]. split; [by apply TaskState_eqb_eq|]. split.
    { intros i Hi Hs.
      assert (Hi' : 1 <= i < r) by lia.
      specialize (Hleast i Hi'). unfold p in Hleast. rewrite Hs in Hleast.
      done. }
    assert (Hat : task_at (emit (LogTaskCreated name r)
                             (update_task r (fresh_task r name e now) k)) r
                  = fresh_task r name e now (task_at k r)).
    { change (task_at (emit ?ev ?s) r) with (task_at s r).
      rewrite task_at_update_task by lia. by case_decide. }
    split; [by rewrite Hat|]. split; [|done].
    intros i Hi Hne. change (task_at (emit ?ev ?s) i) with (task_at s i).
    rewrite task_at_update_task by lia. by case_decide.
Qed.

(** The effect of [freeFileHandle] on the in-use flags. *)
Lemma freeFileHandle_inUse (i h : Z) (k : kernel) :
  0 <= i < MAX_FILE_HANDLES -> 0 <= h ->
  fh_inUse (fileHandle_at (freeFileHandle i k) h)
  = if decide (h = i) then false else fh_inUse (fileHandle_at k h).
Proof.
  intros Hi Hh. unfold freeFileHandle.
  destruct ((i <? 0) || (i >=? MAX_FILE_HANDLES)) eqn:E; tests; [lia|].
  destruct (fh_inUse (fileHandle_at k i)) eqn:Eu.
  - unfold fileHandle_at at 1. simpl. case_decide as Eh.
    + subst h.
      destruct (decide (Z.to_nat i < length (fileHandles k))%nat).
      * by rewrite list_lookup_insert_eq.
      * rewrite lookup_ge_None_2; [done|]. rewrite length_insert. lia.
    + rewrite list_lookup_insert_ne by lia. done.
  - case_decide as Eh; [by subst h|done].
Qed.

Lemma freeDirHandle_inUse (i h : Z) (k : kernel) :
  0 <= i < MAX_DIR_HANDLES -> 0 <= h ->
  dh_inUse (dirHandle_at (freeDirHandle i k) h)
  = if decide (h = i) then false else dh_inUse (dirHandle_at k h).
Proof.
  intros Hi Hh. unfold freeDirHandle.
  destruct ((i <? 0) || (i >=? MAX_DIR_HANDLES)) eqn:E; tests; [lia|].
  destruct (dh_inUse (dirHandle_at k i)) eqn:Eu.
  - unfold dirHandle_at at 1. simpl. case_decide as Eh.
    + subst h.
      destruct (decide (Z.to_nat i < length (dirHandles k))%nat).
      * by rewrite list_lookup_insert_eq.
      * rewrite lookup_ge_None_2; [done|]. rewrite length_insert. lia.
    + rewrite list_lookup_insert_ne by lia. done.
  - case_decide as Eh; [by subst h|done].
Qed.

Lemma same_but_handles_refl (k : kernel) : same_but_handles k k.
Proof. by repeat split. Qed.

Lemma same_but_handles_trans (k1 k2 k3 : kernel) :
  same_but_handles k1 k2 -> same_but_handles k2 k3 -> same_but_handles k1 k3.
Proof.
  unfold same_but_handles. intros H1 H2.
  destruct H1 as (?&?&?&?&?&?&?&?&?&?&?&?).
  destruct H2 as (?&?&?&?&?&?&?&?&?&?&?&?).
  repeat split; congruence.
Qed.

Lemma freeFileHandle_same (h : Z) (k : kernel) :
  same_but_handles k (freeFileHandle h k)
  /\ dirHandles (freeFileHandle h k) = dirHandles k.
Proof.
  unfold freeFileHandle. destruct (_ || _); [by repeat split|].
  destruct (fh_inUse _); by repeat split.
Qed.

Lemma freeDirHandle_same (h : Z) (k : kernel) :
  same_but_handles k (freeDirHandle h k)
  /\ fileHandles (freeDirHandle h k) = fileHandles k.
Proof.
  unfold freeDirHandle. destruct (_ || _); [by repeat split|].
  destruct (dh_inUse _); by repeat split.
Qed.

(** The loop of [killTask] over the file handles. *)
Lemma killTask_files_loop (flags : list bool) (n : nat) (k : kernel) :
  (Z.of_nat n <= MAX_FILE_HANDLES) ->
  let k1 :=
    for_range 0 n
      (fun i k =>
         if default false (flags !! Z.to_nat i) then freeFileHandle i k else k)
      k in
  same_but_handles k k1 /\ dirHandles k1 = dirHandles k
  /\ forall h, 0 <= h ->
       fh_inUse (fileHandle_at k1 h)
       = if decide (h < Z.of_nat n)
         then fh_inUse (fileHandle_at k h)
              && negb (default false (flags !! Z.to_nat h))
         else fh_inUse (fileHandle_at k h).
Proof.
  induction n as [|n IH]; intros Hn k1.
  - split; [apply same_but_handles_refl|]. split; [done|].
    intros h Hh. case_decide; [lia|done].
  - assert (Hn' : Z.of_nat n <= MAX_FILE_HANDLES) by lia.
    destruct (IH Hn') as (Hs & Hd & Hu). unfold k1. rewrite for_range_S.
    set (k0 := for_range 0 n _ k) in *. rewrite Z.add_0_l, Nat2Z.id.
    destruct (default false (flags !! n)) eqn:Ef.
    + destruct (freeFileHandle_same (Z.of_nat n) k0) as [Hs' Hd'].
      split; [by eapply same_but_handles_trans|]. split; [congruence|].
      intros h Hh. rewrite freeFileHandle_inUse by lia.
      rewrite Hu by done.
      case_decide as E1.
      * subst h. rewrite Nat2Z.id, Ef. case_decide; [|lia].
        by rewrite andb_false_r.
      * repeat case_decide; try lia; done.
    + split; [done|]. split; [done|]. intros h Hh. rewrite Hu by done.
      repeat case_decide; try lia; try done.
      assert (h = Z.of_nat n) as -> by lia.
      by rewrite Nat2Z.id, Ef, andb_true_r.
Qed.

Lemma killTask_dirs_loop (flags : list bool) (n : nat) (k : kernel) :
  (Z.of_nat n <= MAX_DIR_HANDLES) ->
  let k1 :=
    for_range 0 n
      (fun i k =>
         if default false (flags !! Z.to_nat i) then freeDirHandle i k else k)
      k in
  same_but_handles k k1 /\ fileHandles k1 = fileHandles k
  /\ forall h, 0 <= h ->
       dh_inUse (dirHandle_at k1 h)
       = if decide (h < Z.of_nat n)
         then dh_inUse (dirHandle_at k h)
              && negb (default false (flags !! Z.to_nat h))
         else dh_inUse (dirHandle_at k h).
Proof.
  induction n as [|n IH]; intros Hn k1.
  - split; [apply same_but_handles_refl|]. split; [done|].
    intros h Hh. case_decide; [lia|done].
  - assert (Hn' : Z.of_nat n <= MAX_DIR_HANDLES) by lia.
    destruct (IH Hn') as (Hs & Hd & Hu). unfold k1. rewrite for_range_S.
    set (k0 := for_range 0 n _ k) in *. rewrite Z.add_0_l, Nat2Z.id.
    destruct (default false (flags !! n)) eqn:Ef.
    + destruct (freeDirHandle_same (Z.of_nat n) k0) as [Hs' Hd'].
      split; [by eapply same_but_handles_trans|]. split; [congruence|].
      intros h Hh. rewrite freeDirHandle_inUse by lia.
      rewrite Hu by done.
      case_decide as E1.
      * subst h. rewrite Nat2Z.id, Ef. case_decide; [|lia].
        by rewrite andb_false_r.
      * repeat case_decide; try lia; done.
    + split; [done|]. split; [done|]. intros h Hh. rewrite Hu by done.
      repeat case_decide; try lia; try done.
      assert (h = Z.of_nat n) as -> by lia.
      by rewrite Nat2Z.id, Ef, andb_true_r.
Qed.

(** [killTask] on a live task other than the idle task, field by field. *)
Lemma killTask_live (taskId : Z) (task : Task) (k : kernel) :
  taskId <> 0 -> getTask k taskId = Some task ->
  let k' := killTask taskId k in
  tasks k'
  = alter (fun t => set_task_id (-1) (set_task_state TASK_EMPTY t))
      (Z.to_nat taskId) (tasks k)
  /\ same_but_handles (set_tasks (tasks k') k) k'
  /\ (forall h, 0 <= h < MAX_FILE_HANDLES ->
        fh_inUse (fileHandle_at k' h)
        = fh_inUse (fileHandle_at k h)
          && negb (default false (task_fileHandles task !! Z.to_nat h)))
  /\ (forall h, 0 <= h < MAX_DIR_HANDLES ->
        dh_inUse (dirHandle_at k' h)
        = dh_inUse (dirHandle_at k h)
          && negb (default false (task_dirHandles task !! Z.to_nat h))).
Proof.
  intros Hne Hget k'. unfold k', killTask. rewrite Hget.
  destruct (taskId =? 0) eqn:E; tests; [done|].
  assert (H16 : Z.of_nat (Z.to_nat MAX_FILE_HANDLES) <= MAX_FILE_HANDLES)
    by (unfold MAX_FILE_HANDLES; lia).
  assert (H4 : Z.of_nat (Z.to_nat MAX_DIR_HANDLES) <= MAX_DIR_HANDLES)
    by (unfold MAX_DIR_HANDLES; lia).
  pose proof (killTask_files_loop (task_fileHandles task)
                (Z.to_nat MAX_FILE_HANDLES) k H16) as (Hs1 & Hd1 & Hu1).
  set (k1 := for_range 0 (Z.to_nat MAX_FILE_HANDLES) _ k) in *.
  pose proof (killTask_dirs_loop (task_dirHandles task)
                (Z.to_nat MAX_DIR_HANDLES) k1 H4) as (Hs2 & Hd2 & Hu2).
  set (k2 := for_range 0 (Z.to_nat MAX_DIR_HANDLES) _ k1) in *.
  pose proof (same_but_handles_trans _ _ _ Hs1 Hs2) as Hs.
  clearbody k2. clearbody k1.
  destruct Hs as (Ht&?&?&?&?&?&?&?&?&?&?&?).
  split.
  { change (tasks (emit ?ev ?s)) with (tasks s).
    rewrite tasks_update_task. by rewrite Ht. }
  split; [by repeat split|]. split.
  - intros h Hh.
    change (fileHandle_at (emit ?ev (update_task ?i ?f ?s)) h)
      with (fileHandle_at s h).
    unfold fileHandle_at at 1. rewrite Hd2. fold (fileHandle_at k1 h).
    rewrite Hu1 by lia. case_decide; [done|].
    unfold MAX_FILE_HANDLES in *. lia.
  - intros h Hh.
    change (dirHandle_at (emit ?ev (update_task ?i ?f ?s)) h)
      with (dirHandle_at s h).
    rewrite Hu2 by lia. case_decide; [|unfold MAX_DIR_HANDLES in *; lia].
    unfold dirHandle_at. by rewrite Hd1.
Qed.

(** X3. [killTask] does nothing for the idle task, for an id outside the
    table and for an Empty slot.  For a live task it empties the slot
    (state Empty, id -1), closes the files and directories flagged in the
    task's handle tables and leaves everything else alone: the other
    slots, the current task id, the heap with its watermark, the mailboxes
    and the semaphores.  The blocks, the waiting messages and the
    semaphores of the task stay behind. *)
Theorem killTask_spec (taskId : Z) (k : kernel) :
  (taskId = 0 \/ getTask k taskId = None -> killTask taskId k = k)
  /\ (forall task,
        taskId <> 0 -> getTask k taskId = Some task ->
        let k' := killTask taskId k in
        tasks k'
        = alter (fun t => set_task_id (-1) (set_task_state TASK_EMPTY t))
            (Z.to_nat taskId) (tasks k)
        /\ currentTaskId k' = currentTaskId k
        /\ kernelHeap k' = kernelHeap k /\ heapUsed k' = heapUsed k
        /\ messageQueues k' = messageQueues k
        /\ semaphores k' = semaphores k
        /\ (forall h, 0 <= h < MAX_FILE_HANDLES ->
              fh_inUse (fileHandle_at k' h)
              = fh_inUse (fileHandle_at k h)
                && negb (default false (task_fileHandles task !! Z.to_nat h)))
        /\ (forall h, 0 <= h < MAX_DIR_HANDLES ->
              dh_inUse (dirHandle_at k' h)
              = dh_inUse (dirHandle_at k h)
                && negb (default false (task_dirHandles task !! Z.to_nat h)))).
Proof.
  split.
  - intros [->|Hnone]; unfold killTask.
    + by destruct (getTask k 0).
    + by rewrite Hnone.
  - intros task Hne Hget k'.
    destruct (killTask_live taskId task k Hne Hget) as (Ht & Hs & Hf & Hd).
    fold k' in Ht, Hs, Hf, Hd.
    destruct Hs as (_&?&_&?&?&_&?&?&_).
    by repeat split.
Qed.

(** * The scheduler, the sleepers and the watchdog *)

Lemma calls_app (l1 l2 : list Event) : calls (l1 ++ l2) = calls l1 ++ calls l2.
Proof. apply omap_app. Qed.

Lemma sched_frame_refl (k : kernel) : sched_frame k k.
Proof. by repeat split. Qed.

Lemma sched_frame_trans (k1 k2 k3 : kernel) :
  sched_frame k1 k2 -> sched_frame k2 k3 -> sched_frame k1 k3.
Proof.
  unfold sched_frame. intros H1 H2.
  destruct H1 as (?&?&?&?&?&?&?&?&?&?&?).
  destruct H2 as (?&?&?&?&?&?&?&?&?&?&?).
  repeat split; congruence.
Qed.

Lemma checkWatchdog_tasks_cases (now : Z) (k : kernel) :
  length (tasks k) = Z.to_nat MAX_TASKS ->
  tasks (checkWatchdog now k) = tasks k
  \/ tasks (checkWatchdog now k) = watchdog_task now <$> tasks k.
Proof.
  intros Hlen. destruct (watchdogEnabled k) eqn:Ew.
  - destruct (Z_lt_dec (u32 (now - watchdogLastCheck k)) 1000) as [Hlt|Hge].
    + left. rewrite checkWatchdog_idle; [done|by right].
    + right. apply list_eq. intros j.
      rewrite tasks_checkWatchdog_run; [|done|lia].
      rewrite list_lookup_fmap. case_decide; [done|].
      rewrite lookup_ge_None_2 by lia. done.
  - left. rewrite checkWatchdog_idle; [done|by left].
Qed.

Lemma watchdog_body_sched_frame (now i : Z) (k : kernel) :
  sched_frame k (watchdog_body now i k)
  /\ currentTaskId (watchdog_body now i k) = currentTaskId k
  /\ calls (trace (watchdog_body now i k)) = calls (trace k).
Proof.
  unfold watchdog_body.
  repeat match goal with
         | |- context [if ?c then _ else _] => destruct c
         end;
    (split; [by repeat split|]); (split; [done|]); simpl;
    rewrite ?calls_app; simpl; by rewrite ?app_nil_r.
Qed.

Lemma checkWatchdog_sched_frame (now : Z) (k : kernel) :
  sched_frame k (checkWatchdog now k)
  /\ currentTaskId (checkWatchdog now k) = currentTaskId k
  /\ calls (trace (checkWatchdog now k)) = calls (trace k).
Proof.
  unfold checkWatchdog. destruct (negb _); [by repeat split|].
  destruct (_ <? _); [by repeat split|].
  apply (for_range_preserves
           (fun s => sched_frame k s /\ currentTaskId s = currentTaskId k
                     /\ calls (trace s) = calls (trace k))).
  - by repeat split.
  - intros j s (Hf & Hc & Hcalls).
    destruct (watchdog_body_sched_frame now (0 + Z.of_nat j) s)
      as (Hf' & Hc' & Hcalls').
    split; [by eapply sched_frame_trans|]. split; congruence.
Qed.

Lemma switch_execute_frame (now b : Z) (k : kernel) :
  sched_frame k (execute_current (switch_to now b k)).
Proof.
  unfold execute_current, switch_to.
  repeat match goal with
         | |- context [if ?c then _ else _] => destruct c
         | |- context [match ?c with Some _ => _ | None => _ end] => destruct c
         end; by repeat split.
Qed.

(** One call to [schedule()], in full: the slot it selects, and what it
    does when that slot is the current task and when it is not. *)
Lemma schedule_cases (wnow now : Z) (k : kernel) :
  tasks_wf k ->
  let k1 := checkWatchdog wnow k in
  let W := wake now <$> tasks k1 in
  let b := bestTask_of now k1 in
  let k2 := schedule wnow now k in
  is_selected W b /\ 0 <= b < MAX_TASKS /\ sched_frame k k2
  /\ exists tb,
      W !! Z.to_nat b = Some tb
      /\ (b = currentTaskId k1 ->
          currentTaskId k2 = b /\ tasks k2 = W
          /\ trace k2
             = trace k1
               ++ match task_entryPoint tb with
                  | Some e =>
                      if TaskState_eqb (task_state tb) TASK_RUNNING
                      then [Invoke e] else []
                  | None => []
                  end)
      /\ (b <> currentTaskId k1 ->
          currentTaskId k2 = b
          /\ tasks k2
             = <[Z.to_nat b :=
                   set_task_lastRun now (set_task_state TASK_RUNNING tb)]>
                 (alter demote (Z.to_nat (currentTaskId k1)) W)
          /\ trace k2
             = trace k1 ++ match task_entryPoint tb with
                           | Some e => [Invoke e]
                           | None => []
                           end).
Proof.
  intros Hwf k1 W b k2.
  assert (Hwf1 : tasks_wf k1) by by apply checkWatchdog_tasks_wf.
  destruct Hwf1 as [Hlen Hcur].
  destruct (schedule_loop_spec now k1 Hlen) as (b' & p & Hloop & Hsel).
  assert (Hb : b = b') by (unfold b, bestTask_of; by rewrite Hloop).
  subst b'. fold W in Hloop, Hsel.
  assert (Hk2 : k2 = execute_current (switch_to now b (set_tasks W k1))).
  { unfold k2, schedule. fold k1. by rewrite Hloop. }
  assert (Hb0 : 0 <= b < MAX_TASKS).
  { destruct Hsel as [[-> _]|(t & _ & ? & _)]; unfold MAX_TASKS in *; lia. }
  assert (HWb : exists t, W !! Z.to_nat b = Some t).
  { apply lookup_lt_is_Some. unfold W. rewrite length_fmap, Hlen.
    unfold MAX_TASKS in *. lia. }
  destruct HWb as [tb HWb].
  split; [done|]. split; [done|]. split.
  { apply (sched_frame_trans k k1); [apply checkWatchdog_sched_frame|].
    rewrite Hk2.
    apply (sched_frame_trans k1 (set_tasks W k1)); [by repeat split|].
    apply switch_execute_frame. }
  exists tb. split; [done|]. split.
  - intros Heq. rewrite Hk2. unfold switch_to.
    change (currentTaskId (set_tasks W k1)) with (currentTaskId k1).
    rewrite <- Heq, Z.eqb_refl. unfold execute_current, getCurrentTask.
    unfold task_at.
    change (tasks (set_tasks W k1)) with W.
    change (currentTaskId (set_tasks W k1)) with (currentTaskId k1).
    rewrite <- Heq, HWb. simpl.
    destruct (task_entryPoint tb) as [e|];
      [destruct (TaskState_eqb (task_state tb) TASK_RUNNING)|]; simpl;
      by rewrite ?app_nil_r.
  - intros Hne.
    destruct (switch_execute_spec now b (set_tasks W k1) tb (proj1 Hb0)
                (proj1 Hcur) Hne HWb) as (H1 & H2 & H3).
    rewrite <- Hk2 in H1, H2, H3. by simpl in H2, H3.
Qed.

(** What the wake-up and the watchdog do to the state of a task. *)
Lemma wake_state (now : Z) (t : Task) :
  task_priority (wake now t) = task_priority t
  /\ (task_state (wake now t) = task_state t
      \/ (task_state t = TASK_SLEEPING /\ task_state (wake now t) = TASK_READY)).
Proof.
  unfold wake. destruct (TaskState_eqb (task_state t) TASK_SLEEPING) eqn:E.
  - apply TaskState_eqb_eq in E. destruct (now >=? _); simpl; auto.
  - simpl. auto.
Qed.

Lemma watchdog_task_state (now : Z) (t : Task) :
  task_priority (watchdog_task now t) = task_priority t
  /\ (task_state (watchdog_task now t) = task_state t
      \/ (task_state t = TASK_RUNNING
          /\ task_state (watchdog_task now t) = TASK_READY)).
Proof.
  unfold watchdog_task.
  destruct (TaskState_eqb (task_state t) TASK_EMPTY); [auto|].
  destruct (TaskState_eqb (task_state t) TASK_SLEEPING); [auto|].
  destruct (_ >? _); [|auto].
  destruct (TaskState_eqb (task_state t) TASK_RUNNING) eqn:E; simpl; [|auto].
  apply TaskState_eqb_eq in E. auto.
Qed.

Lemma demote_state (t : Task) :
  task_priority (demote t) = task_priority t
  /\ (task_state (demote t) = task_state t /\ task_state t <> TASK_RUNNING
      \/ (task_state t = TASK_RUNNING /\ task_state (demote t) = TASK_READY)).
Proof.
  unfold demote.
  destruct (TaskState_eqb (task_state t) TASK_RUNNING) eqn:E; simpl.
  - apply TaskState_eqb_eq in E. auto.
  - split; [done|]. left. split; [done|]. intros H. rewrite H in E. done.
Qed.

Lemma task_at_0 (k : kernel) :
  tasks_wf k -> tasks k !! 0%nat = Some (task_at k 0).
Proof.
  intros [Hlen _]. unfold task_at. change (Z.to_nat 0) with 0%nat.
  destruct (tasks k !! 0%nat) eqn:E; [done|].
  apply lookup_ge_None in E. rewrite Hlen in E. unfold MAX_TASKS in E. lia.
Qed.

Lemma getCurrentTask_lookup (k : kernel) :
  tasks_wf k ->
  tasks k !! Z.to_nat (currentTaskId k) = Some (getCurrentTask k).
Proof.
  intros [Hlen Hcur]. unfold getCurrentTask, task_at.
  destruct (tasks k !! Z.to_nat (currentTaskId k)) eqn:E; [done|].
  apply lookup_ge_None in E. rewrite Hlen in E. unfold MAX_TASKS in *. lia.
Qed.

(** *** The invariant of the task table *)

Lemma task_inv_fmap (f : Task -> Task) (k k' : kernel) :
  task_inv k -> tasks k' = f <$> tasks k ->
  currentTaskId k' = currentTaskId k ->
  (forall t, task_state (f t) = task_state t
             \/ (task_state (f t) = TASK_READY
                 /\ task_state t <> TASK_EMPTY)) ->
  task_inv k'.
Proof.
  intros (Hwf & H0 & Hall) Ht Hc Hf.
  assert (Hwf' : tasks_wf k').
  { destruct Hwf as [Hlen Hcur]. split; [|by rewrite Hc].
    by rewrite Ht, length_fmap. }
  split; [done|]. split.
  - pose proof (task_at_0 k Hwf) as E0. unfold task_at.
    change (Z.to_nat 0) with 0%nat. rewrite Ht.
    rewrite list_lookup_fmap, E0. simpl.
    destruct (Hf (task_at k 0)) as [->|[-> _]]; done.
  - intros j t' Hj. rewrite Ht, list_lookup_fmap in Hj.
    destruct (tasks k !! j) as [t|] eqn:E; [|done]. injection Hj as <-.
    destruct (Hall j t E) as (Hr & Hb & Hz). rewrite Hc.
    destruct (Hf t) as [->|[-> _]]; [done|]. by repeat split.
Qed.

Lemma task_inv_alter (f : Task -> Task) (i : nat) (k k' : kernel) :
  task_inv k -> tasks k' = alter f i (tasks k) ->
  currentTaskId k' = currentTaskId k ->
  (forall t, tasks k !! i = Some t ->
             (task_state (f t) = TASK_RUNNING -> task_state t = TASK_RUNNING)
             /\ task_state (f t) <> TASK_BLOCKED
             /\ task_state (f t) <> TASK_ZOMBIE
             /\ (i = 0%nat -> task_state (f t) <> TASK_EMPTY)) ->
  task_inv k'.
Proof.
  intros (Hwf & H0 & Hall) Ht Hc Hf.
  assert (Hwf' : tasks_wf k').
  { destruct Hwf as [Hlen Hcur]. split; [|by rewrite Hc].
    by rewrite Ht, length_alter. }
  split; [done|]. split.
  - pose proof (task_at_0 k Hwf) as E0. unfold task_at.
    change (Z.to_nat 0) with 0%nat. rewrite Ht.
    destruct (decide (i = 0%nat)) as [->|Hi].
    + rewrite list_lookup_alter_eq, E0. simpl. by apply (Hf _ E0).
    + rewrite list_lookup_alter_ne, E0 by done. done.
  - intros j t' Hj. rewrite Ht in Hj. rewrite Hc.
    destruct (decide (i = j)) as [->|Hi].
    + rewrite list_lookup_alter_eq in Hj.
      destruct (tasks k !! j) as [t|] eqn:E; [|done]. injection Hj as <-.
      destruct (Hall j t E) as (Hr & Hb & Hz).
      destruct (Hf t eq_refl) as (Hr' & Hb' & Hz' & _).
      split; [|done]. intros H. apply Hr. by apply Hr'.
    + rewrite list_lookup_alter_ne in Hj by done. by apply Hall.
Qed.

Lemma task_inv_switch (now b : Z) (tb : Task) (k k' : kernel) :
  task_inv k -> 0 <= b < MAX_TASKS -> b <> currentTaskId k ->
  tasks k'
  = <[Z.to_nat b := set_task_lastRun now (set_task_state TASK_RUNNING tb)]>
      (alter demote (Z.to_nat (currentTaskId k)) (tasks k)) ->
  currentTaskId k' = b ->
  task_inv k'.
Proof.
  intros (Hwf & H0 & Hall) Hb Hne Ht Hc.
  destruct Hwf as [Hlen Hcur].
  assert (Hwf' : tasks_wf k').
  { split; [|by rewrite Hc].
    by rewrite Ht, length_insert, length_alter. }
  assert (Hlookup : forall j t',
             tasks k' !! j = Some t' ->
             (j = Z.to_nat b /\ task_state t' = TASK_RUNNING)
             \/ (j <> Z.to_nat b /\ task_state t' <> TASK_RUNNING
                 /\ exists t, tasks k !! j = Some t
                              /\ (task_state t' = task_state t
                                  \/ task_state t' = TASK_READY
                                     /\ task_state t = TASK_RUNNING))).
  { intros j t' Hj. rewrite Ht in Hj.
    destruct (decide (Z.to_nat b = j)) as [<-|Hbj].
    - left. split; [done|].
      rewrite list_lookup_insert_eq in Hj; [by injection Hj as <-|].
      rewrite length_alter, Hlen. unfold MAX_TASKS in *. lia.
    - right. split; [done|]. rewrite list_lookup_insert_ne in Hj by done.
      destruct (decide (Z.to_nat (currentTaskId k) = j)) as [<-|Hcj].
      + rewrite list_lookup_alter_eq in Hj.
        destruct (tasks k !! _) as [t|] eqn:E; [|done]. injection Hj as <-.
        destruct (demote_state t) as [_ [[H1 H2]|[H1 H2]]].
        * split; [by rewrite H1|]. exists t. auto.
        * split; [by rewrite H2|]. exists t. auto.
      + rewrite list_lookup_alter_ne in Hj by done.
        destruct (Hall j t' Hj) as (Hr & _).
        split; [|exists t'; auto]. intros H. apply Hr in H. lia. }
  split; [done|]. split.
  - pose proof (task_at_0 k' Hwf') as E0.
    destruct (Hlookup _ _ E0) as [[_ H]|(_ & _ & t & Ht0 & H)].
    + by rewrite H.
    + pose proof (task_at_0 k (conj Hlen Hcur)) as E. rewrite E in Ht0.
      injection Ht0 as <-. destruct H as [->|[-> _]]; done.
  - intros j t' Hj. rewrite Hc.
    destruct (Hlookup j t' Hj) as [[-> H]|(Hj' & Hnr & t & Ht0 & H)].
    + rewrite H. split; [lia|done].
    + destruct (Hall j t Ht0) as (_ & Hb' & Hz').
      split; [done|]. destruct H as [->|[-> _]]; done.
Qed.

Lemma wake_calm (now : Z) (t : Task) :
  task_state (wake now t) = task_state t
  \/ (task_state (wake now t) = TASK_READY /\ task_state t <> TASK_EMPTY).
Proof.
  destruct (wake_state now t) as [_ [H|[H1 H2]]]; [by left|right].
  by rewrite H1, H2.
Qed.

Lemma watchdog_task_calm (now : Z) (t : Task) :
  task_state (watchdog_task now t) = task_state t
  \/ (task_state (watchdog_task now t) = TASK_READY
      /\ task_state t <> TASK_EMPTY).
Proof.
  destruct (watchdog_task_state now t) as [_ [H|[H1 H2]]]; [by left|right].
  by rewrite H1, H2.
Qed.

Lemma checkWatchdog_task_inv (now : Z) (k : kernel) :
  task_inv k -> task_inv (checkWatchdog now k).
Proof.
  intros Hinv. pose proof Hinv as ([Hlen _] & _).
  destruct (checkWatchdog_sched_frame now k) as (_ & Hc & _).
  destruct (checkWatchdog_tasks_cases now k Hlen) as [Ht|Ht].
  - apply (task_inv_fmap id k); [done|by rewrite list_fmap_id|done|].
    intros t. by left.
  - apply (task_inv_fmap (watchdog_task now) k); [done..|].
    apply watchdog_task_calm.
Qed.

Lemma schedule_task_inv (wnow now : Z) (k : kernel) :
  task_inv k -> task_inv (schedule wnow now k).
Proof.
  intros Hinv. pose proof Hinv as (Hwf & _).
  destruct (schedule_cases wnow now k Hwf)
    as (_ & Hb & _ & tb & HWb & Hsame & Hswitch).
  pose proof (checkWatchdog_task_inv wnow k Hinv) as Hinv1.
  set (k1 := checkWatchdog wnow k) in *.
  set (W := wake now <$> tasks k1) in *.
  assert (HinvW : task_inv (set_tasks W k1)).
  { apply (task_inv_fmap (wake now) k1); [done..|]. apply wake_calm. }
  destruct (decide (bestTask_of now k1 = currentTaskId k1)) as [Heq|Hne].
  - destruct (Hsame Heq) as (Hc & Ht & _).
    apply (task_inv_fmap id (set_tasks W k1));
      [done|by rewrite list_fmap_id|by rewrite Hc, Heq|].
    intros t. by left.
  - destruct (Hswitch Hne) as (Hc & Ht & _).
    by apply (task_inv_switch now (bestTask_of now k1) tb (set_tasks W k1)).
Qed.

Lemma update_current_task_inv (f : Task -> Task) (k : kernel) :
  task_inv k ->
  (forall t, task_state (f t) = task_state t
             \/ task_state (f t) = TASK_READY
             \/ task_state (f t) = TASK_SLEEPING) ->
  task_inv (update_task (currentTaskId k) f k).
Proof.
  intros Hinv Hf.
  apply (task_inv_alter f (Z.to_nat (currentTaskId k)) k);
    [done|apply tasks_update_task|done|].
  intros t Ht. destruct Hinv as (Hwf & H0 & Hall).
  destruct (Hall _ _ Ht) as (_ & Hb & Hz).
  assert (Hne : Z.to_nat (currentTaskId k) = 0%nat ->
                task_state t <> TASK_EMPTY).
  { intros E. pose proof (task_at_0 k Hwf) as E0. rewrite E in Ht.
    rewrite E0 in Ht. by injection Ht as <-. }
  destruct (Hf t) as [->|[->| ->]]; repeat split; try done.
Qed.

Lemma createTask_task_inv (name : option string) (e : EntryPoint) (now : Z)
    (k : kernel) :
  task_inv k -> task_inv (createTask name e now k).2.
Proof.
  intros Hinv. unfold createTask.
  destruct (allocateTaskId k <? 0) eqn:E; tests; [done|].
  destruct (allocateTaskId_range k) as [Hr|Hr]; [lia|].
  apply (task_inv_alter (fresh_task (allocateTaskId k) name e now)
           (Z.to_nat (allocateTaskId k)) k);
    [done|apply tasks_update_task|done|].
  intros t _. by repeat split.
Qed.

Lemma killTask_task_inv (taskId : Z) (k : kernel) :
  task_inv k -> task_inv (killTask taskId k).
Proof.
  intros Hinv.
  destruct (getTask k taskId) as [task|] eqn:Hget.
  - destruct (decide (taskId = 0)) as [->|Hne].
    + unfold killTask. by rewrite Hget.
    + destruct (killTask_live taskId task k Hne Hget) as (Ht & Hs & _).
      destruct Hs as (_ & Hc & _).
      apply (task_inv_alter
               (fun t => set_task_id (-1) (set_task_state TASK_EMPTY t))
               (Z.to_nat taskId) k); [done|exact Ht|done|].
      intros t _. repeat split; try done. intros E0 _. revert E0.
      unfold getTask in Hget.
      destruct ((taskId <? 0) || (taskId >=? MAX_TASKS)) eqn:E; [done|].
      tests. lia.
  - unfold killTask. by rewrite Hget.
Qed.

Lemma apply_task_op_inv (op : task_op) (k : kernel) :
  task_inv k -> task_inv (apply_task_op op k).
Proof.
  intros Hinv. destruct op; simpl.
  - by apply schedule_task_inv.
  - apply update_current_task_inv; [done|]. intros t. auto.
  - apply update_current_task_inv; [done|]. intros t. auto.
  - apply update_current_task_inv; [done|]. intros t. auto.
  - apply (task_inv_fmap id k); [done|by rewrite list_fmap_id|done|].
    intros t. by left.
  - by apply createTask_task_inv.
  - by apply killTask_task_inv.
Qed.

(** X4. An invariant of the task table.  From a state in which the table
    is whole, the idle slot is not Empty, only the current task may be
    Running and no task is Blocked or a Zombie, any sequence of calls to
    [schedule], [yield], [sleep], [feedWatchdog], [enableWatchdog],
    [createTask] and [killTask] leads to such a state again: the idle
    task cannot be removed, at most one task is Running and it is the
    current one, and the states Blocked and Zombie are never used. *)
Theorem task_inv_preserved (ops : list task_op) (k : kernel) :
  task_inv k -> task_inv (run_tasks ops k).
Proof.
  revert k. induction ops as [|op ops IH]; intros k Hinv; [done|].
  simpl. apply IH. by apply apply_task_op_inv.
Qed.

(** When the slot that [schedule()] selects is the current task,
    nothing is switched: the current task id stays, the task table is the
    one left by the watchdog check and the wake-ups, and the entry point
    of the current task is called only if the task is still Running.  A
    task that yielded (it is Ready) and is selected again is therefore
    neither marked Running nor called.  Heap, handles, mailboxes and
    semaphores are not touched by [schedule()]. *)
Lemma schedule_keeps_current (wnow now : Z) (k : kernel) :
  tasks_wf k ->
  let k1 := checkWatchdog wnow k in
  let k2 := schedule wnow now k in
  bestTask_of now k1 = currentTaskId k1 ->
  currentTaskId k2 = currentTaskId k
  /\ tasks k2 = wake now <$> tasks k1
  /\ sched_frame k k2
  /\ exists t,
      tasks k2 !! Z.to_nat (currentTaskId k) = Some t
      /\ trace k2
         = trace k1
           ++ match task_entryPoint t with
              | Some e =>
                  if TaskState_eqb (task_state t) TASK_RUNNING
                  then [Invoke e] else []
              | None => []
              end
      /\ (task_state t = TASK_READY -> trace k2 = trace k1).
Proof.
  intros Hwf k1 k2 Heq.
  destruct (schedule_cases wnow now k Hwf)
    as (_ & _ & Hframe & tb & HWb & Hsame & _).
  destruct (Hsame Heq) as (Hc & Ht & Htr).
  destruct (checkWatchdog_sched_frame wnow k) as (_ & Hc1 & _).
  fold k1 in Hc1, HWb, Ht, Htr, Hc. fold k2 in Hc, Ht, Htr, Hframe.
  split; [congruence|]. split; [done|]. split; [done|].
  exists tb. split; [by rewrite Ht, <- Hc1, <- Heq|]. split; [done|].
  intros Hs. rewrite Htr, Hs. destruct (task_entryPoint tb); simpl;
    by rewrite app_nil_r.
Qed.

(** *** Starvation *)

Lemma starved_fmap (f : Task -> Task) (k k' : kernel) :
  starved k -> tasks k' = f <$> tasks k ->
  currentTaskId k' = currentTaskId k ->
  (forall t, task_priority (f t) = task_priority t
             /\ (task_state t <> TASK_RUNNING ->
                 task_state t <> TASK_SLEEPING ->
                 task_state (f t) = task_state t)) ->
  starved k'.
Proof.
  intros (Hwf & Hs & Hp & Hall) Ht Hc Hf.
  assert (Hwf' : tasks_wf k').
  { destruct Hwf as [Hlen Hcur]. split; [|by rewrite Hc].
    by rewrite Ht, length_fmap. }
  assert (Hcur' : getCurrentTask k' = f (getCurrentTask k)).
  { unfold getCurrentTask at 1. apply task_at_lookup.
    rewrite Ht, Hc, list_lookup_fmap, (getCurrentTask_lookup k Hwf). done. }
  destruct (Hf (getCurrentTask k)) as [Hfp Hfs].
  split; [done|]. rewrite Hcur', Hfp. split.
  { rewrite Hfs; [done|by rewrite Hs..]. }
  split; [done|].
  intros j t' Hj Hne. rewrite Ht, list_lookup_fmap in Hj.
  destruct (tasks k !! j) as [t|] eqn:E; [|done]. injection Hj as <-.
  rewrite Hc in Hne. destruct (Hall j t E Hne) as (H1 & H2 & H3).
  destruct (Hf t) as [Hp' Hs']. rewrite Hp', Hs' by done. rewrite Hc.
  by repeat split.
Qed.

Lemma starved_selected (k : kernel) (b : Z) :
  starved k -> is_selected (tasks k) b -> b = currentTaskId k.
Proof.
  intros (Hwf & Hs & Hp & Hall) Hsel.
  pose proof (getCurrentTask_lookup k Hwf) as Hc.
  destruct Hwf as [Hlen Hcur].
  assert (Hready : ready_at (tasks k) (Z.to_nat (currentTaskId k))
                     (getCurrentTask k)) by (repeat split; [done..|lia]).
  assert (Hlt : (Z.to_nat (currentTaskId k) < Z.to_nat MAX_TASKS)%nat)
    by (unfold MAX_TASKS in *; lia).
  destruct Hsel as [[_ Hnone]|(t & Hr & Hb & Hmax)].
  - exfalso. exact (Hnone _ _ Hlt Hready).
  - destruct (Hmax _ _ Hlt Hready) as [Hle Heq].
    destruct (decide (b = currentTaskId k)) as [|Hne]; [done|exfalso].
    destruct Hr as (Hlk & Hst & _).
    assert (Hne' : Z.of_nat (Z.to_nat b) <> currentTaskId k) by lia.
    destruct (Hall _ _ Hlk Hne') as (_ & _ & Hlow).
    destruct (Hlow Hst) as [Hlow'|[Hsame Hgt]]; [lia|].
    specialize (Heq (eq_sym Hsame)). lia.
Qed.

Lemma schedule_starved (wnow now : Z) (k : kernel) :
  starved k ->
  starved (schedule wnow now k)
  /\ currentTaskId (schedule wnow now k) = currentTaskId k
  /\ calls (trace (schedule wnow now k)) = calls (trace k).
Proof.
  intros Hst. pose proof Hst as (Hwf & _).
  destruct (schedule_cases wnow now k Hwf)
    as (Hsel & _ & _ & tb & HWb & Hsame & _).
  destruct (checkWatchdog_sched_frame wnow k) as (_ & Hc1 & Hcalls1).
  set (k1 := checkWatchdog wnow k) in *.
  set (W := wake now <$> tasks k1) in *.
  assert (Hst1 : starved k1).
  { destruct (checkWatchdog_tasks_cases wnow k (proj1 Hwf)) as [Ht|Ht].
    - apply (starved_fmap id k); [done|by rewrite list_fmap_id|done|].
      by intros t.
    - apply (starved_fmap (watchdog_task wnow) k); [done..|].
      intros t. destruct (watchdog_task_state wnow t) as [Hp [H|[H _]]];
        by split. }
  assert (HstW : starved (set_tasks W k1)).
  { apply (starved_fmap (wake now) k1); [done..|].
    intros t. destruct (wake_state now t) as [Hp [H|[H _]]]; by split. }
  pose proof (starved_selected (set_tasks W k1) _ HstW Hsel) as Hb.
  change (currentTaskId (set_tasks W k1)) with (currentTaskId k1) in Hb.
  destruct (Hsame Hb) as (Hc & Ht & Htr).
  assert (Htb : tb = getCurrentTask (set_tasks W k1)).
  { symmetry. apply task_at_lookup. simpl.
    change (currentTaskId (set_tasks W k1)) with (currentTaskId k1).
    by rewrite <- Hb. }
  assert (Hready : task_state tb = TASK_READY)
    by (rewrite Htb; apply HstW).
  split; [|split].
  - apply (starved_fmap id (set_tasks W k1));
      [done|by rewrite list_fmap_id|by rewrite Hc, Hb|]. by intros t.
  - congruence.
  - rewrite Htr, Hready. destruct (task_entryPoint tb); simpl;
      by rewrite app_nil_r.
Qed.

(** X5. Starvation.  When the current task is Ready and no other task can
    be preferred to it (every other slot is neither Sleeping nor Running
    and, if Ready, has a lower priority, or the same priority and a higher
    slot number), [schedule()] selects the current task again and again,
    never marks it Running and never calls an entry point: whatever the
    clock readings and however often [schedule()] is called, the list of
    entry points called so far does not grow.  This is the state that a
    lone task is in after its first [yield()]. *)
Theorem schedule_starves (clocks : list (Z * Z)) (k : kernel) :
  starved k ->
  starved (schedule_times clocks k)
  /\ currentTaskId (schedule_times clocks k) = currentTaskId k
  /\ calls (trace (schedule_times clocks k)) = calls (trace k).
Proof.
  revert k. induction clocks as [|[wnow now] clocks IH]; intros k Hst;
    [done|].
  destruct (schedule_starved wnow now k Hst) as (Hst' & Hc & Hcalls).
  destruct (IH _ Hst') as (H1 & H2 & H3). simpl.
  split; [done|]. split; congruence.
Qed.

(** *** Sleepers *)

Lemma checkWatchdog_sleeper (wnow : Z) (k : kernel) (j : nat) (t : Task) :
  tasks_wf k -> tasks k !! j = Some t -> task_state t = TASK_SLEEPING ->
  tasks (checkWatchdog wnow k) !! j = Some t.
Proof.
  intros [Hlen _] Hj Hs.
  destruct (checkWatchdog_tasks_cases wnow k Hlen) as [->| ->]; [done|].
  rewrite list_lookup_fmap, Hj. simpl. f_equal.
  unfold watchdog_task. by rewrite Hs.
Qed.

(** X6. [schedule()] does not wake a sleeper early.  A task other than
    the idle task that is Sleeping with [sleepUntil] still ahead of the
    scheduler's clock is left exactly as it is: it is not woken, not
    selected, and the watchdog does not touch it. *)
Theorem sleeper_not_woken_early (wnow now : Z) (k : kernel) (j : nat)
    (t : Task) :
  tasks_wf k -> tasks k !! j = Some t -> j <> 0%nat ->
  task_state t = TASK_SLEEPING -> now < task_sleepUntil t ->
  tasks (schedule wnow now k) !! j = Some t
  /\ currentTaskId (schedule wnow now k) <> Z.of_nat j.
Proof.
  intros Hwf Hj Hj0 Hs Hearly.
  destruct (schedule_cases wnow now k Hwf)
    as (Hsel & Hb & _ & tb & HWb & Hsame & Hswitch).
  pose proof (checkWatchdog_sleeper wnow k j t Hwf Hj Hs) as Hj1.
  set (k1 := checkWatchdog wnow k) in *.
  set (W := wake now <$> tasks k1) in *.
  assert (Hw : wake now t = t).
  { unfold wake. rewrite Hs. simpl.
    destruct (now >=? task_sleepUntil t) eqn:E; tests; [lia|done]. }
  assert (HWj : W !! j = Some t).
  { unfold W. rewrite list_lookup_fmap, Hj1. simpl. by rewrite Hw. }
  assert (Hbj : Z.to_nat (bestTask_of now k1) <> j).
  { intros <-. destruct Hsel as [[Hb0 _]|(t' & (Hlk & Hst & _) & _)].
    - rewrite Hb0 in Hj0. done.
    - rewrite HWj in Hlk. injection Hlk as <-. by rewrite Hs in Hst. }
  destruct (decide (bestTask_of now k1 = currentTaskId k1)) as [Heq|Hne].
  - destruct (Hsame Heq) as (Hc & Ht & _). rewrite Ht, Hc.
    split; [done|lia].
  - destruct (Hswitch Hne) as (Hc & Ht & _). rewrite Ht, Hc.
    split; [|lia]. rewrite list_lookup_insert_ne by done.
    destruct (decide (Z.to_nat (currentTaskId k1) = j)) as [<-|Hcj].
    + rewrite list_lookup_alter_eq, HWj. simpl. f_equal.
      unfold demote. by rewrite Hs.
    + by rewrite list_lookup_alter_ne.
Qed.

Lemma schedule_wakes_due (wnow now : Z) (k : kernel) (j : nat) (t : Task) :
  tasks_wf k -> tasks k !! j = Some t ->
  task_state t = TASK_SLEEPING -> task_sleepUntil t <= now ->
  exists t', tasks (schedule wnow now k) !! j = Some t'
             /\ (task_state t' = TASK_READY \/ task_state t' = TASK_RUNNING).
Proof.
  intros Hwf Hj Hs Hdue.
  destruct (schedule_cases wnow now k Hwf)
    as (Hsel & Hb & _ & tb & HWb & Hsame & Hswitch).
  pose proof (checkWatchdog_sleeper wnow k j t Hwf Hj Hs) as Hj1.
  set (k1 := checkWatchdog wnow k) in *.
  set (W := wake now <$> tasks k1) in *.
  assert (HWj : W !! j = Some (wake now t))
    by (unfold W; by rewrite list_lookup_fmap, Hj1).
  pose proof (wake_due now t Hs Hdue) as Hr.
  destruct (decide (bestTask_of now k1 = currentTaskId k1)) as [Heq|Hne].
  - destruct (Hsame Heq) as (Hc & Ht & _). rewrite Ht.
    exists (wake now t). by split; [|left].
  - destruct (Hswitch Hne) as (Hc & Ht & _). rewrite Ht.
    destruct (decide (Z.to_nat (bestTask_of now k1) = j)) as [<-|Hbj].
    + exists (set_task_lastRun now (set_task_state TASK_RUNNING tb)).
      split; [|by right]. apply list_lookup_insert_eq.
      rewrite length_alter. by eapply lookup_lt_Some.
    + rewrite list_lookup_insert_ne by done.
      destruct (decide (Z.to_nat (currentTaskId k1) = j)) as [<-|Hcj].
      * rewrite list_lookup_alter_eq, HWj. simpl.
        exists (demote (wake now t)). split; [done|]. left.
        unfold demote. by rewrite Hr.
      * rewrite list_lookup_alter_ne, HWj by done.
        exists (wake now t). by split; [|left].
Qed.

(** X7. A sleep across the wrap-around of [millis()] does not sleep.
    [sleepUntil] is [millis() + ms] on 32 bits and the scheduler compares
    it with [now >= sleepUntil]: when [now1 + ms] reaches 2^32 the stored
    deadline is [now1 + ms - 2^32], which lies before [now1], and the
    first [schedule()] at or after [now1] makes the task Ready (or
    Running) again at once. *)
Theorem sleep_wraps_around (ms now1 now2 wnow now : Z) (k : kernel) :
  tasks_wf k ->
  0 <= now1 < 2 ^ 32 -> 0 <= ms < 2 ^ 32 -> 2 ^ 32 <= now1 + ms ->
  now1 <= now ->
  let ks := sleep ms now1 now2 k in
  task_state (getCurrentTask ks) = TASK_SLEEPING
  /\ task_sleepUntil (getCurrentTask ks) = now1 + ms - 2 ^ 32
  /\ task_sleepUntil (getCurrentTask ks) < now1
  /\ exists t',
      tasks (schedule wnow now ks) !! Z.to_nat (currentTaskId k) = Some t'
      /\ (task_state t' = TASK_READY \/ task_state t' = TASK_RUNNING).
Proof.
  intros Hwf Hnow1 Hms Hwrap Hnow ks.
  pose proof (getCurrentTask_lookup k Hwf) as Hc.
  set (f := fun t => set_task_lastYield now2
                       (set_task_sleepUntil (u32 (now1 + ms))
                          (set_task_state TASK_SLEEPING t))).
  assert (Hwfs : tasks_wf ks) by (by apply tasks_wf_update_task).
  assert (Hts : tasks ks !! Z.to_nat (currentTaskId k)
                = Some (f (getCurrentTask k))).
  { unfold ks, sleep. rewrite tasks_update_task, list_lookup_alter_eq, Hc.
    done. }
  assert (Hcs : getCurrentTask ks = f (getCurrentTask k)).
  { unfold getCurrentTask at 1. by apply task_at_lookup. }
  assert (Hu : u32 (now1 + ms) = now1 + ms - 2 ^ 32).
  { unfold u32. symmetry. apply (Z.mod_unique _ _ 1); lia. }
  rewrite Hcs. simpl. rewrite Hu.
  split; [done|]. split; [done|]. split; [lia|].
  apply (schedule_wakes_due wnow now ks _ (f (getCurrentTask k)));
    [done|done|done|]. simpl. rewrite Hu. lia.
Qed.

(** *** The watchdog and the task that feeds it *)

(** With the watchdog switched off [checkWatchdog] does nothing.
    With it on, a current task that called [feedWatchdog] at time [y] is
    not forced by a check made at most [WATCHDOG_TIMEOUT_MS] later: after
    the check its slot holds the task with [lastYield = y] and its state
    unchanged.  The check never changes which task is current and calls
    no entry point. *)
Lemma watchdog_spares_fed_task (y now : Z) (k : kernel) :
  tasks_wf k -> u32 (now - y) <= WATCHDOG_TIMEOUT_MS ->
  let k1 := checkWatchdog now (feedWatchdog y k) in
  task_at k1 (currentTaskId k) = set_task_lastYield y (getCurrentTask k)
  /\ currentTaskId k1 = currentTaskId k
  /\ calls (trace k1) = calls (trace k)
  /\ checkWatchdog now (enableWatchdog false k) = enableWatchdog false k.
Proof.
  intros Hwf Hfed k1.
  pose proof (getCurrentTask_lookup k Hwf) as Hc.
  set (kf := feedWatchdog y k).
  assert (Hwff : tasks_wf kf) by (by apply tasks_wf_update_task).
  assert (Htf : tasks kf !! Z.to_nat (currentTaskId k)
                = Some (set_task_lastYield y (getCurrentTask k))).
  { unfold kf, feedWatchdog.
    rewrite tasks_update_task, list_lookup_alter_eq, Hc. done. }
  destruct (checkWatchdog_sched_frame now kf) as (_ & Hc1 & Hcalls).
  split; [|split; [done|split; [done|]]].
  - apply task_at_lookup.
    destruct (checkWatchdog_tasks_cases now kf (proj1 Hwff)) as [Ht|Ht];
      unfold k1; fold kf; rewrite Ht; [done|].
    rewrite list_lookup_fmap, Htf. simpl. f_equal.
    unfold watchdog_task. simpl.
    destruct (TaskState_eqb _ TASK_EMPTY); [done|].
    destruct (TaskState_eqb _ TASK_SLEEPING); [done|].
    destruct (u32 (now - y) >? WATCHDOG_TIMEOUT_MS) eqn:E; tests; [lia|done].
  - apply checkWatchdog_idle. by left.
Qed.

(** * The heap: free, compaction, exhaustion *)

Lemma Forall_inUse_live (l : list MemoryBlock) :
  Forall (fun b => blk_inUse b = true) (live l).
Proof.
  induction l as [|b l IH]; [by apply List.Forall_nil|].
  rewrite live_cons. destruct (blk_inUse b) eqn:E; [|done].
  by apply List.Forall_cons.
Qed.

Lemma live_app (l1 l2 : list MemoryBlock) :
  live (l1 ++ l2) = live l1 ++ live l2.
Proof. unfold live. apply filter_app. Qed.

Lemma live_live (l : list MemoryBlock) : live (live l) = live l.
Proof. apply live_all, Forall_inUse_live. Qed.

(** On a linear heap without free blocks the sweep moves nothing. *)
Lemma compact_sweep_all_live (used : Z) (blocks : list MemoryBlock) :
  target_ok -> used <= KERNEL_HEAP_SIZE ->
  forall (pos moved : Z) (kept : list MemoryBlock),
    Forall (fun b => 0 <= blk_size b) blocks ->
    Forall (fun b => blk_inUse b = true) blocks ->
    pos + heap_total blocks = used -> 0 <= pos ->
    compact_sweep used blocks pos pos moved kept
    = inl (used, moved, kept ++ blocks).
Proof.
  intros Hok Hused. pose proof Hok as (Hh & Hk & Hfit).
  induction blocks as [|b rest IH]; intros pos moved kept Hf Hu Hr Hp.
  - change (heap_total []) with 0 in Hr. simpl.
    destruct (pos <? used) eqn:E; tests; [lia|].
    rewrite app_nil_r. do 2 f_equal. f_equal. lia.
  - apply Forall_cons in Hf as [Hb Hrest]. apply Forall_cons in Hu as [Hub Hu].
    pose proof (heap_total_nonneg rest Hok Hrest) as Hnn.
    rewrite heap_total_cons in Hr. cbn [compact_sweep].
    destruct (pos <? used) eqn:E; tests; [|lia].
    assert (Htot : blockTotalSize b = sizeof_MemoryBlock + blk_size b)
      by (unfold blockTotalSize; apply u32_small; lia).
    rewrite Htot, Hub, Z.eqb_refl. cbn [andb negb].
    rewrite (u32_small (pos + _)) by lia.
    destruct (_ || _) eqn:Ec; tests; [lia|].
    rewrite (IH (pos + (sizeof_MemoryBlock + blk_size b)) moved (kept ++ [b])
               Hrest Hu) by lia.
    by rewrite <- app_assoc.
Qed.

Lemma compactMemory_all_live (k : kernel) :
  target_ok -> heap_wf k ->
  Forall (fun b => blk_inUse b = true) (kernelHeap k) ->
  compactMemory k = Returns tt (emit (LogCompacted 0 0) (emit LogCompacting k)).
Proof.
  intros Hok (Hu & Hle & Hf) Hall. unfold compactMemory.
  change (heapUsed (emit LogCompacting k)) with (heapUsed k).
  change (kernelHeap (emit LogCompacting k)) with (kernelHeap k).
  rewrite (compact_sweep_all_live (heapUsed k) (kernelHeap k) Hok Hle 0 0 []
             Hf Hall) by lia.
  cbv beta iota zeta. rewrite Z.sub_diag. change (0 >? 0) with false.
  cbv iota. change (u32 0) with 0. by destruct k.
Qed.

(** X8. Compaction is idempotent.  On a linear heap [memCompact] leaves
    only blocks in use, and compacting a heap that has no free block
    changes nothing but the log: no block moves, no byte is freed and the
    warning about invalid pointers is not printed.  So a second
    compaction right after the first is harmless. *)
Theorem compact_idempotent (k : kernel) :
  target_ok -> heap_wf k ->
  (Forall (fun b => blk_inUse b = true) (kernelHeap k) ->
   memCompact k
   = Returns tt (emit (LogCompacted 0 0) (emit LogCompacting k)))
  /\ exists k1,
      memCompact k = Returns tt k1
      /\ heap_wf k1
      /\ Forall (fun b => blk_inUse b = true) (kernelHeap k1)
      /\ memCompact k1
         = Returns tt (emit (LogCompacted 0 0) (emit LogCompacting k1)).
Proof.
  intros Hok Hwf. split; [by apply compactMemory_all_live|].
  destruct (compactMemory_wf k Hok Hwf) as (k1 & H1 & Hh & Hu & _ & Hwf1).
  assert (Hall : Forall (fun b => blk_inUse b = true) (kernelHeap k1))
    by (rewrite Hh; apply Forall_inUse_live).
  exists k1. split; [done|]. split; [done|]. split; [done|].
  by apply compactMemory_all_live.
Qed.

(** *** Block headers *)

Lemma header_index_insert (l : list MemoryBlock) (i : nat) (b' : MemoryBlock)
    (pos tgt : Z) :
  (forall b, l !! i = Some b -> blk_size b' = blk_size b) ->
  header_index (<[i := b']> l) pos tgt = header_index l pos tgt.
Proof.
  revert i pos. induction l as [|x l IH]; intros [|i] pos H; try done.
  - change (<[0%nat := b']> (x :: l)) with (b' :: l). cbn [header_index].
    unfold blockTotalSize. by rewrite (H x eq_refl).
  - change (<[S i := b']> (x :: l)) with (x :: <[i := b']> l).
    cbn [header_index]. by rewrite IH.
Qed.

Lemma header_index_app (l : list MemoryBlock) (b : MemoryBlock) (pos : Z) :
  target_ok -> Forall (fun b => 0 <= blk_size b) l ->
  0 <= pos -> pos + heap_total l < 2 ^ 32 ->
  header_index (l ++ [b]) pos (pos + heap_total l) = Some (length l).
Proof.
  intros Hok. pose proof Hok as (Hh & Hk & Hfit). revert pos.
  induction l as [|x l IH]; intros pos Hf Hp Hlt.
  - change (heap_total []) with 0. simpl. by rewrite Z.add_0_r, Z.eqb_refl.
  - apply Forall_cons in Hf as [Hx Hrest].
    pose proof (heap_total_nonneg l Hok Hrest) as Hnn.
    rewrite heap_total_cons in *.
    change ((x :: l) ++ [b]) with (x :: (l ++ [b])). cbn [header_index].
    destruct (pos =? _) eqn:E; tests; [lia|].
    assert (Htot : blockTotalSize x = sizeof_MemoryBlock + blk_size x)
      by (unfold blockTotalSize; apply u32_small; lia).
    rewrite Htot, (u32_small (pos + _)) by lia.
    replace (pos + (sizeof_MemoryBlock + blk_size x + heap_total l))
      with (pos + (sizeof_MemoryBlock + blk_size x) + heap_total l) by lia.
    rewrite IH by (done || lia). done.
Qed.

(** X9. Double free.  Freeing the payload address of a block in use
    succeeds; freeing the same address again finds the block not in use,
    prints the warning and changes nothing else, so the owner's
    [memoryUsed] is not reduced a second time.  Freeing the null pointer
    does nothing at all. *)
Theorem memFree_twice (p : Z) (i : nat) (b : MemoryBlock) (k : kernel) :
  payload_of k p i b -> blk_inUse b = true ->
  exists k1,
    memFree (Some p) k = Returns tt k1
    /\ memFree (Some p) k1 = Returns tt (emit LogInvalidFree k1)
    /\ memFree None k1 = Returns tt k1.
Proof.
  intros Hpay Hu. rewrite (memFree_in_use p i b k Hpay Hu).
  destruct Hpay as [Hi Hb].
  set (k0 := if _ && _ then _ else k).
  assert (Hk0 : kernelHeap k0 = kernelHeap k)
    by (unfold k0; by destruct (_ && _)).
  clearbody k0. eexists. split; [done|]. split; [|done].
  unfold memFree, freeMemoryInternal.
  change (kernelHeap (set_kernelHeap ?h k0)) with h.
  rewrite header_index_insert, Hi.
  - rewrite list_lookup_insert_eq by (by eapply lookup_lt_Some). done.
  - intros b0 Hb0. rewrite Hb in Hb0. by injection Hb0 as <-.
Qed.

(** *** Allocation, free and compaction together *)

Lemma set_task_memoryUsed_same (t : Task) :
  set_task_memoryUsed (task_memoryUsed t) t = t.
Proof. by destruct t. Qed.

Lemma accounting_inv_memoryUsed (k : kernel) (o : Z) :
  target_ok -> accounting_inv k -> 0 <= o < MAX_TASKS ->
  0 <= task_memoryUsed (task_at k o) <= KERNEL_HEAP_SIZE.
Proof.
  intros Hok ((Hu & Hle & Hf) & _ & _ & Hmu) Ho. rewrite Hmu by done.
  pose proof (owned_bytes_bounds o _ Hok Hf). lia.
Qed.

(** A block is allocated and freed again. *)
Lemma alloc_free_steps (size : Z) (k : kernel) :
  target_ok -> accounting_inv k -> alloc_size_ok size -> 0 < size ->
  heapUsed k + (sizeof_MemoryBlock + round_up4 size) <= KERNEL_HEAP_SIZE ->
  exists k1 k2,
    memAlloc size k = Returns (Some (heapUsed k + sizeof_MemoryBlock)) k1
    /\ kernelHeap k1
       = kernelHeap k
         ++ [mkMemoryBlock (round_up4 size) (currentTaskId k) true (-1)]
    /\ task_memoryUsed (getCurrentTask k1)
       = task_memoryUsed (getCurrentTask k) + round_up4 size
    /\ memFree (Some (heapUsed k + sizeof_MemoryBlock)) k1 = Returns tt k2
    /\ kernelHeap k2
       = kernelHeap k
         ++ [mkMemoryBlock (round_up4 size) (currentTaskId k) false (-1)]
    /\ heapUsed k2 = heapUsed k + (sizeof_MemoryBlock + round_up4 size)
    /\ tasks k2 = tasks k.
Proof.
  intros Hok Hinv Hsz Hpos Hroom.
  pose proof Hok as (Hh & Hk & Hfit).
  pose proof Hinv as (Hwf & Htw & Hown & Hmu).
  pose proof Hwf as (Hu & Hle & Hf). pose proof Htw as [Hlen Hcur].
  pose proof (heap_total_nonneg _ Hok Hf) as Hnn.
  pose proof (round_up4_bounds size) as [Hr _].
  pose proof (getCurrentTask_lookup k Htw) as Hlk.
  pose proof (accounting_inv_memoryUsed k (currentTaskId k) Hok Hinv Hcur)
    as Hm0. fold (getCurrentTask k) in Hm0.
  set (r := round_up4 size) in *. unfold alloc_size_ok in Hsz.
  destruct (memAlloc_spec size k Hok Hwf Htw Hsz) as (_ & Hfit' & _).
  destruct (Hfit' Hpos Hroom) as (k1 & Ha & Hh1 & Hu1 & Ht1 & Hc1).
  fold r in Hh1, Hu1, Ht1.
  set (blk := mkMemoryBlock r (currentTaskId k) true (-1)) in *.
  set (p := heapUsed k + sizeof_MemoryBlock) in *.
  assert (Hpay : payload_of k1 p (length (kernelHeap k)) blk).
  { split.
    - rewrite Hh1. unfold p.
      replace (heapUsed k + sizeof_MemoryBlock - sizeof_MemoryBlock)
        with (0 + heap_total (kernelHeap k)) by lia.
      apply header_index_app; [done|done|lia|lia].
    - rewrite Hh1. rewrite lookup_app_r by lia.
      by rewrite Nat.sub_diag. }
  pose proof (memFree_in_use p _ blk k1 Hpay eq_refl) as Hfree.
  change (blk_ownerTaskId blk) with (currentTaskId k) in Hfree.
  change (blk_size blk) with r in Hfree.
  destruct ((currentTaskId k >=? 0) && (currentTaskId k <? MAX_TASKS)) eqn:E;
    tests; [|lia].
  set (k2 := set_kernelHeap _ _) in Hfree.
  exists k1, k2. split; [done|]. split; [done|]. split.
  { unfold getCurrentTask at 1. rewrite Hc1.
    rewrite (task_at_lookup k1 _
               (set_task_memoryUsed
                  (u32 (task_memoryUsed (getCurrentTask k) + r))
                  (getCurrentTask k))).
    - simpl. apply u32_small. lia.
    - by rewrite Ht1, list_lookup_alter_eq, Hlk. }
  split; [done|]. split.
  { unfold k2. change (kernelHeap (set_kernelHeap ?h _)) with h.
    rewrite Hh1.
    replace (length (kernelHeap k)) with (length (kernelHeap k) + 0)%nat
      by lia.
    by rewrite insert_app_r. }
  split; [by rewrite <- Hu1|].
  unfold k2. change (tasks (set_kernelHeap _ ?s)) with (tasks s).
  rewrite tasks_update_task, Ht1, list_alter_alter_eq.
  transitivity (alter (fun t => t) (Z.to_nat (currentTaskId k)) (tasks k));
    [|by apply list_alter_id].
  apply list_alter_ext; [|done]. intros t Ht. simpl.
  assert (Hm : 0 <= task_memoryUsed t <= KERNEL_HEAP_SIZE).
  { rewrite Hlk in Ht. by injection Ht as <-. }
  change (set_task_memoryUsed ?a (set_task_memoryUsed ?c t))
    with (set_task_memoryUsed a t).
  rewrite (u32_small (task_memoryUsed t + r)) by lia.
  replace (task_memoryUsed t + r - r) with (task_memoryUsed t) by lia.
  rewrite u32_small by lia. apply set_task_memoryUsed_same.
Qed.

(** X10. Round trip of a block.  On a heap that keeps the accounting, a
    request that fits is placed at the watermark; freeing the address
    returned and compacting gives back the heap from which the request
    was made, compacted: the same blocks in use in the same order, the
    watermark just above them, and every task charged what it was charged
    before.  When no block was free before, heap and watermark are
    exactly as before. *)
Theorem alloc_free_compact (size : Z) (k : kernel) :
  target_ok -> accounting_inv k -> alloc_size_ok size -> 0 < size ->
  heapUsed k + (sizeof_MemoryBlock + round_up4 size) <= KERNEL_HEAP_SIZE ->
  exists p k1 k2 k3,
    memAlloc size k = Returns (Some p) k1
    /\ p = heapUsed k + sizeof_MemoryBlock
    /\ memFree (Some p) k1 = Returns tt k2
    /\ memCompact k2 = Returns tt k3
    /\ kernelHeap k3 = live (kernelHeap k)
    /\ heapUsed k3 = heap_total (live (kernelHeap k))
    /\ tasks k3 = tasks k
    /\ (Forall (fun b => blk_inUse b = true) (kernelHeap k) ->
        kernelHeap k3 = kernelHeap k /\ heapUsed k3 = heapUsed k).
Proof.
  intros Hok Hinv Hsz Hpos Hroom.
  pose proof Hok as (Hh & Hk & Hfit).
  pose proof Hinv as ((Hu & Hle & Hf) & _).
  pose proof (heap_total_nonneg _ Hok Hf) as Hnn.
  pose proof (round_up4_bounds size) as [Hr _].
  destruct (alloc_free_steps size k Hok Hinv Hsz Hpos Hroom)
    as (k1 & k2 & Ha & _ & _ & Hfree & Hh2 & Hu2 & Ht2).
  assert (Hwf2 : heap_wf k2).
  { repeat split.
    - rewrite Hu2, Hh2, heap_total_app, heap_total_cons. simpl. lia.
    - lia.
    - rewrite Hh2. apply Forall_app. split; [done|].
      apply Forall_singleton. simpl. lia. }
  destruct (compactMemory_wf k2 Hok Hwf2) as (k3 & H3 & Hh3 & Hu3 & Ht3 & _).
  assert (Hl : live (kernelHeap k2) = live (kernelHeap k)).
  { rewrite Hh2, live_app.
    change (live [mkMemoryBlock (round_up4 size) (currentTaskId k) false (-1)])
      with (@nil MemoryBlock).
    by rewrite app_nil_r. }
  exists (heapUsed k + sizeof_MemoryBlock), k1, k2, k3.
  split; [done|]. split; [done|]. split; [done|].
  split; [done|]. split; [by rewrite Hh3, Hl|].
  split; [by rewrite Hu3, Hl|]. split; [by rewrite Ht3|].
  intros Hall. rewrite Hh3, Hu3, Hl, (live_all _ Hall). by split.
Qed.

(** *** Exhaustion *)

(** X11. When [memAlloc] fails.  For a request that the [size_t]
    arithmetic can hold, made on a linear heap, [memAlloc] returns the
    null pointer exactly when the blocks in use plus the new block
    (header and size rounded up to a multiple of 4) exceed the heap.  A
    failed request that did not fit below the watermark has compacted the
    heap all the same, and charges nothing to any task. *)
Theorem memAlloc_fails_iff (size : Z) (k : kernel) :
  target_ok -> heap_wf k -> tasks_wf k -> alloc_size_ok size -> 0 < size ->
  let need := sizeof_MemoryBlock + round_up4 size in
  ((exists k', memAlloc size k = Returns None k')
   <-> heap_total (live (kernelHeap k)) + need > KERNEL_HEAP_SIZE)
  /\ (heap_total (live (kernelHeap k)) + need > KERNEL_HEAP_SIZE ->
      exists k',
        memAlloc size k = Returns None k'
        /\ kernelHeap k' = live (kernelHeap k)
        /\ heapUsed k' = heap_total (live (kernelHeap k))
        /\ tasks k' = tasks k).
Proof.
  intros Hok Hwf Htw Hsz Hpos need.
  pose proof Hwf as (Hu & Hle & Hf).
  pose proof (heap_total_live_le _ Hok Hf) as Hlive.
  destruct (memAlloc_spec size k Hok Hwf Htw Hsz) as (_ & Hfit & Hfull).
  fold need in Hfit, Hfull.
  assert (Hfail : heap_total (live (kernelHeap k)) + need > KERNEL_HEAP_SIZE ->
                  exists k',
                    memAlloc size k = Returns None k'
                    /\ kernelHeap k' = live (kernelHeap k)
                    /\ heapUsed k' = heap_total (live (kernelHeap k))
                    /\ tasks k' = tasks k).
  { intros Hbig. assert (Hbig' : heapUsed k + need > KERNEL_HEAP_SIZE) by lia.
    destruct (Hfull Hpos Hbig') as (kc & _ & Hh & Hu' & Ht & _ & Hno & _).
    rewrite <- Hu' in Hbig. eexists. split; [by apply Hno|]. by repeat split. }
  split; [|done]. split.
  - intros [k' Hnone].
    destruct (Z_le_gt_dec (heapUsed k + need) KERNEL_HEAP_SIZE) as [Hroom|Hbig].
    + destruct (Hfit Hpos Hroom) as (k1 & Ha & _). rewrite Ha in Hnone. done.
    + destruct (Hfull Hpos Hbig) as (kc & _ & _ & Hu' & _ & _ & _ & Hyes).
      destruct (Z_le_gt_dec (heapUsed kc + need) KERNEL_HEAP_SIZE)
        as [Hroom'|Hbig']; [|lia].
      destruct (Hyes Hroom') as (k1 & Ha & _). rewrite Ha in Hnone. done.
  - intros Hbig. destruct (Hfail Hbig) as (k' & Ha & _). by exists k'.
Qed.

(** *** A run of heap calls always ends *)

(** X12. A run of heap calls never panics.  From a linear heap and a whole
    task table, every sequence of [createTask], [killTask], [memAlloc],
    [memFree] and [memCompact] in which the sizes asked of [memAlloc] fit
    the [size_t] arithmetic and every [memFree] is given the null pointer
    or the payload address of a block that the heap holds at the time of
    the call, returns: the safety check of the compaction never fires and
    no call is left unanswered.  The heap is linear again afterwards and
    the task table whole.  Nothing is asked of the accounting: the run
    may kill a task that owns blocks and create another in its slot. *)
Theorem heap_run_never_panics (ops : list heap_op) (k : kernel) :
  target_ok -> heap_wf k -> tasks_wf k -> ops_safe ops k ->
  exists k', run ops k = Returns tt k' /\ heap_wf k' /\ tasks_wf k'.
Proof.
  intros Hok. revert k.
  induction ops as [|op ops IH]; intros k Hwf Htw Hops; [by exists k|].
  destruct Hops as [Hop Hrest]. cbn [run].
  destruct (apply_op_safe op k Hok Hwf Htw Hop) as (k1 & Hk1 & Hwf1 & Htw1).
  rewrite Hk1. apply IH; [done|done|by apply Hrest].
Qed.

(** *** The memory report *)

Lemma count_blocks_linear (used : Z) (blocks : list MemoryBlock) :
  target_ok -> used <= KERNEL_HEAP_SIZE ->
  forall (pos u f : Z),
    Forall (fun b => 0 <= blk_size b) blocks ->
    pos + heap_total blocks = used -> 0 <= pos ->
    count_blocks used blocks pos u f
    = Some (u + Z.of_nat (length (live blocks)),
            f + (Z.of_nat (length blocks)
                 - Z.of_nat (length (live blocks)))).
Proof.
  intros Hok Hused. pose proof Hok as (Hh & Hk & Hfit).
  induction blocks as [|b rest IH]; intros pos u f Hf Hr Hp.
  - change (heap_total []) with 0 in Hr. simpl.
    destruct (pos <? used) eqn:E; tests; [lia|]. do 2 f_equal; lia.
  - apply Forall_cons in Hf as [Hb Hrest].
    pose proof (heap_total_nonneg rest Hok Hrest) as Hnn.
    rewrite heap_total_cons in Hr. cbn [count_blocks].
    destruct (pos <? used) eqn:E; tests; [|lia].
    assert (Htot : blockTotalSize b = sizeof_MemoryBlock + blk_size b)
      by (unfold blockTotalSize; apply u32_small; lia).
    rewrite Htot, (u32_small (pos + _)) by lia.
    rewrite IH by (done || lia). rewrite live_cons.
    destruct (blk_inUse b); cbn [length]; do 2 f_equal; lia.
Qed.

(** X13. The memory report.  On a linear heap [printMemoryInfo] walks the
    headers to the watermark and reports the number of blocks in use and
    the number of free blocks; "Available" is the heap size less the
    watermark, so the bytes of free blocks are not counted as available.
    Right after [memCompact] the report shows the same number of used
    blocks, no free block and no fragmentation warning. *)
Theorem printMemoryInfo_counts (k : kernel) :
  target_ok -> heap_wf k ->
  let used := Z.of_nat (length (live (kernelHeap k))) in
  let free := Z.of_nat (length (kernelHeap k)) - used in
  printMemoryInfo k
  = Some (mkMemoryInfo KERNEL_HEAP_SIZE (heapUsed k)
            (KERNEL_HEAP_SIZE - heapUsed k) used free (free >? 0))
  /\ 0 <= free
  /\ exists k1,
      memCompact k = Returns tt k1
      /\ printMemoryInfo k1
         = Some (mkMemoryInfo KERNEL_HEAP_SIZE
                   (heap_total (live (kernelHeap k)))
                   (KERNEL_HEAP_SIZE - heap_total (live (kernelHeap k)))
                   used 0 false).
Proof.
  intros Hok Hwf used free.
  assert (Hreport : forall s, heap_wf s ->
            printMemoryInfo s
            = Some (mkMemoryInfo KERNEL_HEAP_SIZE (heapUsed s)
                      (KERNEL_HEAP_SIZE - heapUsed s)
                      (Z.of_nat (length (live (kernelHeap s))))
                      (Z.of_nat (length (kernelHeap s))
                       - Z.of_nat (length (live (kernelHeap s))))
                      (Z.of_nat (length (kernelHeap s))
                       - Z.of_nat (length (live (kernelHeap s))) >? 0))).
  { intros s Hs. pose proof Hs as (Hu & Hle & Hf). unfold printMemoryInfo.
    rewrite (count_blocks_linear (heapUsed s) (kernelHeap s) Hok Hle 0 0 0 Hf)
      by lia.
    rewrite !Z.add_0_l. by rewrite (memAvailable_linear s Hok Hs). }
  split; [by apply Hreport|]. split.
  { unfold free, used, live. pose proof (length_filter
      (fun b => blk_inUse b = true) (kernelHeap k)). lia. }
  destruct (compactMemory_wf k Hok Hwf) as (k1 & H1 & Hh & Hu & _ & Hwf1).
  exists k1. split; [done|]. rewrite (Hreport k1 Hwf1), Hh, Hu, live_live.
  by rewrite Z.sub_diag.
Qed.

(** * Mailboxes *)

Lemma TaskState_eqb_neq (a b : TaskState) :
  TaskState_eqb a b = false <-> a <> b.
Proof.
  split.
  - intros H ->. by rewrite TaskState_eqb_refl in H.
  - intros H. destruct (TaskState_eqb a b) eqn:E; [|done].
    by apply TaskState_eqb_eq in E.
Qed.

(** X14. What [ipcSend] answers.  The call either succeeds or leaves the
    kernel untouched, and its result is decided by the checks in the
    order of the source: [SYS_ERR_NOT_FOUND] exactly for a target inside
    the table whose slot is Empty; [SYS_ERR_NO_MEMORY] exactly for an
    acceptable message to a mailbox that already holds 16; [SYS_OK]
    exactly for an acceptable message to a mailbox with room; and
    [SYS_ERR_INVALID_PARAM] otherwise.  A message is acceptable when the
    target is a live slot, the length is at most 64 and the data pointer
    is not null unless the length is 0. *)
Theorem ipcSend_result (t : Z) (data : option (list byte)) (n now : Z)
    (k : kernel) :
  let r := (ipcSend t data n now k).1 in
  let k' := (ipcSend t data n now k).2 in
  let acceptable :=
    0 <= t < MAX_TASKS /\ task_state (task_at k t) <> TASK_EMPTY
    /\ n <= MESSAGE_DATA_SIZE /\ (data = None -> n <= 0) in
  (r <> SYS_OK -> k' = k)
  /\ (r = SYS_ERR_INVALID_PARAM \/ r = SYS_ERR_NOT_FOUND
      \/ r = SYS_ERR_NO_MEMORY \/ r = SYS_OK)
  /\ (r = SYS_ERR_NOT_FOUND
      <-> 0 <= t < MAX_TASKS /\ task_state (task_at k t) = TASK_EMPTY)
  /\ (r = SYS_ERR_NO_MEMORY
      <-> acceptable /\ MAX_MESSAGE_QUEUE_SIZE <= mq_count (queue_at k t))
  /\ (r = SYS_OK
      <-> acceptable /\ mq_count (queue_at k t) < MAX_MESSAGE_QUEUE_SIZE).
Proof.
  intros r k' acceptable. unfold r, k', acceptable, ipcSend. clear.
  unfold SYS_OK, SYS_ERR_INVALID_PARAM, SYS_ERR_NOT_FOUND, SYS_ERR_NO_MEMORY.
  destruct ((t <? 0) || (t >=? MAX_TASKS)) eqn:E1; tests.
  { cbn [fst snd]. repeat split; intros; try done; try lia; auto.
    all: unfold MAX_TASKS in *; lia. }
  destruct (TaskState_eqb (task_state (task_at k t)) TASK_EMPTY) eqn:E2.
  { apply TaskState_eqb_eq in E2. cbn [fst snd].
    repeat split; intros; try done; try lia; auto.
    all: repeat match goal with H : _ /\ _ |- _ => destruct H end; done. }
  apply TaskState_eqb_neq in E2.
  destruct (n >? MESSAGE_DATA_SIZE) eqn:E3; tests.
  { cbn [fst snd]. repeat split; intros; try done; try lia; auto.
    all: repeat match goal with H : _ /\ _ |- _ => destruct H end;
      try done; lia. }
  destruct (negb (bool_decide (is_Some data)) && (n >? 0)) eqn:E4.
  { apply andb_true_iff in E4 as [E4 E5]. tests.
    assert (Hd : data = None).
    { destruct data; [|done]. by rewrite bool_decide_true in E4. }
    cbn [fst snd]. repeat split; intros; try done; try lia; auto.
    all: repeat match goal with H : _ /\ _ |- _ => destruct H end;
      try done.
    all: match goal with H : _ = None -> _ |- _ => specialize (H Hd) end;
      lia. }
  assert (Hd : data = None -> n <= 0).
  { intros ->. rewrite bool_decide_false in E4 by (by intros [? ?]).
    simpl in E4. tests. lia. }
  destruct (mq_count (queue_at k t) >=? MAX_MESSAGE_QUEUE_SIZE) eqn:E5; tests.
  - cbn [fst snd]. repeat split; intros; try done; try lia; auto.
    all: repeat match goal with H : _ /\ _ |- _ => destruct H end;
      try done; lia.
  - cbn [fst snd]. repeat split; intros; try done; try lia; auto.
    all: repeat match goal with H : _ /\ _ |- _ => destruct H end;
      try done; lia.
Qed.

Lemma ipcSend_frame (t : Z) (data : option (list byte)) (n now : Z)
    (k : kernel) :
  let k' := (ipcSend t data n now k).2 in
  tasks k' = tasks k /\ currentTaskId k' = currentTaskId k
  /\ kernelHeap k' = kernelHeap k /\ heapUsed k' = heapUsed k
  /\ semaphores k' = semaphores k /\ trace k' = trace k
  /\ forall t', 0 <= t' -> t' <> t -> queue_at k' t' = queue_at k t'.
Proof.
  unfold ipcSend.
  destruct ((t <? 0) || (t >=? MAX_TASKS)) eqn:E1; [by repeat split|].
  destruct (TaskState_eqb _ _); [by repeat split|].
  destruct (n >? MESSAGE_DATA_SIZE); [by repeat split|].
  destruct (negb _ && _); [by repeat split|].
  destruct (mq_count _ >=? _); [by repeat split|]. tests.
  simpl. do 6 (split; [done|]). intros t' Ht' Hne.
  unfold queue_at. simpl. by rewrite list_lookup_insert_ne by lia.
Qed.

Lemma ipcReceive_frame (buffer : bool) (maxLength : Z) (fromTaskId : bool)
    (k : kernel) :
  0 <= currentTaskId k ->
  let k' := (ipcReceive buffer maxLength fromTaskId k).2 in
  tasks k' = tasks k /\ currentTaskId k' = currentTaskId k
  /\ kernelHeap k' = kernelHeap k /\ heapUsed k' = heapUsed k
  /\ semaphores k' = semaphores k
  /\ forall t', 0 <= t' -> t' <> currentTaskId k ->
                queue_at k' t' = queue_at k t'.
Proof.
  intros Hc. unfold ipcReceive.
  destruct (_ =? 0); [by repeat split|].
  destruct (negb _); [by repeat split|].
  destruct (_ >? maxLength); [by repeat split|].
  cbn [snd]. set (k1 := if buffer && _ then _ else k).
  assert (H1 : tasks k1 = tasks k /\ currentTaskId k1 = currentTaskId k
               /\ kernelHeap k1 = kernelHeap k /\ heapUsed k1 = heapUsed k
               /\ semaphores k1 = semaphores k)
    by (unfold k1; by destruct (buffer && _)).
  set (k2 := if fromTaskId then _ else k1).
  assert (H2 : tasks k2 = tasks k /\ currentTaskId k2 = currentTaskId k
               /\ kernelHeap k2 = kernelHeap k /\ heapUsed k2 = heapUsed k
               /\ semaphores k2 = semaphores k)
    by (unfold k2; by destruct fromTaskId).
  clearbody k2. destruct H2 as (?&?&?&?&?).
  do 5 (split; [done|]). intros t' Ht' Hne.
  unfold queue_at. simpl. by rewrite list_lookup_insert_ne by lia.
Qed.

(** X15. Mailboxes are private.  [ipcSend] changes no mailbox but the
    one of its target and [ipcReceive] none but the one of the current
    task; neither changes the task table, the current task, the heap or
    the semaphores, and [ipcSend] prints nothing.  In particular a send
    does not wake or mark the receiver: it learns of the message only by
    polling. *)
Theorem ipc_isolation (t : Z) (data : option (list byte)) (n now : Z)
    (buffer : bool) (maxLength : Z) (fromTaskId : bool) (k : kernel) :
  0 <= currentTaskId k ->
  let ks := (ipcSend t data n now k).2 in
  let kr := (ipcReceive buffer maxLength fromTaskId k).2 in
  (forall t', 0 <= t' -> t' <> t -> queue_at ks t' = queue_at k t')
  /\ (forall t', 0 <= t' -> t' <> currentTaskId k ->
                 queue_at kr t' = queue_at k t')
  /\ tasks ks = tasks k /\ tasks kr = tasks k
  /\ currentTaskId ks = currentTaskId k /\ currentTaskId kr = currentTaskId k
  /\ kernelHeap ks = kernelHeap k /\ kernelHeap kr = kernelHeap k
  /\ semaphores ks = semaphores k /\ semaphores kr = semaphores k
  /\ trace ks = trace k.
Proof.
  intros Hc ks kr.
  destruct (ipcSend_frame t data n now k) as (?&?&?&?&?&?&?).
  destruct (ipcReceive_frame buffer maxLength fromTaskId k Hc)
    as (?&?&?&?&?&?).
  by repeat split.
Qed.

(** *** Many messages *)

Lemma pending_length (q : MessageQueue) :
  Z.of_nat (length (pending q)) = Z.max 0 (mq_count q).
Proof. unfold pending. rewrite length_fmap, length_seq. lia. Qed.

Lemma payloads_app_one (k k1 : kernel) (t : Z) (m : Message) :
  pending (queue_at k1 t) = pending (queue_at k t) ++ [m] ->
  payloads k1 t
  = payloads k t ++ [take (Z.to_nat (msg_length m)) (msg_data m)].
Proof. unfold payloads. intros ->. by rewrite fmap_app. Qed.

Lemma send_all_payloads (t : Z) (msgs : list (list byte)) (now : Z)
    (k : kernel) :
  mailboxes_wf k -> 0 <= t < MAX_TASKS ->
  task_state (task_at k t) <> TASK_EMPTY ->
  Forall (fun m => Z.of_nat (length m) <= MESSAGE_DATA_SIZE) msgs ->
  Z.of_nat (length (pending (queue_at k t))) + Z.of_nat (length msgs)
  <= MAX_MESSAGE_QUEUE_SIZE ->
  let k1 := send_all t msgs now k in
  payloads k1 t = payloads k t ++ msgs
  /\ mailboxes_wf k1 /\ tasks k1 = tasks k
  /\ currentTaskId k1 = currentTaskId k /\ trace k1 = trace k.
Proof.
  revert k. induction msgs as [|m msgs IH]; intros k Hwf Ht Hne Hlen Hroom.
  - simpl. by rewrite app_nil_r.
  - apply Forall_cons in Hlen as [Hm Hlen]. cbn [send_all].
    pose proof Hwf as [_ Hq]. destruct (Hq t Ht) as (_ & _ & Hcnt & _).
    rewrite pending_length in Hroom. cbn [length] in Hroom.
    assert (Hlt : mq_count (queue_at k t) < MAX_MESSAGE_QUEUE_SIZE) by lia.
    destruct (ipcSend_accepts k t (Some m) (Z.of_nat (length m)) now Ht Hne
                eq_refl Hm Hlt) as [k1 Hsend].
    destruct (ipcSend_appends k t (Some m) (Z.of_nat (length m)) now k1 Hwf
                eq_refl Hsend)
      as (msg & Hp & _ & Hl & Hd & Hwf1 & Hc1 & Htr1 & _).
    destruct (ipcSend_frame t (Some m) (Z.of_nat (length m)) now k)
      as (Ht1 & _).
    rewrite Hsend in Ht1 |- *. cbn [snd] in Ht1 |- *.
    assert (Hne1 : task_state (task_at k1 t) <> TASK_EMPTY)
      by (by rewrite (task_at_eq k k1 t Ht1)).
    assert (Hroom1 : Z.of_nat (length (pending (queue_at k1 t)))
                     + Z.of_nat (length msgs) <= MAX_MESSAGE_QUEUE_SIZE).
    { rewrite Hp, length_app, Nat2Z.inj_add, pending_length.
      cbn [length]. lia. }
    destruct (IH k1 Hwf1 Ht Hne1 Hlen Hroom1) as (H1 & H2 & H3 & H4 & H5).
    rewrite H1, (payloads_app_one k k1 t msg Hp), Hl, Hd. cbn [default].
    rewrite <- app_assoc. split; [done|]. split; [done|].
    split; [congruence|]. split; congruence.
Qed.

(** X16. A mailbox is a queue of 16.  Into the mailbox of a live task
    any sequence of messages of at most 64 bytes can be sent as long as
    no more than 16 are waiting; they wait in the order sent, behind
    those that waited before, with their bytes intact.  Once 16 wait,
    every further send is refused with [SYS_ERR_NO_MEMORY] and changes
    nothing: no message is overwritten. *)
Theorem mailbox_fifo_capacity (t : Z) (msgs : list (list byte)) (now : Z)
    (k : kernel) :
  mailboxes_wf k -> 0 <= t < MAX_TASKS ->
  task_state (task_at k t) <> TASK_EMPTY ->
  Forall (fun m => Z.of_nat (length m) <= MESSAGE_DATA_SIZE) msgs ->
  Z.of_nat (length (payloads k t)) + Z.of_nat (length msgs)
  <= MAX_MESSAGE_QUEUE_SIZE ->
  let k1 := send_all t msgs now k in
  payloads k1 t = payloads k t ++ msgs
  /\ mailboxes_wf k1
  /\ (Z.of_nat (length (payloads k1 t)) = MAX_MESSAGE_QUEUE_SIZE ->
      forall m now',
        Z.of_nat (length m) <= MESSAGE_DATA_SIZE ->
        ipcSend t (Some m) (Z.of_nat (length m)) now' k1
        = (SYS_ERR_NO_MEMORY, k1)).
Proof.
  intros Hwf Ht Hne Hlen Hroom k1.
  unfold payloads in Hroom. rewrite length_fmap in Hroom.
  destruct (send_all_payloads t msgs now k Hwf Ht Hne Hlen Hroom)
    as (Hp & Hwf1 & Ht1 & _).
  fold k1 in Hp, Hwf1, Ht1. split; [done|]. split; [done|].
  intros Hfull m now' Hm. unfold payloads in Hfull.
  rewrite length_fmap, pending_length in Hfull.
  unfold ipcSend.
  destruct ((t <? 0) || (t >=? MAX_TASKS)) eqn:E1; tests; [lia|].
  rewrite (task_at_eq k k1 t Ht1).
  destruct (TaskState_eqb _ TASK_EMPTY) eqn:E2;
    [by apply TaskState_eqb_eq in E2|].
  destruct (_ >? MESSAGE_DATA_SIZE) eqn:E3; tests; [lia|].
  rewrite bool_decide_true by done. cbn [negb andb].
  destruct (_ >=? _) eqn:E4; tests; [done|].
  unfold MAX_MESSAGE_QUEUE_SIZE in *. lia.
Qed.

(** *** Mail for a task that is killed *)

Lemma mailboxes_wf_eq (k k' : kernel) :
  messageQueues k' = messageQueues k -> mailboxes_wf k -> mailboxes_wf k'.
Proof.
  intros H [Hlen Hq]. split; [by rewrite H|].
  intros t Ht. unfold queue_at. rewrite H. by apply Hq.
Qed.

Lemma createTask_messageQueues (name : option string) (e : EntryPoint)
    (now : Z) (k : kernel) :
  messageQueues (createTask name e now k).2 = messageQueues k.
Proof. unfold createTask. by destruct (_ <? 0). Qed.

Lemma killTask_messageQueues (taskId : Z) (k : kernel) :
  messageQueues (killTask taskId k) = messageQueues k.
Proof.
  destruct (getTask k taskId) as [task|] eqn:Hget.
  - destruct (decide (taskId = 0)) as [->|Hne].
    + unfold killTask. by rewrite Hget.
    + destruct (killTask_live taskId task k Hne Hget) as (_ & Hs & _).
      by destruct Hs as (_&_&_&_&_&_&?&_).
  - unfold killTask. by rewrite Hget.
Qed.

(** X17. Mail outlives its addressee.  Neither [killTask] nor
    [createTask] touches the mailboxes.  A message waiting for a task
    that is killed stays in the mailbox of its slot, and whichever task
    next runs in that slot receives it, with the sender's id, as if it
    had been sent to the new task. *)
Theorem stale_mail_delivered (t : Z) (name : option string)
    (e : EntryPoint) (now maxLength : Z) (m : Message) (rest : list Message)
    (k : kernel) :
  mailboxes_wf k -> 0 <= t < MAX_TASKS ->
  pending (queue_at k t) = m :: rest -> msg_length m <= maxLength ->
  let k2 := (createTask name e now (killTask t k)).2 in
  messageQueues k2 = messageQueues k
  /\ exists k3,
      ipcReceive true maxLength true (set_currentTaskId t k2)
      = (msg_length m, k3)
      /\ trace k3
         = trace k2
           ++ (if msg_length m >? 0
               then [CopyOut (take (Z.to_nat (msg_length m)) (msg_data m))]
               else [])
           ++ [StoreFrom (msg_fromTaskId m)]
      /\ pending (queue_at k3 t) = rest.
Proof.
  intros Hwf Ht Hp Hlen k2.
  assert (Hq : messageQueues k2 = messageQueues k).
  { unfold k2. by rewrite createTask_messageQueues, killTask_messageQueues. }
  split; [done|].
  set (kr := set_currentTaskId t k2).
  assert (Hwfr : mailboxes_wf kr) by (by apply (mailboxes_wf_eq k)).
  assert (Hpr : pending (queue_at kr (currentTaskId kr)) = m :: rest).
  { unfold queue_at, kr. simpl. rewrite Hq. exact Hp. }
  destruct (ipcReceive_pops kr true maxLength true m rest Hwfr Ht Hpr Hlen)
    as (k3 & Hr & Htr & Hrest & _).
  exists k3. split; [done|]. split; [|done]. by rewrite Htr.
Qed.

(** * Semaphores *)

Lemma semaphore_at_yield (now : Z) (k : kernel) (i : Z) :
  semaphore_at (yield now k) i = semaphore_at k i.
Proof. done. Qed.

Lemma semWait_loop_spins (fuel : nat) (clock : nat -> Z) (n : nat)
    (semId timeoutMs startTime : Z) (k : kernel) :
  sem_value (semaphore_at k semId) <= 0 -> timeoutMs <= 0 ->
  exists k',
    semWait_loop fuel clock n semId timeoutMs startTime k = Spins k'
    /\ semaphores k' = semaphores k.
Proof.
  intros Hv Ht. revert n k Hv.
  induction fuel as [|fuel IH]; intros n k Hv; cbn [semWait_loop].
  - destruct (_ <=? 0) eqn:E; tests; [|lia]. by exists k.
  - destruct (_ <=? 0) eqn:E; tests; [|lia].
    destruct (timeoutMs >? 0) eqn:E1; tests; [lia|].
    destruct (IH (n + 1)%nat (yield (clock n) k)) as (k' & H1 & H2); [done|].
    by exists k'.
Qed.

(** X18. [semWait] without a timeout on an empty semaphore never
    returns.  The wait is a busy loop around [yield()], and [yield()]
    only marks the task Ready: no other task runs meanwhile, so nobody
    can post.  Whatever the number of iterations followed and whatever
    the clock, the call is still spinning, with the semaphores as they
    were. *)
Theorem semWait_never_returns (fuel : nat) (clock : nat -> Z) (semId : Z)
    (k : kernel) :
  0 <= semId < MAX_SEMAPHORES ->
  sem_inUse (semaphore_at k semId) = true ->
  sem_value (semaphore_at k semId) <= 0 ->
  exists k',
    semWait fuel clock semId 0 k = Spins k'
    /\ semaphores k' = semaphores k.
Proof.
  intros Hid Hu Hv. unfold semWait.
  destruct ((semId <? 0) || (semId >=? MAX_SEMAPHORES)) eqn:E; tests; [lia|].
  rewrite Hu. cbn [negb]. by apply semWait_loop_spins.
Qed.

Lemma semWait_loop_times_out (m : nat) :
  forall (fuel : nat) (clock : nat -> Z) (n : nat)
         (semId timeoutMs startTime : Z) (k : kernel),
    sem_value (semaphore_at k semId) <= 0 -> 0 < timeoutMs ->
    timeoutMs <= u32 (clock (n + 2 * m)%nat - startTime) ->
    (m < fuel)%nat ->
    exists k',
      semWait_loop fuel clock n semId timeoutMs startTime k
      = Returns SYS_ERR_TIMEOUT k'
      /\ semaphores k' = semaphores k.
Proof.
  induction m as [|m IH]; intros fuel clock n semId timeoutMs startTime k
    Hv Ht Hdue Hfuel.
  - destruct fuel as [|fuel]; [lia|]. cbn [semWait_loop].
    destruct (_ <=? 0) eqn:E; tests; [|lia].
    destruct (timeoutMs >? 0) eqn:E1; tests; [|lia].
    rewrite Nat.add_0_r in Hdue.
    destruct (_ >=? timeoutMs) eqn:E2; tests; [|lia]. by exists k.
  - destruct fuel as [|fuel]; [lia|]. cbn [semWait_loop].
    destruct (_ <=? 0) eqn:E; tests; [|lia].
    destruct (timeoutMs >? 0) eqn:E1; tests; [|lia].
    destruct (_ >=? timeoutMs) eqn:E2; [by exists k|].
    destruct (IH fuel clock (n + 2)%nat semId timeoutMs startTime
                (yield (clock (n + 1)%nat) k)) as (k' & H1 & H2);
      [done|done| |lia|by exists k'].
    replace (n + 2 + 2 * m)%nat with (n + 2 * S m)%nat by lia. done.
Qed.

(** X19. [semWait] with a timeout on an empty semaphore times out.  If
    some reading of [millis()] made by the loop is at least [timeoutMs]
    after the start, then, given enough iterations, the call returns
    [SYS_ERR_TIMEOUT] and leaves the semaphores as they were; it cannot
    return [SYS_OK], for the value cannot change while it waits. *)
Theorem semWait_times_out (m fuel : nat) (clock : nat -> Z)
    (semId timeoutMs : Z) (k : kernel) :
  0 <= semId < MAX_SEMAPHORES ->
  sem_inUse (semaphore_at k semId) = true ->
  sem_value (semaphore_at k semId) <= 0 -> 0 < timeoutMs ->
  timeoutMs <= u32 (clock (1 + 2 * m)%nat - clock 0%nat) ->
  (m < fuel)%nat ->
  exists k',
    semWait fuel clock semId timeoutMs k = Returns SYS_ERR_TIMEOUT k'
    /\ semaphores k' = semaphores k.
Proof.
  intros Hid Hu Hv Ht Hdue Hfuel. unfold semWait.
  destruct ((semId <? 0) || (semId >=? MAX_SEMAPHORES)) eqn:E; tests; [lia|].
  rewrite Hu. cbn [negb]. by apply (semWait_loop_times_out m).
Qed.

Lemma set_semaphores_same (k : kernel) : set_semaphores (semaphores k) k = k.
Proof. by destruct k. Qed.

Lemma set_sem_value_same (s : Semaphore) : set_sem_value (sem_value s) s = s.
Proof. by destruct s. Qed.

Lemma semaphore_at_lookup (k : kernel) (i : Z) :
  (Z.to_nat i < length (semaphores k))%nat ->
  semaphores k !! Z.to_nat i = Some (semaphore_at k i).
Proof.
  intros H. unfold semaphore_at.
  destruct (semaphores k !! Z.to_nat i) eqn:E; [done|].
  apply lookup_ge_None in E. lia.
Qed.

(** X20. Post, then wait.  On a semaphore in use that is not full,
    [semPost] succeeds and a [semWait] that follows returns [SYS_OK] at
    once, without reading the clock or yielding, whatever its timeout;
    the kernel is then exactly as it was before the post. *)
Theorem semPost_then_semWait (fuel : nat) (clock : nat -> Z)
    (semId timeoutMs : Z) (k : kernel) :
  semaphores_ok k -> 0 <= semId < MAX_SEMAPHORES ->
  sem_inUse (semaphore_at k semId) = true ->
  sem_value (semaphore_at k semId) < sem_maxValue (semaphore_at k semId) ->
  exists k1,
    semPost semId k = (SYS_OK, k1)
    /\ sem_value (semaphore_at k1 semId)
       = sem_value (semaphore_at k semId) + 1
    /\ semWait fuel clock semId timeoutMs k1 = Returns SYS_OK k.
Proof.
  intros [Hlen Hall] Hid Hu Hv.
  assert (Hin : (Z.to_nat semId < length (semaphores k))%nat)
    by (rewrite Hlen; unfold MAX_SEMAPHORES in *; lia).
  pose proof (semaphore_at_lookup k semId Hin) as Hlk.
  assert (Hpos : 0 <= sem_value (semaphore_at k semId)).
  { rewrite Forall_lookup in Hall. by apply (Hall _ _ Hlk). }
  unfold semPost.
  destruct ((semId <? 0) || (semId >=? MAX_SEMAPHORES)) eqn:E; tests; [lia|].
  rewrite Hu. cbn [negb].
  destruct (_ >=? _) eqn:E1; tests; [lia|].
  set (s := semaphore_at k semId) in *.
  set (k1 := set_semaphores _ k).
  assert (Hs1 : semaphore_at k1 semId = set_sem_value (sem_value s + 1) s).
  { unfold semaphore_at at 1, k1. simpl.
    by rewrite list_lookup_insert_eq. }
  exists k1. split; [done|]. split; [by rewrite Hs1|].
  rewrite semWait_positive; [|lia|by rewrite Hs1|rewrite Hs1; simpl; lia].
  f_equal. rewrite Hs1. unfold k1. simpl.
  rewrite list_insert_insert_eq.
  replace (sem_value s + 1 - 1) with (sem_value s) by lia.
  change (set_sem_value (sem_value s) (set_sem_value (sem_value s + 1) s))
    with (set_sem_value (sem_value s) s).
  rewrite set_sem_value_same, list_insert_id by done.
  change (set_semaphores (semaphores k) (set_semaphores ?l k))
    with (set_semaphores (semaphores k) k).
  apply set_semaphores_same.
Qed.

Lemma semaphore_at_insert (k : kernel) (i j : Z) (s : Semaphore) :
  0 <= i -> 0 <= j ->
  semaphore_at (set_semaphores (<[Z.to_nat i := s]> (semaphores k)) k) j
  = if decide (i = j)
    then (if decide (Z.to_nat i < length (semaphores k))%nat
          then s else zero_semaphore)
    else semaphore_at k j.
Proof.
  intros Hi Hj. unfold semaphore_at. simpl. case_decide as E.
  - subst j. case_decide as E1.
    + by rewrite list_lookup_insert_eq.
    + rewrite lookup_ge_None_2; [done|]. rewrite length_insert. lia.
  - by rewrite list_lookup_insert_ne by lia.
Qed.

(** X21. [semCreate] takes the lowest free slot.  Bad arguments (a
    negative initial value, a maximum below 1, an initial value above the
    maximum) are refused with [SYS_ERR_INVALID_PARAM]; when all 8 slots
    are in use the answer is [SYS_ERR_NO_MEMORY]; both leave the kernel
    unchanged.  Otherwise the id returned is the lowest slot not in use,
    which then holds the new semaphore, owned by the current task, and
    no other slot changes. *)
Theorem semCreate_lowest_slot (initialValue maxValue : Z)
    (name : option string) (k : kernel) :
  let r := (semCreate initialValue maxValue name k).1 in
  let k' := (semCreate initialValue maxValue name k).2 in
  let bad := initialValue < 0 \/ maxValue < 1 \/ maxValue < initialValue in
  (bad /\ r = SYS_ERR_INVALID_PARAM /\ k' = k)
  \/ (~ bad /\ r = SYS_ERR_NO_MEMORY /\ k' = k
      /\ forall i, 0 <= i < MAX_SEMAPHORES ->
                   sem_inUse (semaphore_at k i) = true)
  \/ (~ bad /\ 0 <= r < MAX_SEMAPHORES
      /\ sem_inUse (semaphore_at k r) = false
      /\ (forall i, 0 <= i < r -> sem_inUse (semaphore_at k i) = true)
      /\ (length (semaphores k) = Z.to_nat MAX_SEMAPHORES ->
          semaphore_at k' r
          = mkSemaphore initialValue maxValue true (currentTaskId k) name)
      /\ (forall i, 0 <= i -> i <> r -> semaphore_at k' i = semaphore_at k i)
      /\ tasks k' = tasks k /\ trace k' = trace k).
Proof.
  intros r k' bad. unfold r, k', bad, semCreate, allocateSemaphore.
  destruct ((initialValue <? 0) || (maxValue <? 1)
            || (initialValue >? maxValue)) eqn:E.
  { left. split; [|done].
    apply orb_true_iff in E as [E|E]; [apply orb_true_iff in E as [E|E]|];
      tests; lia. }
  right.
  assert (Hgood : ~ (initialValue < 0 \/ maxValue < 1
                     \/ maxValue < initialValue)).
  { apply orb_false_iff in E as [E E3]. apply orb_false_iff in E as [E1 E2].
    tests. lia. }
  set (p := fun i => negb (sem_inUse (semaphore_at k i))).
  assert (H0 : 0 <= 0) by lia.
  destruct (first_index_least (Z.to_nat MAX_SEMAPHORES) 0 p H0)
    as [[Hr Hnone]|(Hr & Hp & Hleast)].
  - left. rewrite Hr. cbn [fst snd Z.ltb Z.compare].
    split; [done|]. split; [done|]. split; [done|].
    intros i Hi.
    assert (Hi' : 0 <= i < 0 + Z.of_nat (Z.to_nat MAX_SEMAPHORES))
      by (unfold MAX_SEMAPHORES in *; lia).
    specialize (Hnone i Hi'). unfold p in Hnone.
    by apply negb_false_iff in Hnone.
  - right. set (s := first_index _ _ _) in *.
    assert (Hs8 : 0 <= s < MAX_SEMAPHORES)
      by (unfold MAX_SEMAPHORES in *; lia).
    destruct (s <? 0) eqn:Es; tests; [lia|]. cbn [fst snd].
    split; [done|]. split; [done|].
    split; [by apply negb_true_iff in Hp|]. split.
    { intros i Hi. assert (Hi' : 0 <= i < s) by lia.
      specialize (Hleast i Hi'). by apply negb_false_iff in Hleast. }
    split.
    { intros Hlen. rewrite semaphore_at_insert by lia.
      rewrite decide_True by done. rewrite decide_True; [done|].
      rewrite Hlen. unfold MAX_SEMAPHORES in *. lia. }
    split; [|done]. intros i Hi Hne.
    rewrite semaphore_at_insert by lia. by rewrite decide_False.
Qed.

(** X22. Who may destroy a semaphore.  A semaphore in use is destroyed
    by its owner or by task 0, and by nobody else: any other task gets
    [SYS_ERR_PERMISSION] and nothing changes.  After a successful
    [semDestroy] the slot is free: [semPost] and [semWait] on it answer
    [SYS_ERR_NOT_FOUND], and [semCreate] may hand it out again.  The
    other slots are untouched. *)
Theorem semDestroy_owner_or_kernel (semId : Z) (k : kernel) :
  0 <= semId < MAX_SEMAPHORES ->
  length (semaphores k) = Z.to_nat MAX_SEMAPHORES ->
  sem_inUse (semaphore_at k semId) = true ->
  (sem_ownerTaskId (semaphore_at k semId) <> currentTaskId k ->
   currentTaskId k <> 0 ->
   semDestroy semId k = (SYS_ERR_PERMISSION, k))
  /\ (sem_ownerTaskId (semaphore_at k semId) = currentTaskId k
      \/ currentTaskId k = 0 ->
      exists k',
        semDestroy semId k = (SYS_OK, k')
        /\ sem_inUse (semaphore_at k' semId) = false
        /\ (forall i, 0 <= i -> i <> semId ->
                      semaphore_at k' i = semaphore_at k i)
        /\ semPost semId k' = (SYS_ERR_NOT_FOUND, k')
        /\ (forall fuel clock timeoutMs,
               semWait fuel clock semId timeoutMs k'
               = Returns SYS_ERR_NOT_FOUND k')
        /\ 0 <= allocateSemaphore k' <= semId).
Proof.
  intros Hid Hlen Hu. unfold semDestroy.
  destruct ((semId <? 0) || (semId >=? MAX_SEMAPHORES)) eqn:E; tests; [lia|].
  rewrite Hu. cbn [negb]. split.
  - intros Ho Hc.
    destruct (_ =? currentTaskId k) eqn:E1; tests; [done|].
    destruct (currentTaskId k =? 0) eqn:E2; tests; done.
  - intros Hown.
    assert (Hc : negb (sem_ownerTaskId (semaphore_at k semId)
                       =? currentTaskId k)
                 && negb (currentTaskId k =? 0) = false).
    { apply andb_false_iff.
      destruct Hown as [Ho|Ho]; [left|right]; apply negb_false_iff;
        by apply Z.eqb_eq. }
    rewrite Hc. set (k' := set_semaphores _ k).
    assert (Hs : semaphore_at k' semId
                 = set_sem_inUse false (semaphore_at k semId)).
    { unfold k'. rewrite semaphore_at_insert by lia.
      rewrite decide_True by done. rewrite decide_True; [done|].
      rewrite Hlen. unfold MAX_SEMAPHORES in *. lia. }
    exists k'. split; [done|]. split; [by rewrite Hs|]. split.
    { intros i Hi Hne. unfold k'. rewrite semaphore_at_insert by lia.
      by rewrite decide_False. }
    split.
    { unfold semPost.
      destruct ((semId <? 0) || (semId >=? MAX_SEMAPHORES)) eqn:E';
        tests; [lia|]. by rewrite Hs. }
    split.
    { intros fuel clock timeoutMs. unfold semWait.
      destruct ((semId <? 0) || (semId >=? MAX_SEMAPHORES)) eqn:E';
        tests; [lia|]. by rewrite Hs. }
    unfold allocateSemaphore.
    set (p := fun i => negb (sem_inUse (semaphore_at k' i))).
    assert (Hz : 0 <= 0) by lia.
    destruct (first_index_least (Z.to_nat MAX_SEMAPHORES) 0 p Hz)
      as [[Hr Hnone]|(Hr & Hp & Hleast)].
    + assert (Hi' : 0 <= semId < 0 + Z.of_nat (Z.to_nat MAX_SEMAPHORES))
        by (unfold MAX_SEMAPHORES in *; lia).
      specialize (Hnone semId Hi'). unfold p in Hnone.
      by rewrite Hs in Hnone.
    + set (s := first_index _ _ _) in *. split; [lia|].
      destruct (Z_le_gt_dec s semId) as [|Hgt]; [done|].
      assert (Hi' : 0 <= semId < s) by lia.
      specialize (Hleast semId Hi'). unfold p in Hleast.
      by rewrite Hs in Hleast.
Qed.

(** * Files, capabilities and the system-call dispatcher *)

Lemma first_index_is (n : nat) (from : Z) (p : Z -> bool) (r : Z) :
  from <= r < from + Z.of_nat n -> p r = true ->
  (forall i, from <= i < r -> p i = false) ->
  first_index n from p = r.
Proof.
  revert from. induction n as [|n IH]; intros from Hr Hp Hleast; [lia|].
  cbn [first_index]. destruct (p from) eqn:E.
  - destruct (decide (from = r)) as [|Hne]; [done|].
    rewrite Hleast in E by lia. done.
  - assert (Hne : from <> r) by (intros ->; by rewrite Hp in E).
    apply IH; [lia|done|]. intros i Hi. apply Hleast. lia.
Qed.

Lemma fileHandle_at_insert (k : kernel) (i j : Z) (h : FileHandle) :
  0 <= i -> 0 <= j -> (Z.to_nat i < length (fileHandles k))%nat ->
  fileHandle_at (set_fileHandles (<[Z.to_nat i := h]> (fileHandles k)) k) j
  = if decide (i = j) then h else fileHandle_at k j.
Proof.
  intros Hi Hj Hlen. unfold fileHandle_at. simpl. case_decide as E.
  - subst j. by rewrite list_lookup_insert_eq.
  - by rewrite list_lookup_insert_ne by lia.
Qed.

(** X23. A file handle, from open to close.  With the card mounted, the
    capability, a free handle and a file that opens, [fileOpen] returns
    the lowest handle not in use; the handle is then in use, owned by the
    current task and writable as asked.  [fileClose] by the same task
    succeeds, closes the file and frees the handle, which is again the
    next one to be handed out.  No other handle changes, and the log
    shows the open followed by the close. *)
Theorem fileOpen_then_fileClose (hw : Hardware) (path : option string)
    (write : bool) (f : nat) (k : kernel) :
  tasks_wf k -> length (fileHandles k) = Z.to_nat MAX_FILE_HANDLES ->
  sdInitialized k = true -> canAccessSD (getCurrentTask k) = true ->
  0 <= allocateFileHandle k ->
  SD_open hw path write = Some f ->
  let h := allocateFileHandle k in
  exists k1 k2,
    fileOpen hw path write k = (h, k1)
    /\ 0 <= h < MAX_FILE_HANDLES
    /\ fh_inUse (fileHandle_at k h) = false
    /\ (forall i, 0 <= i < h -> fh_inUse (fileHandle_at k i) = true)
    /\ fileHandle_at k1 h = mkFileHandle (Some f) (currentTaskId k) true write
    /\ owns_file k1 h
    /\ fileClose h k1 = (SYS_OK, k2)
    /\ fh_inUse (fileHandle_at k2 h) = false
    /\ (forall i, 0 <= i -> i <> h -> fileHandle_at k2 i = fileHandle_at k i)
    /\ allocateFileHandle k2 = h
    /\ task_fileHandles (getCurrentTask k2)
       = <[Z.to_nat h := false]> (task_fileHandles (getCurrentTask k))
    /\ trace k2 = trace k ++ [SdOpen path write; FileClosed (Some f)].
Proof.
  intros Hwf Hlen Hsd Hcap Hfree Hopen h.
  pose proof (getCurrentTask_lookup k Hwf) as Hcur.
  destruct Hwf as [Hlent Hc].
  set (p := fun i => negb (fh_inUse (fileHandle_at k i))).
  assert (Hz : 0 <= 0) by lia.
  assert (Hh : 0 <= h < MAX_FILE_HANDLES /\ p h = true
               /\ forall i, 0 <= i < h -> p i = false).
  { destruct (first_index_least (Z.to_nat MAX_FILE_HANDLES) 0 p Hz)
      as [[Hr _]|(Hr & Hp & Hleast)].
    - unfold allocateFileHandle in Hfree. fold p in Hfree. lia.
    - unfold h, allocateFileHandle. fold p.
      split; [unfold MAX_FILE_HANDLES in *; lia|]. by split. }
  destruct Hh as (Hh & Hp & Hleast).
  assert (Hin : (Z.to_nat h < length (fileHandles k))%nat)
    by (rewrite Hlen; unfold MAX_FILE_HANDLES in *; lia).
  unfold fileOpen. rewrite Hsd, Hcap. cbn [negb]. fold h.
  destruct (h <? 0) eqn:E; tests; [lia|]. rewrite Hopen.
  set (fh := mkFileHandle (Some f) (currentTaskId k) true write).
  set (ka := set_fileHandles (<[Z.to_nat h := fh]> (fileHandles k))
               (emit (SdOpen path write) k)).
  set (k1 := update_task (currentTaskId ka)
               (fun t =>
                  set_task_fileHandles
                    (<[Z.to_nat h := true]> (task_fileHandles t)) t) ka).
  assert (Hat1 : forall j, 0 <= j ->
            fileHandle_at k1 j = if decide (h = j) then fh
                                 else fileHandle_at k j).
  { intros j Hj. change (fileHandle_at k1 j) with (fileHandle_at ka j).
    unfold ka.
    change (fileHandles k) with (fileHandles (emit (SdOpen path write) k)).
    rewrite fileHandle_at_insert by (done || lia). done. }
  assert (H1h : fileHandle_at k1 h = fh)
    by (rewrite Hat1 by lia; by rewrite decide_True).
  assert (Hc1 : currentTaskId k1 = currentTaskId k) by done.
  assert (Hlen1 : (Z.to_nat h < length (fileHandles k1))%nat).
  { change (fileHandles k1) with (<[Z.to_nat h := fh]> (fileHandles k)).
    by rewrite length_insert. }
  assert (Hcur1 : getCurrentTask k1
                  = set_task_fileHandles
                      (<[Z.to_nat h := true]>
                         (task_fileHandles (getCurrentTask k)))
                      (getCurrentTask k)).
  { unfold getCurrentTask at 1. rewrite Hc1. apply task_at_lookup.
    unfold k1. rewrite tasks_update_task.
    change (currentTaskId ka) with (currentTaskId k).
    change (tasks ka) with (tasks k).
    by rewrite list_lookup_alter_eq, Hcur. }
  (* the close *)
  set (kb := set_fileHandles
               (<[Z.to_nat h := mkFileHandle None (currentTaskId k) false
                                  write]> (fileHandles k1))
               (emit (FileClosed (Some f)) k1)).
  set (k2 := update_task (currentTaskId kb)
               (fun t =>
                  set_task_fileHandles
                    (<[Z.to_nat h := false]> (task_fileHandles t)) t) kb).
  assert (Hclose : fileClose h k1 = (SYS_OK, k2)).
  { unfold fileClose.
    destruct ((h <? 0) || (h >=? MAX_FILE_HANDLES)) eqn:E1; tests; [lia|].
    rewrite H1h. cbn [fh_inUse fh_ownerTaskId fh negb]. rewrite Hc1.
    rewrite Z.eqb_refl. cbn [negb]. unfold freeFileHandle.
    destruct ((h <? 0) || (h >=? MAX_FILE_HANDLES)) eqn:E2; tests; [lia|].
    rewrite H1h. done. }
  assert (Hat2 : forall j, 0 <= j ->
            fileHandle_at k2 j
            = if decide (h = j)
              then mkFileHandle None (currentTaskId k) false write
              else fileHandle_at k j).
  { intros j Hj. change (fileHandle_at k2 j) with (fileHandle_at kb j).
    unfold kb.
    change (fileHandles k1)
      with (fileHandles (emit (FileClosed (Some f)) k1)).
    rewrite fileHandle_at_insert by (done || lia).
    case_decide; [done|].
    change (fileHandle_at (emit (FileClosed (Some f)) k1) j)
      with (fileHandle_at k1 j).
    rewrite Hat1 by done. by rewrite decide_False. }
  exists k1, k2. split; [done|]. split; [done|].
  split; [by apply negb_true_iff in Hp|]. split.
  { intros i Hi. specialize (Hleast i Hi). by apply negb_false_iff in Hleast. }
  split; [done|]. split.
  { split; [done|]. by rewrite H1h. }
  split; [done|]. split.
  { rewrite Hat2 by lia. by rewrite decide_True. }
  split.
  { intros i Hi Hne. rewrite Hat2 by done. by rewrite decide_False. }
  split.
  { unfold allocateFileHandle. apply first_index_is.
    - unfold MAX_FILE_HANDLES in *. lia.
    - rewrite Hat2 by lia. by rewrite decide_True.
    - intros i Hi. rewrite Hat2 by lia. rewrite decide_False by lia.
      by apply Hleast. }
  split.
  2:{ change (trace k2)
        with ((trace k ++ [SdOpen path write]) ++ [FileClosed (Some f)]).
      by rewrite <- app_assoc. }
  unfold getCurrentTask at 1.
  change (currentTaskId k2) with (currentTaskId k).
  unfold k2. change (currentTaskId kb) with (currentTaskId k).
  rewrite task_at_update_task;
    [|lia|lia|change (tasks kb) with (tasks k1); unfold k1;
       rewrite tasks_update_task, length_alter;
       change (tasks ka) with (tasks k); rewrite Hlent;
       unfold MAX_TASKS in *; lia].
  rewrite decide_True by done.
  change (task_at kb (currentTaskId k)) with (task_at k1 (currentTaskId k)).
  rewrite <- Hc1. fold (getCurrentTask k1).
  rewrite Hcur1. cbn [task_fileHandles set_task_fileHandles].
  by rewrite list_insert_insert_eq.
Qed.

(** X24. Handles are private, and read-only handles stay read-only.  On
    a file handle in use that another task owns, [fileClose], [fileRead]
    and [fileWrite] answer [SYS_ERR_PERMISSION] and [fileSize] answers 0;
    on such a directory handle [dirClose] answers [SYS_ERR_PERMISSION],
    [dirRead] answers false and [dirRewind] does nothing.  [fileWrite]
    on one's own handle opened for reading answers
    [SYS_ERR_PERMISSION].  None of these calls changes the kernel or
    reaches the card. *)
Theorem foreign_handle_refused (hw : Hardware) (h : Z) (k : kernel) :
  (0 <= h < MAX_FILE_HANDLES -> fh_inUse (fileHandle_at k h) = true ->
   fh_ownerTaskId (fileHandle_at k h) <> currentTaskId k ->
   fileClose h k = (SYS_ERR_PERMISSION, k)
   /\ (forall n, fileRead hw h n k = (SYS_ERR_PERMISSION, k))
   /\ (forall n, fileWrite hw h n k = (SYS_ERR_PERMISSION, k))
   /\ fileSize hw h k = 0)
  /\ (0 <= h < MAX_DIR_HANDLES -> dh_inUse (dirHandle_at k h) = true ->
      dh_ownerTaskId (dirHandle_at k h) <> currentTaskId k ->
      dirClose h k = (SYS_ERR_PERMISSION, k)
      /\ (forall entry, dirRead hw h entry k = (false, k))
      /\ dirRewind h k = k)
  /\ (owns_file k h -> fh_canWrite (fileHandle_at k h) = false ->
      forall n, fileWrite hw h n k = (SYS_ERR_PERMISSION, k)).
Proof.
  split; [|split].
  - intros Hh Hu Ho.
    assert (E1 : (h <? 0) || (h >=? MAX_FILE_HANDLES) = false).
    { destruct (_ || _) eqn:E; [exfalso; tests; lia|done]. }
    assert (E2 : (fh_ownerTaskId (fileHandle_at k h) =? currentTaskId k)
                 = false) by (by apply Z.eqb_neq).
    unfold fileClose, fileRead, fileWrite, fileSize.
    rewrite E1, Hu, E2. done.
  - intros Hh Hu Ho.
    assert (E1 : (h <? 0) || (h >=? MAX_DIR_HANDLES) = false).
    { destruct (_ || _) eqn:E; [exfalso; tests; lia|done]. }
    assert (E2 : (dh_ownerTaskId (dirHandle_at k h) =? currentTaskId k)
                 = false) by (by apply Z.eqb_neq).
    unfold dirClose, dirRead, dirRewind.
    rewrite E1, Hu, E2. done.
  - intros (Hh & Hu & Ho) Hw n.
    assert (E1 : (h <? 0) || (h >=? MAX_FILE_HANDLES) = false).
    { destruct (_ || _) eqn:E; [exfalso; tests; lia|done]. }
    unfold fileWrite. rewrite E1, Hu, Ho, Z.eqb_refl, Hw. done.
Qed.

(** X25. The idle task may touch nothing.  Right after [init] the
    current task is the idle task, which has none of the capabilities:
    every GPIO, I2C and SPI call answers [SYS_ERR_PERMISSION], [fileOpen]
    and [dirOpen] answer [SYS_ERR_PERMISSION] when the card is mounted
    and [SYS_ERR_IO_ERROR] when it is not, and [fileDelete],
    [fileExists], [dirCreate] and [dirRemove] answer false.  None of
    these calls reaches a peripheral or changes the kernel, so code that
    runs before the first task is scheduled cannot use them. *)
Theorem idle_task_has_no_access (hw : Hardware) (sdBegin : bool)
    (tIdle tBoot tWatchdog : Z) :
  let k := (init sdBegin tIdle tBoot tWatchdog static_init).2 in
  (forall pin mode, gpioSetMode pin mode k = (SYS_ERR_PERMISSION, k))
  /\ (forall pin v, gpioWrite pin v k = (SYS_ERR_PERMISSION, k))
  /\ (forall pin, gpioRead hw pin k = (SYS_ERR_PERMISSION, k))
  /\ (forall pin, gpioAnalogRead hw pin k = (SYS_ERR_PERMISSION, k))
  /\ (forall pin v, gpioAnalogWrite pin v k = (SYS_ERR_PERMISSION, k))
  /\ (forall a, i2cBegin a k = (SYS_ERR_PERMISSION, k))
  /\ (forall a d n, i2cWrite hw a d n k = (SYS_ERR_PERMISSION, k))
  /\ (forall a b n, i2cRead hw a b n k = (SYS_ERR_PERMISSION, k))
  /\ (forall a n, i2cRequest hw a n k = (SYS_ERR_PERMISSION, k))
  /\ spiBegin k = (SYS_ERR_PERMISSION, k)
  /\ (forall tx rx n, spiTransfer hw tx rx n k = (SYS_ERR_PERMISSION, k))
  /\ spiEnd k = (SYS_ERR_PERMISSION, k)
  /\ (forall path w,
         fileOpen hw path w k
         = (if sdBegin then SYS_ERR_PERMISSION else SYS_ERR_IO_ERROR, k))
  /\ (forall path,
         dirOpen hw path k
         = (if sdBegin then SYS_ERR_PERMISSION else SYS_ERR_IO_ERROR, k))
  /\ (forall path, fileDelete hw path k = (false, k))
  /\ (forall path, fileExists hw path k = (false, k))
  /\ (forall path, dirCreate hw path k = (false, k))
  /\ (forall path, dirRemove hw path k = (false, k)).
Proof.
  intros k. repeat split; intros; try reflexivity; by destruct sdBegin.
Qed.

(** X26. What [syscall] hides.  [fileDelete], [dirCreate] and
    [dirRemove] answer a plain false for a missing capability, an
    unmounted card and a failure of the card alike, and [syscall] turns
    that false into [SYS_ERR_IO_ERROR]: through [syscall] these three
    calls never answer [SYS_ERR_PERMISSION], whatever the state and the
    arguments, and [SYS_FILE_EXISTS] answers 0 for a task that may not
    look.  The same task asking for [SYS_FILE_OPEN] or [SYS_DIR_OPEN] on
    a mounted card is told [SYS_ERR_PERMISSION]. *)
Theorem syscall_hides_refusal (hw : Hardware) (fuel : nat) (clock : nat -> Z)
    (arg1 arg2 arg3 arg4 : Arg) (k : kernel) :
  (SyscallType_of_Z 4 = Some SYS_FILE_DELETE
   /\ SyscallType_of_Z 5 = Some SYS_FILE_EXISTS
   /\ SyscallType_of_Z 10 = Some SYS_DIR_CREATE
   /\ SyscallType_of_Z 11 = Some SYS_DIR_REMOVE
   /\ SyscallType_of_Z 0 = Some SYS_FILE_OPEN
   /\ SyscallType_of_Z 7 = Some SYS_DIR_OPEN)
  /\ (forall code k',
         code = 4 \/ code = 10 \/ code = 11 ->
         syscall hw fuel clock code arg1 arg2 arg3 arg4 k
         <> Returns SYS_ERR_PERMISSION k')
  /\ (sdInitialized k = false \/ canAccessSD (getCurrentTask k) = false ->
      syscall hw fuel clock 4 arg1 arg2 arg3 arg4 k
      = Returns SYS_ERR_IO_ERROR k
      /\ syscall hw fuel clock 10 arg1 arg2 arg3 arg4 k
         = Returns SYS_ERR_IO_ERROR k
      /\ syscall hw fuel clock 11 arg1 arg2 arg3 arg4 k
         = Returns SYS_ERR_IO_ERROR k
      /\ syscall hw fuel clock 5 arg1 arg2 arg3 arg4 k = Returns 0 k)
  /\ (sdInitialized k = true -> canAccessSD (getCurrentTask k) = false ->
      syscall hw fuel clock 0 arg1 arg2 arg3 arg4 k
      = Returns SYS_ERR_PERMISSION k
      /\ syscall hw fuel clock 7 arg1 arg2 arg3 arg4 k
         = Returns SYS_ERR_PERMISSION k).
Proof.
  split; [by repeat split|]. split; [|split].
  - intros code k' [->|[->| ->]]; unfold syscall; simpl SyscallType_of_Z;
      cbv iota.
    + destruct (fileDelete hw (arg_string arg1) k) as [[] ?]; intros H;
        injection H as H _; done.
    + destruct (dirCreate hw (arg_string arg1) k) as [[] ?]; intros H;
        injection H as H _; done.
    + destruct (dirRemove hw (arg_string arg1) k) as [[] ?]; intros H;
        injection H as H _; done.
  - intros Hno. unfold syscall. simpl SyscallType_of_Z. cbv iota.
    unfold fileDelete, dirCreate, dirRemove, fileExists.
    destruct Hno as [-> | Hno]; [done|].
    rewrite Hno. by destruct (sdInitialized k).
  - intros Hsd Hno. unfold syscall. simpl SyscallType_of_Z. cbv iota.
    unfold fileOpen, dirOpen. by rewrite Hsd, Hno.
Qed.

(** *** Memory through [syscall] *)

(** X27. Allocation and release through [syscall].  On a board whose
    heap lies below 2^31, [SYS_MEM_ALLOC] with a size that fits returns
    the address of the payload, which is the heap's address plus the
    watermark plus the header size, and charges the rounded size to the
    current task; [SYS_MEM_FREE] with that address returns [SYS_OK],
    marks the block free and takes the charge back, so the task table is
    as before the allocation.  The watermark stays where the allocation
    left it. *)
Theorem syscall_alloc_then_free (hw : Hardware) (fuel : nat)
    (clock : nat -> Z) (size : Z) (k : kernel) :
  target_ok -> accounting_inv k -> alloc_size_ok size -> 0 < size ->
  heapUsed k + (sizeof_MemoryBlock + round_up4 size) <= KERNEL_HEAP_SIZE ->
  0 < kernelHeap_address ->
  kernelHeap_address + KERNEL_HEAP_SIZE < 2 ^ 31 ->
  let a := kernelHeap_address + heapUsed k + sizeof_MemoryBlock in
  SyscallType_of_Z 13 = Some SYS_MEM_ALLOC
  /\ SyscallType_of_Z 14 = Some SYS_MEM_FREE
  /\ exists k1 k2,
      syscall hw fuel clock 13 (ArgWord size) ArgNull ArgNull ArgNull k
      = Returns a k1
      /\ kernelHeap k1
         = kernelHeap k
           ++ [mkMemoryBlock (round_up4 size) (currentTaskId k) true (-1)]
      /\ task_memoryUsed (getCurrentTask k1)
         = task_memoryUsed (getCurrentTask k) + round_up4 size
      /\ syscall hw fuel clock 14 (ArgWord a) ArgNull ArgNull ArgNull k1
         = Returns SYS_OK k2
      /\ kernelHeap k2
         = kernelHeap k
           ++ [mkMemoryBlock (round_up4 size) (currentTaskId k) false (-1)]
      /\ heapUsed k2 = heapUsed k + (sizeof_MemoryBlock + round_up4 size)
      /\ tasks k2 = tasks k.
Proof.
  intros Hok Hinv Hsz Hpos Hroom Haddr Hhigh a.
  split; [done|]. split; [done|].
  pose proof Hok as (Hh & Hk & Hfit).
  pose proof Hinv as (Hwf & Htw & _).
  pose proof Hwf as (Hu & Hle & Hf).
  pose proof (heap_total_nonneg _ Hok Hf) as Hnn.
  pose proof (round_up4_bounds size) as [Hr _].
  destruct (alloc_free_steps size k Hok Hinv Hsz Hpos Hroom)
    as (k1 & k2 & Ha & Hh1 & Hm1 & Hfree & Hh2 & Hu2 & Ht2).
  exists k1, k2. unfold syscall. simpl SyscallType_of_Z. cbv iota.
  cbn [arg_size arg_pointer].
  assert (Hw : u32 size = size)
    by (unfold alloc_size_ok in Hsz; apply u32_small; lia).
  assert (Hwa : u32 a = a) by (unfold a; apply u32_small; lia).
  rewrite Hw, Hwa, Ha. cbn [map_outcome pointer_int].
  assert (Hs : s32 (kernelHeap_address + (heapUsed k + sizeof_MemoryBlock))
               = a).
  { unfold a. rewrite s32_small; lia. }
  rewrite Hs. split; [done|]. split; [done|]. split; [done|].
  destruct (a =? 0) eqn:E; tests; [unfold a in *; lia|].
  replace (a - kernelHeap_address) with (heapUsed k + sizeof_MemoryBlock)
    by (unfold a; lia).
  rewrite Hfree. by repeat split.
Qed.

(** * The task report *)

Lemma listed_S (k : kernel) (n : nat) :
  listed k (S n)
  = listed k n
    ++ (if TaskState_eqb (task_state (task_at k (Z.of_nat n))) TASK_EMPTY
        then [] else [Z.of_nat n]).
Proof.
  unfold listed. rewrite seq_S, fmap_app, filter_app. f_equal. simpl.
  rewrite filter_cons, filter_nil.
  destruct (TaskState_eqb _ _) eqn:E; by case_decide.
Qed.

Lemma printTaskList_loop (clock : nat -> Z) (k : kernel) (n : nat) :
  (forall i, 0 <= i < Z.of_nat n ->
     task_state (task_at k i) <> TASK_EMPTY ->
     is_Some (task_name (task_at k i))) ->
  exists rows,
    for_range 0 n (printTaskList_body clock k) (Some []) = Some rows
    /\ row_slot <$> rows = listed k n
    /\ forall (m : nat) (row : TaskRow),
         rows !! m = Some row ->
         exists name,
           task_name (task_at k (row_slot row)) = Some name
           /\ row = row_of k (clock m) (row_slot row) name.
Proof.
  induction n as [|n IH]; intros Hnames.
  { exists []. by repeat split. }
  destruct IH as (rows & Hrun & Hslots & Hrows).
  { intros i Hi. apply Hnames. lia. }
  rewrite for_range_S, Hrun, Z.add_0_l, listed_S.
  unfold printTaskList_body.
  destruct (TaskState_eqb _ _) eqn:E.
  { exists rows. rewrite app_nil_r. by repeat split. }
  destruct (Hnames (Z.of_nat n)) as [name Hname]; [lia| |].
  { intros Hs. rewrite Hs in E. done. }
  rewrite Hname. eexists. split; [done|].
  split; [by rewrite fmap_app, Hslots|].
  intros m row Hm.
  destruct (decide (m < length rows)%nat) as [Hlt|Hge].
  - rewrite lookup_app_l in Hm by done. by apply Hrows.
  - rewrite lookup_app_r in Hm by lia.
    destruct (m - length rows)%nat as [|d] eqn:Ed; [|done].
    injection Hm as <-. simpl. exists name. split; [done|].
    unfold row_of. by replace m with (length rows) by lia.
Qed.

Lemma state_label_calm (s : TaskState) :
  s <> TASK_EMPTY -> s <> TASK_BLOCKED -> s <> TASK_ZOMBIE ->
  (state_label s = "READY     "%string /\ s = TASK_READY)
  \/ (state_label s = "RUNNING   "%string /\ s = TASK_RUNNING)
  \/ (state_label s = "SLEEPING  "%string /\ s = TASK_SLEEPING).
Proof. destruct s; intros; try done; auto. Qed.

(** X28. What [printTaskList] prints.  When every task in the table has a
    name, the report has one row for each slot that is not empty, in
    increasing order of slot, and the row shows the slot's name, state,
    memory and the time since its last yield, read from the clock when
    the row is printed and wrapped to 32 bits.  In a table reached from
    boot through the task operations the report is never empty, no row
    reads BLOCKED or UNKNOWN, and a row reads RUNNING only for the
    current task. *)
Theorem printTaskList_rows (clock : nat -> Z) (k : kernel) :
  (forall i, 0 <= i < MAX_TASKS ->
     task_state (task_at k i) <> TASK_EMPTY ->
     is_Some (task_name (task_at k i))) ->
  exists rows,
    printTaskList clock k = Some rows
    /\ row_slot <$> rows = listed k (Z.to_nat MAX_TASKS)
    /\ (forall (m : nat) (row : TaskRow),
          rows !! m = Some row ->
          exists name,
            task_name (task_at k (row_slot row)) = Some name
            /\ row = row_of k (clock m) (row_slot row) name
            /\ 0 <= row_timeSinceYield row < 2 ^ 32)
    /\ (task_inv k ->
        rows <> []
        /\ forall row, row ∈ rows ->
             (row_state row = "READY     "%string
              \/ row_state row = "RUNNING   "%string
              \/ row_state row = "SLEEPING  "%string)
             /\ (row_state row = "RUNNING   "%string ->
                 row_slot row = currentTaskId k)).
Proof.
  intros Hnames.
  destruct (printTaskList_loop clock k (Z.to_nat MAX_TASKS))
    as (rows & Hrun & Hslots & Hrows).
  { intros i Hi. apply Hnames. unfold MAX_TASKS in *. lia. }
  exists rows. split; [done|]. split; [done|]. split.
  { intros m row Hm. destruct (Hrows m row Hm) as (name & Hname & Hrow).
    exists name. split; [done|]. split; [done|].
    rewrite Hrow. simpl. apply u32_range. }
  intros (Hwf & H0 & Hinv). split.
  { intros ->. simpl in Hslots.
    assert (Hin : 0 ∈ listed k (Z.to_nat MAX_TASKS)).
    { unfold listed. apply list_elem_of_filter. split.
      - by destruct (task_state (task_at k 0)).
      - apply (list_elem_of_fmap_2 Z.of_nat _ 0%nat). apply elem_of_seq.
        unfold MAX_TASKS. lia. }
    rewrite <- Hslots in Hin. by apply elem_of_nil in Hin. }
  intros row Hin. apply list_elem_of_lookup in Hin as [m Hm].
  destruct (Hrows m row Hm) as (name & Hname & Hrow).
  assert (Hslot : row_slot row ∈ listed k (Z.to_nat MAX_TASKS)).
  { rewrite <- Hslots. apply list_elem_of_fmap_2.
    by apply list_elem_of_lookup_2 in Hm. }
  unfold listed in Hslot. apply list_elem_of_filter in Hslot as [Hne Hseq].
  apply list_elem_of_fmap in Hseq as (j & Hj & Hjn). apply elem_of_seq in Hjn.
  assert (Hlook : tasks k !! j = Some (task_at k (row_slot row))).
  { unfold task_at. rewrite Hj, Nat2Z.id.
    destruct (lookup_lt_is_Some_2 (tasks k) j) as [t Ht]; [|by rewrite Ht].
    unfold tasks_wf in Hwf. lia. }
  destruct (Hinv j _ Hlook) as (Hrunning & Hnb & Hnz).
  assert (Hnempty : task_state (task_at k (row_slot row)) <> TASK_EMPTY).
  { intros Hs. by rewrite Hs in Hne. }
  rewrite Hrow. cbn [row_state row_slot row_of].
  destruct (state_label_calm _ Hnempty Hnb Hnz) as [[-> Hs]|[[-> Hs]|[-> Hs]]].
  - split; [by left|]. done.
  - split; [by right; left|]. intros _. rewrite Hj. by apply Hrunning.
  - split; [by right; right|]. done.
Qed.

(** * The shell: path resolution *)

Lemma strncpy_terminated_length (src : list byte) (n : Z) :
  1 <= n -> Z.of_nat (length (strncpy_terminated src n)) <= n - 1.
Proof. intros Hn. unfold strncpy_terminated. rewrite length_take. lia. Qed.

Lemma strncpy_terminated_fits (src : list byte) (n : Z) :
  Z.of_nat (length src) < n -> strncpy_terminated src n = src.
Proof. intros Hn. unfold strncpy_terminated. apply take_ge. lia. Qed.

Lemma strncat_length (dst src : list byte) (n m : Z) :
  Z.of_nat (length dst) <= m - 1 -> n <= m - Z.of_nat (length dst) - 1 ->
  Z.of_nat (length (strncat dst src n)) <= m - 1.
Proof.
  intros Hd Hn. unfold strncat. rewrite length_app, length_take. lia.
Qed.

(** X29. [resolvePath] stays inside its buffer.  For a buffer of at
    least two bytes, whatever the path and the current directory, the
    call is defined and leaves in [output] a string that fits with its
    terminating zero: an absolute path, the parent directory or the
    current directory followed by the path, cut off where the buffer
    ends.  For a buffer of size 0, and for ".." with a buffer of size 1
    and no slash to cut at, the source writes outside the buffer. *)
Theorem resolvePath_fits (path currentDir : list byte) (outputSize : Z) :
  (2 <= outputSize ->
   exists output,
     resolvePath path currentDir outputSize = Some output
     /\ Z.of_nat (length output) < outputSize)
  /\ resolvePath path currentDir 0 = None
  /\ resolvePath ["."%byte; "."%byte] [] 1 = None.
Proof.
  split; [|by split]. intros Hn. unfold resolvePath.
  destruct (outputSize <? 1) eqn:E; tests; [lia|].
  assert (H1 : 1 <= outputSize) by lia.
  pose proof (strncpy_terminated_length currentDir outputSize H1) as Hc.
  destruct (Byte.eqb (first_char path) "/").
  { eexists. split; [done|].
    pose proof (strncpy_terminated_length path outputSize H1). lia. }
  destruct (strcmp_eq path _).
  - set (out0 := strncpy_terminated currentDir outputSize) in *.
    set (out1 := if _ && _ then _ else out0).
    assert (Hl1 : Z.of_nat (length out1) <= outputSize - 1).
    { unfold out1. destruct (_ && _); [|done]. rewrite length_take. lia. }
    clearbody out1.
    destruct (strrchr out1 "/") as [[|i]|].
    + destruct (outputSize <? 2) eqn:E2; tests; [lia|].
      eexists. split; [done|]. simpl. lia.
    + eexists. split; [done|]. rewrite length_take. lia.
    + destruct (outputSize <? 2) eqn:E2; tests; [lia|].
      eexists. split; [done|]. simpl. lia.
  - set (out0 := strncpy_terminated currentDir outputSize) in *.
    set (out1 := if _ && _ then _ else out0).
    assert (Hl1 : Z.of_nat (length out1) <= outputSize - 1).
    { unfold out1. destruct (_ && _); [|done].
      by apply strncat_length. }
    clearbody out1. eexists. split; [done|].
    pose proof (strncat_length out1 path
                  (outputSize - Z.of_nat (length out1) - 1) outputSize Hl1).
    lia.
Qed.

Lemma strcmp_eq_true (a b : list byte) : strcmp_eq a b = true -> a = b.
Proof.
  revert b. induction a as [|x a IH]; intros [|y b] H; try done.
  cbn [strcmp_eq] in H. apply andb_true_iff in H as [H1 H2].
  apply byte_dec_bl in H1. apply IH in H2. by subst.
Qed.

Lemma strrchr_none (s : list byte) (c : byte) :
  Forall (fun x => x <> c) s -> strrchr s c = None.
Proof.
  intros H. induction H as [|x s Hx Hs IH]; [done|].
  cbn [strrchr]. rewrite IH.
  destruct (Byte.eqb x c) eqn:E; [|done]. by apply byte_dec_bl in E.
Qed.

Lemma strrchr_app_none (l s : list byte) (c : byte) :
  Forall (fun x => x <> c) s -> strrchr (l ++ s) c = strrchr l c.
Proof.
  intros H. induction l as [|x l IH]; [by apply strrchr_none|].
  change ((x :: l) ++ s) with (x :: (l ++ s)). cbn [strrchr]. by rewrite IH.
Qed.

Lemma strrchr_snoc (l : list byte) (c : byte) :
  strrchr (l ++ [c]) c = Some (length l).
Proof.
  induction l as [|x l IH].
  - simpl. by rewrite (byte_dec_lb (eq_refl c)).
  - change ((x :: l) ++ [c]) with (x :: (l ++ [c])). cbn [strrchr].
    by rewrite IH.
Qed.

Lemma last_char_component (l s : list byte) :
  path_component s -> last_char (l ++ s) <> "/"%byte.
Proof.
  intros [Hne Hall]. unfold last_char.
  destruct (last s) as [c|] eqn:E.
  - rewrite last_app, E. simpl.
    apply last_Some in E as [s' ->].
    apply Forall_app in Hall as [_ Hc]. by inversion Hc.
  - apply last_None in E. done.
Qed.

(** The parent of a directory: [parent] followed by one component, with
    or without the closing slash. *)
Lemma resolvePath_parent (parent comp : list byte) (n : Z) :
  ends_with_slash parent -> path_component comp ->
  Z.of_nat (length parent + length comp + 1) < n ->
  resolvePath ["."%byte; "."%byte] (parent ++ comp ++ ["/"%byte]) n
  = Some parent
  /\ resolvePath ["."%byte; "."%byte] (parent ++ comp) n = Some parent.
Proof.
  intros Hp Hcomp Hn. pose proof Hcomp as [Hne Hall].
  apply last_Some in Hp as [p' ->].
  assert (Hlc : (0 < length comp)%nat) by (destruct comp; [done|simpl; lia]).
  assert (Hup : forall out,
             strrchr out "/" = Some (length p') ->
             take (S (length p')) out = p' ++ ["/"%byte] ->
             1 <= n - 1 ->
             match strrchr out "/" with
             | Some (S i) => Some (take (S (S i)) out)
             | _ => if n <? 2 then None else Some ["/"%byte]
             end = Some (p' ++ ["/"%byte])).
  { intros out Hr Ht H2. rewrite Hr. destruct p' as [|x p'].
    - simpl. by destruct (n <? 2) eqn:E; tests; [lia|].
    - cbn [length] in Ht |- *. cbv iota. by rewrite Ht. }
  assert (Hr : strrchr ((p' ++ ["/"%byte]) ++ comp) "/" = Some (length p')).
  { rewrite strrchr_app_none by done. apply strrchr_snoc. }
  assert (Ht : take (S (length p')) ((p' ++ ["/"%byte]) ++ comp)
               = p' ++ ["/"%byte]).
  { apply take_app_length'. rewrite length_app. simpl. lia. }
  rewrite !length_app in Hn. cbn [length] in Hn.
  unfold resolvePath.
  destruct (n <? 1) eqn:E; tests; [lia|].
  change (Byte.eqb (first_char ["."%byte; "."%byte]) "/") with false.
  change (strcmp_eq ["."%byte; "."%byte] ["."%byte; "."%byte]) with true.
  cbv iota. split.
  - rewrite strncpy_terminated_fits
      by (rewrite !length_app; cbn [length]; lia).
    rewrite (app_assoc (p' ++ ["/"%byte]) comp ["/"%byte]).
    set (cur := (p' ++ ["/"%byte]) ++ comp) in *.
    assert (Hlen : Z.of_nat (length (cur ++ ["/"%byte]))
                   = Z.of_nat (length cur) + 1)
      by (rewrite length_app; simpl; lia).
    assert (Hcur : (1 <= length cur)%nat)
      by (unfold cur; rewrite !length_app; simpl; lia).
    cbv zeta. rewrite Hlen.
    destruct (Z.of_nat (length cur) + 1 >? 1) eqn:E1; tests; [|lia].
    assert (Hl : Byte.eqb (last_char (cur ++ ["/"%byte])) "/" = true)
      by (unfold last_char; by rewrite last_snoc).
    rewrite Hl. cbn [andb]. cbv iota.
    replace (Z.to_nat (Z.of_nat (length cur) + 1 - 1)) with (length cur)
      by lia.
    rewrite take_app_length. apply Hup; [done|done|lia].
  - rewrite strncpy_terminated_fits
      by (rewrite !length_app; cbn [length]; lia).
    set (cur := (p' ++ ["/"%byte]) ++ comp) in *.
    cbv zeta.
    assert (Hlast : Byte.eqb (last_char cur) "/" = false).
    { destruct (Byte.eqb (last_char cur) "/") eqn:E1; [|done].
      apply byte_dec_bl in E1.
      by destruct (last_char_component (p' ++ ["/"%byte]) comp Hcomp). }
    rewrite Hlast, andb_false_r. apply Hup; [done|done|lia].
Qed.

(** X30. Into a directory and back.  From a current directory that ends
    with a slash, a relative path made of one component other than ".."
    resolves to the directory followed by the component, and ".." from
    there, with or without a closing slash, resolves to the directory the
    shell came from; ".." from the root is the root.  The slash that
    closes the parent is kept, so paths built on it need no separator.
    A path that starts with a slash resolves to itself.  (All strings
    are taken to fit the buffer.) *)
Theorem resolvePath_round_trip (dir comp : list byte) (n : Z) :
  ends_with_slash dir -> path_component comp ->
  comp <> ["."%byte; "."%byte] ->
  Z.of_nat (length dir + length comp + 1) < n ->
  resolvePath comp dir n = Some (dir ++ comp)
  /\ resolvePath ["."%byte; "."%byte] (dir ++ comp ++ ["/"%byte]) n = Some dir
  /\ resolvePath ["."%byte; "."%byte] (dir ++ comp) n = Some dir
  /\ resolvePath ["."%byte; "."%byte] ["/"%byte] n = Some ["/"%byte]
  /\ resolvePath ("/"%byte :: comp) dir n = Some ("/"%byte :: comp).
Proof.
  intros Hdir Hcomp Hdots Hn. pose proof Hcomp as [Hne Hall].
  destruct (resolvePath_parent dir comp n Hdir Hcomp Hn) as [Hp1 Hp2].
  assert (Hld : (1 <= length dir)%nat).
  { apply last_Some in Hdir as [d' ->]. rewrite length_app. simpl. lia. }
  split; [|split; [done|split; [done|split]]].
  - unfold resolvePath.
    destruct (n <? 1) eqn:E; tests; [lia|].
    assert (Hfirst : Byte.eqb (first_char comp) "/" = false).
    { destruct comp as [|c comp]; [done|].
      apply Forall_cons in Hall as [Hc _]. unfold first_char. simpl.
      destruct (Byte.eqb c "/") eqn:E1; [|done]. by apply byte_dec_bl in E1. }
    rewrite Hfirst.
    destruct (strcmp_eq comp _) eqn:E2; [by apply strcmp_eq_true in E2|].
    rewrite strncpy_terminated_fits by lia. cbv zeta.
    assert (Hlast : Byte.eqb (last_char dir) "/" = true).
    { unfold last_char. rewrite Hdir. done. }
    rewrite Hlast. cbn [negb]. rewrite andb_false_r.
    unfold strncat. f_equal. f_equal. apply take_ge. lia.
  - unfold resolvePath.
    destruct (n <? 1) eqn:E; tests; [lia|].
    change (Byte.eqb (first_char ["."%byte; "."%byte]) "/") with false.
    change (strcmp_eq ["."%byte; "."%byte] ["."%byte; "."%byte]) with true.
    cbv iota. rewrite strncpy_terminated_fits by (simpl; lia).
    cbv zeta. change (Z.of_nat (length ["/"%byte]) >? 1) with false.
    cbn [andb]. cbv iota. simpl strrchr. cbv iota.
    by destruct (n <? 2) eqn:E2; tests; [lia|].
  - unfold resolvePath.
    destruct (n <? 1) eqn:E; tests; [lia|].
    change (Byte.eqb (first_char ("/"%byte :: comp)) "/") with true.
    cbv iota. rewrite strncpy_terminated_fits; [done|]. simpl length. lia.
Qed.

End Properties.

(** * Concrete runs of the scheduler and the watchdog *)

(** The watchdog at work: 500 ms after boot it does nothing; 6000 ms after
    boot it forces the Running task of slot 1, which last yielded at 0,
    and records the time of the check, so a check at 6500 does nothing. *)
Lemma checkWatchdog_spec_witness :
  checkWatchdog 500 (schedule 0 0 one_task) = schedule 0 0 one_task
  /\ tasks (checkWatchdog 6000 (schedule 0 0 one_task)) !! 1%nat
     = Some (set_task_lastYield 6000
               (set_task_state TASK_READY (task_at (schedule 0 0 one_task) 1)))
  /\ watchdogLastCheck (checkWatchdog 6000 (schedule 0 0 one_task)) = 6000
  /\ checkWatchdog 6500 (checkWatchdog 6000 (schedule 0 0 one_task))
     = checkWatchdog 6000 (schedule 0 0 one_task).
Proof.
  assert (Hen : watchdogEnabled (schedule 0 0 one_task) = true)
    by (vm_compute; reflexivity).
  assert (Hel : 1000 <= u32 (6000 - watchdogLastCheck (schedule 0 0 one_task)))
    by (apply Z.leb_le; vm_compute; reflexivity).
  destruct (checkWatchdog_spec 500 (schedule 0 0 one_task)) as (Hidle & _).
  destruct (checkWatchdog_spec 6000 (schedule 0 0 one_task))
    as (_ & Hrun & _ & Hclock & _).
  destruct (Hclock Hen Hel) as [Hc Hsoon].
  split; [|split; [|split]].
  - apply Hidle. vm_compute. reflexivity.
  - apply (Hrun Hen Hel 1%nat (task_at (schedule 0 0 one_task) 1)
             ltac:(vm_compute; lia) ltac:(vm_compute; reflexivity));
      [vm_compute; discriminate|vm_compute; discriminate
      |vm_compute; reflexivity].
  - exact Hc.
  - apply Hsoon. vm_compute. reflexivity.
Defined.

(** The first [schedule()] after the creation of a task switches from the
    idle task to it and calls it. *)
Lemma schedule_switch_example :
  tasks_wf one_task
  /\ bestTask_of 0 (checkWatchdog 0 one_task)
     <> currentTaskId (checkWatchdog 0 one_task)
  /\ currentTaskId (schedule 0 0 one_task) = 1
  /\ trace (schedule 0 0 one_task) = trace one_task ++ [Invoke 1%nat].
Proof.
  assert (Hwf : tasks_wf one_task).
  { split; [reflexivity|]. vm_compute. split; [discriminate|reflexivity]. }
  assert (Hne : bestTask_of 0 (checkWatchdog 0 one_task)
                <> currentTaskId (checkWatchdog 0 one_task)).
  { vm_compute. discriminate. }
  split; [exact Hwf|]. split; [exact Hne|].
  destruct (schedule_switch_spec 0 0 one_task Hwf) as (_ & _ & H).
  destruct (H Hne) as (Hc & t & HW & _ & Htr).
  split; [exact Hc|].
  vm_compute in HW. injection HW as <-. exact Htr.
Defined.

(** C1: the scheduler never runs a task that yielded and is selected
    again.  Task A is created after boot, the first [schedule()] switches
    to it and calls it, and its body calls [yield()] at time 1 and
    returns: A is the current task and Ready.  At the next [schedule()],
    at time 2, A is the Ready task of highest priority, so it is the task
    selected; the claim has it marked Running, [lastRun] set to 2 and its
    entry point called once.  The code skips the switch block because the
    selected slot is the current one, so A stays Ready with the
    [lastRun] of its first run, and the step that executes the current
    task, which tests for Running, calls nothing. *)
Theorem schedule_skips_yielded_task :
  currentTaskId one_task_yielded = 1
  /\ task_state (task_at one_task_yielded 1) = TASK_READY
  /\ task_entryPoint (task_at one_task_yielded 1) = Some 1%nat
  /\ is_selected
       (wake 2 <$> tasks (checkWatchdog 2 one_task_yielded)) 1
  /\ bestTask_of 2 (checkWatchdog 2 one_task_yielded) = 1
  /\ currentTaskId (schedule 2 2 one_task_yielded) = 1
  /\ task_state (task_at (schedule 2 2 one_task_yielded) 1) = TASK_READY
  /\ task_lastRun (task_at (schedule 2 2 one_task_yielded) 1) = 0
  /\ trace (schedule 2 2 one_task_yielded) = trace one_task_yielded
  /\ ~ schedule_contract 2 2 one_task_yielded.
Proof.
  assert (Hwf : tasks_wf one_task_yielded).
  { split; [reflexivity|]. vm_compute. split; [discriminate|reflexivity]. }
  destruct (schedule_switch_spec 2 2 one_task_yielded Hwf) as (Hsel & _).
  assert (Hb : bestTask_of 2 (checkWatchdog 2 one_task_yielded) = 1)
    by (vm_compute; reflexivity).
  rewrite Hb in Hsel.
  do 3 (split; [vm_compute; reflexivity|]). split; [exact Hsel|].
  do 5 (split; [vm_compute; reflexivity|]).
  intros (b & t & e & _ & _ & _ & _ & _ & Htr).
  vm_compute in Htr. discriminate.
Qed.

(** * Concrete runs of the heap *)

Lemma giga_r1_ok : target_ok (target := giga_r1).
Proof. unfold target_ok. simpl. lia. Qed.

(** C6: a request of [SIZE_MAX] bytes.  Rounded up to the next multiple of
    4 it is 2^32, far beyond the heap, so the allocation should fail; the
    [size_t] addition [size + 3] wraps around instead, the size becomes 0,
    and [memAlloc] returns the payload address of a block of 0 bytes. *)
Lemma memAlloc_wraps :
  round_up4 (2 ^ 32 - 1) = 2 ^ 32
  /\ align4 (2 ^ 32 - 1) = 0
  /\ exists k',
      memAlloc (target := giga_r1) (2 ^ 32 - 1) booted = Returns (Some 16) k'
      /\ kernelHeap k' = [mkMemoryBlock 0 0 true (-1)]
      /\ heapUsed k' = 16
      /\ task_memoryUsed (task_at k' 0) = 0.
Proof.
  split; [reflexivity|]. split; [reflexivity|]. eexists.
  split; [vm_compute; reflexivity|]. by vm_compute.
Qed.

(** A request of [SIZE_MAX - 15] bytes is already a multiple of 4; here it
    is [sizeof(MemoryBlock) + size] that wraps around, to 0: the block is
    handed out although it is larger than the whole heap, and the
    watermark does not move.  The header lies at the watermark, where the
    walk over the heap does not look and where the next allocation writes
    its own header: the same address is handed out twice. *)
Lemma memAlloc_wraps_total :
  exists k',
    memAlloc (target := giga_r1) (2 ^ 32 - 16) booted = Returns (Some 16) k'
    /\ kernelHeap k' = []
    /\ heapUsed k' = 0
    /\ task_memoryUsed (task_at k' 0) = 2 ^ 32 - 16
    /\ exists k'',
        memAlloc (target := giga_r1) 100 k' = Returns (Some 16) k''
        /\ kernelHeap k'' = [mkMemoryBlock 100 0 true (-1)].
Proof.
  exists (after (memAlloc (target := giga_r1) (2 ^ 32 - 16) booted)).
  do 4 (split; [vm_compute; reflexivity|]).
  eexists. split; vm_compute; reflexivity.
Qed.

Lemma booted_accounting_inv : accounting_inv (target := giga_r1) booted.
Proof.
  split; [|split].
  - split; [reflexivity|]. split; [by vm_compute|]. constructor.
  - split; [reflexivity|]. by vm_compute.
  - split; [constructor|]. intros o Ho. unfold MAX_TASKS in Ho.
    assert (o = 0 \/ o = 1 \/ o = 2 \/ o = 3 \/ o = 4 \/ o = 5 \/ o = 6
            \/ o = 7) as Hcase by lia.
    destruct Hcase as [->|[->|[->|[->|[->|[->|[->| ->]]]]]]]; reflexivity.
Qed.

(** Scenario: three blocks of 100 bytes, the middle one freed, then the
    heap compacted. *)
Lemma memFree_then_compact_witness :
  target_ok (target := giga_r1)
  /\ heap_wf (target := giga_r1) three_blocks
  /\ payload_of (target := giga_r1) three_blocks 132 1
       (mkMemoryBlock 100 0 true (-1))
  /\ exists k1 k2,
      memFree (target := giga_r1) (Some 132) three_blocks = Returns tt k1
      /\ memAvailable (target := giga_r1) k1
         = memAvailable (target := giga_r1) three_blocks
      /\ memCompact (target := giga_r1) k1 = Returns tt k2
      /\ memAvailable (target := giga_r1) k2
         = memAvailable (target := giga_r1) k1 + (100 + 16).
Proof.
  assert (Hwf : heap_wf (target := giga_r1) three_blocks).
  { split; [reflexivity|]. split; [by vm_compute|].
    repeat constructor; by vm_compute. }
  assert (Hp : payload_of (target := giga_r1) three_blocks 132 1
                 (mkMemoryBlock 100 0 true (-1))) by (split; reflexivity).
  split; [exact giga_r1_ok|]. split; [exact Hwf|]. split; [exact Hp|].
  destruct (memFree_then_compact (target := giga_r1) 132 1
              (mkMemoryBlock 100 0 true (-1)) three_blocks
              giga_r1_ok Hwf Hp eq_refl)
    as (k1 & k2 & kc & H1 & _ & H3 & _ & _ & _ & H7 & _ & _ & H10).
  exists k1, k2. split; [exact H1|]. split; [exact H3|]. split; [exact H7|].
  apply H10. repeat constructor.
Defined.

(** A run that keeps the accounting: the idle task allocates two blocks,
    frees the first and compacts; a task is created, killed and its slot
    claimed again. *)
Lemma accounting_preserved_witness :
  ops_ok (target := giga_r1)
    [OpMemAlloc 100; OpMemAlloc 20; OpMemFree (Some 16); OpMemCompact;
     OpCreateTask (Some "A"%string) (Some 1%nat) 5; OpKillTask 1;
     OpCreateTask (Some "B"%string) (Some 2%nat) 6] booted
  /\ exists k',
      run (target := giga_r1)
        [OpMemAlloc 100; OpMemAlloc 20; OpMemFree (Some 16); OpMemCompact;
         OpCreateTask (Some "A"%string) (Some 1%nat) 5; OpKillTask 1;
         OpCreateTask (Some "B"%string) (Some 2%nat) 6] booted
      = Returns tt k'
      /\ sum_memoryUsed (tasks k') = live_bytes (kernelHeap k')
      /\ live_bytes (kernelHeap k') = 20.
Proof.
  set (ops := [OpMemAlloc 100; OpMemAlloc 20; OpMemFree (Some 16);
               OpMemCompact; OpCreateTask (Some "A"%string) (Some 1%nat) 5;
               OpKillTask 1; OpCreateTask (Some "B"%string) (Some 2%nat) 6]).
  assert (Hok : ops_ok (target := giga_r1) ops booted)
    by (apply ops_okb_sound; vm_compute; reflexivity).
  split; [exact Hok|].
  destruct (accounting_preserved (target := giga_r1) ops booted giga_r1_ok
              booted_accounting_inv Hok) as (k' & Hrun & Hsum & _).
  exists k'. split; [exact Hrun|]. split; [exact Hsum|].
  assert (Hk : k' = after (run (target := giga_r1) ops booted))
    by (rewrite Hrun; reflexivity).
  rewrite Hk. vm_compute. reflexivity.
Defined.

(** An address that a compaction has made stale is not the payload
    address of a block: three blocks of 100 bytes, the middle one freed,
    the heap compacted, and then the old address of the third block.  The
    run is not one of those the accounting is stated for; the list of
    headers has nothing at that address, where the source finds what the
    compaction left behind. *)
Lemma stale_address_is_no_payload :
  exists k,
    run (target := giga_r1)
      [OpMemAlloc 100; OpMemAlloc 100; OpMemAlloc 100; OpMemFree (Some 132);
       OpMemCompact] booted
    = Returns tt k
    /\ is_payloadb (target := giga_r1) k 248 = false
    /\ is_payloadb (target := giga_r1) k 132 = true
    /\ memFree (target := giga_r1) (Some 248) k = Undefined.
Proof.
  eexists. split; [vm_compute; reflexivity|].
  split; [vm_compute; reflexivity|]. split; vm_compute; reflexivity.
Qed.

(** C2, as the specification words it, fails.  B kills A, whose block of
    100 bytes stays in use and charged to slot 1; [createTask] then claims
    slot 1 and sets its [memoryUsed] to 0. *)
Lemma accounting_counterexample :
  accounting_inv (target := giga_r1) two_tasks_one_block
  /\ accounting two_tasks_one_block
  /\ ~ accounting_claim (target := giga_r1) two_tasks_one_block
         kill_and_create
  /\ exists k',
      run (target := giga_r1) kill_and_create two_tasks_one_block
      = Returns tt k'
      /\ sum_memoryUsed (tasks k') = 0
      /\ live_bytes (kernelHeap k') = 100.
Proof.
  assert (Hh : kernelHeap two_tasks_one_block = [mkMemoryBlock 100 1 true (-1)])
    by (vm_compute; reflexivity).
  split; [|split; [vm_compute; reflexivity|split]].
  - unfold accounting_inv, heap_wf, tasks_wf, owner_acct. rewrite Hh.
    split; [|split].
    + split; [vm_compute; reflexivity|].
      split; [apply Z.leb_le; vm_compute; reflexivity|].
      apply List.Forall_cons; [simpl; lia|apply List.Forall_nil].
    + split; [vm_compute; reflexivity|].
      split; [apply Z.leb_le|apply Z.ltb_lt]; vm_compute; reflexivity.
    + split.
      { apply List.Forall_cons; [|apply List.Forall_nil].
        simpl. intros _. unfold MAX_TASKS. lia. }
      intros o Ho. unfold MAX_TASKS in Ho.
      assert (o = 0 \/ o = 1 \/ o = 2 \/ o = 3 \/ o = 4 \/ o = 5 \/ o = 6
              \/ o = 7) as Hcase by lia.
      destruct Hcase as [->|[->|[->|[->|[->|[->|[->| ->]]]]]]];
        vm_compute; reflexivity.
  - intros H.
    specialize (H (after (run (target := giga_r1) kill_and_create
                            two_tasks_one_block))
                  ltac:(vm_compute; reflexivity)).
    vm_compute in H. discriminate.
  - exists (after (run (target := giga_r1) kill_and_create
                     two_tasks_one_block)).
    split; [vm_compute; reflexivity|]. split; vm_compute; reflexivity.
Qed.

(** * Concrete runs of the mailboxes, semaphores and capabilities *)

Ltac slot_cases t Ht :=
  unfold MAX_TASKS in Ht;
  let H := fresh in
  assert (t = 0 \/ t = 1 \/ t = 2 \/ t = 3 \/ t = 4 \/ t = 5 \/ t = 6
          \/ t = 7) as H by lia;
  destruct H as [->|[->|[->|[->|[->|[->|[->| ->]]]]]]].

Lemma sender_running_mailboxes : mailboxes_wf sender_running.
Proof.
  split; [reflexivity|]. intros t Ht.
  slot_cases t Ht;
    (split; [reflexivity|]; split; [by vm_compute|]; split; [by vm_compute|];
     split; [reflexivity|]; constructor).
Qed.

(** The round trip of two bytes from task 1 to task 2. *)
Lemma ipc_send_receive_witness :
  mailboxes_wf sender_running
  /\ ipcSend 2 (Some payload_01) 2 5 sender_running = (SYS_OK, message_sent)
  /\ exists k3,
      ipcReceive true 64 true receiver_running = (2, k3)
      /\ trace k3
         = trace receiver_running ++ [CopyOut payload_01; StoreFrom 1].
Proof.
  pose proof sender_running_mailboxes as Hwf.
  assert (Hsend : ipcSend 2 (Some payload_01) 2 5 sender_running
                  = (SYS_OK, message_sent)) by reflexivity.
  split; [exact Hwf|]. split; [exact Hsend|].
  destruct ipc_send_receive as (_ & _ & _ & Hround).
  exact (Hround sender_running 2 (Some payload_01) 2 5 message_sent
           receiver_running 64 true Hwf eq_refl eq_refl Hsend eq_refl eq_refl
           ltac:(lia)).
Defined.

(** The three refusals of [ipcReceive]: an empty mailbox, a mailbox whose
    head entry is not valid, a buffer of one byte for a message of two. *)
Lemma ipcReceive_errors_witness :
  ipcReceive true 64 true booted = (SYS_ERR_WOULD_BLOCK, booted)
  /\ ipcReceive true 64 true broken_mailbox = (SYS_ERR_IO_ERROR, broken_mailbox)
  /\ ipcReceive true 1 true receiver_running
     = (SYS_ERR_INVALID_PARAM, receiver_running).
Proof.
  split; [|split].
  - apply (ipcReceive_errors true 64 true booted). reflexivity.
  - destruct (ipcReceive_errors true 64 true broken_mailbox) as (_ & H & _).
    apply (H zero_message); [discriminate|by vm_compute|reflexivity..].
  - destruct (ipcReceive_errors true 1 true receiver_running) as (_ & _ & H).
    apply (H (message_at (queue_at receiver_running 2) 0));
      [discriminate|by vm_compute|reflexivity|reflexivity|by vm_compute].
Defined.

(** A full binary semaphore refuses [semPost]. *)
Lemma semaphore_bounds_witness :
  semaphores_ok booted
  /\ semaphores_ok full_semaphore
  /\ semPost 0 full_semaphore = (SYS_ERR_INVALID_PARAM, full_semaphore).
Proof.
  destruct semaphore_bounds as (Hinit & Hcreate & _ & _ & _ & Hpost).
  assert (H0 : semaphores_ok booted) by apply (Hinit true 0 0 0).
  assert (H1 : semaphores_ok full_semaphore) by apply (Hcreate _ _ _ _ H0).
  split; [exact H0|]. split; [exact H1|].
  apply (Hpost full_semaphore 0 H1); [by vm_compute|reflexivity..].
Defined.

(** A task made by [createTask], once current, is refused the I2C bus and
    may set a pin. *)
Lemma default_capabilities_spec_witness :
  default_capabilities (task_at one_task 1)
  /\ default_capabilities (getCurrentTask sender_running)
  /\ i2cBegin 0 sender_running = (SYS_ERR_PERMISSION, sender_running)
  /\ spiBegin sender_running = (SYS_ERR_PERMISSION, sender_running)
  /\ gpioWrite 13 1 sender_running
     = (SYS_OK, emit (HwDigitalWrite 13 1) sender_running).
Proof.
  destruct default_capabilities_spec as [Hcreate Hops].
  assert (Hcaps : default_capabilities (getCurrentTask sender_running))
    by (repeat split; reflexivity).
  split.
  { apply (Hcreate (Some "A"%string) (Some 1%nat) 0 booted);
      [reflexivity|by vm_compute]. }
  split; [exact Hcaps|].
  destruct (Hops quiet_hardware sender_running Hcaps)
    as (Hi2c & _ & _ & _ & Hspi & _ & _ & _ & Hw & _).
  split; [apply Hi2c|]. split; [exact Hspi|apply Hw].
Defined.

(** * Concrete runs of the task table *)

Ltac each_slot_below n j H :=
  lazymatch n with
  | O => vm_compute in H; discriminate H
  | S ?n' =>
      let j' := fresh "j" in
      destruct j as [|j'];
      [vm_compute in H; injection H as <-|each_slot_below n' j' H]
  end.

Ltac each_slot j H := each_slot_below 8%nat j H.

Lemma booted_tasks_wf : tasks_wf booted.
Proof. split; [reflexivity|]. vm_compute. split; [discriminate|reflexivity]. Qed.

Lemma booted_task_inv : task_inv booted.
Proof.
  split; [exact booted_tasks_wf|]. split; [vm_compute; discriminate|].
  intros j t H. each_slot j H;
    (split; [intros Hs; vm_compute in Hs; try discriminate Hs; reflexivity|];
     split; vm_compute; discriminate).
Qed.

(** [createTask] after boot claims slot 1, the lowest empty slot. *)
Lemma createTask_lowest_slot_witness :
  length (tasks booted) = Z.to_nat MAX_TASKS
  /\ (createTask (Some "A"%string) (Some 1%nat) 0 booted).1 = 1
  /\ task_state (task_at one_task 1) = TASK_READY
  /\ task_priority (task_at one_task 1) = 10.
Proof.
  assert (Hlen : length (tasks booted) = Z.to_nat MAX_TASKS) by reflexivity.
  split; [exact Hlen|].
  destruct (createTask_lowest_slot (Some "A"%string) (Some 1%nat) 0 booted
              Hlen) as [(Hid & _)|(Hid & _ & _ & Hnew & _)].
  - vm_compute in Hid. discriminate Hid.
  - split; [reflexivity|].
    destruct Hnew as (_ & _ & Hs & _ & Hp & _). split; [exact Hs|exact Hp].
Defined.

(** The idle task cannot be killed; killing task A empties slot 1. *)
Lemma killTask_spec_witness :
  killTask 0 one_task = one_task
  /\ tasks (killTask 1 one_task)
     = alter (fun t => set_task_id (-1) (set_task_state TASK_EMPTY t))
         1%nat (tasks one_task).
Proof.
  destruct (killTask_spec 0 one_task) as [H0 _].
  destruct (killTask_spec 1 one_task) as [_ H1].
  split; [apply H0; left; reflexivity|].
  destruct (H1 (task_at one_task 1) ltac:(lia) ltac:(vm_compute; reflexivity))
    as [Ht _].
  exact Ht.
Defined.

(** The invariant holds after boot and after a short session. *)
Lemma task_inv_preserved_witness :
  task_inv booted /\ task_inv (run_tasks task_calls booted).
Proof.
  split; [exact booted_task_inv|].
  exact (task_inv_preserved task_calls booted booted_task_inv).
Defined.

Lemma one_task_yielded_starved : starved one_task_yielded.
Proof.
  split.
  { split; [reflexivity|]. vm_compute. split; [discriminate|reflexivity]. }
  split; [vm_compute; reflexivity|]. split; [vm_compute; reflexivity|].
  intros j t H Hj. each_slot j H;
    try (exfalso; apply Hj; vm_compute; reflexivity);
    (split; [vm_compute; discriminate|]; split; [vm_compute; discriminate|];
     intros Hs; vm_compute in Hs; try discriminate Hs;
     left; vm_compute; reflexivity).
Qed.

(** Task A yielded and is alone above the idle task: however often
    [schedule()] runs, A stays current and is never called again. *)
Lemma schedule_starves_witness :
  starved one_task_yielded
  /\ currentTaskId (schedule_times [(2, 2); (3, 3); (9000, 9000)]
                      one_task_yielded) = 1
  /\ calls (trace (schedule_times [(2, 2); (3, 3); (9000, 9000)]
                     one_task_yielded)) = [1%nat].
Proof.
  split; [exact one_task_yielded_starved|].
  destruct (schedule_starves [(2, 2); (3, 3); (9000, 9000)] one_task_yielded
              one_task_yielded_starved) as (_ & Hc & Ht).
  split; [exact Hc|exact Ht].
Defined.

Lemma one_task_asleep_wf : tasks_wf one_task_asleep.
Proof. split; [reflexivity|]. vm_compute. split; [discriminate|reflexivity]. Qed.

(** Task A sleeps until 101: at time 50 the scheduler leaves it alone and
    runs something else. *)
Lemma sleeper_not_woken_early_witness :
  tasks_wf one_task_asleep
  /\ task_state (task_at one_task_asleep 1) = TASK_SLEEPING
  /\ task_sleepUntil (task_at one_task_asleep 1) = 101
  /\ tasks (schedule 50 50 one_task_asleep) !! 1%nat
     = Some (task_at one_task_asleep 1)
  /\ currentTaskId (schedule 50 50 one_task_asleep) <> 1.
Proof.
  assert (Hl : tasks one_task_asleep !! 1%nat
               = Some (task_at one_task_asleep 1))
    by (vm_compute; reflexivity).
  assert (Hs : task_state (task_at one_task_asleep 1) = TASK_SLEEPING)
    by (vm_compute; reflexivity).
  assert (Hu : task_sleepUntil (task_at one_task_asleep 1) = 101)
    by (vm_compute; reflexivity).
  split; [exact one_task_asleep_wf|]. split; [exact Hs|]. split; [exact Hu|].
  apply (sleeper_not_woken_early 50 50 one_task_asleep 1%nat
           (task_at one_task_asleep 1) one_task_asleep_wf Hl);
    [discriminate|exact Hs|rewrite Hu; reflexivity].
Defined.

Lemma sender_running_wf : tasks_wf sender_running.
Proof. split; [reflexivity|]. vm_compute. split; [discriminate|reflexivity]. Qed.

(** Ten milliseconds before the clock wraps, task A asks for 20 ms of
    sleep: its deadline is 10, and the next [schedule()] wakes it. *)
Lemma sleep_wraps_around_witness :
  task_sleepUntil (getCurrentTask (sleep 20 near_wrap near_wrap sender_running))
  = 10
  /\ exists t',
      tasks (schedule near_wrap near_wrap
               (sleep 20 near_wrap near_wrap sender_running)) !! 1%nat
      = Some t'
      /\ (task_state t' = TASK_READY \/ task_state t' = TASK_RUNNING).
Proof.
  destruct (sleep_wraps_around 20 near_wrap near_wrap near_wrap near_wrap
              sender_running sender_running_wf
              ltac:(vm_compute; split; [discriminate|reflexivity])
              ltac:(lia) ltac:(vm_compute; discriminate)
              ltac:(reflexivity))
    as (_ & Hu & _ & Hw).
  split; [exact Hu|exact Hw].
Defined.

(** * Concrete runs of the heap *)

Lemma three_blocks_heap : 
  kernelHeap three_blocks
  = [mkMemoryBlock 100 0 true (-1); mkMemoryBlock 100 0 true (-1);
     mkMemoryBlock 100 0 true (-1)].
Proof. vm_compute. reflexivity. Qed.

Lemma three_blocks_wf : heap_wf (target := giga_r1) three_blocks.
Proof.
  unfold heap_wf. rewrite three_blocks_heap.
  split; [vm_compute; reflexivity|].
  split; [apply Z.leb_le; vm_compute; reflexivity|].
  repeat (apply List.Forall_cons; [simpl; lia|]). apply List.Forall_nil.
Qed.

Lemma middle_freed_heap :
  kernelHeap middle_freed
  = [mkMemoryBlock 100 0 true (-1); mkMemoryBlock 100 0 false (-1);
     mkMemoryBlock 100 0 true (-1)].
Proof. vm_compute. reflexivity. Qed.

Lemma middle_freed_wf : heap_wf (target := giga_r1) middle_freed.
Proof.
  unfold heap_wf. rewrite middle_freed_heap.
  split; [vm_compute; reflexivity|].
  split; [apply Z.leb_le; vm_compute; reflexivity|].
  repeat (apply List.Forall_cons; [simpl; lia|]). apply List.Forall_nil.
Qed.

(** Three blocks in use: compacting moves nothing, the first time and the
    second. *)
Lemma compact_idempotent_witness :
  heap_wf (target := giga_r1) three_blocks
  /\ memCompact (target := giga_r1) three_blocks
     = Returns tt (emit (LogCompacted 0 0) (emit LogCompacting three_blocks)).
Proof.
  split; [exact three_blocks_wf|].
  destruct (compact_idempotent (target := giga_r1) three_blocks giga_r1_ok
              three_blocks_wf) as [H _].
  apply H. rewrite three_blocks_heap.
  repeat (apply List.Forall_cons; [reflexivity|]). apply List.Forall_nil.
Defined.

(** The second block of three is freed twice. *)
Lemma memFree_twice_witness :
  payload_of (target := giga_r1) three_blocks 132 1
    (mkMemoryBlock 100 0 true (-1))
  /\ exists k1,
      memFree (target := giga_r1) (Some 132) three_blocks = Returns tt k1
      /\ memFree (target := giga_r1) (Some 132) k1
         = Returns tt (emit LogInvalidFree k1).
Proof.
  assert (Hp : payload_of (target := giga_r1) three_blocks 132 1
                 (mkMemoryBlock 100 0 true (-1)))
    by (split; vm_compute; reflexivity).
  split; [exact Hp|].
  destruct (memFree_twice (target := giga_r1) 132 1
              (mkMemoryBlock 100 0 true (-1)) three_blocks Hp eq_refl)
    as (k1 & H1 & H2 & _).
  exists k1. split; [exact H1|exact H2].
Defined.

Lemma size_100_ok : alloc_size_ok (target := giga_r1) 100.
Proof. unfold alloc_size_ok. simpl. lia. Qed.

Lemma booted_heapUsed : heapUsed booted = 0.
Proof. vm_compute. reflexivity. Qed.

Lemma booted_room :
  heapUsed booted
  + (sizeof_MemoryBlock (Target := giga_r1) + round_up4 100)
  <= KERNEL_HEAP_SIZE (Target := giga_r1).
Proof. rewrite booted_heapUsed. apply Z.leb_le. vm_compute. reflexivity. Qed.

(** A block of 100 bytes taken from the empty heap, freed and compacted
    away: the heap is empty again. *)
Lemma alloc_free_compact_witness :
  accounting_inv (target := giga_r1) booted
  /\ exists p k1 k2 k3,
      memAlloc (target := giga_r1) 100 booted = Returns (Some p) k1
      /\ p = 16
      /\ memFree (target := giga_r1) (Some p) k1 = Returns tt k2
      /\ memCompact (target := giga_r1) k2 = Returns tt k3
      /\ kernelHeap k3 = [] /\ heapUsed k3 = 0.
Proof.
  split; [exact booted_accounting_inv|].
  destruct (alloc_free_compact (target := giga_r1) 100 booted giga_r1_ok
              booted_accounting_inv size_100_ok ltac:(lia) booted_room)
    as (p & k1 & k2 & k3 & H1 & Hp & H2 & H3 & Hh & Hu & _).
  exists p, k1, k2, k3. split; [exact H1|].
  split; [rewrite Hp; vm_compute; reflexivity|].
  split; [exact H2|]. split; [exact H3|]. split; [exact Hh|exact Hu].
Defined.

Lemma size_heap_ok : alloc_size_ok (target := giga_r1) (512 * 1024).
Proof. unfold alloc_size_ok. simpl. lia. Qed.

(** A request for as many bytes as the heap has cannot be met: the header
    needs 16 bytes more. *)
Lemma memAlloc_fails_iff_witness :
  heap_wf (target := giga_r1) booted
  /\ exists k', memAlloc (target := giga_r1) (512 * 1024) booted
                = Returns None k'.
Proof.
  destruct booted_accounting_inv as (Hwf & Htasks & _).
  split; [exact Hwf|].
  destruct (memAlloc_fails_iff (target := giga_r1) (512 * 1024) booted
              giga_r1_ok Hwf Htasks size_heap_ok ltac:(lia)) as [Hiff _].
  apply Hiff. vm_compute. reflexivity.
Defined.

Lemma two_tasks_one_block_heap :
  heap_wf (target := giga_r1) two_tasks_one_block
  /\ tasks_wf two_tasks_one_block.
Proof.
  assert (Hh : kernelHeap two_tasks_one_block = [mkMemoryBlock 100 1 true (-1)])
    by (vm_compute; reflexivity).
  split.
  - unfold heap_wf. rewrite Hh. split; [vm_compute; reflexivity|].
    split; [apply Z.leb_le; vm_compute; reflexivity|].
    apply List.Forall_cons; [simpl; lia|apply List.Forall_nil].
  - split; [vm_compute; reflexivity|].
    split; [apply Z.leb_le|apply Z.ltb_lt]; vm_compute; reflexivity.
Qed.

(** A run that breaks the accounting (a task killed with a block of its
    own, its slot claimed again), with a double free, a free of the null
    pointer and a request that fails: it returns, and the heap is linear
    afterwards. *)
Lemma heap_run_never_panics_witness :
  ops_safe (target := giga_r1) orphan_calls two_tasks_one_block
  /\ exists k',
      run (target := giga_r1) orphan_calls two_tasks_one_block = Returns tt k'
      /\ heap_wf (target := giga_r1) k' /\ tasks_wf k'.
Proof.
  assert (Hok : ops_safe (target := giga_r1) orphan_calls two_tasks_one_block)
    by (apply ops_safeb_sound; vm_compute; reflexivity).
  split; [exact Hok|].
  destruct two_tasks_one_block_heap as [Hwf Htw].
  exact (heap_run_never_panics (target := giga_r1) orphan_calls
           two_tasks_one_block giga_r1_ok Hwf Htw Hok).
Defined.

(** With the middle block of three freed the report counts two blocks in
    use and one free block, and warns of fragmentation. *)
Lemma printMemoryInfo_counts_witness :
  heap_wf (target := giga_r1) middle_freed
  /\ printMemoryInfo (target := giga_r1) middle_freed
     = Some (mkMemoryInfo 524288 348 523940 2 1 true).
Proof.
  split; [exact middle_freed_wf|].
  destruct (printMemoryInfo_counts (target := giga_r1) middle_freed giga_r1_ok
              middle_freed_wf) as [H _].
  rewrite H. vm_compute. reflexivity.
Defined.

(** * Concrete runs of the mailboxes *)

(** A send to a live task with room in its mailbox is accepted; a send to
    an empty slot is not. *)
Lemma ipcSend_result_witness :
  (ipcSend 2 (Some payload_01) 2 5 sender_running).1 = SYS_OK
  /\ (ipcSend 3 (Some payload_01) 2 5 sender_running).1 = SYS_ERR_NOT_FOUND.
Proof.
  destruct (ipcSend_result 2 (Some payload_01) 2 5 sender_running)
    as (_ & _ & _ & _ & Hok).
  destruct (ipcSend_result 3 (Some payload_01) 2 5 sender_running)
    as (_ & _ & Hnf & _).
  split.
  - apply Hok. vm_compute. repeat split; discriminate.
  - apply Hnf. vm_compute. repeat split; discriminate.
Defined.

(** The message of A to B does not touch the mailbox of A. *)
Lemma ipc_isolation_witness :
  0 <= currentTaskId sender_running
  /\ queue_at message_sent 1 = queue_at sender_running 1
  /\ tasks message_sent = tasks sender_running.
Proof.
  assert (Hc : 0 <= currentTaskId sender_running)
    by (apply Z.leb_le; vm_compute; reflexivity).
  split; [exact Hc|].
  destruct (ipc_isolation 2 (Some payload_01) 2 5 true 64 true sender_running
              Hc) as (Hq & _ & Ht & _).
  split; [|exact Ht]. apply (Hq 1); lia.
Defined.

Lemma sixteen_fit :
  Forall (fun m => Z.of_nat (length m) <= MESSAGE_DATA_SIZE) sixteen_messages.
Proof.
  unfold sixteen_messages. apply Forall_replicate. vm_compute. discriminate.
Qed.

(** Sixteen messages fill the mailbox of B, in order; the seventeenth is
    refused. *)
Lemma mailbox_fifo_capacity_witness :
  mailboxes_wf sender_running
  /\ payloads (send_all 2 sixteen_messages 5 sender_running) 2
     = sixteen_messages
  /\ ipcSend 2 (Some payload_01) 2 6
       (send_all 2 sixteen_messages 5 sender_running)
     = (SYS_ERR_NO_MEMORY, send_all 2 sixteen_messages 5 sender_running).
Proof.
  split; [exact sender_running_mailboxes|].
  assert (Hempty : payloads sender_running 2 = []) by (vm_compute; reflexivity).
  destruct (mailbox_fifo_capacity 2 sixteen_messages 5 sender_running
              sender_running_mailboxes ltac:(unfold MAX_TASKS; lia)
              ltac:(vm_compute; discriminate) sixteen_fit
              ltac:(rewrite Hempty; vm_compute; discriminate))
    as (Hp & _ & Hfull).
  rewrite Hempty in Hp. split; [exact Hp|].
  apply (Hfull ltac:(rewrite Hp; vm_compute; reflexivity) payload_01 6).
  vm_compute. discriminate.
Defined.

Lemma message_sent_pending :
  pending (queue_at message_sent 2)
  = [message_at (queue_at message_sent 2) 0].
Proof. vm_compute. reflexivity. Qed.

Lemma message_sent_mailboxes : mailboxes_wf message_sent.
Proof.
  split; [reflexivity|]. intros t Ht.
  slot_cases t Ht;
    (split; [reflexivity|]; split; [by vm_compute|]; split; [by vm_compute|];
     split; [reflexivity|]).
  3: { rewrite message_sent_pending.
       apply List.Forall_cons; [|apply List.Forall_nil].
       vm_compute. split; [reflexivity|]. split; discriminate. }
  all: constructor.
Qed.

(** B is killed with the message of A waiting; task C is created in the
    slot of B and receives the message. *)
Lemma stale_mail_delivered_witness :
  mailboxes_wf message_sent
  /\ (createTask (Some "C"%string) (Some 3%nat) 9 (killTask 2 message_sent)).1
     = 2
  /\ exists k3,
      ipcReceive true 64 true
        (set_currentTaskId 2
           (createTask (Some "C"%string) (Some 3%nat) 9
              (killTask 2 message_sent)).2)
      = (2, k3)
      /\ pending (queue_at k3 2) = [].
Proof.
  split; [exact message_sent_mailboxes|].
  split; [vm_compute; reflexivity|].
  destruct (stale_mail_delivered 2 (Some "C"%string) (Some 3%nat) 9 64
              (message_at (queue_at message_sent 2) 0) [] message_sent
              message_sent_mailboxes ltac:(unfold MAX_TASKS; lia)
              message_sent_pending ltac:(vm_compute; discriminate))
    as (_ & k3 & Hr & _ & Hp).
  exists k3. split; [exact Hr|exact Hp].
Defined.

(** * Concrete runs of the semaphores *)

Lemma empty_semaphore_inUse :
  sem_inUse (semaphore_at empty_semaphore 0) = true.
Proof. vm_compute. reflexivity. Qed.

Lemma empty_semaphore_value : sem_value (semaphore_at empty_semaphore 0) = 0.
Proof. vm_compute. reflexivity. Qed.

Lemma first_semaphore : 0 <= 0 < MAX_SEMAPHORES.
Proof. unfold MAX_SEMAPHORES. lia. Qed.

(** A wait without timeout on the empty semaphore is still spinning after
    1000 iterations. *)
Lemma semWait_never_returns_witness :
  exists k', semWait 1000 ticking 0 0 empty_semaphore = Spins k'.
Proof.
  destruct (semWait_never_returns 1000 ticking 0 empty_semaphore
              first_semaphore empty_semaphore_inUse
              ltac:(rewrite empty_semaphore_value; lia)) as (k' & H & _).
  exists k'. exact H.
Defined.

(** With a timeout of 3 ms and a clock that advances by 1 ms at each
    reading, the wait gives up in its second iteration. *)
Lemma semWait_times_out_witness :
  exists k',
    semWait 5 ticking 0 3 empty_semaphore = Returns SYS_ERR_TIMEOUT k'
    /\ semaphores k' = semaphores empty_semaphore.
Proof.
  exact (semWait_times_out 1 5 ticking 0 3 empty_semaphore first_semaphore
           empty_semaphore_inUse ltac:(rewrite empty_semaphore_value; lia)
           ltac:(lia) ltac:(vm_compute; discriminate) ltac:(lia)).
Defined.

Lemma empty_semaphore_ok : semaphores_ok empty_semaphore.
Proof. apply semCreate_ok. apply (init_semaphores_ok true 0 0 0). Qed.

(** A post on the empty semaphore followed by a wait: back where it
    started. *)
Lemma semPost_then_semWait_witness :
  semaphores_ok empty_semaphore
  /\ exists k1,
      semPost 0 empty_semaphore = (SYS_OK, k1)
      /\ semWait 5 ticking 0 0 k1 = Returns SYS_OK empty_semaphore.
Proof.
  split; [exact empty_semaphore_ok|].
  destruct (semPost_then_semWait 5 ticking 0 0 empty_semaphore
              empty_semaphore_ok first_semaphore empty_semaphore_inUse
              ltac:(vm_compute; reflexivity)) as (k1 & H1 & _ & H2).
  exists k1. split; [exact H1|exact H2].
Defined.

(** After boot [semCreate] takes slot 0; the next one takes slot 1; a
    maximum of 0 is refused. *)
Lemma semCreate_lowest_slot_witness :
  (semCreate 1 1 None booted).1 = 0
  /\ (semCreate 0 5 None full_semaphore).1 = 1
  /\ (semCreate 0 0 None booted).1 = SYS_ERR_INVALID_PARAM.
Proof.
  split; [|split].
  - destruct (semCreate_lowest_slot 1 1 None booted)
      as [(Hbad & _)|[(_ & Hr & _)|(_ & _ & Hfree & Hbelow & _)]].
    + exfalso. lia.
    + vm_compute in Hr. discriminate Hr.
    + vm_compute. reflexivity.
  - destruct (semCreate_lowest_slot 0 5 None full_semaphore)
      as [(Hbad & _)|[(_ & Hr & _)|(_ & _ & Hfree & Hbelow & _)]].
    + exfalso. lia.
    + vm_compute in Hr. discriminate Hr.
    + vm_compute. reflexivity.
  - destruct (semCreate_lowest_slot 0 0 None booted)
      as [(_ & Hr & _)|[(Hgood & _)|(Hgood & _)]].
    + exact Hr.
    + exfalso. apply Hgood. lia.
    + exfalso. apply Hgood. lia.
Defined.

(** Task A may not destroy the semaphore of the idle task; the idle task
    may, and the slot is free afterwards. *)
Lemma semDestroy_owner_or_kernel_witness :
  semDestroy 0 semaphore_of_idle = (SYS_ERR_PERMISSION, semaphore_of_idle)
  /\ exists k',
      semDestroy 0 full_semaphore = (SYS_OK, k')
      /\ sem_inUse (semaphore_at k' 0) = false
      /\ semPost 0 k' = (SYS_ERR_NOT_FOUND, k').
Proof.
  split.
  - destruct (semDestroy_owner_or_kernel 0 semaphore_of_idle first_semaphore
                ltac:(reflexivity) ltac:(vm_compute; reflexivity)) as [H _].
    apply H; vm_compute; discriminate.
  - destruct (semDestroy_owner_or_kernel 0 full_semaphore first_semaphore
                ltac:(reflexivity) ltac:(vm_compute; reflexivity)) as [_ H].
    destruct (H ltac:(right; vm_compute; reflexivity))
      as (k' & Hd & Hfree & _ & Hpost & _).
    exists k'. split; [exact Hd|]. split; [exact Hfree|exact Hpost].
Defined.

(** * Concrete runs of the files, the system calls and the reports *)

(** Task A opens a file for writing and closes it: handle 0 both times. *)
Lemma fileOpen_then_fileClose_witness :
  exists k1 k2,
    fileOpen card_hardware (Some "log.txt"%string) true sender_running
    = (0, k1)
    /\ fileHandle_at k1 0 = mkFileHandle (Some 7%nat) 1 true true
    /\ fileClose 0 k1 = (SYS_OK, k2)
    /\ allocateFileHandle k2 = 0.
Proof.
  assert (Ha : allocateFileHandle sender_running = 0)
    by (vm_compute; reflexivity).
  assert (Hc : currentTaskId sender_running = 1) by (vm_compute; reflexivity).
  destruct (fileOpen_then_fileClose card_hardware (Some "log.txt"%string)
              true 7%nat sender_running sender_running_wf
              ltac:(reflexivity) ltac:(vm_compute; reflexivity)
              ltac:(vm_compute; reflexivity)
              ltac:(rewrite Ha; lia) ltac:(reflexivity))
    as (k1 & k2 & Ho & _ & _ & _ & Hh & _ & Hcl & _ & _ & Hal & _).
  rewrite Ha, ?Hc in *. exists k1, k2. split; [exact Ho|].
  split; [exact Hh|]. split; [exact Hcl|exact Hal].
Defined.

(** Task B may neither close nor read the file of task A, and task A may
    not write to the file it opened for reading. *)
Lemma foreign_handle_refused_witness :
  fileClose 0 file_of_A_seen_by_B = (SYS_ERR_PERMISSION, file_of_A_seen_by_B)
  /\ fileRead card_hardware 0 10 file_of_A_seen_by_B
     = (SYS_ERR_PERMISSION, file_of_A_seen_by_B)
  /\ fileWrite card_hardware 0 10 file_of_A = (SYS_ERR_PERMISSION, file_of_A).
Proof.
  destruct (foreign_handle_refused card_hardware 0 file_of_A_seen_by_B)
    as (Hf & _ & _).
  destruct (foreign_handle_refused card_hardware 0 file_of_A)
    as (_ & _ & Hw).
  destruct (Hf ltac:(unfold MAX_FILE_HANDLES; lia)
              ltac:(vm_compute; reflexivity) ltac:(vm_compute; discriminate))
    as (Hc & Hr & _).
  split; [exact Hc|]. split; [apply Hr|].
  apply Hw; [|vm_compute; reflexivity].
  split; [unfold MAX_FILE_HANDLES; lia|]. split; vm_compute; reflexivity.
Defined.

(** The idle task asks [syscall] to delete a file: it hears of an I/O
    error, not of the missing permission. *)
Lemma syscall_hides_refusal_witness :
  syscall (target := giga_r1) card_hardware 5 ticking 4 ArgNull ArgNull
    ArgNull ArgNull booted
  = Returns SYS_ERR_IO_ERROR booted.
Proof.
  destruct (syscall_hides_refusal (target := giga_r1) card_hardware 5 ticking
              ArgNull ArgNull ArgNull ArgNull booted) as (_ & _ & H & _).
  destruct (H ltac:(right; vm_compute; reflexivity)) as [Hd _]. exact Hd.
Defined.

(** On the Giga R1 the first block of 100 bytes is at 0x24000010. *)
Lemma syscall_alloc_then_free_witness :
  exists k1 k2,
    syscall (target := giga_r1) card_hardware 5 ticking 13 (ArgWord 100)
      ArgNull ArgNull ArgNull booted
    = Returns 603979792 k1
    /\ syscall (target := giga_r1) card_hardware 5 ticking 14
         (ArgWord 603979792) ArgNull ArgNull ArgNull k1
       = Returns SYS_OK k2
    /\ tasks k2 = tasks booted.
Proof.
  destruct (syscall_alloc_then_free (target := giga_r1) card_hardware 5
              ticking 100 booted giga_r1_ok booted_accounting_inv size_100_ok
              ltac:(lia) booted_room ltac:(vm_compute; reflexivity)
              ltac:(vm_compute; reflexivity))
    as (_ & _ & k1 & k2 & Ha & _ & _ & Hf & _ & _ & Ht).
  rewrite booted_heapUsed in Ha, Hf.
  exists k1, k2. split; [exact Ha|]. split; [exact Hf|exact Ht].
Defined.

Lemma two_tasks_named (i : Z) :
  0 <= i < MAX_TASKS ->
  task_state (task_at two_tasks i) <> TASK_EMPTY ->
  is_Some (task_name (task_at two_tasks i)).
Proof.
  intros Hi Hs. slot_cases i Hi;
    first [exfalso; apply Hs; vm_compute; reflexivity
          |vm_compute; eexists; reflexivity].
Qed.

(** With tasks A and B created, the report lists slots 0, 1 and 2. *)
Lemma printTaskList_rows_witness :
  exists rows,
    printTaskList ticking two_tasks = Some rows
    /\ row_slot <$> rows = [0; 1; 2]
    /\ rows !! 1%nat = Some (row_of two_tasks 1 1 "A").
Proof.
  destruct (printTaskList_rows ticking two_tasks two_tasks_named)
    as (rows & Hp & Hslots & _).
  exists rows. split; [exact Hp|]. split; [exact Hslots|].
  assert (Hrows : printTaskList ticking two_tasks
                  = Some [row_of two_tasks 0 0 "idle";
                          row_of two_tasks 1 1 "A"; row_of two_tasks 2 2 "B"])
    by (vm_compute; reflexivity).
  rewrite Hrows in Hp. injection Hp as <-. reflexivity.
Defined.

(** * Concrete runs of the shell *)

Lemma logs_component : path_component logs.
Proof.
  split; [discriminate|].
  repeat (apply List.Forall_cons; [discriminate|]). apply List.Forall_nil.
Qed.

(** In a buffer of 64 bytes, "logs" from "/logs/" is "/logs/logs". *)
Lemma resolvePath_fits_witness :
  exists output,
    resolvePath logs (root_dir ++ logs ++ root_dir) 64 = Some output
    /\ Z.of_nat (length output) < 64.
Proof.
  destruct (resolvePath_fits logs (root_dir ++ logs ++ root_dir) 64)
    as [H _].
  exact (H ltac:(lia)).
Defined.

(** "cd logs" from the root, then "cd ..". *)
Lemma resolvePath_round_trip_witness :
  resolvePath logs root_dir 64 = Some (root_dir ++ logs)
  /\ resolvePath [("."%byte); ("."%byte)] (root_dir ++ logs) 64
     = Some root_dir.
Proof.
  destruct (resolvePath_round_trip root_dir logs 64 ltac:(reflexivity)
              logs_component ltac:(discriminate)
              ltac:(vm_compute; reflexivity))
    as (Hin & _ & Hback & _).
  split; [exact Hin|exact Hback].
Defined.
